(* ===== verification/_CoqProject ===== *)
-Q . S2P
Prelude.v
GoStd.v
GoHeap.v
Model.v
Lamport.v
Queue.v
Flow.v
Threads.v
Credits.v
Custody.v
Interfaces.v
Json.v
JsonProps.v
Rfc3339.v
JsonDecoded.v
Wire.v
Keys.v
LedgerApp.v
LedgerSpec.v
LedgerProps.v
LedgerTheorems.v
LedgerQuery.v
Validator.v
Inventory.v
Radar.v
Router.v
Buffers.v
HTTPClient.v
Http.v
LedgerClient.v
Broker.v
BrokerMissions.v
BrokerGossip.v
BrokerHTTP.v
Explorer.v
BrokerThreads.v
BrokerSafe.v
BrokerCustody.v
BrokerLive.v
Station.v
StationHTTP.v
StationThreads.v
System.v
Drone.v
Handover.v
SystemLive.v
Processes.v
Cluster.v
Races.v
Sensor.v
SensorProcess.v
Grid.v
