(* ===== verification/Prelude.v ===== *)
(** * Ormuz Ledger: a verification development

    Sensors in the sectors of a strait raise events; brokers charge each event
    to a nation on a replicated ledger, queue it as a mission and hand it to a
    station; the station lends it to a drone under a lease; the drone flies
    and reports to the ledger.  The development models the Go code of all of
    these parts as functions and transition systems and proves what makes them
    correct, and where they are not, exactly how they fail.

    ** Reading the model

    A Go function is a function in the monad [go S A := S -> outcome A * S] of
    this file: it returns or panics, and a panic keeps the writes made before
    it.  Fields and functions keep their names.  A Go [int] or [uint64] is a
    [Z] with its wrap-around written out ([wrap64], [wrapu64]); a [string] or
    [[]byte] is a [string] of bytes; a map or [sync.Map] is a [gmap]; a time
    is a [Z] of nanoseconds.  What a function reads from the world ([now], the
    interface addresses, the answers of the network, the order in which a map
    is ranged over) is an argument, so a theorem holds for every value of it.
    What it sends is a list of effects it returns.  Concurrency: a section of
    code that runs under one lock, or one atomic operation, is one step, and
    the theorems on shared state are about arbitrary lists of steps; between
    the steps a goroutine's locals are part of the state (the [hand] of the
    radar and of the broker), or its rest is a term of the type [routine] of
    Threads.v, which a pool runs section by section under any schedule.  The
    load and the deletion of an entry by a [Range] over a [sync.Map] are two
    steps of a goroutine; the filter's cleanup alone takes one, as nobody else
    can change its entries (Inventory.v).

    ** Files

    - Prelude.v: the monad, its laws, loops, the tactics [go_unfold] and the
      hint database of rewrites shared by the other files.
    - GoStd.v: the part of the standard library the code calls (integers,
      Atoi and Itoa, hex, Split, slices, UTF-8, byte order, sorting);
      GoHeap.v: container/heap with its up and down loops.
    - Flow.v: conservation of identifiers along a run, and the walk of a
      janitor over a table, used by the radar and the broker.  Threads.v:
      goroutines as sequences of sections, pools of them, and two logics for
      all schedules: invariants ([behaves]) and at-most-once ([armed]).
      Credits.v: a third one, for processes that do not panic and pay for what
      they send ([affords]; [safe] where nothing is counted).  Custody.v: a
      fourth, on where a thing is: in memory or in the hands of a goroutine
      that is bound to put it back ([minds], [secure]).
    - Model.v: pkg/model/types.go and the structs of internal/domain.
    - Lamport.v: pkg/clock/lamport.go, as calls and instruction by instruction.
    - Queue.v: pkg/queue/priority_queue.go.
    - Interfaces.v: classes for goleveldb ([LevelDB]), ed25519 ([Ed25519]) and
      the transaction codec ([TxCodec]), each with the laws the program relies
      on, and instances that satisfy them, on which the witnesses run; the
      text of an instant ([TimeText]), which Rfc3339.v implements.
    - Json.v, JsonProps.v, JsonDecoded.v: encoding/json on the structs that
      cross the network, its round trips, and what decoding guarantees;
      [JsonTx] implements [TxCodec].  Wire.v: missions and the requests and
      answers of the HTTP interfaces, with the round trips.
    - Keys.v: the nations' seeds, [AuthorizedKeys] and [SignTransaction].
    - LedgerApp.v: internal/ledger/app.go ([NewOrmuzLedgerApp], [CheckTx],
      [FinalizeBlock], [Query], [Commit]); LedgerSpec.v: the abstract ledger
      [AbsLedger] and the relation [ledger_rel]; LedgerProps.v: lemmas;
      LedgerTheorems.v and LedgerQuery.v: the properties.
    - Inventory.v: internal/inventory/idempotency_table.go.
    - Radar.v: pkg/radar (leases, [Nack], [sweep]).
    - Router.v: cmd/broker/routing.go over the interface [Ring] of the
      consistent-hashing library.
    - Buffers.v: cmd/broker/shadowbuffer.go and unverified_buffer.go.
    - HTTPClient.v: pkg/server/http_client.go; LedgerClient.v:
      cmd/broker/ledger_client.go with base64 and the JSON-RPC answers.
      Http.v: requests, answers, the mux and queries of net/http and net/url.
    - Broker.v: cmd/broker/mission_processor.go, http_server.go and main.go;
      BrokerMissions.v: the life of a mission between queue, station and
      janitor; BrokerGossip.v: packets, payments and gossip between brokers;
      BrokerHTTP.v: the handlers on bytes behind [SetupRouter]; Explorer.v:
      the JSON of the ledger's state and its way to the explorer;
      BrokerThreads.v: workers, handlers and loops section by section, each of
      which alone is the function of Broker.v or BrokerHTTP.v; BrokerSafe.v:
      that only short identifiers make them panic; BrokerCustody.v: that no
      section lets go of an event but to put it back; BrokerLive.v:
      the broker under everything that can reach it and every interleaving,
      and the class [Closed] of invariants that every section keeps.
    - Station.v and StationHTTP.v: cmd/station, on decoded requests and on
      bytes; StationThreads.v: its handlers and loops section by section;
      Drone.v: cmd/drone/main.go; Sensor.v and SensorProcess.v:
      internal/sensor/load_generator.go and cmd/sensor/main.go, as functions
      and as goroutines.
    - Validator.v: cmd/ledger/main.go, and crashes of the process.
    - System.v: brokers, stations that may die, and drones over a network that
      may lose, delay, misroute, reorder and duplicate messages; SystemLive.v:
      what they can still reach; Handover.v: a broker, a station and a drone
      on bytes over links that deliver; Processes.v: brokers and stations as
      pools of goroutines that exchange bytes; Cluster.v: a swarm of brokers, each
      with its goroutines; Races.v: runs of it that go wrong.
    - Grid.v: pkg/routing in IEEE binary64 arithmetic.

    The components meet where they meet in the code: the broker's state
    contains a queue, a filter, a router and two buffers and lifts their
    operations ([on_queue] and the like); the station contains a radar, which
    contains a queue; the broker's and the drone's transactions are the bytes
    [FinalizeBlock] decodes; the broker's forwarded packet is the bytes
    another broker's [process] decodes; the station's posts are the requests
    [HandleQueueResolve] answers.

    ** What is shown

    - Ledger: [FinalizeBlock] refines an abstract ledger of balances and an
      append-only archive; balances count the accepted payments; no
      transaction is accepted twice; replay is harmless; replicas that
      accepted the same transactions, in any order, read alike; the explorer shows the state; a validator killed at
      any write and restarted is damaged in one place at most.  What the clients sign and
      serialize is accepted.  The exceptions: short identifiers panic the
      validators, payments ignore the balance.
    - Queue: it refines a bag with priorities, sorts, and starves no one.
    - Clock: every interleaving is linearizable, causal below the end of
      [uint64], and lock-free.
    - Missions: brokers, stations and network together lose none that no drone
      has reported complete, and alter none ([mission_survives]), and can always
      still complete all ([missions_can_complete]); down to the goroutine and
      the byte a live broker keeps every event that no drone has reported, or
      one of its goroutines has it and puts it back
      ([processes_keep_events]); neither the
      radar nor the broker loses or duplicates one, under any interleaving;
      leases hold; janitors take exactly what expired;
      a lost drone's mission returns to the broker; a checkout is resolved
      once; a rescue moves exactly the missions of the sectors gained; under
      every schedule of its goroutines a station does not die and hands back
      no mission more often than it was pulled.
    - Packets: each branch of a worker with its guard; an event is charged at most once per
      window, by one broker and by a swarm that agrees on the owner, whatever
      the interleaving of the workers' sections;
      forwarding keeps causality; verdict and packet commute; brokers that saw
      the same addresses agree on the owners; a charged mission outlives its
      broker.
    - Bytes: whatever bytes reach a broker, its state stays well typed, what
      it sends reads back, and only a short identifier can kill it; which
      requests its API refuses; a mission travels from the queue to the drone
      and back without loss.
    - Drones and sensors: when a flight succeeds, aborts or hangs; what a turn
      of the drone sends; which identifiers the station's query understands;
      under every schedule of the sensor's goroutines a telemetry reaches only
      brokers the DNS named, is read as it was meant and fits the buffer; on
      which environments the simulator runs and on which it panics; where sensors stand in the grid.

    ** Bounds and fuel

    [up], [down] and the heap's other loops take the length of the slice as
    fuel, and the lemmas of GoHeap.v show that they return a heap, never
    [None].  The JSON parser takes twice the length of the document plus two
    ([parse_json_fed]).  [Itoa] uses twenty digits, which covers 64 bits.  An
    HTTP call makes at most four attempts, as the code's [maxRetries] says.
    Theorems whose conclusion fails for identifiers shorter than eight bytes
    carry that length as a hypothesis, because the code slices [eventID[:8]]
    in its log lines; what happens for shorter ones is stated separately.
    Theorems on clocks bound the stamps away from the end of [uint64], where
    the code wraps around ([Sync_wraps]).

    ** Not modelled

    Sockets, HTTP headers, log texts, signals and tickers' periods; the
    internals of goleveldb, ed25519, CometBFT and the hashing ring (interfaces
    with laws); [TelemetryRequest] and [DispatchMissionRequest] of
    pkg/server/api_types.go, which nothing uses and whose floats nothing
    prints or reads, and [RescueEvent] of pkg/model.  Instants are in UTC.
    The drone's main loop is sequential and its flight a transition system of
    its own, so a drone is not a pool of Threads.v.  System.v steps by whole
    sections and delivers messages as values, Processes.v by the sections of
    goroutines and delivers bytes; in it a post whose lease ends outside the
    years 1 to 9999 is not sent, as its text is not modelled there, and
    drones and sensors are the requests and packets that arrive, whatever
    they are.  The deployment files are not modelled. *)

From Stdlib Require Export Ascii.
From stdpp Require Export base tactics option list gmap strings.
From Stdlib Require Export ZArith Lia.

(** ** Go's abnormal control flow

    A Go function runs in a state [S] and either returns a value or panics.
    A panic keeps every write made before it, so the state is outside the
    outcome. *)

Inductive panic : Type :=
| SliceBounds
| IndexRange
| KeySize
| BadArgument.

Inductive outcome (A : Type) : Type :=
| Ret (a : A)
| Panic (p : panic).
Arguments Ret {A} _.
Arguments Panic {A} _.

Definition go (S A : Type) : Type := S → outcome A * S.

Definition go_run {S A} (m : go S A) (s : S) : S := snd (m s).
Definition go_val {S A} (m : go S A) (s : S) : outcome A := fst (m s).

#[export] Instance go_mret S : MRet (go S) := λ A a s, (Ret a, s).

#[export] Instance go_mbind S : MBind (go S) := λ A B f m s,
  match m s with
  | (Ret a, s') => f a s'
  | (Panic p, s') => (Panic p, s')
  end.

(** Primitives: the state, an update of it, a panic. *)
Definition get {S} : go S S := λ s, (Ret s, s).
Definition modify {S} (f : S → S) : go S () := λ s, (Ret (), f s).
Definition throw {S A} (p : panic) : go S A := λ s, (Panic p, s).

(** A pure partial computation used inside a function body. *)
Definition or_panic {S A} (p : panic) (o : option A) : go S A :=
  match o with Some a => mret a | None => throw p end.

(** A call on a component of the state. *)
Definition zoom {S T A} (proj : S → T) (upd : T → S → S) (m : go T A) : go S A :=
  λ s, let '(r, t) := m (proj s) in (r, upd t s).

(** [for _, x := range l { r = append(r, f(x)) }]. *)
Fixpoint go_map {S A B} (f : A → go S B) (l : list A) : go S (list B) :=
  match l with
  | [] => mret []
  | x :: l => y ← f x; ys ← go_map f l; mret (y :: ys)
  end.

(** [for _, x := range l { f(x) }]. *)
Fixpoint go_for {S A} (f : A → go S ()) (l : list A) : go S () :=
  match l with
  | [] => mret ()
  | x :: l => f x ;; go_for f l
  end.

(** ** Automation *)

Create HintDb ormuz.
Create Rewrite HintDb ormuz_rw.

(** Unfold the monad's operations in the goal or everywhere. *)
Ltac go_unfold :=
  cbv [mbind go_mbind mret go_mret get modify throw or_panic zoom go_run go_val].
Ltac go_unfold_in H :=
  cbv [mbind go_mbind mret go_mret get modify throw or_panic zoom go_run go_val] in H.

(** Case analysis on every [match] or [if] scrutinee of a hypothesis. *)
Ltac case_in H :=
  repeat match type of H with
  | context [match ?x with _ => _ end] =>
      let E := fresh "E" in destruct x eqn:E; simpl in H; try discriminate H
  end.

(** ** Lemmas on the monad *)

Section monad.
Context {S : Type}.
Implicit Types A B C : Type.

Lemma go_bind_ret_l {A B} (a : A) (f : A → go S B) s : (mret a ≫= f) s = f a s.
Proof. reflexivity. Qed.

Lemma go_bind_assoc {A B C} (m : go S A) (f : A → go S B) (g : B → go S C) s :
  ((m ≫= f) ≫= g) s = (m ≫= λ a, f a ≫= g) s.
Proof. go_unfold. by destruct (m s) as [[] ?]. Qed.

Lemma go_bind_Ret {A B} (m : go S A) (f : A → go S B) s b s' :
  (m ≫= f) s = (Ret b, s') ↔ ∃ a s1, m s = (Ret a, s1) ∧ f a s1 = (Ret b, s').
Proof.
  go_unfold. destruct (m s) as [[a|p] s1]; split.
  - intros H. by exists a, s1.
  - by intros (a' & s2 & [= <- <-] & H).
  - done.
  - by intros (a' & s2 & [=] & _).
Qed.

Lemma go_ret_inv {A} (a b : A) (s s' : S) :
  (mret a : go S A) s = (Ret b, s') ↔ a = b ∧ s = s'.
Proof. go_unfold. split; [by intros [= -> ->] | by intros [-> ->]]. Qed.

Lemma go_bind_run {A B} (m : go S A) (f : A → go S B) s a s1 :
  m s = (Ret a, s1) → (m ≫= f) s = f a s1.
Proof. go_unfold. by intros ->. Qed.

Lemma go_map_cons {A B} (f : A → go S B) x l s y s1 ys s2 :
  f x s = (Ret y, s1) → go_map f l s1 = (Ret ys, s2) →
  go_map f (x :: l) s = (Ret (y :: ys), s2).
Proof. intros E1 E2. simpl. go_unfold. by rewrite E1, E2. Qed.

Lemma go_map_app {A B} (f : A → go S B) l1 l2 s :
  go_map f (l1 ++ l2) s = (ys1 ← go_map f l1; ys2 ← go_map f l2; mret (ys1 ++ ys2)) s.
Proof.
  revert s. induction l1 as [|x l1 IH]; intros s; simpl; go_unfold.
  - by destruct (go_map f l2 s) as [[] ?].
  - destruct (f x s) as [[y|p] s1]; [|done].
    specialize (IH s1). revert IH. go_unfold. intros ->.
    destruct (go_map f l1 s1) as [[ys|p] s2]; [|done].
    by destruct (go_map f l2 s2) as [[ys2|p] s3].
Qed.

Lemma go_map_length {A B} (f : A → go S B) l s ys s' :
  go_map f l s = (Ret ys, s') → length ys = length l.
Proof.
  revert s ys s'. induction l as [|x l IH]; intros s ys s' H; simpl in H.
  - by injection H as <- <-.
  - apply go_bind_Ret in H as (y & s1 & Hy & H).
    apply go_bind_Ret in H as (ys' & s2 & Hys & H). injection H as <- <-.
    simpl. by rewrite (IH _ _ _ Hys).
Qed.

(** An invariant of every step is an invariant of the loop, panics included. *)
Lemma go_map_inv {A B} (P : S → Prop) (f : A → go S B) l s :
  (∀ x s, P s → P (snd (f x s))) → P s → P (snd (go_map f l s)).
Proof.
  intros Hf. revert s. induction l as [|x l IH]; intros s Hs; simpl; [done|].
  go_unfold. specialize (Hf x s Hs).
  destruct (f x s) as [[y|p] s1]; simpl in *; [|done].
  specialize (IH s1 Hf). by destruct (go_map f l s1) as [[] ?].
Qed.

Lemma go_for_inv {A} (P : S → Prop) (f : A → go S ()) l s :
  (∀ x s, P s → P (snd (f x s))) → P s → P (snd (go_for f l s)).
Proof.
  intros Hf. revert s. induction l as [|x l IH]; intros s Hs; simpl; [done|].
  go_unfold. specialize (Hf x s Hs).
  destruct (f x s) as [[y|p] s1]; simpl in *; [|done].
  apply IH, Hf.
Qed.

(** Two runs from related states stay related when every step does. *)
Lemma go_map_sync {A B} (R : S → S → Prop) (f : A → go S B) l s1 s2 :
  (∀ x s1 s2, R s1 s2 → fst (f x s1) = fst (f x s2) ∧ R (snd (f x s1)) (snd (f x s2))) →
  R s1 s2 → fst (go_map f l s1) = fst (go_map f l s2) ∧ R (snd (go_map f l s1)) (snd (go_map f l s2)).
Proof.
  intros Hf. revert s1 s2. induction l as [|x l IH]; intros s1 s2 Hs; simpl; [done|].
  go_unfold. destruct (Hf x s1 s2 Hs) as [E1 E2].
  destruct (f x s1) as [[y|p] t1], (f x s2) as [[y'|p'] t2]; simpl in *; try discriminate;
    injection E1 as ->; [|done]. destruct (IH t1 t2 E2) as [E3 E4].
  destruct (go_map f l t1) as [[ys|p] u1], (go_map f l t2) as [[ys'|p'] u2]; simpl in *;
    try discriminate; split; congruence.
Qed.
End monad.

(** ** Triples

    [ensures I m Q]: [m] keeps the invariant [I], also when it panics, and
    returns only values in [Q]. *)

Definition ensures {S A} (I : S → Prop) (m : go S A) (Q : A → Prop) : Prop :=
  ∀ s, I s → I (snd (m s)) ∧ ∀ a, fst (m s) = Ret a → Q a.

Section ensures.
Context {S : Type} (I : S → Prop).
Implicit Types A B : Type.

Lemma ensures_ret {A} (a : A) (Q : A → Prop) : Q a → ensures I (mret a) Q.
Proof. intros Ha s Hs. split; [done|]. by intros ? [= <-]. Qed.

Lemma ensures_bind {A B} (m : go S A) (f : A → go S B) (Q : A → Prop) (R : B → Prop) :
  ensures I m Q → (∀ a, Q a → ensures I (f a) R) → ensures I (m ≫= f) R.
Proof.
  intros Hm Hf s Hs. destruct (Hm s Hs) as [H1 H2]. go_unfold.
  destruct (m s) as [[a|p] s1]; simpl in *; [by apply Hf; [apply H2|]|done].
Qed.

Lemma ensures_weaken {A} (m : go S A) (Q R : A → Prop) :
  ensures I m Q → (∀ a, Q a → R a) → ensures I m R.
Proof. intros Hm HR s Hs. destruct (Hm s Hs) as [H1 H2]. split; [done|]. intros a Ha. by apply HR, H2. Qed.

Lemma ensures_get : ensures I get I.
Proof. intros s Hs. split; [done|]. by intros ? [= <-]. Qed.

Lemma ensures_modify (f : S → S) : (∀ s, I s → I (f s)) → ensures I (modify f) (λ _, True).
Proof. intros Hf s Hs. split; [by apply Hf|done]. Qed.

Lemma ensures_or_panic {A} p (o : option A) : ensures I (or_panic p o) (λ a, o = Some a).
Proof. intros s Hs. destruct o; (split; [done|]); [by intros ? [= <-]|done]. Qed.

Lemma ensures_for {A} (f : A → go S ()) l :
  (∀ x, ensures I (f x) (λ _, True)) → ensures I (go_for f l) (λ _, True).
Proof. intros Hf s Hs. split; [|done]. apply go_for_inv; [|done]. intros x s' Hs'. by apply Hf. Qed.

Lemma ensures_map {A B} (f : A → go S B) (Q : A → B → Prop) l :
  (∀ x, ensures I (f x) (Q x)) → ensures I (go_map f l) (Forall2 Q l).
Proof.
  intros Hf. induction l as [|x l IH]; cbn [go_map]; [by apply ensures_ret|].
  eapply ensures_bind; [apply Hf|]. intros y Hy.
  eapply ensures_bind; [apply IH|]. intros ys Hys. apply ensures_ret. by constructor.
Qed.

Lemma ensures_zoom {T A} (proj : S → T) (upd : T → S → S) (J : T → Prop) (m : go T A) Q :
  ensures J m Q → (∀ s, I s → J (proj s)) → (∀ s t, I s → J t → I (upd t s)) →
  ensures I (zoom proj upd m) Q.
Proof.
  intros Hm Hp Hu s Hs. destruct (Hm (proj s) (Hp s Hs)) as [H1 H2]. unfold zoom.
  destruct (m (proj s)) as [r t]. split; [by apply Hu|done].
Qed.
End ensures.

(** One step of a triple along the program. *)
Ltac ensures_step :=
  match goal with
  | |- ensures _ (mbind _ _) _ => eapply ensures_bind
  | |- ensures _ (mret _) _ => apply ensures_ret
  | |- ensures _ get _ => apply ensures_get
  | |- ensures _ (if ?b then _ else _) _ => destruct b eqn:?
  | |- ensures _ (match ?x with _ => _ end) _ => destruct x eqn:?
  | |- ∀ _, _ => intros ?
  end.
