(* ===== verification/GoStd.v ===== *)
(** * The part of Go's language and standard library the program uses

    Fixed-width integers, byte strings, [strconv.Atoi]/[Itoa],
    [hex.EncodeToString]/[DecodeString], [strings.HasPrefix]/[Split],
    slicing [s[:n]], [utf8.RuneCountInString] as [fmt]'s padding uses it,
    the byte order of strings and [sort.Strings].  A Go [string] and a
    [[]byte] are both a [string] of bytes here. *)

From stdpp Require Import sorting.
From S2P Require Import Prelude.
Local Open Scope Z_scope.

(** ** Integers *)

Definition max_int64 : Z := 2 ^ 63 - 1.
Definition min_int64 : Z := - 2 ^ 63.
Definition max_uint64 : Z := 2 ^ 64 - 1.

(** Wrap-around of [int]/[int64] and [uint64] arithmetic. *)
Definition wrap64 (z : Z) : Z := (z + 2 ^ 63) mod 2 ^ 64 - 2 ^ 63.
Definition wrapu64 (z : Z) : Z := z mod 2 ^ 64.

Definition is_int64 (z : Z) : Prop := min_int64 ≤ z ≤ max_int64.
Definition is_uint64 (z : Z) : Prop := 0 ≤ z ≤ max_uint64.

(** ** Bytes *)

Definition byte_val (c : ascii) : Z := Z.of_N (N_of_ascii c).
Definition byte_of (v : Z) : ascii := ascii_of_N (Z.to_N v).

(** ** strconv *)

Inductive num_error : Type := ErrSyntax | ErrRange.

Inductive uint_parse : Type :=
| PSyntax
| PRange
| POk (n : Z).

Definition digit_val (c : ascii) : option Z :=
  let v := byte_val c in
  if (48 <=? v) && (v <=? 57) then Some (v - 48) else None.

Definition digit_char (d : Z) : ascii := byte_of (48 + d).

(** The loop of [strconv.ParseUint(s, 10, 64)]: the first bad character or
    the first overflow decides. *)
Fixpoint parse_uint (acc : Z) (s : string) : uint_parse :=
  match s with
  | EmptyString => POk acc
  | String c s =>
    match digit_val c with
    | None => PSyntax
    | Some d =>
      let n := acc * 10 + d in
      if max_uint64 <? n then PRange else parse_uint n s
    end
  end.

(** The part of [strconv.Atoi] after the sign, on a 64-bit platform: the value it returns also when it
    returns an error (0 on a syntax error, the bound on a range error). *)
Definition atoi_body (neg : bool) (body : string) : Z * option num_error :=
  match body with
  | EmptyString => (0, Some ErrSyntax)
  | _ =>
    match parse_uint 0 body with
    | PSyntax => (0, Some ErrSyntax)
    | PRange => (if neg then min_int64 else max_int64, Some ErrRange)
    | POk un =>
      if neg then if 2 ^ 63 <? un then (min_int64, Some ErrRange) else (- un, None)
      else if 2 ^ 63 <=? un then (max_int64, Some ErrRange) else (un, None)
    end
  end.

Definition Atoi (s : string) : Z * option num_error :=
  match s with
  | String "-" s' => atoi_body true s'
  | String "+" s' => atoi_body false s'
  | _ => atoi_body false s
  end.

(** Decimal digits of [n], most significant first, before [acc]. *)
Fixpoint digits (fuel : nat) (n : Z) (acc : string) : string :=
  match fuel with
  | O => acc
  | S fuel =>
    if n <? 10 then String (digit_char n) acc
    else digits fuel (n / 10) (String (digit_char (n mod 10)) acc)
  end.

(** [strconv.Itoa] on [int64] values: 20 digits are enough for 64 bits. *)
Definition Itoa (z : Z) : string :=
  if z <? 0 then String "-" (digits 20 (- z) "") else digits 20 z "".

(** [os.LookupEnv], the environment being a table. *)
Definition LookupEnv (env : gmap string string) (key : string) : option string := env !! key.

(** ** encoding/hex *)

Definition hex_char (v : Z) : ascii :=
  if v <? 10 then byte_of (48 + v) else byte_of (87 + v).

Definition from_hex_char (c : ascii) : option Z :=
  let v := byte_val c in
  if (48 <=? v) && (v <=? 57) then Some (v - 48)
  else if (97 <=? v) && (v <=? 102) then Some (v - 87)
  else if (65 <=? v) && (v <=? 70) then Some (v - 55)
  else None.

Fixpoint EncodeToString (b : string) : string :=
  match b with
  | EmptyString => EmptyString
  | String c b =>
    String (hex_char (byte_val c / 16)) (String (hex_char (byte_val c mod 16)) (EncodeToString b))
  end.

(** [None] is a non-nil error: an odd length or a character that is no hex
    digit. *)
Fixpoint DecodeString (s : string) : option string :=
  match s with
  | EmptyString => Some EmptyString
  | String _ EmptyString => None
  | String a (String b s) =>
    hi ← from_hex_char a;
    lo ← from_hex_char b;
    rest ← DecodeString s;
    Some (String (byte_of (hi * 16 + lo)) rest)
  end.

(** ** strings *)

Definition HasPrefix (s p : string) : bool := String.prefix p s.

(** [strings.Split(s, sep)] for a one-byte separator. *)
Fixpoint Split (s : string) (sep : ascii) : list string :=
  match s with
  | EmptyString => [EmptyString]
  | String c s' =>
    if bool_decide (c = sep) then EmptyString :: Split s' sep
    else match Split s' sep with
         | [] => [String c EmptyString]
         | w :: ws => String c w :: ws
         end
  end.

(** [s[:n]]: a panic when [n] exceeds the length. *)
Definition slice_to (s : string) (n : nat) : option string :=
  if (n <=? String.length s)%nat then Some (String.substring 0 n s) else None.

Fixpoint contains_byte (c : ascii) (s : string) : bool :=
  match s with
  | EmptyString => false
  | String d s => bool_decide (d = c) || contains_byte c s
  end.

(** Byte-wise lexicographic [<] on strings. *)
Fixpoint str_ltb (a b : string) : bool :=
  match a, b with
  | _, EmptyString => false
  | EmptyString, String _ _ => true
  | String x a, String y b =>
    if byte_val x <? byte_val y then true
    else if byte_val y <? byte_val x then false
    else str_ltb a b
  end.

Definition str_le (a b : string) : Prop := str_ltb b a = false.

#[export] Instance str_le_dec a b : Decision (str_le a b).
Proof. unfold str_le. apply _. Defined.

(** [sort.Strings]: the order is total and antisymmetric, so every sorting
    algorithm gives this list (see [sort_strings_unique]). *)
Definition sort_strings (l : list string) : list string := merge_sort str_le l.

(** ** unicode/utf8 and fmt padding *)

Definition cont_byte (lo hi : Z) (s : string) : bool :=
  match s with
  | String c _ => (lo <=? byte_val c) && (byte_val c <=? hi)
  | EmptyString => false
  end.

Definition str_tail (s : string) : string :=
  match s with String _ s => s | EmptyString => EmptyString end.

(** Bytes [utf8.DecodeRune] consumes at the front of [String c s]; an
    invalid or short sequence consumes one. *)
Definition rune_size (c : ascii) (s : string) : nat :=
  let v := byte_val c in
  let c80 := cont_byte 128 191 in
  if v <? 194 then 1%nat
  else if v <=? 223 then if c80 s then 2%nat else 1%nat
  else if v <=? 239 then
    let lo := if v =? 224 then 160 else 128 in
    let hi := if v =? 237 then 159 else 191 in
    if cont_byte lo hi s && c80 (str_tail s) then 3%nat else 1%nat
  else if v <=? 244 then
    let lo := if v =? 240 then 144 else 128 in
    let hi := if v =? 244 then 143 else 191 in
    if cont_byte lo hi s && c80 (str_tail s) && c80 (str_tail (str_tail s)) then 4%nat else 1%nat
  else 1%nat.

(** [skip] bytes of the current rune are still to be passed over. *)
Fixpoint rune_count_skip (skip : nat) (s : string) : nat :=
  match s with
  | EmptyString => O
  | String c s' =>
    match skip with
    | S k => rune_count_skip k s'
    | O => S (rune_count_skip (rune_size c s' - 1) s')
    end
  end.

Definition RuneCountInString (s : string) : nat := rune_count_skip 0 s.

Fixpoint spaces (n : nat) : string :=
  match n with O => EmptyString | S n => String " " (spaces n) end.

(** [fmt.Sprintf("%-Ns", s)]: blanks up to [n] runes. *)
Definition pad_right (n : nat) (s : string) : string :=
  s +:+ spaces (n - RuneCountInString s).

(** ** Lemmas: integers and bytes *)

Lemma wrap64_id z : is_int64 z → wrap64 z = z.
Proof.
  unfold is_int64, wrap64, min_int64, max_int64. intros.
  rewrite Z.mod_small; lia.
Qed.

Lemma wrapu64_id z : is_uint64 z → wrapu64 z = z.
Proof. unfold is_uint64, wrapu64, max_uint64. intros. apply Z.mod_small. lia. Qed.

Lemma wrapu64_range z : is_uint64 (wrapu64 z).
Proof.
  unfold is_uint64, wrapu64, max_uint64.
  pose proof (Z.mod_pos_bound z (2 ^ 64)). lia.
Qed.

Lemma wrap64_range z : is_int64 (wrap64 z).
Proof.
  unfold is_int64, wrap64, max_int64, min_int64.
  pose proof (Z.mod_pos_bound (z + 2 ^ 63) (2 ^ 64)). lia.
Qed.

Lemma byte_val_range c : 0 ≤ byte_val c < 256.
Proof. unfold byte_val. pose proof (N_ascii_bounded c). lia. Qed.

Lemma byte_of_val c : byte_of (byte_val c) = c.
Proof. unfold byte_of, byte_val. rewrite N2Z.id. apply ascii_N_embedding. Qed.

Lemma byte_val_of v : 0 ≤ v < 256 → byte_val (byte_of v) = v.
Proof. intros. unfold byte_of, byte_val. rewrite N_ascii_embedding; lia. Qed.

Lemma byte_val_inj c d : byte_val c = byte_val d → c = d.
Proof. intros H. by rewrite <- (byte_of_val c), <- (byte_of_val d), H. Qed.

(** ** Lemmas: strconv *)

Lemma digit_val_char d : 0 ≤ d < 10 → digit_val (digit_char d) = Some d.
Proof.
  intros. unfold digit_val, digit_char. rewrite byte_val_of by lia.
  destruct (48 <=? 48 + d) eqn:?, (48 + d <=? 57) eqn:?; simpl; try lia.
  f_equal. lia.
Qed.

Lemma parse_uint_digit d acc s :
  0 ≤ d < 10 → acc * 10 + d ≤ max_uint64 →
  parse_uint acc (String (digit_char d) s) = parse_uint (acc * 10 + d) s.
Proof.
  intros Hd Hm. cbn [parse_uint]. rewrite digit_val_char by done.
  by destruct (Z.ltb_spec max_uint64 (acc * 10 + d)); [lia|].
Qed.

Lemma parse_uint_digits fuel n acc :
  0 ≤ n < 10 ^ Z.of_nat fuel → n ≤ max_uint64 → (0 < fuel)%nat →
  parse_uint 0 (digits fuel n acc) = parse_uint n acc.
Proof.
  revert n acc. induction fuel as [|fuel IH]; intros n acc Hn Hm Hf; [lia|].
  cbn [digits]. destruct (Z.ltb_spec n 10).
  - by rewrite parse_uint_digit by lia.
  - destruct fuel as [|fuel']; [cbn in Hn; lia|].
    pose proof (Z.div_mod n 10 ltac:(lia)) as Hdm.
    pose proof (Z.mod_pos_bound n 10 ltac:(lia)) as Hmod.
    assert (n / 10 < 10 ^ Z.of_nat (S fuel')).
    { apply Z.div_lt_upper_bound; [lia|].
      replace (Z.of_nat (S (S fuel'))) with (Z.succ (Z.of_nat (S fuel'))) in Hn by lia.
      rewrite Z.pow_succ_r in Hn by lia. lia. }
    rewrite IH by (unfold max_uint64 in *; lia).
    rewrite parse_uint_digit by lia. f_equal. lia.
Qed.

Lemma digits_cons fuel n acc :
  0 ≤ n → ∃ d s, 0 ≤ d < 10 ∧ digits (S fuel) n acc = String (digit_char d) s.
Proof.
  revert n acc. induction fuel as [|fuel IH]; intros n acc Hn.
  - cbn [digits]. destruct (Z.ltb_spec n 10); [by exists n, acc|].
    pose proof (Z.mod_pos_bound n 10 ltac:(lia)). by exists (n mod 10), acc.
  - cbn [digits]. destruct (Z.ltb_spec n 10); [by exists n, acc|].
    apply IH. apply Z.div_pos; lia.
Qed.

Lemma digit_char_not_sign d : 0 ≤ d < 10 → digit_char d ≠ "-"%char ∧ digit_char d ≠ "+"%char.
Proof.
  assert (byte_val "-" = 45 ∧ byte_val "+" = 43) as [E1 E2] by done.
  intros Hd. split; intros H; apply (f_equal byte_val) in H;
    unfold digit_char in H; rewrite byte_val_of in H by lia; lia.
Qed.

Lemma parse_uint_digits20 n acc :
  0 ≤ n ≤ max_uint64 → parse_uint 0 (digits 20 n acc) = parse_uint n acc.
Proof.
  intros Hn. apply parse_uint_digits; [|lia|lia].
  change (10 ^ Z.of_nat 20) with 100000000000000000000.
  unfold max_uint64 in Hn. lia.
Qed.

Lemma atoi_body_digits neg n :
  0 ≤ n < 2 ^ 63 ∨ neg = true ∧ n = 2 ^ 63 →
  atoi_body neg (digits 20 n "") = (if neg then - n else n, None).
Proof.
  intros Hn. destruct (digits_cons 19 n "") as (d & s & Hd & E); [lia|].
  unfold atoi_body. rewrite parse_uint_digits20 by (unfold max_uint64; lia).
  rewrite E. cbn [parse_uint]. destruct neg.
  - by destruct (Z.ltb_spec (2 ^ 63) n); [lia|].
  - by destruct (Z.leb_spec (2 ^ 63) n); [lia|].
Qed.

Lemma Atoi_unsigned n : 0 ≤ n < 2 ^ 63 → Atoi (digits 20 n "") = (n, None).
Proof.
  intros Hn. rewrite <- (atoi_body_digits false n) by lia.
  destruct (digits_cons 19 n "") as (d & s & Hd & ->); [lia|].
  destruct (digit_char_not_sign d Hd) as [N1 N2]. revert N1 N2.
  generalize (digit_char d). intros c N1 N2.
  by destruct c as [[] [] [] [] [] [] [] []].
Qed.

(** [Atoi] reads back what [Itoa] writes, on every [int64]. *)
Lemma Atoi_Itoa z : is_int64 z → Atoi (Itoa z) = (z, None).
Proof.
  unfold is_int64, min_int64, max_int64, Itoa. intros Hz.
  destruct (Z.ltb_spec z 0).
  - change (atoi_body true (digits 20 (- z) "") = (z, None)).
    rewrite atoi_body_digits by lia. f_equal. lia.
  - apply Atoi_unsigned. lia.
Qed.

(** ** Lemmas: hex *)

Lemma from_hex_char_hex v : 0 ≤ v < 16 → from_hex_char (hex_char v) = Some v.
Proof.
  intros Hv. unfold from_hex_char, hex_char.
  destruct (Z.ltb_spec v 10); rewrite byte_val_of by lia;
    repeat (case_match; simpl; try lia); f_equal; lia.
Qed.

Lemma Decode_EncodeToString b : DecodeString (EncodeToString b) = Some b.
Proof.
  induction b as [|c b IH]; [done|].
  pose proof (byte_val_range c) as Hc. cbn [EncodeToString DecodeString].
  pose proof (Z.mod_pos_bound (byte_val c) 16 ltac:(lia)).
  assert (0 ≤ byte_val c / 16 < 16)
    by (split; [apply Z.div_pos; lia|apply Z.div_lt_upper_bound; lia]).
  rewrite !from_hex_char_hex by done. simpl. rewrite IH. simpl. do 2 f_equal.
  transitivity (byte_of (byte_val c)); [f_equal|apply byte_of_val].
  pose proof (Z.div_mod (byte_val c) 16). lia.
Qed.

Lemma EncodeToString_length b :
  String.length (EncodeToString b) = (2 * String.length b)%nat.
Proof. induction b as [|c b IH]; simpl; lia. Qed.

Lemma DecodeString_length_le s b :
  DecodeString s = Some b → String.length s = (2 * String.length b)%nat.
Proof.
  revert b. induction s as [s IH] using (induction_ltof1 _ String.length).
  unfold ltof in IH. intros b.
  destruct s as [|a [|a' s]]; cbn [DecodeString]; [by intros [= <-]|done|].
  intros (hi & _ & (lo & _ & (rest & Hr & [= <-])%bind_Some)%bind_Some)%bind_Some.
  apply IH in Hr; simpl; lia.
Qed.

(** ** Lemmas: strings *)

(** stdpp keeps [simpl] from unfolding the append. *)
Lemma str_app_cons c (s t : string) : String c s +:+ t = String c (s +:+ t).
Proof. reflexivity. Qed.

Lemma str_app_nil_l (s : string) : "" +:+ s = s.
Proof. reflexivity. Qed.

Lemma str_app_nil_r (s : string) : s +:+ "" = s.
Proof. induction s as [|c s IH]; [done|]. by rewrite str_app_cons, IH. Qed.

Lemma str_app_assoc (a b c : string) : (a +:+ b) +:+ c = a +:+ (b +:+ c).
Proof. induction a as [|x a IH]; [done|]. by rewrite !str_app_cons, IH. Qed.

Lemma str_length_app (a b : string) :
  String.length (a +:+ b) = (String.length a + String.length b)%nat.
Proof. induction a as [|x a IH]; [done|]. rewrite str_app_cons. simpl. by rewrite IH. Qed.

Lemma str_app_inj_l (a b c : string) : a +:+ b = a +:+ c → b = c.
Proof. apply String.app_inj. Qed.

Lemma str_app_inj_length (a b c d : string) :
  String.length a = String.length c → a +:+ b = c +:+ d → a = c ∧ b = d.
Proof.
  revert c. induction a as [|x a IH]; intros [|y c] Hl H; try done.
  rewrite !str_app_cons in H. injection Hl as Hl. injection H as -> H.
  destruct (IH c) as [-> ->]; auto.
Qed.

Lemma HasPrefix_app p s : HasPrefix (p +:+ s) p = true.
Proof.
  unfold HasPrefix. induction p as [|c p IH]; [by destruct s|].
  rewrite str_app_cons. simpl. by destruct (ascii_dec c c).
Qed.

Lemma HasPrefix_true s p : HasPrefix s p = true ↔ ∃ t, s = p +:+ t.
Proof.
  unfold HasPrefix. revert s. induction p as [|c p IH]; intros s.
  - split; [by exists s|]. by destruct s.
  - destruct s as [|d s]; simpl; [split; [done|by intros [? ?]]|].
    destruct (ascii_dec c d) as [->|Hne].
    + rewrite IH. setoid_rewrite str_app_cons. split; intros [t E]; exists t; congruence.
    + split; [done|]. intros [t E]. rewrite str_app_cons in E. congruence.
Qed.

(** Two prefixes that differ at some byte have no common extension. *)
Fixpoint clash (p q : string) : bool :=
  match p, q with
  | String a p, String b q => if bool_decide (a = b) then clash p q else true
  | _, _ => false
  end.

Lemma clash_app_ne p q s t : clash p q = true → p +:+ s ≠ q +:+ t.
Proof.
  revert q. induction p as [|a p IH]; intros [|b q] H E; try done.
  rewrite !str_app_cons in E. injection E as -> E. simpl in H.
  rewrite bool_decide_eq_true_2 in H by done. by apply (IH q).
Qed.

Lemma Split_no_sep s sep : contains_byte sep s = false → Split s sep = [s].
Proof.
  induction s as [|c s IH]; simpl; [done|].
  intros [Hc Hs]%orb_false_iff. rewrite Hc. by rewrite (IH Hs).
Qed.

Lemma Split_app_sep p sep s :
  contains_byte sep p = false → Split (p +:+ String sep s) sep = p :: Split s sep.
Proof.
  induction p as [|c p IH].
  - intros _. rewrite str_app_nil_l. simpl. by rewrite bool_decide_eq_true_2.
  - intros [Hc Hp]%orb_false_iff. rewrite str_app_cons. simpl. rewrite Hc. by rewrite (IH Hp).
Qed.

Lemma slice_to_is_Some s n :
  is_Some (slice_to s n) ↔ (n ≤ String.length s)%nat.
Proof.
  unfold slice_to. destruct (Nat.leb_spec n (String.length s)).
  - split; [done|by eexists].
  - split; [by intros [? [=]]|lia].
Qed.

Lemma slice_to_None s n : slice_to s n = None ↔ (String.length s < n)%nat.
Proof. unfold slice_to. destruct (Nat.leb_spec n (String.length s)); naive_solver lia. Qed.

Lemma substring_0_length n s :
  (n ≤ String.length s)%nat → String.length (String.substring 0 n s) = n.
Proof.
  revert s. induction n as [|n IH]; intros [|c s] H; simpl in *; try lia.
  by rewrite IH by lia.
Qed.

Lemma slice_to_length s n t : slice_to s n = Some t → String.length t = n.
Proof.
  unfold slice_to. destruct (Nat.leb_spec n (String.length s)); [|done].
  intros [= <-]. by apply substring_0_length.
Qed.

(** The byte order is a strict total order. *)

Lemma str_ltb_irrefl a : str_ltb a a = false.
Proof. induction a as [|x a IH]; simpl; [done|]. by rewrite Z.ltb_irrefl. Qed.

Lemma str_ltb_trans a b c :
  str_ltb a b = true → str_ltb b c = true → str_ltb a c = true.
Proof.
  revert b c. induction a as [|x a IH]; intros [|y b] [|z c]; simpl; try done.
  destruct (Z.ltb_spec (byte_val x) (byte_val y)), (Z.ltb_spec (byte_val y) (byte_val z)),
    (Z.ltb_spec (byte_val y) (byte_val x)), (Z.ltb_spec (byte_val z) (byte_val y)),
    (Z.ltb_spec (byte_val x) (byte_val z)), (Z.ltb_spec (byte_val z) (byte_val x));
    try done; try lia. apply IH.
Qed.

Lemma str_ltb_total a b : str_ltb a b = false → str_ltb b a = false → a = b.
Proof.
  revert b. induction a as [|x a IH]; intros [|y b]; simpl; try done.
  destruct (Z.ltb_spec (byte_val x) (byte_val y)), (Z.ltb_spec (byte_val y) (byte_val x)); try done.
  intros. f_equal; [apply byte_val_inj; lia|by apply IH].
Qed.

Lemma str_ltb_asym a b : str_ltb a b = true → str_ltb b a = false.
Proof.
  intros H. destruct (str_ltb b a) eqn:E; [|done].
  pose proof (str_ltb_trans _ _ _ H E) as F. by rewrite str_ltb_irrefl in F.
Qed.

#[export] Instance str_le_total : Total str_le.
Proof.
  intros a b. unfold str_le. destruct (str_ltb b a) eqn:E; [|by left].
  right. by apply str_ltb_asym.
Qed.

#[export] Instance str_le_antisymm : AntiSymm (=) str_le.
Proof. intros a b H1 H2. by apply str_ltb_total. Qed.

#[export] Instance str_le_trans : Transitive str_le.
Proof.
  intros a b c. unfold str_le. intros H1 H2. destruct (str_ltb c a) eqn:E; [|done].
  destruct (decide (b = c)) as [->|Hne]; [congruence|].
  destruct (str_ltb b c) eqn:E2; [|destruct Hne; by apply str_ltb_total].
  by rewrite (str_ltb_trans b c a) in H1.
Qed.

Lemma sort_strings_perm l : sort_strings l ≡ₚ l.
Proof. apply merge_sort_Permutation. Qed.

Lemma sort_strings_sorted l : StronglySorted str_le (sort_strings l).
Proof. apply StronglySorted_merge_sort; apply _. Qed.

(** Any sorted permutation of [l] is [sort_strings l]. *)
Lemma sort_strings_unique l l' :
  StronglySorted str_le l' → l' ≡ₚ l → l' = sort_strings l.
Proof.
  intros Hs Hp. apply (StronglySorted_unique str_le); [done|apply sort_strings_sorted|].
  by rewrite sort_strings_perm.
Qed.

Lemma sort_strings_proper l l' : l ≡ₚ l' → sort_strings l = sort_strings l'.
Proof.
  intros Hp. apply sort_strings_unique; [apply sort_strings_sorted|].
  by rewrite sort_strings_perm.
Qed.

(** ** Lemmas: padding *)

Lemma rune_count_skip_le k s : (rune_count_skip k s ≤ String.length s)%nat.
Proof.
  revert k. induction s as [|c s IH]; intros [|k]; simpl; [lia|lia| |].
  - specialize (IH (rune_size c s - 1)%nat). lia.
  - specialize (IH k). lia.
Qed.

Lemma spaces_length n : String.length (spaces n) = n.
Proof. induction n; simpl; congruence. Qed.

Lemma pad_right_length n s : (n ≤ String.length (pad_right n s))%nat.
Proof.
  unfold pad_right. rewrite str_length_app, spaces_length.
  pose proof (rune_count_skip_le 0 s). unfold RuneCountInString. lia.
Qed.

#[export] Hint Rewrite Decode_EncodeToString EncodeToString_length HasPrefix_app
  str_length_app str_app_nil_r spaces_length str_ltb_irrefl : ormuz_rw.
#[export] Hint Resolve wrapu64_range wrap64_range str_ltb_trans str_ltb_asym
  Atoi_Itoa sort_strings_perm : ormuz.

(** ** Well-formed UTF-8

    Every byte sequence [DecodeRune] sees is ASCII or a complete multi-byte
    rune. *)
Fixpoint valid_utf8_skip (skip : nat) (s : string) : bool :=
  match s with
  | EmptyString => Nat.eqb skip 0
  | String c s' =>
    match skip with
    | S k => valid_utf8_skip k s'
    | O =>
      if byte_val c <? 128 then valid_utf8_skip 0 s'
      else Nat.ltb 1 (rune_size c s') && valid_utf8_skip (rune_size c s' - 1) s'
    end
  end.

Definition valid_utf8 (s : string) : bool := valid_utf8_skip 0 s.
