(* ===== verification/GoHeap.v ===== *)
(** * container/heap over a slice

    The algorithms of Go's [container/heap] ([Init], [Push], [Pop] with their
    [up] and [down] loops) on a slice whose [Less], [Swap], [Push] and [Pop]
    methods are those of [missionHeap] (pkg/queue/priority_queue.go).  An
    index out of range is [None], as is running out of fuel; the theorems
    show that neither happens. *)

From S2P Require Import Prelude.

(** What [sort.Interface] asks of [Less]. *)
Class StrictWeakOrder {A} (less : A → A → bool) : Prop := {
  swo_asym x y : less x y = true → less y x = false;
  swo_negtrans x y z : less y x = false → less z y = false → less z x = false;
}.

Definition parent (j : nat) : nat := (j - 1) / 2.

Section defs.
Context {A : Type} (less : A → A → bool).

(** ** The methods of the slice type *)

Definition slice_less (h : list A) (i j : nat) : option bool :=
  x ← h !! i; y ← h !! j; Some (less x y).

Definition slice_swap (h : list A) (i j : nat) : option (list A) :=
  x ← h !! i; y ← h !! j; Some (<[j:=x]> (<[i:=y]> h)).

Definition slice_push (h : list A) (x : A) : list A := h ++ [x].

(** [old[n-1]] and [old[0 : n-1]]. *)
Definition slice_pop (h : list A) : option (A * list A) :=
  item ← h !! (length h - 1); Some (item, take (length h - 1) h).

(** ** The algorithms *)

Fixpoint up (fuel : nat) (h : list A) (j : nat) : option (list A) :=
  match fuel with
  | O => None
  | S fuel =>
    let i := parent j in
    if Nat.eqb i j then Some h
    else
      b ← slice_less h j i;
      if (b : bool) then h' ← slice_swap h i j; up fuel h' i else Some h
  end.

(** The smaller child of the node whose left child is [j1]. *)
Definition min_child (h : list A) (j1 n : nat) : option nat :=
  if Nat.ltb (j1 + 1) n then
    b ← slice_less h (j1 + 1) j1; Some (if (b : bool) then j1 + 1 else j1)
  else Some j1.

Fixpoint down (fuel : nat) (h : list A) (i n : nat) : option (list A) :=
  match fuel with
  | O => None
  | S fuel =>
    let j1 := 2 * i + 1 in
    if Nat.leb n j1 then Some h
    else
      j ← min_child h j1 n;
      b ← slice_less h j i;
      if (b : bool) then h' ← slice_swap h i j; down fuel h' j n else Some h
  end.

(** [for i := k - 1; i >= 0; i-- { down(h, i, n) }]. *)
Fixpoint init_loop (k : nat) (h : list A) (n : nat) : option (list A) :=
  match k with
  | O => Some h
  | S i => h' ← down (S n) h i n; init_loop i h' n
  end.

Definition heap_Init (h : list A) : option (list A) :=
  init_loop (length h / 2) h (length h).

Definition heap_Push (h : list A) (x : A) : option (list A) :=
  let h' := slice_push h x in up (length h') h' (length h' - 1).

Definition heap_Pop (h : list A) : option (A * list A) :=
  match length h with
  | O => None
  | S n => h1 ← slice_swap h 0 n; h2 ← down (S n) h1 0 n; slice_pop h2
  end.

(** ** The heap order *)

(** [x] may stand above [y]. *)
Definition above (x y : A) : Prop := less y x = false.

Definition above_at (h : list A) (i j : nat) : Prop :=
  ∀ x y, h !! i = Some x → h !! j = Some y → above x y.

(** Every edge below index [n] whose parent is at least [k] is in order. *)
Definition heap_from (k n : nat) (h : list A) : Prop :=
  ∀ j, 0 < j < n → k ≤ parent j → above_at h (parent j) j.

Definition heap_ok (h : list A) : Prop := heap_from 0 (length h) h.
End defs.

(** ** Lemmas *)

Lemma parent_lt j : 0 < j → parent j < j.
Proof. intros. unfold parent. apply Nat.Div0.div_lt_upper_bound; lia. Qed.

Lemma parent_eq i j : 0 < j → parent j = i ↔ j = 2 * i + 1 ∨ j = 2 * i + 2.
Proof.
  intros Hj. unfold parent. pose proof (Nat.div_mod_eq (j - 1) 2).
  pose proof (Nat.mod_upper_bound (j - 1) 2). lia.
Qed.

Lemma parent_fix j : parent j = j ↔ j = 0.
Proof.
  split; [|by intros ->]. intros H. destruct j as [|j]; [done|].
  pose proof (parent_lt (S j)). lia.
Qed.

(** The transposition of two indices. *)
Definition tr (i j k : nat) : nat :=
  if Nat.eqb k i then j else if Nat.eqb k j then i else k.

Ltac tr_cases :=
  unfold tr in *;
  repeat match goal with
  | |- context [Nat.eqb ?a ?b] => destruct (Nat.eqb_spec a b)
  | H : context [Nat.eqb ?a ?b] |- _ => destruct (Nat.eqb_spec a b)
  end; subst.

Section lemmas.
Context {A : Type} (less : A → A → bool) `{!StrictWeakOrder less}.
Implicit Types h : list A.

Local Abbreviation above := (above less).
Local Abbreviation above_at := (above_at less).
Local Abbreviation heap_from := (heap_from less).
Local Abbreviation heap_ok := (heap_ok less).

Lemma above_refl x : above x x.
Proof.
  unfold above. destruct (less x x) eqn:E; [|done].
  pose proof (swo_asym x x E). congruence.
Qed.

Lemma above_trans x y z : above x y → above y z → above x z.
Proof. apply swo_negtrans. Qed.

Lemma less_above x y : less x y = true → above x y.
Proof. apply swo_asym. Qed.

Lemma above_at_trans h i j k :
  is_Some (h !! j) → above_at h i j → above_at h j k → above_at h i k.
Proof. intros [z Hz] H1 H2 x y Hx Hy. eapply above_trans; eauto. Qed.

Lemma slice_less_total h i j :
  i < length h → j < length h →
  ∃ b, slice_less less h i j = Some b ∧
    if b then above_at h i j else above_at h j i.
Proof.
  intros [x Hx]%lookup_lt_is_Some [y Hy]%lookup_lt_is_Some.
  exists (less x y). unfold slice_less. rewrite Hx, Hy. split; [done|].
  destruct (less x y) eqn:E; intros ? ? ? ?; simplify_eq; [by apply less_above|done].
Qed.

Lemma slice_swap_total h i j :
  i < length h → j < length h →
  ∃ h', slice_swap h i j = Some h' ∧ h' ≡ₚ h ∧ ∀ k, h' !! k = h !! tr i j k.
Proof.
  intros Hi Hj.
  destruct (lookup_lt_is_Some_2 _ _ Hi) as [x Hx], (lookup_lt_is_Some_2 _ _ Hj) as [y Hy].
  exists (<[j:=x]> (<[i:=y]> h)). unfold slice_swap. rewrite Hx, Hy.
  split_and!; [done|by apply Permutation_insert_swap|].
  intros k. tr_cases.
  - destruct (decide (i = j)) as [->|].
    + rewrite list_lookup_insert_eq by (by rewrite length_insert). congruence.
    + rewrite list_lookup_insert_ne by done. by rewrite list_lookup_insert_eq.
  - by rewrite list_lookup_insert_eq by (by rewrite length_insert).
  - by rewrite !list_lookup_insert_ne by done.
Qed.

Lemma above_at_swap h h' i j a b :
  (∀ k, h' !! k = h !! tr i j k) → above_at h (tr i j a) (tr i j b) → above_at h' a b.
Proof. intros Hk H x y. rewrite !Hk. apply H. Qed.

(** [up] restores the order when only the edge above [j] may be broken. *)
Lemma up_ok fuel h j :
  j < fuel → j < length h →
  (∀ k, 0 < k < length h → k ≠ j → above_at h (parent k) k) →
  (∀ c, 0 < c < length h → parent c = j → 0 < j → above_at h (parent j) c) →
  ∃ h', up less fuel h j = Some h' ∧ h' ≡ₚ h ∧ heap_ok h'.
Proof.
  revert h j. induction fuel as [|fuel IH]; intros h j Hf Hj Hedge Hgrand; [lia|].
  cbn [up]. destruct (Nat.eqb_spec (parent j) j) as [E|NE].
  { apply parent_fix in E as ->. exists h. split_and!; [done|done|].
    intros k Hk _. apply Hedge; lia. }
  assert (0 < j) as Hj0 by (destruct j; [by destruct NE|lia]).
  pose proof (parent_lt j Hj0) as Hp.
  destruct (slice_less_total h j (parent j)) as ([] & -> & Hb); [done|lia| |]; simpl.
  - destruct (slice_swap_total h (parent j) j) as (h' & -> & Hperm & Hk); [lia|done|].
    simpl. pose proof (Permutation_length Hperm) as Hlen.
    assert (is_Some (h !! parent j)) as Hs by (apply lookup_lt_is_Some_2; lia).
    destruct (IH h' (parent j)) as (h'' & -> & Hp' & Hok); [lia|lia| | |].
    + intros k Hkl Hne. apply (above_at_swap _ _ _ _ _ _ Hk).
      destruct (decide (k = j)) as [->|Hkj]; [by tr_cases; try lia|].
      destruct (decide (parent k = parent j)) as [Epk|Npk].
      { rewrite Epk. pose proof (Hedge k ltac:(lia) Hkj). rewrite Epk in *.
        tr_cases; try lia. by eapply above_at_trans. }
      destruct (decide (parent k = j)) as [Epk|Npk'].
      { pose proof (Hgrand k ltac:(lia) Epk Hj0). rewrite Epk. tr_cases; by try lia. }
      pose proof (Hedge k ltac:(lia) Hkj). tr_cases; by try lia.
    + intros c Hc Epc Hpj. apply (above_at_swap _ _ _ _ _ _ Hk).
      pose proof (parent_lt _ Hpj).
      pose proof (Hedge (parent j) ltac:(lia) ltac:(lia)) as H1.
      destruct (decide (c = j)) as [->|Hcj]; [by tr_cases; try lia|].
      pose proof (Hedge c ltac:(lia) Hcj) as H2. rewrite Epc in H2.
      tr_cases; try lia; by eapply above_at_trans.
    + exists h''. split_and!; [done|by rewrite Hp'|done].
  - exists h. split_and!; [done|done|]. intros k Hkl _.
    destruct (decide (k = j)) as [->|]; [done|]. by apply Hedge.
Qed.

Lemma min_child_ok h j1 n :
  j1 < n → n ≤ length h →
  ∃ j, min_child less h j1 n = Some j ∧ j < n ∧ (j = j1 ∨ j = j1 + 1) ∧
    ∀ c, c < n → (c = j1 ∨ c = j1 + 1) → above_at h j c.
Proof.
  intros Hj Hn. unfold min_child. destruct (Nat.ltb_spec (j1 + 1) n).
  - destruct (slice_less_total h (j1 + 1) j1) as ([] & -> & Hb); [lia|lia| |]; simpl.
    + exists (j1 + 1). split_and!; [done|done|by right|]. intros c Hc [->| ->]; [done|].
      intros ????; simplify_eq; apply above_refl.
    + exists j1. split_and!; [done|done|by left|]. intros c Hc [->| ->]; [|done].
      intros ????; simplify_eq; apply above_refl.
  - exists j1. split_and!; [done|done|by left|]. intros c Hc [->|]; [|lia].
    intros ????; simplify_eq; apply above_refl.
Qed.

(** [down] restores the order when only the edges below [i] may be broken,
    and touches nothing from index [n] on. *)
Lemma down_ok fuel h k i n :
  n ≤ length h → n ≤ i + fuel → 0 < fuel → k ≤ i →
  (∀ j, 0 < j < n → k ≤ parent j → parent j ≠ i → above_at h (parent j) j) →
  (∀ c, 0 < c < n → parent c = i → 0 < i → k ≤ parent i → above_at h (parent i) c) →
  ∃ h', down less fuel h i n = Some h' ∧ h' ≡ₚ h ∧ heap_from k n h' ∧
    ∀ m, n ≤ m → h' !! m = h !! m.
Proof.
  revert h i. induction fuel as [|fuel IH]; intros h i Hn Hf Hpos Hki Hedge Hgrand; [lia|].
  cbn [down]. destruct (Nat.leb_spec n (2 * i + 1)) as [Hge|Hlt].
  { exists h. split_and!; [done|done| |done]. intros j Hj Hkj. apply Hedge; [done|done|].
    intros E. apply parent_eq in E; lia. }
  destruct (min_child_ok h (2 * i + 1) n) as (j & -> & Hjn & Hj & Hmin); [done|done|]. simpl.
  assert (parent j = i) as Epj by (apply parent_eq; lia).
  assert (0 < j) as Hj0 by lia.
  destruct (slice_less_total h j i) as ([] & -> & Hb); [lia|lia| |]; simpl.
  - destruct (slice_swap_total h i j) as (h' & -> & Hperm & Hk); [lia|lia|].
    simpl. pose proof (Permutation_length Hperm) as Hlen.
    assert (is_Some (h !! i)) as Hsi by (apply lookup_lt_is_Some_2; lia).
    assert (is_Some (h !! j)) as Hsj by (apply lookup_lt_is_Some_2; lia).
    destruct (IH h' j) as (h'' & -> & Hp' & Hok & Hm); [lia|lia|lia|lia| | |].
    + intros x Hx Hkx Hne. apply (above_at_swap _ _ _ _ _ _ Hk).
      destruct (decide (parent x = i)) as [Epx|Npx].
      { pose proof (proj1 (parent_eq i x ltac:(lia)) Epx) as Hx2. rewrite Epx.
        destruct (decide (x = j)) as [->|Hxj]; [by tr_cases; try lia|].
        pose proof (Hmin x ltac:(lia) ltac:(lia)). tr_cases; by try lia. }
      pose proof (parent_lt x ltac:(lia)).
      destruct (decide (x = i)) as [->|Hxi].
      { pose proof (Hgrand j ltac:(lia) Epj ltac:(lia) Hkx). tr_cases; by try lia. }
      pose proof (Hedge x Hx Hkx Npx). tr_cases; by try lia.
    + intros c Hc Epc _ _. apply (above_at_swap _ _ _ _ _ _ Hk).
      pose proof (proj1 (parent_eq j c ltac:(lia)) Epc).
      pose proof (Hedge c Hc ltac:(lia) ltac:(lia)) as H1. rewrite Epc in H1. rewrite Epj.
      tr_cases; by try lia.
    + exists h''. split_and!; [done|by rewrite Hp'|done|].
      intros m Hnm. rewrite Hm, Hk by done. tr_cases; by try lia.
  - exists h. split_and!; [done|done| |done]. intros x Hx Hkx.
    destruct (decide (parent x = i)) as [Epx|]; [|by apply Hedge].
    pose proof (proj1 (parent_eq i x ltac:(lia)) Epx). rewrite Epx.
    apply (above_at_trans h i j x); [apply lookup_lt_is_Some_2; lia|done|apply Hmin; lia].
Qed.

(** Heapifying from the last inner node down to the root. *)
Lemma init_loop_ok k h :
  heap_from k (length h) h →
  ∃ h', init_loop less k h (length h) = Some h' ∧ h' ≡ₚ h ∧ heap_ok h'.
Proof.
  revert h. induction k as [|i IH]; intros h Hh; cbn [init_loop]; [by exists h|].
  destruct (down_ok (S (length h)) h i i (length h)) as (h' & -> & Hperm & Hok & _);
    [lia|lia|lia|lia| | |].
  - intros j Hj Hij Hne. apply Hh; lia.
  - intros c Hc Epc Hi Hpi. pose proof (parent_lt i Hi). lia.
  - simpl. pose proof (Permutation_length Hperm) as Hlen. rewrite <- Hlen in *.
    destruct (IH h' Hok) as (h'' & -> & Hp' & Hok'). exists h''.
    split_and!; [done|by rewrite Hp'|done].
Qed.

Lemma heap_Init_ok h :
  ∃ h', heap_Init less h = Some h' ∧ h' ≡ₚ h ∧ heap_ok h'.
Proof.
  apply init_loop_ok. intros j Hj Hp. exfalso.
  pose proof (proj1 (parent_eq (parent j) j ltac:(lia)) eq_refl).
  pose proof (Nat.div_mod_eq (length h) 2). pose proof (Nat.mod_upper_bound (length h) 2). lia.
Qed.

Lemma heap_Push_ok h x :
  heap_ok h → ∃ h', heap_Push less h x = Some h' ∧ h' ≡ₚ x :: h ∧ heap_ok h'.
Proof.
  intros Hh. unfold heap_Push, slice_push.
  assert (length (h ++ [x]) = S (length h)) as Hl by (rewrite length_app; simpl; lia).
  destruct (up_ok (length (h ++ [x])) (h ++ [x]) (length (h ++ [x]) - 1))
    as (h' & -> & Hperm & Hok); [lia|lia| | |].
  - intros k Hk Hne. pose proof (parent_lt k ltac:(lia)). intros a b.
    rewrite !lookup_app_l by lia. apply Hh; lia.
  - intros c Hc Epc. pose proof (parent_lt c ltac:(lia)). lia.
  - exists h'. split_and!; [done| |done]. rewrite Hperm. by rewrite Permutation_app_comm.
Qed.

(** The root of the first [n] elements is above each of them. *)
Lemma heap_root h n r j y :
  heap_from 0 n h → h !! 0 = Some r → j < n → n ≤ length h → h !! j = Some y → above r y.
Proof.
  intros Hh Hr. revert y. induction j as [j IH] using lt_wf_ind. intros y Hj Hn Hy.
  destruct (decide (j = 0)) as [->|Hj0]; [simplify_eq; apply above_refl|].
  pose proof (parent_lt j ltac:(lia)) as Hp.
  destruct (lookup_lt_is_Some_2 h (parent j)) as [z Hz]; [lia|].
  apply (above_trans r z y); [apply (IH (parent j)); [done|lia|done|done]|].
  eapply Hh; [|lia|done|done]. lia.
Qed.

Lemma heap_Pop_ok h :
  heap_ok h → h ≠ [] →
  ∃ x h', heap_Pop less h = Some (x, h') ∧ h !! 0 = Some x ∧
    h ≡ₚ x :: h' ∧ heap_ok h' ∧ ∀ y, y ∈ h → above x y.
Proof.
  intros Hh Hne. unfold heap_Pop. destruct (length h) as [|n] eqn:El; [by destruct h|].
  destruct (slice_swap_total h 0 n) as (h1 & -> & Hp1 & Hk); [lia|lia|].
  cbn [mbind option_bind].
  pose proof (Permutation_length Hp1) as Hl1.
  destruct (down_ok (S n) h1 0 0 n) as (h2 & E2 & Hp2 & Hok & Hm); [lia|lia|lia|lia| | |].
  { intros j Hj _ Hpj. apply (above_at_swap _ _ _ _ _ _ Hk). pose proof (parent_lt j ltac:(lia)).
    pose proof (Hh j ltac:(lia) ltac:(lia)). tr_cases; by try lia. }
  { lia. }
  rewrite E2. cbn [mbind option_bind]. pose proof (Permutation_length Hp2) as Hl2.
  destruct (lookup_lt_is_Some_2 h 0) as [x Hx]; [lia|].
  assert (h2 !! n = Some x) as Hn2.
  { rewrite Hm, Hk, <- Hx by done. tr_cases; by try lia. }
  unfold slice_pop. replace (length h2 - 1) with n by lia. rewrite Hn2. simpl.
  assert (h ≡ₚ x :: take n h2) as Hperm.
  { rewrite <- Hp1, <- Hp2. rewrite <- (take_drop_middle h2 n x Hn2) at 1.
    rewrite (drop_ge h2 (S n)) by lia. by rewrite Permutation_app_comm. }
  exists x, (take n h2). split_and!; [done|done|done| |].
  - intros j Hj _ a b. rewrite length_take in Hj. pose proof (parent_lt j ltac:(lia)).
    rewrite !lookup_take_lt by lia. apply Hok; lia.
  - intros y Hy. apply list_elem_of_lookup in Hy as [j Hj].
    pose proof (lookup_lt_Some _ _ _ Hj). eapply (heap_root h (length h)); [done|done| |lia|done]. lia.
Qed.

Lemma heap_ok_nil : heap_ok [].
Proof. intros j Hj. simpl in Hj. lia. Qed.
End lemmas.

#[export] Hint Resolve heap_ok_nil above_refl : ormuz.
