(* ===== verification/Model.v ===== *)
(** * The data every component shares

    pkg/model/types.go, internal/domain/ledger/payload.go and
    internal/domain/sensor/telemetry.go.  A [time.Time] is a number of
    nanoseconds ([Z]); its zero value is 0. *)

From S2P Require Import Prelude GoStd.

Record SensorData : Type := mkSensorData {
  EventID : string;
  SensorID : string;
  SectorID : Z;
  IsRequisition : bool;
  IsCritical : bool;
  InternalClock : Z;
  NationID : string;
  Signature : string;
}.

Record Mission : Type := mkMission {
  Payload : SensorData;
  LamportClock : Z;
  LeaseExpires : Z;
  LeaseHolder : string;
  BrokerAnchor : string;
}.

(** The zero values [model.SensorData{}] and [model.Mission{}]. *)
Definition zeroSensorData : SensorData :=
  mkSensorData "" "" 0 false false 0 "" "".
Definition zeroMission : Mission := mkMission zeroSensorData 0 0 "" "".

(** [model.Mission{Payload: p, LamportClock: c}]. *)
Definition newMission (p : SensorData) (c : Z) : Mission := mkMission p c 0 "" "".

(** [mission.Payload.EventID], the key of every table of missions. *)
Definition mission_id (m : Mission) : string := EventID (Payload m).

(** [mission.Payload.IsCritical = true]. *)
Definition set_critical (m : Mission) : Mission :=
  let p := Payload m in
  mkMission
    (mkSensorData (EventID p) (SensorID p) (SectorID p) (IsRequisition p) true
       (InternalClock p) (NationID p) (Signature p))
    (LamportClock m) (LeaseExpires m) (LeaseHolder m) (BrokerAnchor m).

(** [data.InternalClock = c]. *)
Definition set_clock (p : SensorData) (c : Z) : SensorData :=
  mkSensorData (EventID p) (SensorID p) (SectorID p) (IsRequisition p) (IsCritical p)
    c (NationID p) (Signature p).

(** A transaction of the chain. *)
Record Transaction : Type := mkTransaction {
  tx_Type : string;
  tx_NationID : string;
  tx_EventID : string;
  tx_Signature : string;
  tx_Payload : string;
}.

(** What a sensor emits; it has no clock field. *)
Record Telemetry : Type := mkTelemetry {
  t_EventID : string;
  t_SensorID : string;
  t_SectorID : Z;
  t_IsRequisition : bool;
  t_IsCritical : bool;
  t_NationID : string;
  t_Signature : string;
}.

Definition NewTelemetry (eventID sensorID : string) (sectorID : Z)
    (isRequisition isCritical : bool) (nationID signature : string) : Telemetry :=
  mkTelemetry eventID sensorID sectorID isRequisition isCritical nationID signature.

#[export] Instance SensorData_eq_dec : EqDecision SensorData.
Proof. solve_decision. Defined.
#[export] Instance Mission_eq_dec : EqDecision Mission.
Proof. solve_decision. Defined.
#[export] Instance Transaction_eq_dec : EqDecision Transaction.
Proof. solve_decision. Defined.
#[export] Instance Telemetry_eq_dec : EqDecision Telemetry.
Proof. solve_decision. Defined.

Lemma set_critical_id m : mission_id (set_critical m) = mission_id m.
Proof. done. Qed.

Lemma set_critical_clock m : LamportClock (set_critical m) = LamportClock m.
Proof. done. Qed.

#[export] Hint Rewrite set_critical_id set_critical_clock : ormuz_rw.
