(* ===== verification/Lamport.v ===== *)
(** * The Lamport clock (pkg/clock/lamport.go)

    One [uint64] cell read and written by atomic instructions.  [Tick] and
    [Get] are one instruction each; [Sync] is a compare-and-swap loop.  A
    goroutine inside a call is a [thread]; a schedule picks which thread
    executes its next instruction. *)

From S2P Require Import Prelude GoStd.
Local Open Scope Z_scope.

(** ** The operations *)

(** The value [atomic.AddUint64(&c, 1)] leaves and returns. *)
Definition tick_val (c : Z) : Z := wrapu64 (c + 1).

(** [newClock] of one round of the loop of [Sync], from the photograph
    [current]. *)
Definition sync_val (receivedClock current : Z) : Z :=
  let max := if current <? receivedClock then receivedClock else current in
  wrapu64 (max + 1).

(** The calls as the callers see them when no other goroutine interferes. *)
Definition Tick : go Z Z := λ c, (Ret (tick_val c), tick_val c).
Definition Get : go Z Z := λ c, (Ret c, c).
Definition Sync (receivedClock : Z) : go Z Z :=
  λ c, (Ret (sync_val receivedClock c), sync_val receivedClock c).

(** ** Interleaved execution *)

Inductive call : Type :=
| CTick
| CGet
| CSync (receivedClock : Z).

(** [Start]: the next instruction is the first of the call (for [Sync] the
    atomic load); [Loaded c]: the next instruction is the compare-and-swap
    against [c]; [Done r]: the call returned [r]. *)
Inductive pc : Type :=
| Start
| Loaded (current : Z)
| Done (result : Z).

Record thread : Type := mkThread { th_call : call; th_pc : pc }.

(** One instruction of a thread: the cell, the thread's next point, and
    whether the call took effect here. *)
Definition thread_step (mem : Z) (t : thread) : option (Z * pc * bool) :=
  match th_pc t, th_call t with
  | Done _, _ => None
  | Start, CTick => Some (tick_val mem, Done (tick_val mem), true)
  | Start, CGet => Some (mem, Done mem, true)
  | Start, CSync _ => Some (mem, Loaded mem, false)
  | Loaded current, CSync r =>
    if mem =? current then Some (sync_val r current, Done (sync_val r current), true)
    else Some (mem, Start, false)
  | Loaded _, _ => None
  end.

(** A call that took effect: the thread, the call, its result. *)
Record effect : Type := mkEffect { ef_thread : nat; ef_call : call; ef_result : Z }.

Definition result_of (p : pc) : Z := match p with Done r => r | _ => 0 end.

Record world : Type := mkWorld { w_mem : Z; w_threads : list thread; w_log : list effect }.

(** Thread [i] executes its next instruction; a thread that has returned or
    does not exist does nothing. *)
Definition sched_step (i : nat) (w : world) : world :=
  match w_threads w !! i with
  | None => w
  | Some t =>
    match thread_step (w_mem w) t with
    | None => w
    | Some (m, p, eff) =>
      mkWorld m (<[i := mkThread (th_call t) p]> (w_threads w))
        (if (eff : bool) then w_log w ++ [mkEffect i (th_call t) (result_of p)] else w_log w)
    end
  end.

Definition sched_run (sched : list nat) (w : world) : world :=
  fold_left (λ w i, sched_step i w) sched w.

Definition initial (m : Z) (calls : list call) : world :=
  mkWorld m ((λ c, mkThread c Start) <$> calls) [].

(** Can thread [i] still execute an instruction? *)
Definition runnable (i : nat) (w : world) : bool :=
  match w_threads w !! i with
  | None => false
  | Some t => match thread_step (w_mem w) t with None => false | Some _ => true end
  end.

(** The instructions a schedule really executes. *)
Fixpoint busy_steps (sched : list nat) (w : world) : nat :=
  match sched with
  | [] => O
  | i :: sched => ((if runnable i w then 1 else 0) + busy_steps sched (sched_step i w))%nat
  end.

(** ** The specification: calls one after the other *)

Definition seq_call (m : Z) (c : call) : Z * Z :=
  match c with
  | CTick => (tick_val m, tick_val m)
  | CGet => (m, m)
  | CSync r => (sync_val r m, sync_val r m)
  end.

(** The effects are those of a sequential execution from [m0] ending at [m]. *)
Inductive seq_exec : Z → list effect → Z → Prop :=
| seq_nil m : seq_exec m [] m
| seq_snoc m0 l m i c :
    seq_exec m0 l m →
    seq_exec m0 (l ++ [mkEffect i c (snd (seq_call m c))]) (fst (seq_call m c)).

(** A call that sets the clock, and the stamp it received. *)
Definition advances (c : call) : bool := match c with CGet => false | _ => true end.
Definition received (c : call) : Z := match c with CSync r => r | _ => 0 end.

(** ** Lemmas *)

Lemma tick_val_small c : 0 ≤ c < max_uint64 → tick_val c = c + 1.
Proof. intros. unfold tick_val. apply wrapu64_id. unfold is_uint64, max_uint64 in *. lia. Qed.

Lemma sync_val_small r c :
  0 ≤ r < max_uint64 → 0 ≤ c < max_uint64 → sync_val r c = Z.max r c + 1.
Proof.
  intros. unfold sync_val. destruct (Z.ltb_spec c r);
    rewrite wrapu64_id by (unfold is_uint64, max_uint64 in *; lia); lia.
Qed.

Lemma seq_call_range m c : is_uint64 m → is_uint64 (fst (seq_call m c)).
Proof. destruct c; simpl; unfold tick_val, sync_val; auto with ormuz. Qed.

(** What one scheduled instruction does to the world, in one place. *)
Lemma sched_step_cases i w :
  sched_step i w = w ∨
  ∃ t p, w_threads w !! i = Some t ∧
    (∀ r, th_pc t ≠ Done r) ∧
    ( (* no effect: the cell is unchanged *)
      (∀ r, p ≠ Done r) ∧
        sched_step i w = mkWorld (w_mem w) (<[i:=mkThread (th_call t) p]> (w_threads w)) (w_log w)
    ∨ (* the call takes effect and returns *)
      p = Done (snd (seq_call (w_mem w) (th_call t))) ∧
        sched_step i w =
          mkWorld (fst (seq_call (w_mem w) (th_call t)))
            (<[i:=mkThread (th_call t) p]> (w_threads w))
            (w_log w ++ [mkEffect i (th_call t) (snd (seq_call (w_mem w) (th_call t)))])).
Proof.
  unfold sched_step. destruct (w_threads w !! i) as [[c p]|] eqn:Ei; [|by left].
  destruct p as [|cur|r], c as [| |rc]; simpl; try (by left); right.
  - eexists _, _. split_and!; [done|done|right; by split].
  - eexists _, _. split_and!; [done|done|right; by split].
  - eexists _, (Loaded (w_mem w)). split_and!; [done|done|left; by split].
  - unfold thread_step; simpl. destruct (Z.eqb_spec (w_mem w) cur) as [<-|].
    + eexists _, _. split_and!; [done|done|right; by split].
    + eexists _, Start. split_and!; [done|done|left; by split].
Qed.

(** Induction over a schedule. *)
Lemma sched_run_ind (P : world → Prop) sched w :
  P w → (∀ i w, P w → P (sched_step i w)) → P (sched_run sched w).
Proof.
  intros Hw Hstep. revert w Hw. induction sched as [|i sched IH]; intros w Hw; [done|].
  apply IH, Hstep, Hw.
Qed.

(** The effects of thread [i] in a log. *)
Definition effects_of (i : nat) (l : list effect) : list effect :=
  filter (λ e, ef_thread e = i) l.

(** Every thread that returned took effect exactly once, with its result;
    the others have not taken effect. *)
Definition thread_logged (l : list effect) (i : nat) (t : thread) : Prop :=
  effects_of i l = match th_pc t with Done r => [mkEffect i (th_call t) r] | _ => [] end.

Definition linearized (m0 : Z) (calls : list call) (w : world) : Prop :=
  seq_exec m0 (w_log w) (w_mem w) ∧
  th_call <$> w_threads w = calls ∧
  (∀ i t, w_threads w !! i = Some t → thread_logged (w_log w) i t).

Lemma effects_of_snoc i l e :
  effects_of i (l ++ [e]) = effects_of i l ++ (if decide (ef_thread e = i) then [e] else []).
Proof. unfold effects_of. rewrite filter_app. f_equal. Qed.

Lemma call_update i c p t (ts : list thread) :
  ts !! i = Some t → th_call t = c → th_call <$> <[i:=mkThread c p]> ts = th_call <$> ts.
Proof.
  intros Hi <-. rewrite list_fmap_insert. simpl. apply list_insert_id.
  by rewrite list_lookup_fmap, Hi.
Qed.

Lemma linearized_step m0 calls i w :
  linearized m0 calls w → linearized m0 calls (sched_step i w).
Proof.
  intros (Hs & Hc & Hl).
  destruct (sched_step_cases i w) as [-> | (t & p & Hi & Hnd & H)]; [by split_and!|].
  pose proof (Hl _ _ Hi) as Hti. unfold thread_logged in Hti.
  assert (effects_of i (w_log w) = []) as Hnone.
  { rewrite Hti. destruct (th_pc t) eqn:E; [done|done|by destruct (Hnd result)]. }
  destruct H as [[Hp ->] | [Hp ->]]; split_and!; simpl.
  - done.
  - by rewrite (call_update i _ _ t).
  - intros j u [(<- & <- & _)|[Hne Hj]]%list_lookup_insert_Some; [|by apply Hl].
    unfold thread_logged. rewrite Hnone. simpl. destruct p; [done|done|by destruct (Hp result)].
  - by constructor.
  - by rewrite (call_update i _ _ t).
  - intros j u [(<- & <- & _)|[Hne Hj]]%list_lookup_insert_Some;
      unfold thread_logged; rewrite effects_of_snoc; simpl.
    + rewrite Hnone, Hp. by rewrite decide_True.
    + rewrite decide_False by done. rewrite app_nil_r. by apply Hl.
Qed.

Lemma linearized_run m0 calls sched :
  linearized m0 calls (sched_run sched (initial m0 calls)).
Proof.
  apply sched_run_ind; [|by intros; apply linearized_step]. split_and!; simpl.
  - constructor.
  - induction calls as [|c l IH]; [done|]. rewrite !fmap_cons. by rewrite IH.
  - intros i t Hi. rewrite list_lookup_fmap in Hi.
    destruct (calls !! i); simplify_eq/=. done.
Qed.

(** Sequential executions below the wrap-around: results never decrease, a
    [Tick] or [Sync] exceeds every earlier result and the stamp it received. *)
Lemma seq_exec_increasing m0 l m B :
  seq_exec m0 l m → 0 ≤ m0 ≤ B →
  Forall (λ e, 0 ≤ received (ef_call e) ≤ B) l →
  B + Z.of_nat (length l) ≤ max_uint64 →
  m0 ≤ m ≤ B + Z.of_nat (length l) ∧
  (∀ e, e ∈ l → ef_result e ≤ m) ∧
  (∀ i j e1 e2, (i < j)%nat → l !! i = Some e1 → l !! j = Some e2 →
     advances (ef_call e2) = true → ef_result e1 < ef_result e2) ∧
  (∀ e, e ∈ l → advances (ef_call e) = true → received (ef_call e) < ef_result e).
Proof.
  induction 1 as [m|m0 l m i c Hseq IH]; intros Hm0 Hl HB.
  { split_and!; [lia|simpl in *; lia|set_solver| |set_solver]. intros i j e1 e2 _ H. done. }
  rewrite Forall_app, Forall_singleton in Hl. destruct Hl as [Hl Hc].
  cbn [ef_call] in Hc.
  rewrite length_app in HB. cbn [length] in HB.
  destruct IH as (Hm & Hres & Hpair & Hrecv); [done|done|lia|].
  assert (m ≤ fst (seq_call m c) ≤ m + 1 ∨ m ≤ fst (seq_call m c) ≤ B + 1) as Hstep.
  { destruct c; cbn [seq_call fst]; [rewrite tick_val_small by lia; lia|lia|].
    cbn [received] in Hc. rewrite sync_val_small by lia. lia. }
  assert (snd (seq_call m c) = fst (seq_call m c)) as Esame by (by destruct c).
  assert (advances c = true → m < fst (seq_call m c) ∧ received c < fst (seq_call m c)) as Hadv.
  { destruct c; cbn [seq_call fst advances received] in *; [|done|]; intros _.
    - rewrite tick_val_small by lia. lia.
    - rewrite sync_val_small by lia. lia. }
  rewrite length_app. cbn [length]. split_and!; [lia|lia| | |].
  - intros e [He| ->%list_elem_of_singleton]%elem_of_app; [specialize (Hres e He); lia|].
    simpl. lia.
  - intros a b e1 e2 Hab Ha Hb Hadv2. apply lookup_app_Some in Hb as [Hb|[Hlen Hb]].
    + assert (a < length l)%nat by (apply lookup_lt_Some in Hb; lia).
      rewrite lookup_app_l in Ha by done. by apply (Hpair a b e1 e2).
    + apply list_lookup_singleton_Some in Hb as [Hb <-]. simpl in *.
      rewrite lookup_app_l in Ha by lia. apply list_elem_of_lookup_2, Hres in Ha.
      specialize (Hadv Hadv2). lia.
  - intros e [He| ->%list_elem_of_singleton]%elem_of_app Ha; [by apply Hrecv|].
    simpl in *. specialize (Hadv Ha). lia.
Qed.

(** ** Progress of the compare-and-swap loop

    The potential: a thread about to start weighs 2, one whose photograph is
    current 1, one whose photograph is stale 3; a return makes at most every
    other live thread stale, which the square of the number of live threads
    pays for. *)

Definition weight (mem : Z) (t : thread) : nat :=
  match th_pc t with
  | Done _ => 0
  | Start => 2
  | Loaded c => if mem =? c then 1 else 3
  end.

Definition live (t : thread) : nat := match th_pc t with Done _ => 0 | _ => 1 end.

Definition live_count (w : world) : nat := sum_list_with live (w_threads w).

Definition potential (w : world) : nat :=
  (sum_list_with (weight (w_mem w)) (w_threads w) + live_count w * live_count w)%nat.

Lemma sum_list_with_insert {A} (f : A → nat) (l : list A) i x y :
  l !! i = Some x → (sum_list_with f (<[i:=y]> l) + f x = sum_list_with f l + f y)%nat.
Proof.
  revert i. induction l as [|z l IH]; intros [|i] H; simplify_eq/=; [lia|].
  specialize (IH i H). lia.
Qed.

(** Moving the cell makes a live thread heavier by at most two. *)
Lemma weight_move m m' (ts : list thread) :
  (sum_list_with (weight m') ts ≤ sum_list_with (weight m) ts + 2 * sum_list_with live ts)%nat.
Proof.
  induction ts as [|t ts IH]; cbn [sum_list_with]; [lia|].
  assert (weight m' t ≤ weight m t + 2 * live t)%nat; [|lia].
  unfold weight, live. destruct (th_pc t); repeat case_match; lia.
Qed.

Lemma weight_Start m c : weight m (mkThread c Start) = 2%nat.
Proof. done. Qed.
Lemma weight_Done m c r : weight m (mkThread c (Done r)) = 0%nat.
Proof. done. Qed.
Lemma weight_Loaded m c v :
  weight m (mkThread c (Loaded v)) = if m =? v then 1%nat else 3%nat.
Proof. done. Qed.
Lemma live_Start c : live (mkThread c Start) = 1%nat.
Proof. done. Qed.
Lemma live_Done c r : live (mkThread c (Done r)) = 0%nat.
Proof. done. Qed.
Lemma live_Loaded c v : live (mkThread c (Loaded v)) = 1%nat.
Proof. done. Qed.

Lemma potential_step i w :
  ((if runnable i w then 1 else 0) + potential (sched_step i w) ≤ potential w)%nat.
Proof.
  unfold potential, live_count, sched_step, runnable.
  destruct (w_threads w !! i) as [t|] eqn:Ei; [|lia].
  destruct (thread_step (w_mem w) t) as [[[m p] eff]|] eqn:Es; [|lia]. cbn [w_mem w_threads].
  pose proof (sum_list_with_insert (weight (w_mem w)) _ _ _ (mkThread (th_call t) p) Ei) as Hw.
  pose proof (sum_list_with_insert live _ _ _ (mkThread (th_call t) p) Ei) as Hl.
  destruct t as [c q]. unfold thread_step in Es. cbn [th_call th_pc] in *.
  set (ts := <[i:=mkThread c p]> (w_threads w)) in *.
  pose proof (weight_move (w_mem w) m ts) as Hmove. clearbody ts.
  destruct q as [|cur|], c as [| |rc]; simplify_eq;
    [| | |destruct (Z.eqb_spec (w_mem w) cur) as [<-|Hne]; simplify_eq..];
    rewrite ?weight_Start, ?weight_Done, ?weight_Loaded, ?Z.eqb_refl in Hw;
    rewrite ?live_Start, ?live_Done, ?live_Loaded in Hl; try nia.
  apply Z.eqb_neq in Hne. rewrite Hne in Hw. nia.
Qed.

Lemma busy_steps_potential sched w :
  (busy_steps sched w + potential (sched_run sched w) ≤ potential w)%nat.
Proof.
  revert w. induction sched as [|i sched IH]; intros w; [simpl; lia|].
  pose proof (potential_step i w). specialize (IH (sched_step i w)). simpl in *. lia.
Qed.

Lemma potential_initial m calls :
  potential (initial m calls) = (2 * length calls + length calls * length calls)%nat.
Proof.
  unfold potential, live_count, initial; cbn [w_mem w_threads].
  assert (sum_list_with (weight m) ((λ c, mkThread c Start) <$> calls) = 2 * length calls ∧
          sum_list_with live ((λ c, mkThread c Start) <$> calls) = length calls)%nat as [-> ->];
    [|lia].
  induction calls as [|c calls [IH1 IH2]]; [done|]. rewrite fmap_cons. simpl.
  rewrite IH1, IH2. unfold weight, live; simpl. lia.
Qed.

(** ** Properties *)

(** C19: however the instructions of concurrent [Tick], [Get] and [Sync] calls
    interleave, the cell and the results are those of the calls executed one
    after the other in the order of their effects, and a call that returned
    took effect exactly once, with the result it returned. *)
Theorem clock_linearizable (sched : list nat) (m0 : Z) (calls : list call) :
  seq_exec m0 (w_log (sched_run sched (initial m0 calls)))
    (w_mem (sched_run sched (initial m0 calls))) ∧
  th_call <$> w_threads (sched_run sched (initial m0 calls)) = calls ∧
  (∀ i t, w_threads (sched_run sched (initial m0 calls)) !! i = Some t →
     effects_of i (w_log (sched_run sched (initial m0 calls))) =
       match th_pc t with Done r => [mkEffect i (th_call t) r] | _ => [] end).
Proof. apply (linearized_run m0 calls sched). Qed.

Lemma log_length sched w :
  (length (w_log (sched_run sched w)) ≤ length (w_log w) + length sched)%nat.
Proof.
  revert w. induction sched as [|i sched IH]; intros w; [simpl; lia|].
  change (sched_run (i :: sched) w) with (sched_run sched (sched_step i w)).
  specialize (IH (sched_step i w)).
  destruct (sched_step_cases i w) as [E | (t & p & _ & _ & [[_ E]|[_ E]])];
    rewrite E in IH |- *; cbn [w_log] in *; rewrite ?length_app in IH; simpl in *; lia.
Qed.

Lemma linearized_received m0 calls w (P : Z → Prop) :
  linearized m0 calls w → P 0 → Forall (λ c, P (received c)) calls →
  (∀ e, e ∈ w_log w → ∃ t, w_threads w !! ef_thread e = Some t ∧ ef_call e = th_call t) →
  Forall (λ e, P (received (ef_call e))) (w_log w).
Proof.
  intros (_ & Hc & _) H0 Hall Hthr. apply Forall_forall. intros e He.
  destruct (Hthr e He) as (t & Ht & ->). rewrite Forall_forall in Hall.
  apply Hall. rewrite <- Hc. apply list_elem_of_fmap_2, list_elem_of_lookup. eauto.
Qed.

(** Every effect belongs to a thread and carries that thread's call. *)
Lemma log_threads sched m0 calls e :
  e ∈ w_log (sched_run sched (initial m0 calls)) →
  ∃ t, w_threads (sched_run sched (initial m0 calls)) !! ef_thread e = Some t ∧
       ef_call e = th_call t.
Proof.
  revert e. apply (sched_run_ind (λ w, ∀ e, e ∈ w_log w →
    ∃ t, w_threads w !! ef_thread e = Some t ∧ ef_call e = th_call t)).
  { intros e He. by apply not_elem_of_nil in He. }
  intros i w IH e He.
  destruct (sched_step_cases i w) as [E | (t & p & Hi & _ & H)]; [rewrite E in *; by apply IH|].
  assert (w_threads (sched_step i w) = <[i:=mkThread (th_call t) p]> (w_threads w)) as Ht
    by (by destruct H as [[_ ->]|[_ ->]]).
  assert (e ∈ w_log w ∨ e = mkEffect i (th_call t) (snd (seq_call (w_mem w) (th_call t)))) as He'.
  { destruct H as [[_ E]|[_ E]]; rewrite E in He; cbn [w_log] in He; [by left|].
    apply elem_of_app in He as [He|He]; [by left|right]. by apply list_elem_of_singleton in He. }
  rewrite Ht. destruct (decide (ef_thread e = i)) as [Ee|Hne].
  - exists (mkThread (th_call t) p). rewrite Ee, list_lookup_insert_eq by (by eapply lookup_lt_Some).
    split; [done|]. destruct He' as [He'| ->]; [|done].
    destruct (IH _ He') as (u & Hu & ->). rewrite Ee in Hu. by simplify_eq.
  - rewrite list_lookup_insert_ne by done. destruct He' as [He'| ->]; [by apply IH|done].
Qed.

(** C20: as long as no stamp comes near the end of [uint64], causality holds
    under every interleaving: a [Tick] or [Sync] returns more than every call
    that took effect before it, and a [Sync] more than the stamp it got. *)
Theorem clock_causality (sched : list nat) (m0 B : Z) (calls : list call) :
  0 ≤ m0 ≤ B →
  Forall (λ c, 0 ≤ received c ≤ B) calls →
  B + Z.of_nat (length sched) ≤ max_uint64 →
  (∀ i j e1 e2, (i < j)%nat →
     w_log (sched_run sched (initial m0 calls)) !! i = Some e1 →
     w_log (sched_run sched (initial m0 calls)) !! j = Some e2 →
     advances (ef_call e2) = true → ef_result e1 < ef_result e2) ∧
  (∀ e, e ∈ w_log (sched_run sched (initial m0 calls)) →
     advances (ef_call e) = true → received (ef_call e) < ef_result e).
Proof.
  intros Hm0 Hcalls HB. pose proof (linearized_run m0 calls sched) as Hlin.
  pose proof (log_length sched (initial m0 calls)) as Hlen. simpl in Hlen.
  eapply seq_exec_increasing; [apply Hlin|done| |lia].
  apply (linearized_received m0 calls _ (λ r, 0 ≤ r ≤ B)); [done|lia|done|].
  apply log_threads.
Qed.

Lemma clock_causality_witness :
  ef_result <$> w_log (sched_run [0;1;1;0;0;0]%nat (initial 5 [CSync 7; CTick])) = [6; 8] ∧
  (∀ e, e ∈ w_log (sched_run [0;1;1;0;0;0]%nat (initial 5 [CSync 7; CTick])) →
     advances (ef_call e) = true → received (ef_call e) < ef_result e).
Proof.
  split; [by vm_compute|].
  refine (proj2 (clock_causality [0;1;1;0;0;0]%nat 5 7 [CSync 7; CTick] _ _ _)).
  - lia.
  - repeat constructor; simpl; lia.
  - unfold max_uint64; simpl; lia.
Defined.

(** The loop of [Sync] is lock-free: under any schedule the calls of [n]
    goroutines execute at most [n * n + 2 * n] instructions in all, so every
    schedule that keeps running unfinished calls finishes them. *)
Lemma clock_progress (sched : list nat) (m0 : Z) (calls : list call) :
  (busy_steps sched (initial m0 calls) ≤ length calls * length calls + 2 * length calls)%nat.
Proof.
  pose proof (busy_steps_potential sched (initial m0 calls)) as H.
  rewrite potential_initial in H. lia.
Qed.

(** One stamp of [2^64 - 1] resets the clock to 0, whatever its value:
    the [max + 1] of [Sync] wraps around. *)
Lemma Sync_wraps (c : Z) :
  is_uint64 c → Sync max_uint64 c = (Ret 0, 0).
Proof.
  unfold is_uint64. intros Hc. unfold Sync, sync_val.
  assert ((if c <? max_uint64 then max_uint64 else c) = max_uint64) as ->
    by (destruct (Z.ltb_spec c max_uint64); lia).
  reflexivity.
Qed.

Lemma Sync_wraps_witness : is_uint64 41 ∧ Sync max_uint64 41 = (Ret 0, 0).
Proof.
  assert (is_uint64 41) as H by (unfold is_uint64, max_uint64; lia).
  split; [exact H|]. exact (Sync_wraps 41 H).
Defined.
