(* ===== verification/Queue.v ===== *)
(** * The mission queue (pkg/queue/priority_queue.go)

    A binary heap of missions: critical ones first, then by Lamport clock,
    then by sensor.  [Enqueue], [Dequeue] and one round of the
    anti-starvation worker each hold the mutex from start to end, so each is
    one step of the queue. *)

From stdpp Require Import sorting.
From S2P Require Import Prelude GoStd GoHeap Model Lamport.

(** ** The heap's order and the queue *)

(** [missionHeap.Less] on the two missions at the compared indices. *)
Definition mission_less (a b : Mission) : bool :=
  if negb (Bool.eqb (IsCritical (Payload a)) (IsCritical (Payload b)))
  then IsCritical (Payload a)
  else if negb (LamportClock a =? LamportClock b)%Z
  then (LamportClock a <? LamportClock b)%Z
  else str_ltb (SensorID (Payload a)) (SensorID (Payload b)).

Record PriorityQueue : Type := mkPQ {
  mh : list Mission;
  agingLimit : Z;
}.

Definition set_mh (h : list Mission) (q : PriorityQueue) : PriorityQueue :=
  mkPQ h (agingLimit q).

(** [heap.Init(pq.mh)] on an empty heap leaves it empty. *)
Definition New (limit : Z) : PriorityQueue :=
  mkPQ (default [] (heap_Init mission_less [])) limit.

(** ** Operations *)

Definition Enqueue (m : Mission) : go PriorityQueue () :=
  q ← get;
  h ← or_panic IndexRange (heap_Push mission_less (mh q) m);
  modify (set_mh h).

Definition Dequeue : go PriorityQueue (Mission * bool) :=
  q ← get;
  if Nat.eqb (length (mh q)) 0 then mret (zeroMission, false)
  else
    r ← or_panic IndexRange (heap_Pop mission_less (mh q));
    modify (set_mh (snd r)) ;;
    mret (fst r, true).

(** The test of the worker on one mission. *)
Definition starved (currentClock limit : Z) (m : Mission) : bool :=
  negb (IsCritical (Payload m)) &&
  ((LamportClock m <? currentClock)%Z &&
   (limit <? wrapu64 (currentClock - LamportClock m))%Z).

Definition promote (currentClock limit : Z) (m : Mission) : Mission :=
  if starved currentClock limit m then set_critical m else m.

(** One round of [antiStarvationWorker], the clock being what [clock.Get]
    returned. *)
Definition antiStarvationRound (currentClock : Z) : go PriorityQueue () :=
  q ← get;
  if Nat.eqb (length (mh q)) 0 then mret ()
  else
    let h := promote currentClock (agingLimit q) <$> mh q in
    modify (set_mh h) ;;
    if existsb (starved currentClock (agingLimit q)) (mh q) then
      h' ← or_panic IndexRange (heap_Init mission_less h);
      modify (set_mh h')
    else mret ().

(** One line of [PrintAllMissions]: index, label of at most 8 bytes, level,
    sensor. *)
Definition print_line (i : nat) (m : Mission) : go PriorityQueue (nat * string * bool * string) :=
  label ← (if Nat.ltb 8 (String.length (mission_id m))
           then or_panic SliceBounds (slice_to (mission_id m) 8)
           else mret (mission_id m));
  mret (i, label, IsCritical (Payload m), SensorID (Payload m)).

Fixpoint print_lines (i : nat) (l : list Mission) :
    go PriorityQueue (list (nat * string * bool * string)) :=
  match l with
  | [] => mret []
  | m :: l => x ← print_line i m; xs ← print_lines (S i) l; mret (x :: xs)
  end.

Definition PrintAllMissions : go PriorityQueue (list (nat * string * bool * string)) :=
  q ← get;
  if Nat.eqb (length (mh q)) 0 then mret [] else print_lines 0 (mh q).

(** ** Invariant *)

Definition pq_ok (q : PriorityQueue) : Prop := heap_ok mission_less (mh q).

(** [a] is served no later than [b]. *)
Definition before (a b : Mission) : Prop := above mission_less a b.

(** ** Abstract specification: a bag of missions *)

Inductive pq_op : Type :=
| OEnqueue (m : Mission)
| ODequeue
| OAge (currentClock : Z).

Definition run_op (o : pq_op) : go PriorityQueue (option Mission) :=
  match o with
  | OEnqueue m => Enqueue m ;; mret None
  | ODequeue => '(m, found) ← Dequeue; mret (if (found : bool) then Some m else None)
  | OAge c => antiStarvationRound c ;; mret None
  end.

Inductive bag_step (limit : Z) : list Mission → pq_op → option Mission → list Mission → Prop :=
| bag_enqueue s m s' : s' ≡ₚ m :: s → bag_step limit s (OEnqueue m) None s'
| bag_empty : bag_step limit [] ODequeue None []
| bag_dequeue s m s' :
    s ≡ₚ m :: s' → (∀ y, y ∈ s → before m y) → bag_step limit s ODequeue (Some m) s'
| bag_age s c s' : s' ≡ₚ promote c limit <$> s → bag_step limit s (OAge c) None s'.

Inductive bag_run (limit : Z) : list Mission → list pq_op → list (option Mission) →
    list Mission → Prop :=
| bag_done s : bag_run limit s [] [] s
| bag_cons s o r s1 os rs s2 :
    bag_step limit s o r s1 → bag_run limit s1 os rs s2 →
    bag_run limit s (o :: os) (r :: rs) s2.

(** ** Lemmas: the order *)

#[export] Instance mission_less_order : StrictWeakOrder mission_less.
Proof.
  split.
  - intros x y. unfold mission_less.
    destruct (IsCritical (Payload x)), (IsCritical (Payload y)); simpl; try done;
    destruct (Z.eqb_spec (LamportClock x) (LamportClock y)),
      (Z.eqb_spec (LamportClock y) (LamportClock x)); simpl; try lia;
    try apply str_ltb_asym; rewrite Z.ltb_lt, Z.ltb_ge; lia.
  - intros x y z. unfold mission_less.
    destruct (IsCritical (Payload x)), (IsCritical (Payload y)), (IsCritical (Payload z));
      simpl; try done;
    destruct (Z.eqb_spec (LamportClock y) (LamportClock x)),
      (Z.eqb_spec (LamportClock z) (LamportClock y)),
      (Z.eqb_spec (LamportClock z) (LamportClock x)); simpl; try lia;
    rewrite ?Z.ltb_ge; try lia.
    all: intros; eapply (transitivity (R := str_le)); eassumption.
Qed.

Lemma before_refl m : before m m.
Proof. apply above_refl, _. Qed.

Lemma before_trans a b c : before a b → before b c → before a c.
Proof. apply above_trans, _. Qed.

Lemma before_total a b : before a b ∨ before b a.
Proof.
  unfold before, above. destruct (mission_less a b) eqn:E; [|by right].
  left. by apply swo_asym.
Qed.

(** A mission served no later than a critical one is critical and not younger. *)
Lemma before_critical a m :
  before a m → IsCritical (Payload m) = true →
  IsCritical (Payload a) = true ∧ (LamportClock a ≤ LamportClock m)%Z.
Proof.
  unfold before, above, mission_less. intros H Hm. rewrite Hm in H.
  destruct (IsCritical (Payload a)); simpl in H; [|done]. split; [done|].
  destruct (Z.eqb_spec (LamportClock m) (LamportClock a)); simpl in H; [lia|].
  by apply Z.ltb_ge in H.
Qed.

(** ** Lemmas: one operation *)

Lemma New_ok limit : pq_ok (New limit).
Proof. apply heap_ok_nil. Qed.

Lemma New_empty limit : mh (New limit) = [].
Proof. done. Qed.

Lemma Enqueue_ok q m :
  pq_ok q →
  ∃ q', Enqueue m q = (Ret (), q') ∧ pq_ok q' ∧ mh q' ≡ₚ m :: mh q ∧
        agingLimit q' = agingLimit q.
Proof.
  intros Hq. destruct (heap_Push_ok mission_less (mh q) m Hq) as (h & E & Hp & Hh).
  exists (set_mh h q). unfold Enqueue. go_unfold. by rewrite E.
Qed.

Lemma Dequeue_empty q : mh q = [] → Dequeue q = (Ret (zeroMission, false), q).
Proof. intros E. unfold Dequeue. go_unfold. by rewrite E. Qed.

Lemma Dequeue_ok q :
  pq_ok q → mh q ≠ [] →
  ∃ m q', Dequeue q = (Ret (m, true), q') ∧ pq_ok q' ∧ mh q ≡ₚ m :: mh q' ∧
          agingLimit q' = agingLimit q ∧ ∀ y, y ∈ mh q → before m y.
Proof.
  intros Hq Hne. destruct (heap_Pop_ok mission_less (mh q) Hq Hne) as (m & h & E & _ & Hp & Hh & Hb).
  exists m, (set_mh h q). unfold Dequeue. go_unfold.
  destruct (Nat.eqb_spec (length (mh q)) 0) as [E0|_]; [by apply nil_length_inv in E0|].
  by rewrite E.
Qed.

Lemma promote_not_starved c l h :
  existsb (starved c l) h = false → promote c l <$> h = h.
Proof.
  induction h as [|m h IH]; [done|]. cbn [existsb]. intros [H1 H2]%orb_false_iff.
  rewrite fmap_cons. unfold promote at 1. by rewrite H1, IH.
Qed.

Lemma antiStarvationRound_ok q c :
  pq_ok q →
  ∃ q', antiStarvationRound c q = (Ret (), q') ∧ pq_ok q' ∧
        mh q' ≡ₚ promote c (agingLimit q) <$> mh q ∧ agingLimit q' = agingLimit q.
Proof.
  intros Hq. unfold antiStarvationRound. go_unfold.
  destruct (Nat.eqb_spec (length (mh q)) 0) as [E|_].
  { apply nil_length_inv in E. exists q. by rewrite E. }
  destruct (existsb _ (mh q)) eqn:Ex.
  - destruct (heap_Init_ok mission_less (promote c (agingLimit q) <$> mh q)) as (h & E & Hp & Hh).
    exists (set_mh h q). by rewrite E.
  - exists q. rewrite promote_not_starved by done. by destruct q.
Qed.

(** What promotion changes. *)
Lemma promote_id c l m : mission_id (promote c l m) = mission_id m.
Proof. unfold promote. by destruct (starved c l m). Qed.

Lemma promote_clock c l m : LamportClock (promote c l m) = LamportClock m.
Proof. unfold promote. by destruct (starved c l m). Qed.

Lemma promote_critical c l m : IsCritical (Payload m) = true → promote c l m = m.
Proof. intros H. unfold promote, starved. by rewrite H. Qed.

(** A round keeps the missions' identifiers. *)
Lemma aging_ids q c :
  pq_ok q → ∃ q', antiStarvationRound c q = (Ret (), q') ∧ pq_ok q' ∧
    mission_id <$> mh q' ≡ₚ mission_id <$> mh q.
Proof.
  intros Hq. destruct (antiStarvationRound_ok q c Hq) as (q' & E & Hok & Hp & _).
  exists q'. split_and!; [done|done|]. rewrite Hp, <- list_fmap_compose.
  apply reflexive_eq, list_fmap_ext. intros i x _. apply promote_id.
Qed.

Lemma starved_iff c l m :
  is_uint64 c → is_uint64 (LamportClock m) →
  starved c l m = true ↔
  IsCritical (Payload m) = false ∧ (0 ≤ l → LamportClock m + l < c ∧ LamportClock m < c)%Z ∧
  (l < 0 → LamportClock m < c)%Z.
Proof.
  unfold is_uint64. intros Hc Hm. unfold starved.
  rewrite !andb_true_iff, negb_true_iff, !Z.ltb_lt.
  split.
  - intros (? & ? & H). rewrite wrapu64_id in H by (unfold is_uint64; lia). split_and!; [done|lia|lia].
  - intros (? & H1 & H2). assert (LamportClock m < c)%Z by lia.
    rewrite wrapu64_id by (unfold is_uint64; lia). split_and!; [done|lia|lia].
Qed.

Lemma starved_promoted c l m :
  starved c l m = true → promote c l m = set_critical m.
Proof. unfold promote. by intros ->. Qed.

(** ** Lemmas: runs against the bag *)

Lemma run_op_bag o q :
  pq_ok q →
  ∃ r q', run_op o q = (Ret r, q') ∧ pq_ok q' ∧ agingLimit q' = agingLimit q ∧
          bag_step (agingLimit q) (mh q) o r (mh q').
Proof.
  intros Hq. destruct o as [m| |c]; unfold run_op.
  - destruct (Enqueue_ok q m Hq) as (q' & E & Hok & Hp & Hl). exists None, q'.
    go_unfold. rewrite E. split_and!; [done|done|done|by constructor].
  - destruct (decide (mh q = [])) as [E|Hne].
    + exists None, q. go_unfold. rewrite (Dequeue_empty q E), E.
      split_and!; [done|done|done|by constructor].
    + destruct (Dequeue_ok q Hq Hne) as (m & q' & E & Hok & Hp & Hl & Hb). exists (Some m), q'.
      go_unfold. rewrite E. split_and!; [done|done|done|by constructor].
  - destruct (antiStarvationRound_ok q c Hq) as (q' & E & Hok & Hp & Hl). exists None, q'.
    go_unfold. rewrite E. split_and!; [done|done|done|by constructor].
Qed.

Lemma run_ops_bag os q :
  pq_ok q →
  ∃ rs q', go_map run_op os q = (Ret rs, q') ∧ pq_ok q' ∧ agingLimit q' = agingLimit q ∧
           bag_run (agingLimit q) (mh q) os rs (mh q').
Proof.
  revert q. induction os as [|o os IH]; intros q Hq.
  { exists [], q. split_and!; [done|done|done|constructor]. }
  destruct (run_op_bag o q Hq) as (r & q1 & E1 & Hq1 & Hl1 & Hs).
  destruct (IH q1 Hq1) as (rs & q2 & E2 & Hq2 & Hl2 & Hr). rewrite Hl1 in *.
  exists (r :: rs), q2. split_and!; [by eapply go_map_cons|done|done|by econstructor].
Qed.

(** A critical mission among [k] missions no younger than itself is served by
    the [k]-th [Dequeue] at the latest, if only younger ones are added. *)
Definition no_older (c : Z) (m : Mission) : bool := (LamportClock m <=? c)%Z.
Definition count_no_older (c : Z) (s : list Mission) : nat := length (filter (no_older c) s).
Definition is_dequeue (o : pq_op) : bool := match o with ODequeue => true | _ => false end.
Definition younger_op (c : Z) (o : pq_op) : Prop :=
  match o with OEnqueue x => (c < LamportClock x)%Z | _ => True end.

Lemma count_no_older_perm c s s' : s ≡ₚ s' → count_no_older c s = count_no_older c s'.
Proof. intros H. unfold count_no_older. by rewrite H. Qed.

Lemma count_no_older_cons c m s :
  count_no_older c (m :: s) = ((if no_older c m then 1 else 0) + count_no_older c s)%nat.
Proof.
  unfold count_no_older. rewrite filter_cons. unfold no_older.
  by destruct (Z.leb_spec (LamportClock m) c).
Qed.

Lemma count_no_older_promote c k l s : count_no_older c (promote k l <$> s) = count_no_older c s.
Proof.
  induction s as [|m s IH]; [done|]. rewrite fmap_cons, !count_no_older_cons, IH.
  unfold no_older. by rewrite promote_clock.
Qed.

Lemma bag_run_serves limit s os rs s' m :
  bag_run limit s os rs s' →
  m ∈ s → IsCritical (Payload m) = true →
  Forall (younger_op (LamportClock m)) os →
  (count_no_older (LamportClock m) s ≤ length (filter is_dequeue os))%nat →
  Some m ∈ rs.
Proof.
  induction 1 as [s|s o r s1 os rs s2 Hstep Hrun IH]; intros Hm Hcrit Hall Hcount.
  { exfalso. assert (0 < count_no_older (LamportClock m) s)%nat; [|simpl in Hcount; lia].
    apply elem_of_Permutation in Hm as [t Hp].
    rewrite (count_no_older_perm _ _ _ Hp), count_no_older_cons.
    unfold no_older. rewrite Z.leb_refl. lia. }
  apply Forall_cons in Hall as [Ho Hall]. rewrite filter_cons in Hcount.
  destruct Hstep as [s x s1 Hp| |s x s1 Hp Hb|s k s1 Hp]; simpl in Hcount.
  - apply list_elem_of_further, IH; [rewrite Hp; set_solver|done|done|].
    simpl in Ho. rewrite (count_no_older_perm _ _ _ Hp), count_no_older_cons.
    unfold no_older at 1. destruct (Z.leb_spec (LamportClock x) (LamportClock m)); lia.
  - by apply not_elem_of_nil in Hm.
  - destruct (decide (x = m)) as [->|Hne]; [by left|].
    apply list_elem_of_further, IH; [|done|done|].
    + rewrite Hp in Hm. by apply elem_of_cons in Hm as [->|Hm].
    + destruct (before_critical x m (Hb m Hm) Hcrit) as [_ Hx].
      rewrite (count_no_older_perm _ _ _ Hp), count_no_older_cons in Hcount.
      unfold no_older at 1 in Hcount. apply Z.leb_le in Hx. rewrite Hx in Hcount. lia.
  - apply list_elem_of_further, IH; [|done|done|].
    + rewrite Hp. apply list_elem_of_fmap. exists m. by rewrite promote_critical.
    + by rewrite (count_no_older_perm _ _ _ Hp), count_no_older_promote.
Qed.

(** ** Properties *)

(** C13: from [New], any sequence of [Enqueue], [Dequeue] and worker rounds runs
    without a panic and behaves as the bag of missions: [Dequeue] returns a
    mission no other precedes and removes just it, an aging round only
    promotes; the array stays a heap throughout. *)
Theorem queue_refines_bag (limit : Z) (ops : list pq_op) :
  ∃ rs q', go_map run_op ops (New limit) = (Ret rs, q') ∧ pq_ok q' ∧
           bag_run limit [] ops rs (mh q').
Proof.
  destruct (run_ops_bag ops (New limit) (New_ok limit)) as (rs & q' & E & Hok & _ & Hr).
  by exists rs, q'.
Qed.

Definition drain (n : nat) : list pq_op := replicate n ODequeue.

Lemma drain_sorted q n :
  pq_ok q → length (mh q) = n →
  ∃ ms q', go_map run_op (drain n) q = (Ret (Some <$> ms), q') ∧ mh q' = [] ∧
           ms ≡ₚ mh q ∧ StronglySorted before ms.
Proof.
  revert q. induction n as [|n IH]; intros q Hq Hn.
  { exists [], q. apply nil_length_inv in Hn. rewrite Hn. by repeat split; constructor. }
  destruct (Dequeue_ok q Hq) as (m & q1 & E1 & Hq1 & Hp & _ & Hb); [by intros E; rewrite E in Hn|].
  pose proof (Permutation_length Hp) as Hl. simpl in Hl.
  destruct (IH q1 Hq1) as (ms & q2 & E2 & He & Hp2 & Hs); [lia|].
  exists (m :: ms), q2. split_and!; [|done|by rewrite Hp2, Hp|].
  { eapply go_map_cons; [|exact E2]. unfold run_op. by rewrite (go_bind_run _ _ _ _ _ E1). } constructor; [done|].
  apply Forall_forall. intros y Hy. apply Hb. rewrite Hp, <- Hp2. set_solver.
Qed.

(** Dequeuing everything returns all missions of the queue, each once, in
    priority order: the queue sorts. *)
Lemma queue_drains_in_order (q : PriorityQueue) :
  pq_ok q →
  ∃ ms q', go_map run_op (drain (length (mh q))) q = (Ret (Some <$> ms), q') ∧
           mh q' = [] ∧ ms ≡ₚ mh q ∧ StronglySorted before ms.
Proof. intros Hq. by apply drain_sorted. Qed.

(** Missions for the witnesses. *)
Definition sample (id : string) (critical : bool) (clock : Z) : Mission :=
  newMission (mkSensorData id "sensor-sec-01" 1 true critical 0 "BR" "") clock.

Definition sample_queue : PriorityQueue :=
  snd (go_map run_op [OEnqueue (sample "event-001" false 3); OEnqueue (sample "event-002" true 9);
                      OEnqueue (sample "event-003" false 1)] (New 100)).

Lemma sample_queue_ok : pq_ok sample_queue.
Proof.
  unfold sample_queue. destruct (run_ops_bag [OEnqueue (sample "event-001" false 3);
    OEnqueue (sample "event-002" true 9); OEnqueue (sample "event-003" false 1)] (New 100)
    (New_ok 100)) as (rs & q' & E & Hok & _). by rewrite E.
Qed.

Lemma queue_drains_in_order_witness :
  (∃ ms q', go_map run_op (drain (length (mh sample_queue))) sample_queue = (Ret (Some <$> ms), q') ∧
           mh q' = [] ∧ ms ≡ₚ mh sample_queue ∧ StronglySorted before ms) ∧
  fst (go_map run_op (drain 3) sample_queue) =
    Ret [Some (sample "event-002" true 9); Some (sample "event-003" false 1);
         Some (sample "event-001" false 3)].
Proof.
  split; [exact (queue_drains_in_order sample_queue sample_queue_ok)|by vm_compute].
Defined.

(** A round of the worker ends with no starved mission left in the heap,
    promotes only starved ones, and changes nothing else: same missions, same
    clocks, still a heap. *)
Lemma aging_round (q : PriorityQueue) (currentClock : Z) :
  pq_ok q →
  ∃ q', antiStarvationRound currentClock q = (Ret (), q') ∧ pq_ok q' ∧
    mh q' ≡ₚ promote currentClock (agingLimit q) <$> mh q ∧
    (∀ m, m ∈ mh q' → starved currentClock (agingLimit q) m = false) ∧
    mission_id <$> mh q' ≡ₚ mission_id <$> mh q.
Proof.
  intros Hq. destruct (antiStarvationRound_ok q currentClock Hq) as (q' & E & Hok & Hp & _).
  exists q'. split_and!; [done|done|done| |].
  - intros m Hm. rewrite Hp in Hm. apply list_elem_of_fmap in Hm as (x & -> & _).
    unfold promote. destruct (starved _ _ x) eqn:Ex; [|done]. unfold starved. simpl. done.
  - destruct (aging_ids q currentClock Hq) as (q2 & E2 & _ & Hi). rewrite E in E2.
    by injection E2 as <-.
Qed.

Lemma aging_round_witness :
  ∃ q', antiStarvationRound 200 sample_queue = (Ret (), q') ∧
    ∀ m, m ∈ mh q' → starved 200 100 m = false.
Proof.
  destruct (aging_round sample_queue 200 sample_queue_ok) as (q' & E & _ & _ & H & _).
  exists q'. split; [exact E|exact H].
Defined.

(** C14: no starvation.  Once the worker has seen a mission wait longer than the
    aging limit, that mission is served after at most as many [Dequeue]s as
    there are missions with no younger clock in the heap, whatever missions
    of later clocks keep arriving and however often the worker runs again. *)
Theorem no_starvation (q : PriorityQueue) (m : Mission) (currentClock : Z) (ops : list pq_op) :
  pq_ok q →
  m ∈ mh q →
  starved currentClock (agingLimit q) m = true →
  Forall (younger_op (LamportClock m)) ops →
  (count_no_older (LamportClock m) (mh q) ≤ length (filter is_dequeue ops))%nat →
  ∃ rs q', go_map run_op (OAge currentClock :: ops) q = (Ret rs, q') ∧
           Some (set_critical m) ∈ rs.
Proof.
  intros Hq Hm Hst Hy Hc.
  destruct (run_op_bag (OAge currentClock) q Hq) as (r & q1 & E1 & Hq1 & Hl & Hs).
  destruct (run_ops_bag ops q1 Hq1) as (rs & q2 & E2 & _ & _ & Hr).
  exists (r :: rs), q2. split; [by eapply go_map_cons|].
  inversion Hs as [| | |? ? ? Hp]; subst. apply list_elem_of_further.
  eapply (bag_run_serves _ _ _ _ _ (set_critical m)); [exact Hr| |done|done|].
  - rewrite Hp. apply list_elem_of_fmap. exists m. by rewrite starved_promoted.
  - by rewrite (count_no_older_perm _ _ _ Hp), count_no_older_promote.
Qed.

Lemma no_starvation_witness :
  ∃ rs q', go_map run_op [OAge 200; OEnqueue (sample "event-009" true 201); ODequeue; ODequeue]
             sample_queue = (Ret rs, q') ∧ Some (set_critical (sample "event-001" false 3)) ∈ rs.
Proof.
  apply (no_starvation sample_queue (sample "event-001" false 3) 200
    [OEnqueue (sample "event-009" true 201); ODequeue; ODequeue]).
  - exact sample_queue_ok.
  - apply list_elem_of_In. vm_compute. tauto.
  - reflexivity.
  - repeat constructor.
  - vm_compute. lia.
Defined.

(** [Less] is a strict weak order that ties exactly the missions agreeing
    on criticality, clock and sensor; on other pairs one side is smaller. *)
Lemma mission_less_ties (a b : Mission) :
  (mission_less a b = false ∧ mission_less b a = false) ↔
  IsCritical (Payload a) = IsCritical (Payload b) ∧
  LamportClock a = LamportClock b ∧ SensorID (Payload a) = SensorID (Payload b).
Proof.
  unfold mission_less. split.
  - intros [H1 H2].
    destruct (Bool.eqb_spec (IsCritical (Payload a)) (IsCritical (Payload b))) as [Ec|Ec];
      destruct (Bool.eqb_spec (IsCritical (Payload b)) (IsCritical (Payload a))) as [Ec'|Ec'];
      simpl in *; try congruence.
    destruct (Z.eqb_spec (LamportClock a) (LamportClock b)) as [El|El],
      (Z.eqb_spec (LamportClock b) (LamportClock a)) as [El'|El']; simpl in *; try congruence.
    + split_and!; [done|done|by apply str_ltb_total].
    + apply Z.ltb_ge in H1, H2. lia.
  - intros (-> & -> & ->).
    by rewrite Bool.eqb_reflx, Z.eqb_refl, str_ltb_irrefl.
Qed.

Lemma print_lines_ok i l q :
  ∃ ls, print_lines i l q = (Ret ls, q) ∧ length ls = length l ∧
        Forall (λ x, String.length (snd (fst (fst x))) ≤ 8)%nat ls.
Proof.
  revert i. induction l as [|m l IH]; intros i; [by exists []|].
  destruct (IH (S i)) as (ls & E & Hl & Hf). simpl.
  assert (∃ x, print_line i m q = (Ret x, q) ∧ (String.length (snd (fst (fst x))) ≤ 8)%nat)
    as (x & Ex & Hx).
  { unfold print_line. destruct (Nat.ltb_spec 8 (String.length (mission_id m))) as [Hlt|Hge].
    - destruct (slice_to (mission_id m) 8) as [t|] eqn:Et.
      + eexists. go_unfold. split; [done|]. simpl. by rewrite (slice_to_length _ _ _ Et).
      + apply slice_to_None in Et. lia.
    - eexists. go_unfold. split; [done|]. simpl. lia. }
  exists (x :: ls). go_unfold. rewrite Ex, E. simpl. split_and!; [done|lia|by constructor].
Qed.

(** [PrintAllMissions] never panics on short event ids, prints one line per
    mission and leaves the queue alone. *)
Lemma PrintAllMissions_total (q : PriorityQueue) :
  ∃ ls, PrintAllMissions q = (Ret ls, q) ∧ length ls = length (mh q) ∧
        Forall (λ x, String.length (snd (fst (fst x))) ≤ 8)%nat ls.
Proof.
  unfold PrintAllMissions. destruct (Nat.eqb_spec (length (mh q)) 0) as [E|Hne].
  - exists []. go_unfold. rewrite E. by split_and!.
  - destruct (print_lines_ok 0 (mh q) q) as (ls & E & Hl & Hf). exists ls. split_and!; [|done|done].
    unfold mbind, go_mbind, get. apply Nat.eqb_neq in Hne. by rewrite Hne.
Qed.

#[export] Hint Resolve New_ok before_refl : ormuz.
