(* ===== verification/Flow.v ===== *)
(** * Conservation of what a component tracks

    A component that hands things from one table to another reports, for
    every step, what entered and what left it; the books balance when what is
    in its places after the step plus what left is what was there before plus
    what entered.  [flow_run_ok] lifts that from steps to runs; the radar and
    the broker are instances. *)

From S2P Require Import Prelude.

Inductive flow : Type :=
| Entered (id : string)
| Left (id : string).

Definition entered (l : list flow) : list string :=
  omap (λ f, match f with Entered id => Some id | Left _ => None end) l.
Definition left_ids (l : list flow) : list string :=
  omap (λ f, match f with Left id => Some id | Entered _ => None end) l.

Section flow.
Context {St Op : Type} (places : St → list string).

Definition balanced (s : St) (fl : list flow) (s' : St) : Prop :=
  places s' ++ left_ids fl ≡ₚ places s ++ entered fl.

Lemma balanced_same s s' : places s' = places s → balanced s [] s'.
Proof. unfold balanced. by intros ->. Qed.

(** An identifier that is there afterwards was there or entered. *)
Lemma balanced_elem s fl s' e :
  balanced s fl s' → e ∈ places s' → e ∈ places s ∨ e ∈ entered fl.
Proof.
  intros B He. apply elem_of_app. rewrite <- B. apply elem_of_app. by left.
Qed.

Lemma balanced_trans s fl1 s1 fl2 s2 :
  balanced s fl1 s1 → balanced s1 fl2 s2 → balanced s (fl1 ++ fl2) s2.
Proof.
  unfold balanced, left_ids, entered. intros B1 B2. rewrite !omap_app.
  rewrite (Permutation_app_comm (omap _ fl1)), app_assoc, B2, <- app_assoc.
  rewrite (Permutation_app_comm (omap _ fl2) (omap _ fl1)), !app_assoc. by rewrite B1.
Qed.

Context (step : Op → go St (list flow)) (inv : St → Prop) (good : Op → Prop).
Context (Hstep : ∀ o s, inv s → good o →
  ∃ fl s', step o s = (Ret fl, s') ∧ inv s' ∧ balanced s fl s').

Lemma flow_run_ok ops s : inv s → Forall good ops →
  ∃ fls s', go_map step ops s = (Ret fls, s') ∧ inv s' ∧ balanced s (concat fls) s'.
Proof.
  revert s. induction ops as [|o ops IH]; intros s Hs Ho.
  { exists [], s. split_and!; [done|done|by apply balanced_same]. }
  apply Forall_cons in Ho as [Ho Hos].
  destruct (Hstep o s Hs Ho) as (fl & s1 & E1 & H1 & B1).
  destruct (IH s1 H1 Hos) as (fls & s2 & E2 & H2 & B2).
  exists (fl :: fls), s2. split_and!; [by eapply go_map_cons|done|].
  by eapply balanced_trans.
Qed.
End flow.

(** Moving one identifier between three places. *)
Lemma perm_swap3 (e : string) (k h q : list string) : e :: k ++ h ++ q ≡ₚ k ++ (e :: h) ++ q.
Proof. cbn [app]. apply Permutation_middle. Qed.

Lemma perm_swap4 (e : string) (k h q : list string) : k ++ (e :: h) ++ q ≡ₚ k ++ h ++ e :: q.
Proof. apply Permutation_app_head. cbn [app]. apply Permutation_middle. Qed.

(** ** The identifiers of a table *)

Section keys.
Context {A : Type}.
Implicit Types m : gmap string A.

Definition keys (m : gmap string A) : list string := (map_to_list m).*1.

Lemma keys_empty : keys ∅ = [].
Proof. unfold keys. by rewrite map_to_list_empty. Qed.

Lemma keys_delete m e x : m !! e = Some x → keys m ≡ₚ e :: keys (delete e m).
Proof. intros E. unfold keys. by rewrite <- (map_to_list_delete m e x E). Qed.

Lemma keys_insert_new m e x : m !! e = None → keys (<[e := x]> m) ≡ₚ e :: keys m.
Proof. intros E. unfold keys. by rewrite map_to_list_insert. Qed.

Lemma keys_insert_old m e x y : m !! e = Some y → keys (<[e := x]> m) ≡ₚ keys m.
Proof.
  intros E. rewrite (keys_delete (<[e := x]> m) e x) by apply lookup_insert_eq.
  by rewrite delete_insert_eq, (keys_delete m e y E).
Qed.

Lemma elem_of_keys m e : e ∈ keys m ↔ is_Some (m !! e).
Proof.
  unfold keys. rewrite list_elem_of_fmap. split.
  - intros ([k x] & -> & H). apply elem_of_map_to_list in H. by exists x.
  - intros [x H]. exists (e, x). by rewrite elem_of_map_to_list.
Qed.

Lemma keys_NoDup m : NoDup (keys m).
Proof. apply NoDup_fst_map_to_list. Qed.
End keys.

(** ** Visiting a table

    The janitors of the program walk over a table in the order the runtime
    picks and take out the entries that satisfy a test.  [take_all] is that
    walk: what it took, in order, and what it left. *)

Section visit.
Context {A : Type} (P : A → bool).
Implicit Types m : gmap string A.

Definition take_one (k : string) (m : gmap string A) : option A * gmap string A :=
  match m !! k with
  | Some x => if P x then (Some x, delete k m) else (None, m)
  | None => (None, m)
  end.

Fixpoint take_all (order : list string) (m : gmap string A) : list A * gmap string A :=
  match order with
  | [] => ([], m)
  | k :: order =>
    let '(o, m1) := take_one k m in
    let '(l, m2) := take_all order m1 in
    (option_list o ++ l, m2)
  end.

Lemma take_all_cons k order m :
  take_all (k :: order) m =
    (option_list (fst (take_one k m)) ++ fst (take_all order (snd (take_one k m))),
     snd (take_all order (snd (take_one k m)))).
Proof. cbn [take_all]. destruct (take_one k m) as [o m1]. simpl. by destruct (take_all order m1). Qed.

Lemma take_one_left k m e x :
  snd (take_one k m) !! e = Some x ↔ m !! e = Some x ∧ (P x = true → e ≠ k).
Proof.
  unfold take_one. destruct (m !! k) as [y|] eqn:Ek; [destruct (P y) eqn:Ep|]; simpl.
  - rewrite lookup_delete_Some. split.
    + by intros [? ?].
    + intros [Hx Hn]. split; [|done]. intros <-. rewrite Ek in Hx. injection Hx as ->. by apply Hn.
  - split; [|by intros [? _]]. intros Hx. split; [done|]. intros Hp ->. congruence.
  - split; [|by intros [? _]]. intros Hx. split; [done|]. intros Hp ->. congruence.
Qed.

(** What remains. *)
Lemma take_all_left order m e x :
  snd (take_all order m) !! e = Some x ↔ m !! e = Some x ∧ (P x = true → e ∉ order).
Proof.
  revert m. induction order as [|k order IH]; intros m.
  { simpl. split; [|by intros [? _]]. intros H. split; [done|]. intros _. apply not_elem_of_nil. }
  rewrite take_all_cons. cbn [snd]. rewrite IH, take_one_left, not_elem_of_cons. tauto.
Qed.

(** What was taken. *)
Lemma take_all_taken order m x :
  x ∈ fst (take_all order m) ↔ ∃ e, e ∈ order ∧ m !! e = Some x ∧ P x = true.
Proof.
  revert m. induction order as [|k order IH]; intros m.
  { simpl. split; [by intros ?%not_elem_of_nil|]. by intros (e & ?%not_elem_of_nil & _). }
  rewrite take_all_cons. cbn [fst]. rewrite elem_of_app, IH. split.
  - intros [Hx|(e & He & Hm & Hp)].
    + unfold take_one in Hx. destruct (m !! k) as [y|] eqn:Ek; [destruct (P y) eqn:Ep|];
        simpl in Hx; try (by apply not_elem_of_nil in Hx).
      apply list_elem_of_singleton in Hx as ->. exists k. by split_and!; [left| |].
    + apply take_one_left in Hm as [Hm _]. exists e. by split_and!; [right| |].
  - intros (e & He & Hm & Hp). destruct (decide (e = k)) as [->|Hne].
    + left. unfold take_one. rewrite Hm, Hp. by left.
    + right. exists e. apply elem_of_cons in He as [?|He]; [done|].
      split_and!; [done|by apply take_one_left|done].
Qed.

(** Nothing is lost on the way, when entries sit under their own key. *)
Lemma take_all_keys (key : A → string) order m :
  (∀ e x, m !! e = Some x → key x = e) →
  keys m ≡ₚ (key <$> fst (take_all order m)) ++ keys (snd (take_all order m)).
Proof.
  revert m. induction order as [|k order IH]; intros m Hk; [done|].
  rewrite take_all_cons. cbn [fst snd]. rewrite fmap_app, <- app_assoc, <- IH.
  2: { intros e x [Hx _]%take_one_left. by apply Hk. }
  unfold take_one. destruct (m !! k) as [x|] eqn:Ek; [destruct (P x)|]; simpl; [|done..].
  rewrite (Hk _ _ Ek). by apply (keys_delete _ _ x).
Qed.

(** A visit of all keys leaves exactly what fails the test. *)
Lemma take_all_covers order m e x :
  (∀ k, is_Some (m !! k) → k ∈ order) →
  snd (take_all order m) !! e = Some x ↔ m !! e = Some x ∧ P x = false.
Proof.
  intros Hc. rewrite take_all_left. split; intros [Hx Hp]; (split; [done|]).
  - destruct (P x); [|done]. destruct Hp; [done|]. apply Hc. by rewrite Hx.
  - congruence.
Qed.
End visit.
