(* ===== verification/Threads.v ===== *)
(** * Goroutines and their interleavings

    Between two points where another goroutine may run, a goroutine either
    runs a section of code under one lock, or one atomic operation
    ([Atomic]), or sends something ([Emit]); or it has ended.  A [Pool] is a
    process: the memory its goroutines share, and the goroutines, which a
    schedule runs in any order.  [run] is the goroutine alone.

    [behaves] is the logic of one goroutine whose sections keep an invariant
    that all others keep too; [armed] bounds how often something is sent by
    all of them together. *)

From S2P Require Import Prelude.

Section threads.
Context {S E : Type}.

Inductive routine (A : Type) : Type :=
| Return (a : A)
| Atomic {B : Type} (m : go S B) (k : B → routine A)
| Emit (x : E) (t : routine A).
Arguments Return {A} _.
Arguments Atomic {A B} _ _.
Arguments Emit {A} _ _.

Fixpoint routine_bind {A B} (f : A → routine B) (t : routine A) : routine B :=
  match t with
  | Return a => f a
  | Atomic m k => Atomic m (λ b, routine_bind f (k b))
  | Emit x t => Emit x (routine_bind f t)
  end.

#[export] Instance routine_mret : MRet routine := λ A a, Return a.
#[export] Instance routine_mbind : MBind routine := λ A B f t, routine_bind f t.

Definition atomic {A} (m : go S A) : routine A := Atomic m Return.
Definition emit (x : E) : routine () := Emit x (Return ()).

(** What is sent, one after another, and a loop. *)
Fixpoint emits (l : list E) : routine () :=
  match l with [] => Return () | x :: l => Emit x (emits l) end.
Fixpoint routine_for {A} (f : A → routine ()) (l : list A) : routine () :=
  match l with [] => Return () | x :: l => f x ;; routine_for f l end.

(** The goroutine alone: what it sends, and its result. *)
Fixpoint run {A} (t : routine A) : go S (list E * A) :=
  match t with
  | Return a => mret ([], a)
  | Atomic m k => b ← m; run (k b)
  | Emit x t => '(l, a) ← run t; mret (x :: l, a)
  end.

(** ** Processes *)

(** The handlers of [net/http] recover: a goroutine may name what follows its
    panic. *)
Record task : Type := mkTask { body : routine (); on_panic : option (routine ()) }.
Record Pool : Type := mkPool { memory : S; tasks : list task }.

(** A panic that nobody recovers ends the process. *)
Definition pool_step (i : nat) : go Pool (list E) := λ p,
  match tasks p !! i with
  | None => (Ret [], p)
  | Some (mkTask t h) =>
    match t with
    | Return _ => (Ret [], p)
    | Emit x t => (Ret [x], mkPool (memory p) (<[i := mkTask t h]> (tasks p)))
    | Atomic m k =>
      match m (memory p) with
      | (Ret b, s) => (Ret [], mkPool s (<[i := mkTask (k b) h]> (tasks p)))
      | (Panic e, s) =>
        match h with
        | Some t => (Ret [], mkPool s (<[i := mkTask t None]> (tasks p)))
        | None => (Panic e, mkPool s (tasks p))
        end
      end
    end
  end.

Inductive pool_op : Type :=
| Spawn (t : task)
| Run (i : nat).

Definition pool_do (o : pool_op) : go Pool (list E) :=
  match o with
  | Spawn t => modify (λ p, mkPool (memory p) (tasks p ++ [t])) ;; mret []
  | Run i => pool_step i
  end.

(** ** Goroutines alone *)

Lemma run_bind {A B} (t : routine A) (f : A → routine B) s :
  run (t ≫= f) s = ('(l, a) ← run t; '(l', b) ← run (f a); mret (l ++ l', b)) s.
Proof.
  revert s. induction t as [a|C m k IH|x t IH]; intros s.
  - simpl. go_unfold. by destruct (run (f a) s) as [[[? ?]|?] ?].
  - simpl. go_unfold. destruct (m s) as [[b|p] s1]; [|done]. apply IH.
  - change (run (Emit x t ≫= f) s) with (('(l, a) ← run (t ≫= f); mret (x :: l, a)) s).
    unfold mbind, go_mbind. rewrite IH. simpl. go_unfold.
    destruct (run t s) as [[[l a]|p] s1]; [|done].
    by destruct (run (f a) s1) as [[[l' b]|p] s2].
Qed.

Lemma run_emits l s : run (emits l) s = (Ret (l, ()), s).
Proof. induction l as [|x l IH]; [done|]. simpl. go_unfold. by rewrite IH. Qed.

(** Running alone is a schedule: the first task, again and again. *)
Lemma run_alone (t : routine ()) h s l s' ts :
  run t s = (Ret (l, ()), s') →
  ∃ n outs, go_map pool_step (replicate n 0) (mkPool s (mkTask t h :: ts)) =
      (Ret outs, mkPool s' (mkTask (Return ()) h :: ts)) ∧ concat outs = l.
Proof.
  revert s l. induction t as [[]|B m k IH|x t IH]; intros s l Hr.
  - injection Hr as <- <-. by exists 0, [].
  - apply go_bind_Ret in Hr as (b & s1 & Em & Hr). destruct (IH b s1 l Hr) as (n & outs & E1 & E2).
    exists (Datatypes.S n), ([] :: outs). split; [|done]. cbn [replicate]. eapply go_map_cons; [|exact E1].
    unfold pool_step. simpl. by rewrite Em.
  - apply go_bind_Ret in Hr as ([l1 []] & s1 & Et & Hr). injection Hr as <- <-.
    destruct (IH s l1 Et) as (n & outs & E1 & E2).
    exists (Datatypes.S n), ([x] :: outs). split; [|simpl; by rewrite E2].
    cbn [replicate]. by eapply go_map_cons.
Qed.

(** ** Invariants *)

Section invariant.
Context {X : Type} (I : X → S → Prop) (P : E → Prop).

(** [I] is a family of invariants that are shown together, with the same facts
    about what the sections return. *)
Definition keeps {A} (m : go S A) (Q : A → Prop) : Prop := ∀ x, ensures (I x) m Q.

(** Every section keeps [I], what is sent is in [P], the result in [Q]. *)
Fixpoint behaves {A} (Q : A → Prop) (t : routine A) : Prop :=
  match t with
  | Return a => Q a
  | Atomic m k => ∃ R, keeps m R ∧ ∀ b, R b → behaves Q (k b)
  | Emit x t => P x ∧ behaves Q t
  end.

Lemma behaves_bind {A B} (t : routine A) (f : A → routine B) Q R :
  behaves Q t → (∀ a, Q a → behaves R (f a)) → behaves R (t ≫= f).
Proof.
  intros Ht Hf. induction t as [a|C m k IH|x t IH]; simpl in *.
  - by apply Hf.
  - destruct Ht as (R' & Hm & Hk). exists R'. split; [done|]. intros b Hb. by apply IH, Hk.
  - destruct Ht as [Hx Ht]. split; [done|]. by apply IH.
Qed.

Lemma behaves_atomic {A} (m : go S A) Q : keeps m Q → behaves Q (atomic m).
Proof. intros Hm. by exists Q. Qed.

Lemma behaves_emit x : P x → behaves (λ _, True) (emit x).
Proof. done. Qed.

Lemma behaves_emits l : Forall P l → behaves (λ _, True) (emits l).
Proof. by induction 1. Qed.

Lemma behaves_weaken {A} (t : routine A) (Q R : A → Prop) :
  behaves Q t → (∀ a, Q a → R a) → behaves R t.
Proof.
  intros Ht HR. induction t as [a|C m k IH|x t IH]; simpl in *; [by apply HR| |].
  - destruct Ht as (R' & Hm & Hk). exists R'. split; [done|]. intros b Hb. by apply IH, Hk.
  - destruct Ht as [Hx Ht]. split; [done|]. by apply IH.
Qed.

Lemma behaves_prefix {A B} (t : routine A) (f : A → routine B) Q :
  behaves Q (t ≫= f) → behaves (λ _, True) t.
Proof.
  induction t as [a|C m k IH|x t IH]; simpl; [done| |].
  - intros (R & Hm & Hk). exists R. split; [done|]. intros b Hb. by apply IH, Hk.
  - intros [Hx Ht]. split; [done|by apply IH].
Qed.

Lemma behaves_for {A} (f : A → routine ()) l :
  (∀ x, behaves (λ _, True) (f x)) → behaves (λ _, True) (routine_for f l).
Proof.
  intros Hf. induction l as [|x l IH]; [done|]. eapply behaves_bind; [apply Hf|]. by intros _ _.
Qed.

(** Alone, it keeps them too. *)
Lemma run_behaves {A} (t : routine A) Q :
  behaves Q t → keeps (run t) (λ r, Forall P (fst r) ∧ Q (snd r)).
Proof.
  intros Ht y. induction t as [a|C m k IH|x t IH]; simpl in *.
  - by apply ensures_ret.
  - destruct Ht as (R' & Hm & Hk). eapply ensures_bind; [apply Hm|]. intros b Hb. by apply IH, Hk.
  - destruct Ht as [Hx Ht]. eapply ensures_bind; [by apply IH|]. intros [l a] [Hl Ha].
    apply ensures_ret. split; [by constructor|done].
Qed.

Definition task_behaves (x : task) : Prop :=
  behaves (λ _, True) (body x) ∧ ∀ t, on_panic x = Some t → behaves (λ _, True) t.

Record pool_ok (x : X) (p : Pool) : Prop := mkPoolOk {
  po_memory : I x (memory p);
  po_tasks : Forall task_behaves (tasks p);
}.

(** Under every schedule [I] holds between the sections, whoever panics. *)
Lemma pool_step_keeps y i : ensures (pool_ok y) (pool_step i) (Forall P).
Proof.
  intros p [Hm Ht]. unfold pool_step. destruct (tasks p !! i) as [[t h]|] eqn:Ei;
    [|split; [done|by intros ? [= <-]]].
  pose proof (proj1 (Forall_lookup _ _) Ht i _ Ei) as [Hb Hh]. cbn [body on_panic] in Hb, Hh.
  destruct t as [a|B m k|x t].
  - split; [done|]. by intros ? [= <-].
  - destruct Hb as (R & Hkeep & Hk). destruct (Hkeep _ _ Hm) as [Hm' HR].
    destruct (m (memory p)) as [[b|e] s]; simpl in *.
    + split; [|by intros ? [= <-]]. split; [done|]. apply Forall_insert; [done|].
      split; [|done]. by apply Hk, HR.
    + destruct h as [t|]; (split; [|by intros ? [= <-]]); split; try done.
      apply Forall_insert; [done|]. split; [by apply Hh|done].
  - destruct Hb as [Hx Hb]. split; [|intros ? [= <-]; by constructor].
    split; [done|]. by apply Forall_insert.
Qed.

Definition op_behaves (o : pool_op) : Prop := match o with Spawn t => task_behaves t | Run _ => True end.

Lemma pool_do_keeps y o : op_behaves o → ensures (pool_ok y) (pool_do o) (Forall P).
Proof.
  intros Ho. destruct o as [t|i]; [|apply pool_step_keeps].
  intros p [Hm Ht]. split; [|by intros ? [= <-]]. split; [done|].
  apply Forall_app. split; [done|by constructor].
Qed.
End invariant.

(** Whatever is sent is in a larger set. *)
Lemma behaves_sends {X A} (I : X → S → Prop) (P P' : E → Prop) (Q : A → Prop) t :
  (∀ x, P x → P' x) → behaves I P Q t → behaves I P' Q t.
Proof.
  intros HP Ht. induction t as [a|C m k IH|x t IH]; simpl in *; [done| |].
  - destruct Ht as (R & Hm & Hk). exists R. split; [done|]. intros b Hb. by apply IH, Hk.
  - destruct Ht as [Hx Ht]. split; [by apply HP|by apply IH].
Qed.

Lemma task_sends {X} (I : X → S → Prop) (P P' : E → Prop) x :
  (∀ y, P y → P' y) → task_behaves I P x → task_behaves I P' x.
Proof.
  intros HP [Hb Hh]. split; [by eapply behaves_sends|]. intros t Ht. eapply behaves_sends; [done|by apply Hh].
Qed.

(** ** At most once

    [c] tells the sends that count.  Before the first one is due the memory is
    in [I0]; a section that makes one due takes it to [I1], in which no
    goroutine can make another one due. *)
Section once.
Context (I0 I1 : S → Prop) (c : E → bool).

(** In [I1] the goroutine sends none that counts. *)
Definition quiet {A} (t : routine A) : Prop :=
  behaves (λ _ : (), I1) (λ x, c x = false) (λ _, True) t.

(** In [I1] it sends at most one. *)
Fixpoint owes {A} (t : routine A) : Prop :=
  match t with
  | Return _ => True
  | Atomic m k => ∃ R, ensures I1 m R ∧ ∀ b, R b → owes (k b)
  | Emit x t => if c x then quiet t else owes t
  end.

(** In [I0] it sends none, until a section leads to [I1]. *)
Fixpoint pristine {A} (t : routine A) : Prop :=
  quiet t ∧
  match t with
  | Return _ => True
  | Atomic m k => ∀ s, I0 s → I0 (snd (m s)) ∧
      ∀ b, fst (m s) = Ret b → pristine (k b) ∨ (I1 (snd (m s)) ∧ owes (k b))
  | Emit x t => pristine t
  end.

Lemma pristine_quiet {A} (t : routine A) : pristine t → quiet t.
Proof. destruct t; by intros [? _]. Qed.

(** A goroutine that sends none, in [I0] as in [I1]. *)
Definition never {A} (Q : A → Prop) (t : routine A) : Prop :=
  behaves (λ b : bool, if b then I1 else I0) (λ x, c x = false) Q t.

Lemma never_quiet {A} (t : routine A) Q : never Q t → quiet t.
Proof.
  intros Ht. unfold quiet. induction t as [a|B m k IH|x t IH]; simpl in *; [done| |].
  - destruct Ht as (R & Hm & Hk). exists R. split; [intros _; apply (Hm true)|].
    intros b Hb. by apply IH, Hk.
  - destruct Ht as [Hx Ht]. split; [done|by apply IH].
Qed.

Lemma never_pristine {A} (t : routine A) Q : never Q t → pristine t.
Proof.
  induction t as [a|B m k IH|x t IH]; intros Ht; (split; [by eapply never_quiet|]); [done| |].
  - destruct Ht as (R & Hm & Hk). intros s Hs. destruct (Hm false s Hs) as [H1 H2].
    split; [done|]. intros b Hb. left. by apply IH, Hk, H2.
  - destruct Ht as [_ Ht]. by apply IH.
Qed.

(** It owes one after some steps that send none. *)
Lemma owes_bind {A B} (t : routine A) (f : A → routine B) Q :
  never Q t → (∀ a, Q a → owes (f a)) → owes (t ≫= f).
Proof.
  intros Ht Hf. induction t as [a|C m k IH|x t IH]; simpl in *; [by apply Hf| |].
  - destruct Ht as (R & Hm & Hk). exists R. split; [apply (Hm true)|]. intros b Hb. by apply IH, Hk.
  - destruct Ht as [-> Ht]. by apply IH.
Qed.

Lemma never_owes {A} (t : routine A) Q : never Q t → owes t.
Proof.
  intros Ht. induction t as [a|C m k IH|x t IH]; simpl in *; [done| |].
  - destruct Ht as (R & Hm & Hk). exists R. split; [apply (Hm true)|]. intros b Hb. by apply IH, Hk.
  - destruct Ht as [-> Ht]. by apply IH.
Qed.

(** *** Tasks and pools *)

Definition every (Q : routine () → Prop) (x : task) : Prop :=
  Q (body x) ∧ ∀ t, on_panic x = Some t → Q t.

(** [n] have been sent. *)
Inductive armed (n : nat) (p : Pool) : Prop :=
| Unarmed : n = 0 → I0 (memory p) → Forall (every pristine) (tasks p) → armed n p
| Due i t h : n = 0 → I1 (memory p) → tasks p !! i = Some (mkTask t h) → owes t →
    (∀ u, h = Some u → quiet u) →
    (∀ j x, j ≠ i → tasks p !! j = Some x → every quiet x) → armed n p
| Spent : n ≤ 1 → I1 (memory p) → Forall (every quiet) (tasks p) → armed n p.

Definition counted (l : list E) : nat := length (List.filter c l).

Definition sent_by (r : outcome (list E)) : list E := match r with Ret l => l | Panic _ => [] end.

Lemma every_mono (Q R : routine () → Prop) x : (∀ t, Q t → R t) → every Q x → every R x.
Proof. intros H [H1 H2]. split; [by apply H|]. intros t Ht. by apply H, H2. Qed.

Lemma armed_start n p x :
  every pristine x → armed n p → armed n (mkPool (memory p) (tasks p ++ [x])).
Proof.
  intros Hx [H1 H2 H3|i t h H1 H2 H3 H4 H5 H6|H1 H2 H3].
  - apply Unarmed; [done|done|]. apply Forall_app. split; [done|by constructor].
  - eapply (Due _ _ i t h); [done|done| |done|done|].
    + simpl. by apply lookup_app_l_Some.
    + intros j y Hj. simpl. intros [Hy|[_ Hy]]%lookup_app_Some; [by eapply H6|].
      apply list_lookup_singleton_Some in Hy as [_ <-]. by eapply every_mono; [apply pristine_quiet|].
  - apply Spent; [done|done|]. apply Forall_app. split; [done|]. constructor; [|done].
    by eapply every_mono; [apply pristine_quiet|].
Qed.
(** What a step does to its task. *)
Lemma pool_step_task p j x :
  tasks p !! j = Some x →
  match body x with
  | Return _ => pool_step j p = (Ret [], p)
  | Emit y t => pool_step j p = (Ret [y], mkPool (memory p) (<[j := mkTask t (on_panic x)]> (tasks p)))
  | Atomic m k =>
    (∃ b, fst (m (memory p)) = Ret b ∧
       pool_step j p = (Ret [], mkPool (snd (m (memory p))) (<[j := mkTask (k b) (on_panic x)]> (tasks p)))) ∨
    (∃ t, on_panic x = Some t ∧
       pool_step j p = (Ret [], mkPool (snd (m (memory p))) (<[j := mkTask t None]> (tasks p)))) ∨
    (∃ e, pool_step j p = (Panic e, mkPool (snd (m (memory p))) (tasks p)))
  end.
Proof.
  intros Ex. unfold pool_step. rewrite Ex. destruct x as [t h]. simpl.
  destruct t as [a|B m k|y t]; [done| |done].
  destruct (m (memory p)) as [[b|e] s]; simpl; [left; by exists b|right].
  destruct h as [t|]; [left; by exists t|right; by exists e].
Qed.

(** In [I1] a quiet task sends none and stays quiet. *)
Lemma quiet_step p j x :
  I1 (memory p) → tasks p !! j = Some x → every quiet x →
  ∃ y, every quiet y ∧ I1 (memory (snd (pool_step j p))) ∧
    tasks (snd (pool_step j p)) = <[j := y]> (tasks p) ∧
    counted (sent_by (fst (pool_step j p))) = 0.
Proof.
  intros Hm Ex [Hb Hh]. pose proof (pool_step_task p j x Ex) as Hstep.
  destruct x as [[a|B m k|z t] h]; cbn [body on_panic] in *.
  - rewrite Hstep. exists (mkTask (Return a) h). split_and!; try done. symmetry. by apply list_insert_id.
  - destruct Hb as (R & Hkeep & Hk). destruct (Hkeep tt _ Hm) as [Hm' HR].
    destruct Hstep as [(b & Eb & ->)|[(t & -> & ->)|(e & ->)]].
    + exists (mkTask (k b) h). split_and!; try done. split; [by apply Hk, HR|done].
    + exists (mkTask t None). split_and!; try done. split; [by apply Hh|done].
    + exists (mkTask (Atomic m k) h). split_and!; try done; [|symmetry; by apply list_insert_id].
      split; [by exists R|done].
  - rewrite Hstep. destruct Hb as [Hz Hb]. exists (mkTask t h). split_and!; try done.
    unfold counted. simpl. by rewrite Hz.
Qed.

Lemma quiet_steps p j :
  I1 (memory p) → Forall (every quiet) (tasks p) →
  I1 (memory (snd (pool_step j p))) ∧ Forall (every quiet) (tasks (snd (pool_step j p))) ∧
  counted (sent_by (fst (pool_step j p))) = 0.
Proof.
  intros Hm Ht. destruct (tasks p !! j) as [x|] eqn:Ex.
  - destruct (quiet_step p j x) as (y & Hy & H1 & H2 & H3); [done|done|by eapply Forall_lookup_1|].
    rewrite H2. split_and!; [done| |done]. by apply Forall_insert.
  - unfold pool_step. by rewrite Ex.
Qed.

Lemma pristine_step p j :
  I0 (memory p) → Forall (every pristine) (tasks p) →
  armed (counted (sent_by (fst (pool_step j p)))) (snd (pool_step j p)).
Proof.
  intros Hm Ht. destruct (tasks p !! j) as [x|] eqn:Ex; [|unfold pool_step; rewrite Ex; by apply Unarmed].
  destruct (Forall_lookup_1 _ _ _ _ Ht Ex) as [Hb Hh]. pose proof (pool_step_task p j x Ex) as Hstep.
  destruct x as [[a|B m k|z t] h]; cbn [body on_panic] in *.
  - rewrite Hstep. by apply Unarmed.
  - destruct Hb as [_ Hb]. destruct (Hb _ Hm) as [Hm' Hk].
    destruct Hstep as [(b & Eb & ->)|[(t & -> & ->)|(e & ->)]]; simpl.
    + destruct (Hk b Eb) as [Hf|[H1 Ho]].
      * apply Unarmed; [done|done|]. by apply Forall_insert.
      * eapply (Due _ _ j (k b) h); [done|done| |done| |]; simpl.
        -- apply list_lookup_insert_eq. by eapply lookup_lt_Some.
        -- intros u Hu. by apply pristine_quiet, Hh.
        -- intros i x Hi. rewrite list_lookup_insert_ne by done. intros Hx.
           eapply every_mono; [apply pristine_quiet|]. by eapply Forall_lookup_1.
    + apply Unarmed; [done|done|]. apply Forall_insert; [done|]. split; [by apply Hh|done].
    + by apply Unarmed.
  - rewrite Hstep. destruct Hb as [[Hz _] Hb]. unfold counted. simpl. rewrite Hz.
    apply Unarmed; [done|done|]. by apply Forall_insert.
Qed.

Lemma due_step p j i t h :
  I1 (memory p) → tasks p !! i = Some (mkTask t h) → owes t → (∀ u, h = Some u → quiet u) →
  (∀ j x, j ≠ i → tasks p !! j = Some x → every quiet x) →
  armed (counted (sent_by (fst (pool_step j p)))) (snd (pool_step j p)).
Proof.
  intros Hm Ei Ho Hh Hother. destruct (decide (j = i)) as [->|Hne].
  - pose proof (pool_step_task p i _ Ei) as Hstep. cbn [body on_panic] in Hstep.
    assert (∀ y, i < length (tasks p) ∧ ∀ k x, k ≠ i → <[i:=y]> (tasks p) !! k = Some x → every quiet x) as Hins.
    { intros y. split; [by eapply lookup_lt_Some|]. intros k x Hk. rewrite list_lookup_insert_ne by done. eauto. }
    assert (∀ y, every quiet y → Forall (every quiet) (<[i:=y]> (tasks p))) as Hall.
    { intros y Hy. apply Forall_lookup. intros k x Hx. destruct (decide (k = i)) as [->|Hk].
      - rewrite list_lookup_insert_eq in Hx by apply (Hins y). by injection Hx as <-.
      - by eapply Hins. }
    destruct t as [a|B m k|z t].
    + rewrite Hstep. by eapply Due.
    + destruct Ho as (R & Hkeep & Hk). destruct (Hkeep _ Hm) as [Hm' HR].
      destruct Hstep as [(b & Eb & ->)|[(u & -> & ->)|(e & ->)]]; simpl.
      * eapply (Due _ _ i (k b) h); [done|done| |by apply Hk, HR|done|apply Hins]. simpl.
        apply list_lookup_insert_eq, (Hins (mkTask (k b) h)).
      * apply Spent; [by apply Nat.le_0_l|done|]. apply Hall. split; [by apply Hh|done].
      * eapply (Due _ _ i _ h); [done|done|done| |done|done]. by exists R.
    + rewrite Hstep. unfold counted. simpl in *. destruct (c z) eqn:Ez; simpl.
      * apply Spent; [done|done|]. apply Hall. by split.
      * eapply (Due _ _ i t h); [done|done| |done|done|apply Hins]. simpl.
        apply list_lookup_insert_eq, (Hins (mkTask t h)).
  - destruct (tasks p !! j) as [x|] eqn:Ex; [|unfold pool_step; rewrite Ex; by eapply Due].
    destruct (quiet_step p j x) as (y & Hy & H1 & H2 & ->); [done|done|by eapply Hother|].
    eapply (Due _ _ i t h); [done|done| |done|done|]; rewrite H2.
    + by rewrite list_lookup_insert_ne.
    + intros k x' Hk. destruct (decide (k = j)) as [->|].
      * rewrite list_lookup_insert_eq by (by eapply lookup_lt_Some). by intros [= <-].
      * rewrite list_lookup_insert_ne by done. by apply Hother.
Qed.

Lemma armed_more n k p : n = 0 → armed k p → armed (n + k) p.
Proof. by intros ->. Qed.

(** At most one is ever sent. *)
Lemma armed_step n p j :
  armed n p → armed (n + counted (sent_by (fst (pool_step j p)))) (snd (pool_step j p)).
Proof.
  intros [H1 H2 H3|i t h H1 H2 H3 H4 H5 H6|H1 H2 H3].
  - apply armed_more; [done|]. by apply pristine_step.
  - apply armed_more; [done|]. by eapply due_step.
  - destruct (quiet_steps p j H2 H3) as (H4 & H5 & ->). rewrite Nat.add_0_r. by apply Spent.
Qed.

Lemma armed_do n p o :
  match o with Spawn x => every pristine x | Run _ => True end → armed n p →
  armed (n + counted (sent_by (fst (pool_do o p)))) (snd (pool_do o p)).
Proof.
  intros Ho Hp. destruct o as [x|j]; [|by apply armed_step].
  rewrite Nat.add_0_r. by apply armed_start.
Qed.

Lemma armed_once n p : armed n p → n ≤ 1.
Proof. intros [->|i t h ->|]; [apply Nat.le_0_l|apply Nat.le_0_l|done]. Qed.
End once.
End threads.

Arguments Return {S E A} _.
Arguments Atomic {S E A B} _ _.
Arguments Emit {S E A} _ _.
Arguments routine : clear implicits.
Arguments task : clear implicits.
Arguments Pool : clear implicits.
Arguments pool_op : clear implicits.

(** ** Alone, a goroutine is a function *)

Section alone.
Context {M Ev : Type}.

(** What is sent before the rest, and the result, are those of a function. *)
Definition alone {A B} (t : routine M Ev A) (m : go M B) (f : B → list Ev * A) : Prop :=
  ∀ b, run t b = (x ← m; mret (f x)) b.

Lemma alone_bind {A B C D} (t : routine M Ev A) (m : go M B) f
    (k : A → routine M Ev C) (j : B → go M D) g :
  alone t m (λ x, ([], f x)) → (∀ x, alone (k (f x)) (j x) g) → alone (t ≫= k) (m ≫= j) g.
Proof.
  intros Ht Hk b. rewrite run_bind. unfold mbind at 1, go_mbind at 1. rewrite Ht. go_unfold.
  destruct (m b) as [[x|p] b1]; [|done]. specialize (Hk x b1). revert Hk. go_unfold. intros ->.
  by destruct (j x b1) as [[y|p] b2]; [destruct (g y)|].
Qed.

Lemma alone_atomic {A} (m : go M A) : alone (atomic m) m (λ x, ([], x)).
Proof. intros b. simpl. go_unfold. by destruct (m b) as [[]]. Qed.

Lemma alone_ret {A B} (a : A) (x : B) f : f x = ([], a) → alone (mret a) (mret x) f.
Proof. intros Ef b. simpl. go_unfold. by rewrite Ef. Qed.

Lemma alone_for {A} (t : A → routine M Ev ()) (m : A → go M ()) l :
  (∀ x, alone (t x) (m x) (λ _, ([], ()))) → alone (routine_for t l) (go_for m l) (λ _, ([], ())).
Proof.
  intros H. induction l as [|x l IH]; [by apply alone_ret|]. cbn [routine_for go_for].
  eapply (alone_bind _ _ (λ _, ())); [apply H|]. intros _. apply IH.
Qed.

(** Nothing is sent on the way, and the results agree. *)
Definition silent {A} (t : routine M Ev A) (m : go M A) : Prop := alone t m (λ x, ([], x)).

Lemma silent_bind {A B} (t : routine M Ev A) m (k : A → routine M Ev B) j :
  silent t m → (∀ x, silent (k x) (j x)) → silent (t ≫= k) (m ≫= j).
Proof. intros Ht Hk. by eapply (alone_bind _ _ id). Qed.

Lemma silent_ret {A} (x : A) : silent (mret x) (mret x).
Proof. by apply alone_ret. Qed.

Lemma silent_for {A} (t : A → routine M Ev ()) m l :
  (∀ x, silent (t x) (m x)) → silent (routine_for t l) (go_for m l).
Proof.
  intros H. induction l as [|x l IH]; [apply silent_ret|]. apply silent_bind; [apply H|done].
Qed.

(** A read of the memory that the function makes in passing. *)
Lemma alone_gets {A B D} (f : M → A) (k : A → routine M Ev B) (j : M → go M D) g :
  (∀ b, alone (k (f b)) (j b) g) → alone (atomic (x ← get; mret (f x)) ≫= k) (get ≫= j) g.
Proof. intros H b. exact (H b b). Qed.

(** What is sent before the rest. *)
Lemma alone_emit {B} x (t : routine M Ev ()) (m : go M B) f :
  alone t m f → alone (emit x ;; t) m (λ y, (x :: fst (f y), ())).
Proof.
  intros Ht b. cbn [emit mbind routine_mbind routine_bind run]. unfold mbind at 1, go_mbind at 1.
  rewrite Ht. go_unfold. destruct (m b) as [[y|p] b1]; [|done]. by destruct (f y) as [l []].
Qed.

Lemma alone_post {A B D} (t : routine M Ev A) (m : go M B) (h : B → D) m' f g :
  alone t m g → (∀ b, m' b = (x ← m; mret (h x)) b) → (∀ x, f (h x) = g x) → alone t m' f.
Proof.
  intros Ht Hm Hf b. rewrite Ht. specialize (Hm b). go_unfold_in Hm. go_unfold. rewrite Hm.
  destruct (m b) as [[y|p] b1]; [|done]. by rewrite Hf.
Qed.

Lemma silent_atomic {A} (m : go M A) : silent (atomic m) m.
Proof. apply alone_atomic. Qed.

(** A loop on one component. *)
Lemma silent_zoom {T A} (proj : M → T) (upd : T → M → M) (t : A → routine M Ev ()) (f : A → go T ()) l :
  (∀ b, upd (proj b) b = b) → (∀ t b, proj (upd t b) = t) → (∀ t u b, upd t (upd u b) = upd t b) →
  (∀ x, silent (t x) (zoom proj upd (f x))) →
  silent (routine_for t l) (zoom proj upd (go_for f l)).
Proof.
  intros H1 H2 H3 Ht. induction l as [|x l IH]; intros b; cbn [routine_for go_for].
  - simpl. go_unfold. by rewrite H1.
  - rewrite (silent_bind _ _ _ _ (Ht x) (λ _, IH)).
    go_unfold. destruct (f x (proj b)) as [[[]|p] c]; [|done].
    rewrite H2. destruct (go_for f l c) as [[]]; by rewrite H3.
Qed.

End alone.

Ltac silent := repeat first
  [ apply silent_ret | apply silent_atomic
  | apply silent_bind; [|intros ?]
  | progress cbn [negb]
  | match goal with
    | |- silent (if ?c then _ else _) _ => destruct c
    | |- silent (match ?x with _ => _ end) _ => destruct x
    | |- silent (let '(_, _) := ?x in _) _ => destruct x
    end ].

