(* ===== verification/Credits.v ===== *)
(** * Processes that do not panic, and amortised counting

    A goroutine with [n] credits [affords] what it does: from a memory in [J]
    its sections return and keep [J], what it sends is in [P], and every send
    that counts costs a credit.  [charge] measures the credits that wait in
    the memory: a section may leave some there or take some out.  Then no
    schedule panics, and what was sent and what waits never exceed what the
    goroutines started with ([pool_affords]).  A goroutine whose panic is
    recovered may panic, and has no credits left afterwards. *)

From S2P Require Import Prelude Threads.

Section credits.
Context {S E : Type} (J : S → Prop) (P : E → Prop) (charge : S → nat) (counts : E → bool).

Section routines.
Context (recovers : Prop).

Fixpoint affords {A} (Q : nat → A → Prop) (n : nat) (t : routine S E A) : Prop :=
  match t with
  | Return a => Q n a
  | Atomic m k => ∀ s, J s →
      J (snd (m s)) ∧ ∃ n', n' + charge (snd (m s)) ≤ n + charge s ∧
        match fst (m s) with Ret b => affords Q n' (k b) | Panic _ => recovers end
  | Emit x t => P x ∧ ∃ n', n' + (if counts x then 1 else 0) ≤ n ∧ affords Q n' t
  end.

Lemma affords_bind {A B} (t : routine S E A) (f : A → routine S E B) Q R n :
  affords Q n t → (∀ n a, Q n a → affords R n (f a)) → affords R n (t ≫= f).
Proof.
  intros Ht Hf. revert n Ht. induction t as [a|C m k IH|x t IH]; intros n Ht; simpl in *.
  - by apply Hf.
  - intros s Hs. destruct (Ht s Hs) as (Hs' & n' & Hn & Hk). split; [done|]. exists n'. split; [done|].
    destruct (fst (m s)); [by apply IH|done].
  - destruct Ht as (Hx & n' & Hn & Ht). split; [done|]. exists n'. split; [done|by apply IH].
Qed.

(** A section that returns. *)
Lemma affords_atomic {A} (m : go S A) Q n :
  (∀ s, J s → ∃ b s' n', m s = (Ret b, s') ∧ J s' ∧ n' + charge s' ≤ n + charge s ∧ Q n' b) →
  affords Q n (atomic m).
Proof.
  intros H s Hs. destruct (H s Hs) as (b & s' & n' & E1 & Hs' & Hn & Hq). rewrite E1.
  split; [done|]. by exists n'.
Qed.

(** A section that reads. *)
Lemma affords_read {A} (m : go S A) Q n :
  (∀ s, J s → ∃ b, m s = (Ret b, s) ∧ Q n b) → affords Q n (atomic m).
Proof.
  intros H. apply affords_atomic. intros s Hs. destruct (H s Hs) as (b & E1 & Hq). by exists b, s, n.
Qed.

(** Sends that do not count, and one that does. *)
Lemma affords_emits l n :
  Forall (λ x, P x ∧ counts x = false) l → affords (λ n' _, n' = n) n (emits l).
Proof.
  induction 1 as [|x l [Hx Hc] _ IH]; [done|]. simpl. split; [done|]. exists n. rewrite Hc. split; [lia|done].
Qed.

Lemma affords_emit x n : P x → affords (λ n' _, n' = n) ((if counts x then 1 else 0) + n) (emit x).
Proof. intros Hx. split; [done|]. exists n. simpl. split; [lia|done]. Qed.

(** A loop each turn of which has its price. *)
Lemma affords_for {A} (f : A → routine S E ()) (price : A → nat) l :
  (∀ x n, x ∈ l → affords (λ n' _, n' = n) (price x + n) (f x)) →
  affords (λ _ _, True) (sum_list_with price l) (routine_for f l).
Proof.
  induction l as [|x l IH]; intros Hf; [done|]. simpl. eapply affords_bind.
  - apply Hf. by left.
  - intros n [] ->. apply IH. intros y n Hy. apply Hf. by right.
Qed.

(** Further credits do not hurt. *)
Lemma affords_more {A} (Q R : nat → A → Prop) n n' t :
  n ≤ n' → affords Q n t → (∀ k k' a, k ≤ k' → Q k a → R k' a) → affords R n' t.
Proof.
  intros Hn Ht HR. revert n n' Hn Ht. induction t as [a|C m k IH|x t IH]; intros n n' Hn Ht; simpl in *.
  - by eapply HR.
  - intros s Hs. destruct (Ht s Hs) as (Hs' & n1 & Hn1 & Hk). split; [done|]. exists n1. split; [lia|].
    destruct (fst (m s)); [|done]. by eapply IH.
  - destruct Ht as (Hx & n1 & Hn1 & Ht). split; [done|]. exists n1. split; [lia|]. by eapply IH.
Qed.

Lemma affords_any {A} (Q : nat → A → Prop) n t :
  affords Q n t → affords (λ _ _, True) n t.
Proof. intros Ht. by eapply affords_more. Qed.
End routines.

(** ** Tasks and pools *)

Definition task_affords (n : nat) (x : task S E) : Prop :=
  affords False (λ _ _, True) n (body x) ∨
  affords True (λ _ _, True) n (body x) ∧
    ∃ t, on_panic x = Some t ∧ affords False (λ _ _, True) 0 t.

(** [k] covers what waits in the memory and the credits of the tasks. *)
Definition covers (k : nat) (p : Pool S E) : Prop :=
  J (memory p) ∧ ∃ ns, Forall2 task_affords ns (tasks p) ∧ charge (memory p) + sum_list ns ≤ k.

Lemma sum_insert (ns : list nat) i n n' :
  ns !! i = Some n → sum_list (<[i := n']> ns) + n = sum_list ns + n'.
Proof.
  revert i. induction ns as [|x ns IH]; intros [|i]; simpl; [done|done| |].
  - intros [= ->]. lia.
  - intros Hi. specialize (IH i Hi). lia.
Qed.

(** A task that went on with [n'] credits, the memory being [s']. *)
Lemma covers_step k p i n n' ns x x' s' :
  Forall2 task_affords ns (tasks p) → charge (memory p) + sum_list ns ≤ k →
  tasks p !! i = Some x → ns !! i = Some n →
  J s' → task_affords n' x' → ∀ d, n' + d + charge s' ≤ n + charge (memory p) →
  ∃ k', covers k' (mkPool s' (<[i := x']> (tasks p))) ∧ k' + d ≤ k.
Proof.
  intros Hns Hk Hx Hn Hs' Hx' d Hd. pose proof (sum_insert ns i n n' Hn) as Hsum.
  exists (charge s' + sum_list (<[i := n']> ns)). split; [|lia]. split; [done|].
  exists (<[i := n']> ns). split; [|done]. by apply Forall2_insert.
Qed.

Lemma step_affords k p i :
  covers k p → ∃ l p' k', pool_step i p = (Ret l, p') ∧ Forall P l ∧
    covers k' p' ∧ k' + counted counts l ≤ k.
Proof.
  intros Hp. pose proof Hp as [Hm (ns & Hns & Hk)]. unfold pool_step.
  destruct (tasks p !! i) as [[t h]|] eqn:Ei.
  2: { exists [], p, k. split_and!; [done|constructor|done|]. unfold counted. simpl. lia. }
  destruct (Forall2_lookup_r _ _ _ _ _ Hns Ei) as (n & Hn & Hx).
  pose proof (covers_step k p i n) as Hstep.
  destruct t as [a|B m f|x t].
  - exists [], p, k. split_and!; [done|constructor|done|]. unfold counted. simpl. lia.
  - assert (∃ o s', m (memory p) = (o, s') ∧ J s' ∧ ∃ n', n' + charge s' ≤ n + charge (memory p) ∧
      match o with
      | Ret b => task_affords n' (mkTask (f b) h)
      | Panic _ => ∃ t, h = Some t ∧ affords False (λ _ _, True) 0 t
      end) as (o & s' & -> & Hs' & n' & Hn' & Ho).
    { exists (fst (m (memory p))), (snd (m (memory p))). split; [by destruct (m _)|].
      destruct Hx as [Hx|[Hx Hh]]; destruct (Hx _ Hm) as (Hs' & n' & Hn' & Hb); (split; [done|]); exists n';
        (split; [done|]); destruct (fst (m (memory p))); try done; [by left|by right]. }
    destruct o as [b|e].
    + destruct (Hstep n' ns (mkTask (Atomic m f) h) (mkTask (f b) h) s' Hns Hk Ei Hn Hs' Ho 0) as (k' & Hc & Hk'); [lia|].
      eexists [], _, k'. split_and!; [done|constructor|done|done].
    + destruct Ho as (t & -> & Ht).
      destruct (Hstep 0 ns (mkTask (Atomic m f) (Some t)) (mkTask t None) s' Hns Hk Ei Hn Hs' (or_introl Ht) 0) as (k' & Hc & Hk'); [lia|].
      eexists [], _, k'. split_and!; [done|constructor|done|done].
  - assert (P x ∧ ∃ n', n' + (if counts x then 1 else 0) ≤ n ∧ task_affords n' (mkTask t h)) as (HP & n' & Hn' & Ht).
    { destruct Hx as [(HP & n' & Hn' & Ht)|[(HP & n' & Hn' & Ht) Hh]]; (split; [done|]); exists n';
        (split; [done|]); [by left|by right]. }
    destruct (Hstep n' ns (mkTask (Emit x t) h) (mkTask t h) (memory p) Hns Hk Ei Hn Hm Ht (if counts x then 1 else 0)) as (k' & Hc & Hk'); [lia|].
    eexists [x], _, k'. split_and!; [done|by constructor|done|]. unfold counted. simpl. by destruct (counts x).
Qed.

(** The credits the goroutines of a list of operations bring. *)
Context {X : Type} (op : X → pool_op S E) (cost : X → nat).

Definition affordable (x : X) : Prop :=
  match op x with Spawn y => task_affords (cost x) y | Run _ => True end.

Lemma pool_affords xs k p :
  covers k p → Forall affordable xs →
  ∃ ls p' k', go_map pool_do (op <$> xs) p = (Ret ls, p') ∧ Forall P (concat ls) ∧
    covers k' p' ∧ k' + counted counts (concat ls) ≤ k + sum_list_with cost xs.
Proof.
  revert k p. induction xs as [|x xs IH]; intros k p Hp Hxs.
  { exists [], p, k. split_and!; [done|constructor|done|]. unfold counted. simpl. lia. }
  apply Forall_cons in Hxs as [Hx Hxs].
  assert (∃ l p1 k1, pool_do (op x) p = (Ret l, p1) ∧ Forall P l ∧ covers k1 p1 ∧
    k1 + counted counts l ≤ k + cost x) as (l & p1 & k1 & E1 & Hl & H1 & Hk1).
  { unfold affordable in Hx. destruct (op x) as [y|i].
    - destruct Hp as (Hm & ns & Hns & Hk).
      eexists _, _, (k + cost x). split_and!; [done|constructor| |unfold counted; simpl; lia].
      split; [done|]. exists (ns ++ [cost x]). split.
      + apply Forall2_app; [done|]. by constructor.
      + simpl. rewrite sum_list_with_app. simpl. change (sum_list_with id ns) with (sum_list ns). simpl in Hk. lia.
    - destruct (step_affords k p i Hp) as (l & p1 & k1 & E1 & Hl & H1 & Hk1). exists l, p1, k1.
      split_and!; [done..|lia]. }
  destruct (IH k1 p1 H1 Hxs) as (ls & p2 & k2 & E2 & Hls & H2 & Hk2).
  exists (l :: ls), p2, k2. simpl. split_and!; [by eapply go_map_cons|by apply Forall_app|done|].
  unfold counted in *. rewrite List.filter_app, length_app. lia.
Qed.

Lemma covers_start s : J s → covers (charge s) (mkPool s []).
Proof. intros Hs. split; [done|]. exists []. split; [constructor|]. simpl. lia. Qed.
End credits.

(** ** Without counting *)

Section safe.
Context {S E : Type} (J : S → Prop) (P : E → Prop).

(** From a memory in [J] the goroutine never panics. *)
Definition safe {A} (Q : A → Prop) (t : routine S E A) : Prop :=
  affords J P (λ _, 0) (λ _, false) False (λ n a, n = 0 ∧ Q a) 0 t.

Lemma safe_ret {A} (Q : A → Prop) a : Q a → safe Q (mret a).
Proof. done. Qed.

Lemma safe_bind {A B} (t : routine S E A) (f : A → routine S E B) Q R :
  safe Q t → (∀ a, Q a → safe R (f a)) → safe R (t ≫= f).
Proof. intros Ht Hf. eapply affords_bind; [exact Ht|]. intros n a [-> Ha]. by apply Hf. Qed.

Lemma safe_atomic {A} (m : go S A) (Q : A → Prop) :
  (∀ s, J s → ∃ a s', m s = (Ret a, s') ∧ J s' ∧ Q a) → safe Q (atomic m).
Proof.
  intros H. apply affords_atomic. intros s Hs. destruct (H s Hs) as (a & s' & E1 & Hs' & Ha).
  by exists a, s', 0.
Qed.

Lemma safe_emit x : P x → safe (λ _, True) (emit x).
Proof. intros Hx. split; [done|]. by exists 0. Qed.

Lemma safe_emits l : Forall P l → safe (λ _, True) (emits l).
Proof. induction 1 as [|x l Hx _ IH]; [done|]. split; [done|]. by exists 0. Qed.

Lemma safe_for {A} (f : A → routine S E ()) l :
  (∀ x, safe (λ _, True) (f x)) → safe (λ _, True) (routine_for f l).
Proof.
  intros Hf. induction l as [|x l IH]; [done|]. eapply safe_bind; [apply Hf|]. by intros _ _.
Qed.

Context {X : Type} (op : X → pool_op S E).

(** Every schedule runs. *)
Lemma pool_safe xs s :
  J s → (∀ x y, x ∈ xs → op x = Spawn y → safe (λ _, True) (body y)) →
  ∃ ls p', go_map pool_do (op <$> xs) (mkPool s []) = (Ret ls, p') ∧ J (memory p') ∧ Forall P (concat ls).
Proof.
  intros Hs Hx. destruct (pool_affords J P (λ _, 0) (λ _, false) op (λ _, 0) xs 0 (mkPool s []))
    as (ls & p' & k & E1 & HP & [Hp _] & _); [by apply (covers_start _ _ (λ _, 0))| |by exists ls, p'].
  apply Forall_forall. intros x Hin. unfold affordable. destruct (op x) as [y|i] eqn:Ey; [|done].
  left. eapply affords_any, Hx; [exact Hin|exact Ey].
Qed.
End safe.
