(* ===== verification/Custody.v ===== *)
(** * Who has it

    A thing of the memory that must not get lost while goroutines pass it on:
    [there] tells whether the memory has it, and a goroutine that has taken it
    out [minds] it until a section puts it back.  Then, under every schedule,
    it is in the memory or with a goroutine that has not ended
    ([step_secure]), whatever else the goroutines do and whoever panics, as
    long as the process lives. *)

From S2P Require Import Prelude Threads.

Section custody.
Context {S E : Type} (J : S → Prop) (there : S → Prop).

(** [h]: the goroutine has it.  A panic must not take it along. *)
Fixpoint minds {A} (Q : bool → A → Prop) (h : bool) (t : routine S E A) : Prop :=
  match t with
  | Return a => Q h a
  | Atomic m k => ∀ s, J s →
      J (snd (m s)) ∧ ∃ h' : bool, (h = true ∨ there s → h' = true ∨ there (snd (m s))) ∧
        match fst (m s) with Ret b => minds Q h' (k b) | Panic _ => h' = false end
  | Emit _ t => minds Q h t
  end.

(** The goroutine ends without it. *)
Definition let_go {A} : bool → A → Prop := λ h _, h = false.

Lemma minds_bind {A B} (t : routine S E A) (f : A → routine S E B) Q R h :
  minds Q h t → (∀ h a, Q h a → minds R h (f a)) → minds R h (t ≫= f).
Proof.
  intros Ht Hf. revert h Ht. induction t as [a|C m k IH|x t IH]; intros h Ht; simpl in *.
  - by apply Hf.
  - intros s Hs. destruct (Ht s Hs) as (Hs' & h' & Hh & Hk). split; [done|]. exists h'. split; [done|].
    destruct (fst (m s)); [by apply IH|done].
  - by apply IH.
Qed.

Lemma minds_ret {A} (Q : bool → A → Prop) h a : Q h a → minds Q h (mret a).
Proof. done. Qed.

Lemma minds_atomic {A} (m : go S A) (Q : bool → A → Prop) h :
  (∀ s, J s → J (snd (m s)) ∧ ∃ h' : bool, (h = true ∨ there s → h' = true ∨ there (snd (m s))) ∧
     match fst (m s) with Ret b => Q h' b | Panic _ => h' = false end) →
  minds Q h (atomic m).
Proof. done. Qed.

(** A section that leaves it where it is, by a goroutine that does not have
    it. *)
Lemma minds_still {A} (m : go S A) (Q : A → Prop) :
  ensures J m Q → (∀ s, J s → there s → there (snd (m s))) →
  minds (λ h a, h = false ∧ Q a) false (atomic m).
Proof.
  intros HJ Hm. apply minds_atomic. intros s Hs. destruct (HJ s Hs) as [Hs' HQ]. split; [done|].
  exists false. split; [intros [?|?]; [done|right; by apply Hm]|]. destruct (fst (m s)); [|done].
  split; [done|by apply HQ].
Qed.

Lemma minds_emits l h : minds (λ h' _, h' = h) h (emits l).
Proof. by induction l. Qed.

Lemma minds_for {A} (f : A → routine S E ()) l :
  (∀ x, minds let_go false (f x)) → minds let_go false (routine_for f l).
Proof.
  intros Hf. induction l as [|x l IH]; [done|]. eapply minds_bind; [apply Hf|]. by intros h [] ->.
Qed.

Lemma minds_weaken {A} (Q R : bool → A → Prop) h t :
  minds Q h t → (∀ h a, Q h a → R h a) → minds R h t.
Proof.
  intros Ht HR. revert h Ht. induction t as [a|C m k IH|x t IH]; intros h Ht; simpl in *; [by apply HR| |by apply IH].
  intros s Hs. destruct (Ht s Hs) as (Hs' & h' & Hh & Hk). split; [done|]. exists h'. split; [done|].
  destruct (fst (m s)); [by apply IH|done].
Qed.

(** ** Tasks and pools *)

Definition task_minds (h : bool) (x : task S E) : Prop :=
  minds let_go h (body x) ∧ ∀ t, on_panic x = Some t → minds let_go false t.

(** Every goroutine knows what it has. *)
Definition minding (hs : list bool) (p : Pool S E) : Prop :=
  J (memory p) ∧ Forall2 task_minds hs (tasks p).

(** It is in the memory or with a goroutine. *)
Definition secure (p : Pool S E) : Prop :=
  ∃ hs, minding hs p ∧ (true ∈ hs ∨ there (memory p)).

Definition calm (p : Pool S E) : Prop := ∃ hs, minding hs p.

Lemma secure_calm p : secure p → calm p.
Proof. intros (hs & H & _). by exists hs. Qed.

Lemma calm_there p : calm p → there (memory p) → secure p.
Proof. intros [hs H] Ht. exists hs. split; [done|by right]. Qed.

(** A task that goes on having it or not. *)
Lemma minding_insert hs p i h h' x s' :
  minding hs p → hs !! i = Some h → J s' → task_minds h' x →
  (h = true ∨ there (memory p) → h' = true ∨ there s') →
  minding (<[i := h']> hs) (mkPool s' (<[i := x]> (tasks p))) ∧
  (true ∈ hs ∨ there (memory p) → true ∈ <[i := h']> hs ∨ there s').
Proof.
  intros [Hm Hts] Hi Hs' Hx Hh. split; [split; [done|by apply Forall2_insert]|].
  assert (i < length hs) as Hlt by (by eapply lookup_lt_Some).
  assert (h' = true → true ∈ <[i := h']> hs) as Hhave.
  { intros ->. apply list_elem_of_lookup. exists i. by apply list_lookup_insert_eq. }
  intros [[j Hj]%list_elem_of_lookup|Ht].
  - destruct (decide (i = j)) as [->|Hne].
    + rewrite Hi in Hj. injection Hj as ->. destruct Hh as [?|?]; [by left|left; by apply Hhave|by right].
    + left. apply list_elem_of_lookup. exists j. by rewrite list_lookup_insert_ne.
  - destruct Hh as [?|?]; [by right|left; by apply Hhave|by right].
Qed.

Lemma step_minding hs p i l p' :
  minding hs p → pool_step i p = (Ret l, p') →
  ∃ hs', minding hs' p' ∧ (true ∈ hs ∨ there (memory p) → true ∈ hs' ∨ there (memory p')).
Proof.
  intros Hp. pose proof Hp as [Hm Hts]. unfold pool_step.
  destruct (tasks p !! i) as [[t h]|] eqn:Ei; [|intros [= <- <-]; by exists hs].
  destruct (Forall2_lookup_r _ _ _ _ _ Hts Ei) as (hd & Hi & Hx & Hpanic). cbn [body on_panic] in Hx, Hpanic.
  destruct t as [a|B m k|x t].
  - intros [= <- <-]. by exists hs.
  - destruct (Hx _ Hm) as (Hs' & h' & Hh & Hk). destruct (m (memory p)) as [[b|e] s']; cbn [fst snd] in *.
    + intros [= <- <-]. eexists. by apply (minding_insert hs p i hd h').
    + subst h'. destruct h as [t|]; [|done]. intros [= <- <-]. eexists. apply (minding_insert hs p i hd false); [done..| |done].
      split; [by apply Hpanic|done].
  - intros [= <- <-]. eexists. by apply (minding_insert hs p i hd hd).
Qed.

Definition op_minds (o : pool_op S E) : Prop :=
  match o with Spawn x => task_minds false x | Run _ => True end.

Lemma do_minding hs p o l p' :
  op_minds o → minding hs p → pool_do o p = (Ret l, p') →
  ∃ hs', minding hs' p' ∧ (true ∈ hs ∨ there (memory p) → true ∈ hs' ∨ there (memory p')).
Proof.
  destruct o as [x|i]; [|by intros _; apply step_minding]. intros Hx [Hm Hts] [= <- <-].
  exists (hs ++ [false]). split.
  - split; [done|]. by apply Forall2_app; [|constructor].
  - intros [?|?]; [left; apply elem_of_app; by left|by right].
Qed.

Lemma do_calm p o l p' : op_minds o → calm p → pool_do o p = (Ret l, p') → calm p'.
Proof. intros Ho [hs Hp] E1. destruct (do_minding _ _ _ _ _ Ho Hp E1) as (hs' & H & _). by exists hs'. Qed.

Lemma do_secure p o l p' : op_minds o → secure p → pool_do o p = (Ret l, p') → secure p'.
Proof.
  intros Ho (hs & Hp & Ht) E1. destruct (do_minding _ _ _ _ _ Ho Hp E1) as (hs' & H & Hs).
  exists hs'. split; [done|by apply Hs].
Qed.

(** ** What it means to have it

    Run alone, on whatever memory, the goroutine puts it there. *)
Lemma minds_run {A} h (t : routine S E A) s :
  minds let_go h t → J s → h = true ∨ there s → there (snd (run t s)).
Proof.
  revert h s. induction t as [a|B m k IH|x t IH]; intros h s Ht Hs Hh.
  - destruct Hh as [->|?]; [done|done].
  - destruct (Ht s Hs) as (Hs' & h' & Hh' & Hk). specialize (Hh' Hh). cbn [run]. go_unfold.
    destruct (m s) as [[b|e] s']; cbn [fst snd] in *.
    + by eapply IH.
    + by destruct Hh' as [Hh'|?]; [rewrite Hk in Hh'|].
  - cbn [run]. go_unfold. specialize (IH h s Ht Hs Hh). by destruct (run t s) as [[[l a]|e] s'].
Qed.

Definition puts_back (x : task S E) : Prop := ∀ s, J s → there (snd (run (body x) s)).

Lemma secure_where p : secure p → there (memory p) ∨ ∃ x, x ∈ tasks p ∧ puts_back x.
Proof.
  intros (hs & [_ Hts] & [[i Hi]%list_elem_of_lookup|Ht]); [right|by left].
  destruct (Forall2_lookup_l _ _ _ _ _ Hts Hi) as (x & Hx & Hb & _). exists x.
  split; [by eapply list_elem_of_lookup_2|]. intros s Hs. eapply minds_run; [exact Hb|done|by left].
Qed.
End custody.
