(* ===== verification/Interfaces.v ===== *)
(** * Interfaces to the code the program calls

    goleveldb, [crypto/ed25519] and the codec of transactions are classes:
    what the program relies on is a law class next to the operations.  The
    ledger and its clients are verified against these classes; the JSON codec
    is implemented in Json.v, and [MapDB] and [ToySigner] below are concrete
    instances on which the properties are run. *)

From stdpp Require Import sorting.
From S2P Require Import Prelude GoStd Model.

(** ** The key-value store

    [db_Get] is [None] when the call returns an error ([ErrNotFound] on a
    healthy store).  [db_Iter] lists what [NewIterator(nil, nil)] visits. *)

Class LevelDB (DB : Type) : Type := {
  db_Get : string → DB → option string;
  db_Has : string → DB → bool;
  db_Put : string → string → DB → DB;
  db_Iter : DB → list (string * string);
}.

(** A healthy store: reads see the last write, and iteration visits every
    pair once, in the byte order of the keys. *)
Class LevelDBLaws (DB : Type) `{!LevelDB DB} : Prop := {
  Get_Put_eq k v (d : DB) : db_Get k (db_Put k v d) = Some v;
  Get_Put_ne k k' v (d : DB) : k ≠ k' → db_Get k' (db_Put k v d) = db_Get k' d;
  Has_Get k (d : DB) : db_Has k d = true ↔ is_Some (db_Get k d);
  Iter_Get k v (d : DB) : (k, v) ∈ db_Iter d ↔ db_Get k d = Some v;
  Iter_sorted (d : DB) :
    StronglySorted (λ x y, str_ltb (fst x) (fst y) = true) (db_Iter d);
}.

(** ** Signatures *)

Class Ed25519 : Type := {
  ed_public : string → string;                    (* of a 32-byte seed *)
  ed_sign : string → string → string;             (* seed, message *)
  ed_verify : string → string → string → bool;    (* public key, message, signature *)
}.

Definition SeedSize : nat := 32.
Definition PublicKeySize : nat := 32.
Definition SignatureSize : nat := 64.

Class Ed25519Laws `{!Ed25519} : Prop := {
  ed_public_size seed : String.length seed = SeedSize → String.length (ed_public seed) = PublicKeySize;
  ed_sign_size seed m : String.length seed = SeedSize → String.length (ed_sign seed m) = SignatureSize;
  ed_verify_sign seed m :
    String.length seed = SeedSize → ed_verify (ed_public seed) m (ed_sign seed m) = true;
}.

(** [NewKeyFromSeed] and [Verify] panic on a key of the wrong size. *)
Definition NewKeyFromSeed {S} (seed : string) : go S string :=
  if Nat.eqb (String.length seed) SeedSize then mret seed else throw KeySize.

Definition Verify `{!Ed25519} {S} (pub message sig : string) : go S bool :=
  if Nat.eqb (String.length pub) PublicKeySize then mret (ed_verify pub message sig)
  else throw KeySize.

(** ** Transactions on the wire *)

Class TxCodec : Type := {
  Unmarshal_tx : string → option Transaction;
  Marshal_tx : Transaction → string;
}.

(** The fields a JSON round trip preserves: well-formed UTF-8. *)
Definition wf_tx (tx : Transaction) : bool :=
  valid_utf8 (tx_Type tx) && valid_utf8 (tx_NationID tx) && valid_utf8 (tx_EventID tx) &&
  valid_utf8 (tx_Signature tx) && valid_utf8 (tx_Payload tx).

Class TxCodecLaws `{!TxCodec} : Prop := {
  Unmarshal_Marshal tx : wf_tx tx = true → Unmarshal_tx (Marshal_tx tx) = Some tx;
}.

(** ** The text of an instant

    What [time.Time] is marshalled to and unmarshalled from, without the
    quotes: an RFC 3339 text of the instant, here a number of nanoseconds
    since the zero time.  The text has no character JSON would escape. *)

Class TimeText : Type := {
  time_Marshal : Z → string;
  time_Unmarshal : string → option Z;
}.

(** The beginning of the year 10000. *)
Definition max_time : Z := 315537897600 * 1000000000.

Definition time_char (c : ascii) : bool :=
  let v := byte_val c in
  ((48 <=? v) && (v <=? 57) || bool_decide (c ∈ ["-"; ":"; "."; "T"; "Z"]%char))%Z.

Fixpoint all_chars (p : ascii → bool) (s : string) : bool :=
  match s with EmptyString => true | String c s => p c && all_chars p s end.

Class TimeTextLaws `{!TimeText} : Prop := {
  time_round t : (0 ≤ t < max_time)%Z → time_Unmarshal (time_Marshal t) = Some t;
  time_text t : (0 ≤ t < max_time)%Z → all_chars time_char (time_Marshal t) = true;
  time_zero : time_Marshal 0 = "0001-01-01T00:00:00Z";
}.

(** ** Stores that answer reads alike *)

Section equiv.
Context {DB : Type} `{!LevelDB DB}.

Definition db_equiv (d1 d2 : DB) : Prop := ∀ k, db_Get k d1 = db_Get k d2.

#[export] Instance db_equiv_equivalence : Equivalence db_equiv.
Proof.
  split.
  - by intros d k.
  - intros d1 d2 H k. by rewrite H.
  - intros d1 d2 d3 H1 H2 k. by rewrite H1, H2.
Qed.

#[export] Instance db_Get_proper : Proper ((=) ==> db_equiv ==> (=)) db_Get.
Proof. intros k k' <- d1 d2 H. apply H. Qed.

Context `{!LevelDBLaws DB}.

Lemma Get_Put k k' v (d : DB) :
  db_Get k' (db_Put k v d) = if decide (k = k') then Some v else db_Get k' d.
Proof. case_decide; [subst; apply Get_Put_eq|by apply Get_Put_ne]. Qed.

Lemma Has_false k (d : DB) : db_Has k d = false ↔ db_Get k d = None.
Proof.
  rewrite eq_None_not_Some, <- Has_Get. by destruct (db_Has k d).
Qed.

#[export] Instance db_Has_proper : Proper ((=) ==> db_equiv ==> (=)) db_Has.
Proof.
  intros k k' <- d1 d2 H. destruct (db_Has k d1) eqn:E.
  - symmetry. apply Has_Get. rewrite <- (H k). by apply Has_Get.
  - symmetry. apply Has_false. rewrite <- (H k). by apply Has_false.
Qed.

#[export] Instance db_Put_proper : Proper ((=) ==> (=) ==> db_equiv ==> db_equiv) db_Put.
Proof. intros k ? <- v ? <- d1 d2 H k'. rewrite !Get_Put. case_decide; [done|apply H]. Qed.

(** Iteration is determined by the reads: order and content are fixed. *)
Lemma db_Iter_equiv d1 d2 : db_equiv d1 d2 → db_Iter d1 = db_Iter d2.
Proof.
  intros H. set (R := λ x y : string * string, str_ltb (fst x) (fst y) = true).
  assert (∀ d : DB, NoDup (db_Iter d)) as Hnd.
  { intros d. pose proof (Iter_sorted d) as Hs. induction Hs as [|x l Hs IH Hall]; constructor; [|done].
    intros Hx. rewrite Forall_forall in Hall. specialize (Hall x Hx).
    by rewrite str_ltb_irrefl in Hall. }
  apply (StronglySorted_unique_strong R); [|apply Iter_sorted|apply Iter_sorted|].
  - intros x y _ _ H1 H2. unfold R in *. rewrite (str_ltb_asym _ _ H1) in H2. done.
  - apply NoDup_Permutation; [apply Hnd|apply Hnd|]. intros [k v].
    by rewrite !Iter_Get, (H k).
Qed.
End equiv.

(** ** A concrete store: a finite map *)

Abbreviation MapDB := (gmap string string).

Definition entry_le (x y : string * string) : Prop := str_le (fst x) (fst y).

#[export] Instance entry_le_dec x y : Decision (entry_le x y).
Proof. unfold entry_le. apply _. Defined.

#[export] Instance entry_le_trans : Transitive entry_le.
Proof. intros x y z. unfold entry_le. apply transitivity. Qed.

#[export] Instance entry_le_total : Total entry_le.
Proof. intros x y. unfold entry_le. apply total, _. Qed.

#[export] Instance MapDB_ops : LevelDB MapDB := {
  db_Get k d := d !! k;
  db_Has k d := bool_decide (is_Some (d !! k));
  db_Put k v d := <[k:=v]> d;
  db_Iter d := merge_sort entry_le (map_to_list d);
}.

Lemma MapDB_sorted (l : list (string * string)) :
  StronglySorted entry_le l → NoDup (fst <$> l) →
  StronglySorted (λ x y, str_ltb (fst x) (fst y) = true) l.
Proof.
  intros Hs Hnd. induction Hs as [|x l Hs IH Hall]; [constructor|].
  rewrite fmap_cons in Hnd. apply NoDup_cons in Hnd as [Hx Hnd].
  constructor; [by apply IH|]. apply Forall_forall. intros y Hy.
  rewrite Forall_forall in Hall. specialize (Hall y Hy).
  destruct (str_ltb (fst x) (fst y)) eqn:E; [done|]. exfalso. apply Hx.
  rewrite (str_ltb_total _ _ E Hall). by apply list_elem_of_fmap_2.
Qed.

#[export] Instance MapDB_laws : LevelDBLaws MapDB.
Proof.
  split; simpl; intros.
  - apply lookup_insert_eq.
  - by apply lookup_insert_ne.
  - by rewrite bool_decide_eq_true.
  - by rewrite merge_sort_Permutation, elem_of_map_to_list.
  - apply MapDB_sorted; [apply StronglySorted_merge_sort; apply _|].
    rewrite merge_sort_Permutation. apply NoDup_fst_map_to_list.
Qed.

(** ** A concrete signature scheme, to run the program on *)

Fixpoint poly_hash (acc : Z) (s : string) : Z :=
  match s with
  | EmptyString => acc
  | String c s => poly_hash ((acc * 131 + byte_val c + 1) mod 2 ^ 61)%Z s
  end.

Definition toy_digest (s : string) : string :=
  String.substring 0 32 (digits 20 (poly_hash 7 s) "" +:+ spaces 32).

#[export] Instance ToySigner : Ed25519 := {
  ed_public seed := seed;
  ed_sign seed m := seed +:+ toy_digest m;
  ed_verify pub m sig := bool_decide (sig = pub +:+ toy_digest m);
}.

Lemma toy_digest_length s : String.length (toy_digest s) = 32%nat.
Proof.
  unfold toy_digest. apply substring_0_length. rewrite str_length_app, spaces_length. lia.
Qed.

#[export] Instance ToySigner_laws : Ed25519Laws.
Proof.
  split; simpl; intros.
  - done.
  - rewrite str_length_app, toy_digest_length, H. done.
  - by apply bool_decide_eq_true.
Qed.

#[export] Hint Resolve Get_Put_eq Get_Put_ne : ormuz.
