(* ===== verification/Json.v ===== *)
(** * encoding/json as the ledger uses it

    The decoder checks a whole document against the JSON grammar, unquotes
    strings as Go does (invalid UTF-8 and lone surrogates become U+FFFD) and
    stores the members of an object into the fields of [Transaction], matching
    names case-insensitively; the encoder writes the fields in order with
    Go's escapes.  The fuel of the parser is twice the length of the document
    plus two; JsonProps.v shows that it never runs out ([parse_json_fed]). *)

From S2P Require Import Prelude GoStd Model Interfaces.
Local Open Scope Z_scope.

(** ** Lexical elements *)

Definition dquote : ascii := byte_of 34.
Definition backslash : ascii := byte_of 92.
Definition is_char (c d : ascii) : bool := bool_decide (c = d).

Definition is_space (c : ascii) : bool :=
  let v := byte_val c in (v =? 32) || (v =? 9) || (v =? 13) || (v =? 10).

Fixpoint skip_ws (s : string) : string :=
  match s with
  | String c s' => if is_space c then skip_ws s' else s
  | EmptyString => EmptyString
  end.

(** The result of parsing a prefix: malformed, out of fuel, or a value and
    what follows it. *)
Inductive parsed (A : Type) : Type :=
| Bad
| OutOfFuel
| Good (a : A) (rest : string).
Arguments Bad {A}.
Arguments OutOfFuel {A}.
Arguments Good {A} _ _.

Definition pbind {A B} (p : parsed A) (f : A → string → parsed B) : parsed B :=
  match p with Bad => Bad | OutOfFuel => OutOfFuel | Good a r => f a r end.

(** [utf8.EncodeRune] on a code point that is no surrogate. *)
Definition encode_rune (r : Z) : string :=
  if r <? 128 then String (byte_of r) ""
  else if r <? 2048 then
    String (byte_of (192 + r / 64)) (String (byte_of (128 + r mod 64)) "")
  else if r <? 65536 then
    String (byte_of (224 + r / 4096))
      (String (byte_of (128 + (r / 64) mod 64)) (String (byte_of (128 + r mod 64)) ""))
  else
    String (byte_of (240 + r / 262144))
      (String (byte_of (128 + (r / 4096) mod 64))
        (String (byte_of (128 + (r / 64) mod 64)) (String (byte_of (128 + r mod 64)) ""))).

(** U+FFFD. *)
Definition replacement : string := encode_rune 65533.

(** Four hex digits. *)
Definition hex4 (s : string) : option (Z * string) :=
  match s with
  | String a (String b (String c (String d s))) =>
    w ← from_hex_char a; x ← from_hex_char b; y ← from_hex_char c; z ← from_hex_char d;
    Some (((w * 16 + x) * 16 + y) * 16 + z, s)
  | _ => None
  end.

(** [getu4] on [\uXXXX]. *)
Definition getu4 (s : string) : option (Z * string) :=
  match s with
  | String a (String b s) => if is_char a backslash && is_char b "u" then hex4 s else None
  | _ => None
  end.

Definition is_surrogate (r : Z) : bool := (55296 <=? r) && (r <? 57344).

(** [utf16.DecodeRune], [None] for the replacement character. *)
Definition utf16_pair (r1 r2 : Z) : option Z :=
  if (55296 <=? r1) && (r1 <? 56320) && (56320 <=? r2) && (r2 <? 57344)
  then Some ((r1 - 55296) * 1024 + (r2 - 56320) + 65536) else None.

(** What follows a [\u]: the bytes of the rune and the rest. *)
Definition unquote_u (s : string) : option (string * string) :=
  '(rr, s1) ← hex4 s;
  if is_surrogate rr then
    match getu4 s1 with
    | Some (rr1, s2) =>
      match utf16_pair rr rr1 with
      | Some dec => Some (encode_rune dec, s2)
      | None => Some (replacement, s1)
      end
    | None => Some (replacement, s1)
    end
  else Some (encode_rune rr, s1).

(** The one-letter escapes. *)
Definition simple_escape (e : ascii) : option ascii :=
  if is_char e dquote || is_char e backslash || is_char e "/" then Some e
  else if is_char e "b" then Some (byte_of 8)
  else if is_char e "f" then Some (byte_of 12)
  else if is_char e "n" then Some (byte_of 10)
  else if is_char e "r" then Some (byte_of 13)
  else if is_char e "t" then Some (byte_of 9)
  else None.

(** The first [n] bytes of [s] and the rest. *)
Fixpoint split_bytes (n : nat) (s : string) : string * string :=
  match n, s with
  | S n, String c s => let '(a, b) := split_bytes n s in (String c a, b)
  | _, _ => (EmptyString, s)
  end.

Definition prepend (t : string) (p : parsed string) : parsed string :=
  pbind p (λ u r, Good (t +:+ u) r).

(** The characters of a string up to its closing quote. *)
Fixpoint parse_str (fuel : nat) (s : string) : parsed string :=
  match fuel with
  | O => OutOfFuel
  | S fuel =>
    match s with
    | EmptyString => Bad
    | String c s1 =>
      if is_char c dquote then Good EmptyString s1
      else if is_char c backslash then
        match s1 with
        | EmptyString => Bad
        | String e s2 =>
          if is_char e "u" then
            match unquote_u s2 with
            | None => Bad
            | Some (t, s3) => prepend t (parse_str fuel s3)
            end
          else
            match simple_escape e with
            | None => Bad
            | Some d => prepend (String d EmptyString) (parse_str fuel s2)
            end
        end
      else if byte_val c <? 32 then Bad
      else if byte_val c <? 128 then prepend (String c EmptyString) (parse_str fuel s1)
      else if Nat.eqb (rune_size c s1) 1 then prepend replacement (parse_str fuel s1)
      else
        let '(t, s2) := split_bytes (rune_size c s1 - 1) s1 in
        prepend (String c t) (parse_str fuel s2)
    end
  end.

Definition is_digit (c : ascii) : bool := (48 <=? byte_val c) && (byte_val c <=? 57).

Fixpoint span_digits (s : string) : string * string :=
  match s with
  | String c s' =>
    if is_digit c then let '(a, b) := span_digits s' in (String c a, b) else (EmptyString, s)
  | EmptyString => (EmptyString, EmptyString)
  end.

(** One or more digits. *)
Definition digits1 (s : string) : option (string * string) :=
  let '(a, b) := span_digits s in
  match a with EmptyString => None | _ => Some (a, b) end.

(** A literal character that may be there. *)
Definition opt_char (p : ascii → bool) (s : string) : string * string :=
  match s with
  | String c s' => if p c then (String c EmptyString, s') else (EmptyString, s)
  | EmptyString => (EmptyString, EmptyString)
  end.

(** A number, kept as its literal. *)
Definition parse_number (s : string) : option (string * string) :=
  let '(sign, s1) := opt_char (λ c, is_char c "-") s in
  '(int, s2) ←
    match s1 with
    | String c s' => if is_char c "0" then Some (String c EmptyString, s') else digits1 s1
    | EmptyString => None
    end;
  '(frac, s3) ←
    match s2 with
    | String c s' =>
      if is_char c "." then '(d, r) ← digits1 s'; Some (String c d, r) else Some (EmptyString, s2)
    | EmptyString => Some (EmptyString, EmptyString)
    end;
  '(exp, s4) ←
    match s3 with
    | String c s' =>
      if is_char c "e" || is_char c "E" then
        let '(sg, r0) := opt_char (λ c, is_char c "+" || is_char c "-") s' in
        '(d, r) ← digits1 r0; Some (String c (sg +:+ d), r)
      else Some (EmptyString, s3)
    | EmptyString => Some (EmptyString, EmptyString)
    end;
  Some (sign +:+ int +:+ frac +:+ exp, s4).

(** [s] after the literal [lit]. *)
Fixpoint after_literal (lit s : string) : option string :=
  match lit, s with
  | EmptyString, _ => Some s
  | String a lit, String b s => if is_char a b then after_literal lit s else None
  | String _ _, EmptyString => None
  end.

(** ** Values *)

(** A string keeps whether its text had escapes: an unmarshaller that is
    handed the raw text, such as that of [time.Time], can tell. *)
Inductive json : Type :=
| JNull
| JBool (b : bool)
| JNum (lit : string)
| JStr (escaped : bool) (s : string)
| JArr (l : list json)
| JObj (l : list (string * json)).

(** Does what lies between [s] and its rest [r] have a backslash? *)
Definition has_escape (s r : string) : bool :=
  contains_byte backslash (String.substring 0 (String.length s - String.length r) s).

Definition maxNestingDepth : Z := 10000.

Definition literal (lit : string) (v : json) (s : string) : parsed json :=
  match after_literal lit s with Some r => Good v r | None => Bad end.

Fixpoint parse_value (fuel : nat) (depth : Z) (s : string) : parsed json :=
  match fuel with
  | O => OutOfFuel
  | S fuel =>
    match skip_ws s with
    | EmptyString => Bad
    | String c s1 =>
      if is_char c "{" then
        if maxNestingDepth <? depth + 1 then Bad else
        match skip_ws s1 with
        | EmptyString => Bad
        | String d s2 =>
          if is_char d "}" then Good (JObj []) s2
          else pbind (parse_members fuel (depth + 1) s1) (λ l r, Good (JObj l) r)
        end
      else if is_char c "[" then
        if maxNestingDepth <? depth + 1 then Bad else
        match skip_ws s1 with
        | EmptyString => Bad
        | String d s2 =>
          if is_char d "]" then Good (JArr []) s2
          else pbind (parse_elems fuel (depth + 1) s1) (λ l r, Good (JArr l) r)
        end
      else if is_char c dquote then
        pbind (parse_str (S (String.length s1)) s1) (λ t r, Good (JStr (has_escape s1 r) t) r)
      else if is_char c "t" then literal "rue" (JBool true) s1
      else if is_char c "f" then literal "alse" (JBool false) s1
      else if is_char c "n" then literal "ull" JNull s1
      else match parse_number (String c s1) with
           | Some (lit, r) => Good (JNum lit) r
           | None => Bad
           end
    end
  end
with parse_members (fuel : nat) (depth : Z) (s : string) : parsed (list (string * json)) :=
  match fuel with
  | O => OutOfFuel
  | S fuel =>
    match skip_ws s with
    | EmptyString => Bad
    | String c s1 =>
      if is_char c dquote then
        pbind (parse_str (S (String.length s1)) s1) (λ key s2,
        match skip_ws s2 with
        | EmptyString => Bad
        | String d s3 =>
          if is_char d ":" then
            pbind (parse_value fuel depth s3) (λ v s4,
            match skip_ws s4 with
            | EmptyString => Bad
            | String e s5 =>
              if is_char e "," then
                pbind (parse_members fuel depth s5) (λ l r, Good ((key, v) :: l) r)
              else if is_char e "}" then Good [(key, v)] s5
              else Bad
            end)
          else Bad
        end)
      else Bad
    end
  end
with parse_elems (fuel : nat) (depth : Z) (s : string) : parsed (list json) :=
  match fuel with
  | O => OutOfFuel
  | S fuel =>
    pbind (parse_value fuel depth s) (λ v s1,
    match skip_ws s1 with
    | EmptyString => Bad
    | String e s2 =>
      if is_char e "," then pbind (parse_elems fuel depth s2) (λ l r, Good (v :: l) r)
      else if is_char e "]" then Good [v] s2
      else Bad
    end)
  end.

(** A whole document. *)
Definition parse_json (s : string) : parsed json :=
  pbind (parse_value (2 * String.length s + 2) 0 s) (λ v r,
    match skip_ws r with EmptyString => Good v EmptyString | String _ _ => Bad end).

(** ** Structs *)

(** [foldName] as far as comparison with ASCII field names goes: ASCII
    letters in upper case; U+017F folds to S and U+212A to K. *)
Definition upper (c : ascii) : ascii :=
  let v := byte_val c in if (97 <=? v) && (v <=? 122) then byte_of (v - 32) else c.

Fixpoint fold_name (s : string) : string :=
  match s with
  | EmptyString => EmptyString
  | String c s' =>
    match s' with
    | EmptyString => String (upper c) EmptyString
    | String d s'' =>
      if (byte_val c =? 197) && (byte_val d =? 191) then String "S" (fold_name s'')
      else
        match s'' with
        | EmptyString => String (upper c) (fold_name s')
        | String e s''' =>
          if (byte_val c =? 226) && (byte_val d =? 132) && (byte_val e =? 170)
          then String "K" (fold_name s''')
          else String (upper c) (fold_name s')
        end
    end
  end.

(** Storing a JSON value into a field that holds [old]; [None] is the type
    error [Unmarshal] reports.  [null] leaves the field alone. *)
Definition into_string (old : string) (v : json) : option string :=
  match v with JStr _ s => Some s | JNull => Some old | _ => None end.

Definition into_bool (old : bool) (v : json) : option bool :=
  match v with JBool b => Some b | JNull => Some old | _ => None end.

Definition into_int (old : Z) (v : json) : option Z :=
  match v with
  | JNum lit => match Atoi lit with (z, None) => Some z | _ => None end
  | JNull => Some old
  | _ => None
  end.

Definition into_uint64 (old : Z) (v : json) : option Z :=
  match v with
  | JNum lit => match parse_uint 0 lit with POk z => Some z | _ => None end
  | JNull => Some old
  | _ => None
  end.

(** The members of an object, in order, into a struct. *)
Fixpoint into_struct {T} (field : string → json → T → option T)
    (members : list (string * json)) (t : T) : option T :=
  match members with
  | [] => Some t
  | (k, v) :: members => t' ← field (fold_name k) v t; into_struct field members t'
  end.

Definition into_object {T} (field : string → json → T → option T) (zero : T) (p : parsed json) :
    option T :=
  match p with
  | Good JNull _ => Some zero
  | Good (JObj members) _ => into_struct field members zero
  | _ => None
  end.

(** A nested struct: [null] leaves it alone. *)
Definition into_nested {T} (field : string → json → T → option T) (old : T) (v : json) : option T :=
  match v with
  | JObj members => into_struct field members old
  | JNull => Some old
  | _ => None
  end.

(** [Decode] reads the first value of the body. *)
Definition decode_first {T} (field : string → json → T → option T) (zero : T) (body : string) :
    option T :=
  into_object field zero (parse_value (2 * String.length body + 2) 0 body).

Definition tx_field (k : string) (v : json) (t : Transaction) : option Transaction :=
  let '(mkTransaction ty na ev si pa) := t in
  if bool_decide (k = "TYPE") then x ← into_string ty v; Some (mkTransaction x na ev si pa)
  else if bool_decide (k = "NATION_ID") then x ← into_string na v; Some (mkTransaction ty x ev si pa)
  else if bool_decide (k = "EVENT_ID") then x ← into_string ev v; Some (mkTransaction ty na x si pa)
  else if bool_decide (k = "SIGNATURE") then x ← into_string si v; Some (mkTransaction ty na ev x pa)
  else if bool_decide (k = "PAYLOAD") then x ← into_string pa v; Some (mkTransaction ty na ev si x)
  else Some t.

Definition zeroTransaction : Transaction := mkTransaction "" "" "" "" "".

Definition json_Unmarshal_tx (s : string) : option Transaction :=
  into_object tx_field zeroTransaction (parse_json s).

Definition sensor_field (k : string) (v : json) (d : SensorData) : option SensorData :=
  let '(mkSensorData ev se sc rq cr ck na si) := d in
  if bool_decide (k = "EVENT_ID") then x ← into_string ev v; Some (mkSensorData x se sc rq cr ck na si)
  else if bool_decide (k = "SENSOR_ID") then x ← into_string se v; Some (mkSensorData ev x sc rq cr ck na si)
  else if bool_decide (k = "SECTOR_ID") then x ← into_int sc v; Some (mkSensorData ev se x rq cr ck na si)
  else if bool_decide (k = "IS_REQUISITION") then x ← into_bool rq v; Some (mkSensorData ev se sc x cr ck na si)
  else if bool_decide (k = "IS_CRITICAL") then x ← into_bool cr v; Some (mkSensorData ev se sc rq x ck na si)
  else if bool_decide (k = "INTERNAL_CLOCK") then x ← into_uint64 ck v; Some (mkSensorData ev se sc rq cr x na si)
  else if bool_decide (k = "NATION_ID") then x ← into_string na v; Some (mkSensorData ev se sc rq cr ck x si)
  else if bool_decide (k = "SIGNATURE") then x ← into_string si v; Some (mkSensorData ev se sc rq cr ck na x)
  else Some d.

Definition json_Unmarshal_sensor (s : string) : option SensorData :=
  into_object sensor_field zeroSensorData (parse_json s).

(** ** Encoding *)

Definition escape (e : ascii) : string := String backslash (String e "").

(** [\u00XX] with lower-case digits. *)
Definition escape_u00 (v : Z) : string :=
  String backslash ("u00" +:+ String (hex_char (v / 16)) (String (hex_char (v mod 16)) "")).

(** One ASCII byte inside a string literal. *)
Definition encode_ascii (c : ascii) : string :=
  let v := byte_val c in
  if is_char c dquote || is_char c backslash then escape c
  else if v =? 8 then escape "b"
  else if v =? 12 then escape "f"
  else if v =? 10 then escape "n"
  else if v =? 13 then escape "r"
  else if v =? 9 then escape "t"
  else if (v <? 32) || is_char c "<" || is_char c ">" || is_char c "&" then escape_u00 v
  else String c "".

(** U+2028 and U+2029, the line separators JavaScript does not allow. *)
Definition line_separator (c : ascii) (s : string) : option string :=
  match s with
  | String a (String b _) =>
    if (byte_val c =? 226) && (byte_val a =? 128) && ((byte_val b =? 168) || (byte_val b =? 169))
    then Some (String backslash ("u202" +:+ String (hex_char (byte_val b - 160)) ""))
    else None
  | _ => None
  end.

(** [copy] bytes of the current rune are still to be copied, [drop] bytes
    still to be dropped. *)
Fixpoint encode_from (copy drop : nat) (s : string) : string :=
  match s with
  | EmptyString => EmptyString
  | String c s' =>
    match drop, copy with
    | S k, _ => encode_from copy k s'
    | O, S k => String c (encode_from k 0 s')
    | O, O =>
      if byte_val c <? 128 then encode_ascii c +:+ encode_from 0 0 s'
      else if Nat.eqb (rune_size c s') 1 then String backslash "ufffd" +:+ encode_from 0 0 s'
      else match line_separator c s' with
           | Some t => t +:+ encode_from 0 2 s'
           | None => String c (encode_from (rune_size c s' - 1) 0 s')
           end
    end
  end.

Definition encode_string (s : string) : string :=
  String dquote (encode_from 0 0 s +:+ String dquote "").

Definition member (name value : string) : string :=
  String dquote (name +:+ String dquote (String ":" value)).

(** The members after the first. *)
Fixpoint more_members (l : list (string * string)) : string :=
  match l with
  | [] => EmptyString
  | (n, v) :: l => String "," (member n v +:+ more_members l)
  end.

Definition encode_object (l : list (string * string)) : string :=
  match l with
  | [] => "{}"
  | (n, v) :: l => String "{" (member n v +:+ more_members l +:+ "}")
  end.

Definition json_Marshal_tx (t : Transaction) : string :=
  encode_object
    [("type", encode_string (tx_Type t)); ("nation_id", encode_string (tx_NationID t));
     ("event_id", encode_string (tx_EventID t)); ("signature", encode_string (tx_Signature t));
     ("payload", encode_string (tx_Payload t))].

Definition encode_bool (b : bool) : string := if b then "true" else "false".

Definition sensor_members (d : SensorData) : list (string * string) :=
  [("event_id", encode_string (EventID d)); ("sensor_id", encode_string (SensorID d));
   ("sector_id", Itoa (SectorID d)); ("is_requisition", encode_bool (IsRequisition d));
   ("is_critical", encode_bool (IsCritical d)); ("internal_clock", digits 20 (InternalClock d) "");
   ("nation_id", encode_string (NationID d)); ("signature", encode_string (Signature d))].

Definition json_Marshal_sensor (d : SensorData) : string := encode_object (sensor_members d).
