(* ===== verification/JsonProps.v ===== *)
(** * Properties of the JSON codec

    Fuel is never short; a well-formed string survives encoding and decoding;
    so do transactions and sensor data, which makes the codec an instance of
    the interface the ledger is verified against ([JsonTx], [JsonTx_laws]). *)

From S2P Require Import Prelude GoStd Model Interfaces Json.
Local Open Scope Z_scope.

(** ** Bytes of one rune *)

Lemma split_bytes_app t x : split_bytes (String.length t) (t +:+ x) = (t, x).
Proof.
  induction t as [|c t IH]; [by destruct x|].
  rewrite str_app_cons. cbn [String.length split_bytes]. by rewrite IH.
Qed.

Lemma valid_utf8_split n s :
  valid_utf8_skip n s = true →
  ∃ t s', s = t +:+ s' ∧ String.length t = n ∧ valid_utf8 s' = true.
Proof.
  revert s. induction n as [|n IH]; intros s H; [by exists "", s|].
  destruct s as [|c s]; [done|]. simpl in H. destruct (IH s H) as (t & s' & -> & <- & Hv).
  by exists (String c t), s'.
Qed.

Lemma encode_copy t s : encode_from (String.length t) 0 (t +:+ s) = t +:+ encode_from 0 0 s.
Proof.
  induction t as [|c t IH]; [done|]. rewrite !str_app_cons. cbn [String.length encode_from].
  by rewrite IH.
Qed.

Lemma rune_size_bounds c s : (1 ≤ rune_size c s ≤ 4)%nat.
Proof. unfold rune_size. repeat case_match; lia. Qed.

(** The size of a rune depends on the rune's own bytes only. *)
Lemma rune_size_ext c t x y :
  (0 < String.length t)%nat →
  rune_size c (t +:+ x) = S (String.length t) → rune_size c (t +:+ y) = S (String.length t).
Proof.
  destruct t as [|a [|b [|d t]]]; rewrite ?str_app_cons; cbn [String.length]; intros Hl H.
  - lia.
  - revert H. unfold rune_size. simpl. repeat case_match; congruence || lia.
  - revert H. unfold rune_size. simpl. repeat case_match; congruence || lia.
  - pose proof (rune_size_bounds c (String a (String b (String d (t +:+ x))))).
    destruct t as [|e t]; simpl in H; [|lia].
    revert H. unfold rune_size. simpl. repeat case_match; congruence || lia.
Qed.

(** ** One step of the string parser *)

Lemma parse_str_ascii f c x :
  byte_val c < 128 →
  parse_str (S f) (encode_ascii c +:+ x) = prepend (String c "") (parse_str f x).
Proof.
  intros Hc. destruct c as [[] [] [] [] [] [] [] []];
    first [ exfalso; by vm_compute in Hc | reflexivity ].
Qed.

Lemma line_separator_spec c s t :
  line_separator c s = Some t →
  ∃ a b s', s = String a (String b s') ∧
    (∀ f x, parse_str (S f) (t +:+ x) = prepend (String c (String a (String b ""))) (parse_str f x)).
Proof.
  destruct s as [|a [|b s]]; [done|done|]. unfold line_separator.
  destruct (Z.eqb_spec (byte_val c) 226) as [Ec|]; [|done].
  destruct (Z.eqb_spec (byte_val a) 128) as [Ea|]; [|done].
  assert (c = byte_of 226) as -> by (by rewrite <- Ec, byte_of_val).
  assert (a = byte_of 128) as -> by (by rewrite <- Ea, byte_of_val).
  destruct (Z.eqb_spec (byte_val b) 168) as [Eb|].
  - assert (b = byte_of 168) as -> by (by rewrite <- Eb, byte_of_val).
    intros [= <-]. by eexists _, _, s.
  - destruct (Z.eqb_spec (byte_val b) 169) as [Eb|]; [|done].
    assert (b = byte_of 169) as -> by (by rewrite <- Eb, byte_of_val).
    intros [= <-]. by eexists _, _, s.
Qed.

Lemma is_char_byte c d : byte_val c ≠ byte_val d → is_char c d = false.
Proof. intros H. apply bool_decide_eq_false. congruence. Qed.

Lemma parse_str_rune f c t x :
  128 ≤ byte_val c → (0 < String.length t)%nat → rune_size c (t +:+ x) = S (String.length t) →
  parse_str (S f) (String c (t +:+ x)) = prepend (String c t) (parse_str f x).
Proof.
  intros Hc Ht Hr. cbn [parse_str].
  assert (byte_val dquote = 34 ∧ byte_val backslash = 92) as [Eq Eb] by done.
  rewrite !is_char_byte by lia.
  destruct (Z.ltb_spec (byte_val c) 32); [lia|]. destruct (Z.ltb_spec (byte_val c) 128); [lia|].
  rewrite Hr. destruct (Nat.eqb_spec (S (String.length t)) 1); [lia|].
  replace (S (String.length t) - 1)%nat with (String.length t) by lia.
  by rewrite split_bytes_app.
Qed.

Lemma encode_ascii_nonempty c : (0 < String.length (encode_ascii c))%nat.
Proof. unfold encode_ascii, escape, escape_u00. repeat case_match; simpl; lia. Qed.

Lemma line_separator_length c s t : line_separator c s = Some t → (0 < String.length t)%nat.
Proof.
  unfold line_separator. destruct s as [|a [|b s]]; [done|done|].
  case_match; [|done]. intros [= <-]. simpl. lia.
Qed.

(** A well-formed string is read back from its encoding. *)
Lemma parse_encode_fuel n s f x :
  (String.length s ≤ n)%nat → valid_utf8 s = true →
  (String.length (encode_from 0 0 s) < f)%nat →
  parse_str f (encode_from 0 0 s +:+ String dquote x) = Good s x.
Proof.
  revert s f x. induction n as [|n IH]; intros s f x Hn Hv Hf.
  { destruct s; simpl in Hn; [|lia]. destruct f; [simpl in Hf; lia|]. done. }
  destruct s as [|c s]; [destruct f; [simpl in Hf; lia|]; done|].
  destruct f as [|f]; [lia|]. unfold valid_utf8 in Hv.
  cbn [valid_utf8_skip] in Hv. cbn [String.length] in Hn. cbn [encode_from] in Hf |- *.
  destruct (Z.ltb_spec (byte_val c) 128) as [Hc|Hc].
  - rewrite str_length_app in Hf. pose proof (encode_ascii_nonempty c).
    rewrite str_app_assoc, parse_str_ascii, IH by (done || lia). done.
  - apply andb_true_iff in Hv as [Hr Hv]. apply Nat.ltb_lt in Hr.
    destruct (Nat.eqb_spec (rune_size c s) 1) as [|_]; [lia|].
    destruct (valid_utf8_split _ _ Hv) as (t & s' & -> & Ht & Hv').
    rewrite str_length_app in Hn.
    destruct (line_separator c (t +:+ s')) as [u|] eqn:El.
    + pose proof (line_separator_length _ _ _ El).
      destruct (line_separator_spec _ _ _ El) as (a & b & s2 & Es & Hp).
      rewrite str_length_app in Hf. rewrite str_app_assoc, Hp.
      assert (encode_from 0 2 (t +:+ s') = encode_from 0 0 s2) as E2 by (by rewrite Es).
      rewrite E2 in *.
      assert (valid_utf8 s2 = true ∧ String.length s2 ≤ n)%nat as [Hv2 Hl2].
      { rewrite Es in El, Hv, Hr. assert (rune_size c (String a (String b s2)) = 3%nat) as E3.
        { revert El. unfold line_separator.
          destruct (Z.eqb_spec (byte_val c) 226) as [Ec|]; [|done].
          destruct (Z.eqb_spec (byte_val a) 128) as [Ea|]; [|done].
          intros El. revert Hr. unfold rune_size, cont_byte. simpl. rewrite Ec, Ea. simpl.
          destruct ((128 <=? byte_val b) && (byte_val b <=? 191)); simpl; lia. }
        rewrite E3 in Hv. split; [exact Hv|].
        apply (f_equal String.length) in Es. rewrite str_length_app in Es. simpl in Es. lia. }
      rewrite IH by (done || lia). simpl. by rewrite Es.
    + cbn [String.length] in Hf. rewrite <- Ht, encode_copy, str_length_app in Hf.
      rewrite <- Ht, encode_copy, str_app_cons, str_app_assoc.
      assert (0 < String.length t)%nat by lia.
      rewrite parse_str_rune; [|done|done|].
      * rewrite IH by (done || lia). done.
      * apply (rune_size_ext c t s'); [done|]. lia.
Qed.

Lemma parse_encode s f x :
  valid_utf8 s = true → (String.length (encode_from 0 0 s) < f)%nat →
  parse_str f (encode_from 0 0 s +:+ String dquote x) = Good s x.
Proof. apply (parse_encode_fuel (String.length s)). lia. Qed.

(** ** Enough fuel *)

(** [p] did not run out of fuel and left at most [n] bytes. *)
Definition fed {A} (n : nat) (p : parsed A) : Prop :=
  match p with Bad => True | OutOfFuel => False | Good _ r => (String.length r ≤ n)%nat end.

Lemma fed_bind {A B} n m (p : parsed A) (f : A → string → parsed B) :
  fed n p → (∀ a r, (String.length r ≤ n)%nat → fed m (f a r)) → fed m (pbind p f).
Proof. destruct p; simpl; auto. Qed.

Lemma fed_le {A} n m (p : parsed A) : (n ≤ m)%nat → fed n p → fed m p.
Proof. destruct p; simpl; auto; lia. Qed.

Lemma skip_ws_length s : (String.length (skip_ws s) ≤ String.length s)%nat.
Proof. induction s as [|c s IH]; simpl; [lia|]. destruct (is_space c); simpl; lia. Qed.

Lemma skip_ws_cons s c s' :
  skip_ws s = String c s' → (String.length s' < String.length s)%nat.
Proof. intros E. pose proof (skip_ws_length s) as H. rewrite E in H. simpl in H. lia. Qed.

Lemma hex4_length s r s' : hex4 s = Some (r, s') → (String.length s' ≤ String.length s)%nat.
Proof.
  destruct s as [|a [|b [|c [|d s]]]]; cbn [hex4]; try done.
  intros (w & _ & (x & _ & (y & _ & (z & _ & [= _ <-])%bind_Some)%bind_Some)%bind_Some)%bind_Some.
  simpl. lia.
Qed.

Lemma getu4_length s r s' : getu4 s = Some (r, s') → (String.length s' ≤ String.length s)%nat.
Proof.
  destruct s as [|a [|b s]]; cbn [getu4]; try done. case_match; [|done].
  intros Hx%hex4_length. simpl. lia.
Qed.

Lemma unquote_u_length s t s' :
  unquote_u s = Some (t, s') → (String.length s' ≤ String.length s)%nat.
Proof.
  unfold unquote_u. destruct (hex4 s) as [[r s1]|] eqn:E; simpl; [|done].
  apply hex4_length in E. destruct (is_surrogate r); [|intros [= <- <-]; done].
  destruct (getu4 s1) as [[r1 s2]|] eqn:E2; [|intros [= <- <-]; done].
  apply getu4_length in E2. case_match; intros [= <- <-]; lia.
Qed.

Lemma split_bytes_length n s : (String.length (snd (split_bytes n s)) ≤ String.length s)%nat.
Proof.
  revert s. induction n as [|n IH]; intros [|c s]; simpl; try lia.
  specialize (IH s). destruct (split_bytes n s). simpl in *. lia.
Qed.

Lemma prepend_fed n t p : fed n p → fed n (prepend t p).
Proof. intros H. unfold prepend. eapply fed_bind; [exact H|]. done. Qed.

Lemma parse_str_fed f s :
  (String.length s < f)%nat → fed (String.length s) (parse_str f s).
Proof.
  revert s. induction f as [|f IH]; intros s Hf; [lia|]. cbn [parse_str].
  assert (∀ u, (S (String.length u) ≤ String.length s)%nat → fed (String.length s) (parse_str f u)) as K.
  { intros u Hu. eapply fed_le; [|apply IH]; lia. }
  destruct s as [|c s1]; [done|]. cbn [String.length] in *.
  destruct (is_char c dquote); [simpl; lia|].
  destruct (is_char c backslash).
  { destruct s1 as [|e s2]; [done|]. cbn [String.length] in *. destruct (is_char e "u").
    - destruct (unquote_u s2) as [[t s3]|] eqn:E; [|done]. apply unquote_u_length in E.
      apply prepend_fed, K. lia.
    - destruct (simple_escape e); [|done]. apply prepend_fed, K. lia. }
  destruct (byte_val c <? 32); [done|].
  destruct (byte_val c <? 128); [apply prepend_fed, K; lia|].
  destruct (Nat.eqb _ 1); [apply prepend_fed, K; lia|].
  pose proof (split_bytes_length (rune_size c s1 - 1) s1).
  destruct (split_bytes _ s1) as [t s2]. simpl in *. apply prepend_fed, K. lia.
Qed.

Lemma after_literal_length l s r : after_literal l s = Some r → (String.length r ≤ String.length s)%nat.
Proof.
  revert s. induction l as [|a l IH]; intros s; [intros [= <-]; destruct s; simpl; lia|].
  destruct s as [|b s]; [done|]. simpl. destruct (is_char a b); [|done].
  intros H%IH. lia.
Qed.

Lemma literal_fed l v s : fed (String.length s) (literal l v s).
Proof.
  unfold literal. destruct (after_literal l s) eqn:E; [|done]. by apply after_literal_length in E.
Qed.

Lemma span_digits_length s a b :
  span_digits s = (a, b) → (String.length a + String.length b = String.length s)%nat.
Proof.
  revert a b. induction s as [|c s IH]; intros a b; simpl; [by intros [= <- <-]|].
  destruct (is_digit c); [|by intros [= <- <-]].
  destruct (span_digits s) as [x y]. intros [= <- <-]. simpl. rewrite <- (IH x y); done.
Qed.

Lemma digits1_length s a b : digits1 s = Some (a, b) → (String.length b < String.length s)%nat.
Proof.
  unfold digits1. destruct (span_digits s) as [x y] eqn:E. apply span_digits_length in E.
  destruct x; [done|]. intros [= <- <-]. simpl in E. lia.
Qed.

Lemma opt_char_length p s a b : opt_char p s = (a, b) → (String.length b ≤ String.length s)%nat.
Proof. destruct s as [|c s]; simpl; [by intros [= <- <-]|]. case_match; intros [= <- <-]; simpl; lia. Qed.

Lemma parse_number_length s l r :
  parse_number s = Some (l, r) → (String.length r < String.length s)%nat.
Proof.
  unfold parse_number. destruct (opt_char _ s) as [sign s1] eqn:E1. apply opt_char_length in E1.
  intros ([int s2] & E2 & H)%bind_Some.
  assert (String.length s2 < String.length s)%nat as L2.
  { destruct s1 as [|c s1]; [done|]. destruct (is_char c "0").
    - injection E2 as <- <-. simpl in E1. lia.
    - apply digits1_length in E2. lia. }
  clear E1 E2. apply bind_Some in H as ([frac s3] & E3 & H).
  assert (String.length s3 ≤ String.length s2)%nat as L3.
  { destruct s2 as [|c s2]; [by injection E3 as <- <-|]. destruct (is_char c ".").
    - apply bind_Some in E3 as ([d r'] & E & [= <- <-]). apply digits1_length in E. simpl. lia.
    - by injection E3 as <- <-. }
  clear E3. apply bind_Some in H as ([ex s4] & E4 & [= <- <-]).
  enough (String.length s4 ≤ String.length s3)%nat by lia.
  destruct s3 as [|c s3]; [by injection E4 as <- <-|]. destruct (is_char c "e" || is_char c "E").
  - destruct (opt_char _ s3) as [sg r0] eqn:E0. apply opt_char_length in E0.
    apply bind_Some in E4 as ([d r'] & E & [= <- <-]). apply digits1_length in E. simpl. lia.
  - by injection E4 as <- <-.
Qed.

(** A document never exhausts [2 * length + 2] units of fuel: each level of
    the mutual recursion consumes a byte or goes from elements to a value. *)
Lemma parse_fed f :
  (∀ d s, (2 * String.length s + 1 ≤ f)%nat →
     fed (String.length s - 1) (parse_value f d s)) ∧
  (∀ d s, (2 * String.length s + 1 ≤ f)%nat →
     fed (String.length s - 1) (parse_members f d s)) ∧
  (∀ d s, (2 * String.length s + 2 ≤ f)%nat →
     fed (String.length s - 1) (parse_elems f d s)).
Proof.
  induction f as [|f (IHv & IHm & IHe)]; [split_and!; intros; lia|]. split_and!; intros d s Hf.
  - cbn [parse_value]. destruct (skip_ws s) as [|c s1] eqn:E1; [done|]. apply skip_ws_cons in E1.
    destruct (is_char c "{").
    { case_match; [done|]. destruct (skip_ws s1) as [|d' s2] eqn:E2; [done|].
      apply skip_ws_cons in E2. destruct (is_char d' "}"); [simpl; lia|].
      eapply fed_bind; [apply IHm; lia|]. intros a r Hr. simpl. lia. }
    destruct (is_char c "[").
    { case_match; [done|]. destruct (skip_ws s1) as [|d' s2] eqn:E2; [done|].
      apply skip_ws_cons in E2. destruct (is_char d' "]"); [simpl; lia|].
      eapply fed_bind; [apply IHe; lia|]. intros a r Hr. simpl. lia. }
    destruct (is_char c dquote).
    { eapply fed_bind; [apply parse_str_fed; lia|]. intros a r Hr. simpl. lia. }
    destruct (is_char c "t"); [eapply fed_le; [|apply literal_fed]; lia|].
    destruct (is_char c "f"); [eapply fed_le; [|apply literal_fed]; lia|].
    destruct (is_char c "n"); [eapply fed_le; [|apply literal_fed]; lia|].
    destruct (parse_number (String c s1)) as [[l r]|] eqn:E; [|done].
    apply parse_number_length in E. simpl in E |- *. lia.
  - cbn [parse_members]. destruct (skip_ws s) as [|c s1] eqn:E1; [done|]. apply skip_ws_cons in E1.
    destruct (is_char c dquote); [|done].
    eapply fed_bind; [apply parse_str_fed; lia|]. intros key s2 H2.
    destruct (skip_ws s2) as [|e s3] eqn:E3; [done|]. apply skip_ws_cons in E3.
    destruct (is_char e ":"); [|done].
    eapply fed_bind; [apply IHv; lia|]. intros v s4 H4.
    destruct (skip_ws s4) as [|g s5] eqn:E5; [done|]. apply skip_ws_cons in E5.
    destruct (is_char g ",").
    { eapply fed_bind; [apply IHm; lia|]. intros a r Hr. simpl. lia. }
    destruct (is_char g "}"); [simpl; lia|done].
  - cbn [parse_elems]. eapply fed_bind; [apply IHv; lia|]. intros v s1 H1.
    destruct (skip_ws s1) as [|e s2] eqn:E2; [done|]. apply skip_ws_cons in E2.
    destruct (is_char e ",").
    { eapply fed_bind; [apply IHe; lia|]. intros a r Hr. simpl. lia. }
    destruct (is_char e "]"); [simpl; lia|done].
Qed.

(** ** Reading back scalars *)

(** [x] continues an object after a value. *)
Definition ends_value (x : string) : bool :=
  match x with String c _ => is_char c "," || is_char c "}" | EmptyString => false end.

(** The text [v] reads as the value [j], which nests objects [k] deep,
    wherever an object may continue, given more fuel than it is long. *)
Definition reads (k : nat) (v : string) (j : json) : Prop :=
  ∀ f d x, (String.length v < f)%nat → d + Z.of_nat k ≤ maxNestingDepth →
    ends_value x = true → parse_value f d (v +:+ x) = Good j x.

Lemma reads_scalar k v j :
  (∀ f d x, ends_value x = true → parse_value (S f) d (v +:+ x) = Good j x) → reads k v j.
Proof. intros H [|f] d x Hf _ Hx; [lia|]. by apply H. Qed.

(** The value a string literal reads as. *)
Definition str_value (s : string) : json := JStr (contains_byte backslash (encode_from 0 0 s)) s.

Lemma contains_byte_app c s t :
  contains_byte c (s +:+ t) = contains_byte c s || contains_byte c t.
Proof.
  induction s as [|d s IH]; [done|]. rewrite str_app_cons. cbn [contains_byte].
  by rewrite IH, orb_assoc.
Qed.

Lemma substring_app s t : String.substring 0 (String.length s) (s +:+ t) = s.
Proof. induction s as [|c s IH]; [by destruct t|]. rewrite str_app_cons. simpl. by rewrite IH. Qed.

Lemma has_escape_encode e x :
  has_escape (e +:+ String dquote x) x = contains_byte backslash e.
Proof.
  unfold has_escape. change (String dquote x) with (String dquote "" +:+ x).
  rewrite <- str_app_assoc, str_length_app, Nat.add_sub, substring_app, contains_byte_app.
  apply orb_false_r.
Qed.

Lemma reads_string k s : valid_utf8 s = true → reads k (encode_string s) (str_value s).
Proof.
  intros Hs. apply reads_scalar. intros f d x _. unfold encode_string. rewrite str_app_cons, str_app_assoc. cbn [parse_value skip_ws].
  change (is_space dquote) with false. cbv iota.
  change (is_char dquote "{") with false. change (is_char dquote "[") with false.
  change (is_char dquote dquote) with true. cbv iota.
  rewrite str_app_cons, str_app_nil_l, parse_encode; [cbn [pbind]; by rewrite has_escape_encode|done|].
  rewrite str_length_app. simpl. lia.
Qed.

Lemma reads_bool k b : reads k (encode_bool b) (JBool b).
Proof. apply reads_scalar. intros f d x _. by destruct b, x. Qed.

Lemma ends_not_digit x : ends_value x = true → span_digits x = ("", x).
Proof.
  destruct x as [|c x]; [done|]. simpl. unfold is_char.
  intros [H|H]%orb_true_iff; apply bool_decide_eq_true in H; by subst.
Qed.

Lemma digit_char_is_digit d : 0 ≤ d < 10 → is_digit (digit_char d) = true.
Proof. intros. unfold is_digit, digit_char. rewrite byte_val_of by lia. lia. Qed.

Lemma span_digits_digits fuel n acc x :
  0 ≤ n → span_digits (acc +:+ x) = (acc, x) →
  span_digits (digits fuel n acc +:+ x) = (digits fuel n acc, x).
Proof.
  revert n acc. induction fuel as [|fuel IH]; intros n acc Hn Hacc; [done|]. cbn [digits].
  assert (∀ d, 0 ≤ d < 10 →
    span_digits (String (digit_char d) acc +:+ x) = (String (digit_char d) acc, x)) as K.
  { intros d Hd. rewrite str_app_cons. cbn [span_digits]. rewrite digit_char_is_digit by done.
    by rewrite Hacc. }
  destruct (Z.ltb_spec n 10); [apply K; lia|].
  apply IH; [apply Z.div_pos; lia|]. apply K, Z.mod_pos_bound. lia.
Qed.

Lemma digits_head fuel n acc :
  1 ≤ n < 10 ^ Z.of_nat (S fuel) →
  ∃ d s, 1 ≤ d < 10 ∧ digits (S fuel) n acc = String (digit_char d) s.
Proof.
  revert n acc. induction fuel as [|fuel IH]; intros n acc Hn.
  - cbn [digits]. change (10 ^ Z.of_nat 1) with 10 in Hn.
    destruct (Z.ltb_spec n 10); [exists n, acc; split; [lia|done]|lia].
  - cbn [digits]. destruct (Z.ltb_spec n 10); [exists n, acc; split; [lia|done]|].
    apply IH. split; [apply Z.div_le_lower_bound; lia|].
    apply Z.div_lt_upper_bound; [lia|].
    rewrite (Nat2Z.inj_succ (S fuel)), Z.pow_succ_r in Hn by lia. lia.
Qed.

(** The first character of a number's digits, and what the digit scanner
    does with them. *)
Lemma parse_unsigned n x :
  0 ≤ n ≤ max_uint64 → ends_value x = true →
  match digits 20 n "" +:+ x with
  | String c s' =>
    if is_char c "0" then Some (String c EmptyString, s') else digits1 (digits 20 n "" +:+ x)
  | EmptyString => None
  end = Some (digits 20 n "", x).
Proof.
  intros Hn Hx. destruct (decide (n = 0)) as [->|Hz]; [done|].
  destruct (digits_head 19 n "") as (d & s & Hd & E).
  { change (10 ^ Z.of_nat 20) with 100000000000000000000. unfold max_uint64 in Hn. lia. }
  pose proof (span_digits_digits 20 n "" x ltac:(lia) (ends_not_digit x Hx)) as Hs.
  unfold digits1. rewrite E in *. rewrite str_app_cons in *.
  rewrite is_char_byte; [by rewrite Hs|].
  unfold digit_char. rewrite byte_val_of by lia. change (byte_val "0") with 48. lia.
Qed.

Lemma parse_tail s (lit x : string) :
  ends_value x = true →
  ('(frac, s3) ←
    match x with
    | String c s' =>
      if is_char c "." then '(d, r) ← digits1 s'; Some (String c d, r) else Some (EmptyString, x)
    | EmptyString => Some (EmptyString, EmptyString)
    end;
  '(exp, s4) ←
    match s3 with
    | String c s' =>
      if is_char c "e" || is_char c "E" then
        let '(sg, r0) := opt_char (λ c, is_char c "+" || is_char c "-") s' in
        '(d, r) ← digits1 r0; Some (String c (sg +:+ d), r)
      else Some (EmptyString, s3)
    | EmptyString => Some (EmptyString, EmptyString)
    end;
  Some (s +:+ lit +:+ frac +:+ exp, s4)) = Some (s +:+ lit, x).
Proof.
  destruct x as [|c x]; [done|]. simpl. unfold is_char.
  intros [H|H]%orb_true_iff; apply bool_decide_eq_true in H; subst; simpl;
    by rewrite str_app_nil_r.
Qed.

Lemma parse_number_unsigned n x :
  0 ≤ n ≤ max_uint64 → ends_value x = true →
  parse_number (digits 20 n "" +:+ x) = Some (digits 20 n "", x).
Proof.
  intros Hn Hx. unfold parse_number.
  assert (opt_char (λ c, is_char c "-") (digits 20 n "" +:+ x) = ("", digits 20 n "" +:+ x)) as ->.
  { destruct (digits_cons 19 n "") as (d & s & Hd & ->); [lia|].
    rewrite str_app_cons. simpl. rewrite is_char_byte; [done|].
    unfold digit_char. rewrite byte_val_of by lia. change (byte_val "-") with 45. lia. }
  rewrite parse_unsigned by done. apply (parse_tail ""). done.
Qed.

Lemma parse_number_negative n x :
  0 ≤ n ≤ max_uint64 → ends_value x = true →
  parse_number (String "-" (digits 20 n "" +:+ x)) = Some (String "-" (digits 20 n ""), x).
Proof.
  intros Hn Hx. unfold parse_number. cbn [opt_char].
  change (is_char "-" "-") with true. cbv iota beta zeta.
  rewrite parse_unsigned by done. apply (parse_tail "-"). done.
Qed.

(** A value that starts like a number is one. *)
Lemma parse_value_number f d c s :
  is_digit c = true ∨ c = "-"%char →
  parse_value (S f) d (String c s) =
    match parse_number (String c s) with Some (lit, r) => Good (JNum lit) r | None => Bad end.
Proof.
  intros H. cbn [parse_value skip_ws].
  assert (byte_val c = 45 ∨ 48 ≤ byte_val c ≤ 57) as Hc.
  { destruct H as [H| ->]; [|by left]. right. unfold is_digit in H. lia. }
  unfold is_space. repeat (rewrite (proj2 (Z.eqb_neq (byte_val c) _)) by lia). cbn [orb].
  rewrite !is_char_byte; [done|..];
    match goal with |- _ ≠ ?b => let v := eval vm_compute in b in change b with v end; lia.
Qed.

Lemma reads_uint64 k n : is_uint64 n → reads k (digits 20 n "") (JNum (digits 20 n "")).
Proof.
  intros Hn. apply reads_scalar. intros f d x Hx. unfold is_uint64 in Hn.
  pose proof (parse_number_unsigned n x Hn Hx) as Hp.
  destruct (digits_cons 19 n "") as (e & s & He & E); [lia|].
  rewrite E in *. rewrite str_app_cons in *.
  rewrite parse_value_number by (left; by apply digit_char_is_digit). by rewrite Hp.
Qed.

Lemma reads_int k z : is_int64 z → reads k (Itoa z) (JNum (Itoa z)).
Proof.
  intros Hz. unfold Itoa, is_int64, min_int64, max_int64 in *. destruct (Z.ltb_spec z 0).
  - apply reads_scalar. intros f d x Hx. rewrite str_app_cons, parse_value_number by (by right).
    rewrite parse_number_negative; [done| |done]. unfold max_uint64. lia.
  - apply reads_uint64. unfold is_uint64, max_uint64. lia.
Qed.

(** ** Reading back objects *)

(** A member is written under the encoding of its key; most names are their
    own. *)
Definition reads_member (k : nat) (m : string * string) (j : string * json) : Prop :=
  encode_from 0 0 (fst j) = fst m ∧ valid_utf8 (fst j) = true ∧ reads k (snd m) (snd j).

Lemma more_members_ends l x : ends_value (more_members l +:+ String "}" x) = true.
Proof. by destruct l as [|[n v] l]. Qed.

Lemma member_length n v : String.length (member n v) = (3 + String.length n + String.length v)%nat.
Proof. unfold member. cbn [String.length]. rewrite str_length_app. simpl. lia. Qed.

Lemma parse_one_member k n key v j f d x :
  encode_from 0 0 key = n → valid_utf8 key = true → reads k v j → ends_value x = true →
  (String.length v < f)%nat → d + Z.of_nat k ≤ maxNestingDepth →
  parse_members (S f) d (member n v +:+ x) =
    match x with
    | String e y =>
      if is_char e "," then pbind (parse_members f d y) (λ l r, Good ((key, j) :: l) r)
      else Good [(key, j)] y
    | EmptyString => Bad
    end.
Proof.
  intros He Hn Hv Hx Hf Hd. unfold member.
  rewrite str_app_cons, str_app_assoc, !str_app_cons.
  cbn [parse_members skip_ws]. change (is_space dquote) with false.
  change (is_char dquote dquote) with true. cbv iota.
  rewrite <- He at 2. rewrite parse_encode; [|done|].
  2: { rewrite He, str_length_app. simpl. lia. }
  cbn [pbind skip_ws]. change (is_space ":") with false. change (is_char ":" ":") with true.
  cbv iota. rewrite Hv by done. cbn [pbind]. clear -Hx. destruct x as [|e y]; [done|].
  simpl in Hx. unfold is_char in *.
  apply orb_true_iff in Hx as [H|H]; apply bool_decide_eq_true in H; by subst.
Qed.

Lemma parse_members_encode k l js : Forall2 (reads_member k) l js →
  ∀ n v j f d x, reads_member k (n, v) j →
  (String.length (member n v +:+ more_members l) < f)%nat → d + Z.of_nat k ≤ maxNestingDepth →
  parse_members f d (member n v +:+ more_members l +:+ String "}" x) = Good (j :: js) x.
Proof.
  induction 1 as [|[n' v'] j' l js Hm' Hl IH]; intros n v [key w] [|f] d x (Hn & Hk & Hv) Hf Hd;
    try lia; simpl in Hn, Hk, Hv; rewrite str_length_app, member_length in Hf.
  - rewrite (parse_one_member k n key v w) by (done || lia). done.
  - rewrite (parse_one_member k n key v w); [|done|done|done|apply more_members_ends|lia|done].
    cbn [more_members]. cbn [more_members String.length] in Hf.
    rewrite str_app_cons, str_app_assoc.
    change (is_char "," ",") with true. cbv iota. rewrite (IH n' v' j'); [done|done|lia|done].
Qed.

(** What follows an object does not matter. *)
Lemma parse_object k l js f d x :
  Forall2 (reads_member k) l js →
  (String.length (encode_object l) < f)%nat → d + Z.of_nat (S k) ≤ maxNestingDepth →
  parse_value f d (encode_object l +:+ x) = Good (JObj js) x.
Proof.
  intros Hl Hf Hd. destruct f as [|f]; [lia|].
  assert ((maxNestingDepth <? d + 1) = false) as Hdep by lia.
  destruct Hl as [|[n v] j l js Hm Hl].
  - change (encode_object []) with (String "{" (String "}" "")). rewrite !str_app_cons.
    cbn [parse_value skip_ws]. change (is_space "{") with false. change (is_char "{" "{") with true.
    cbv iota. rewrite Hdep. cbn [skip_ws]. change (is_space "}") with false. done.
  - unfold encode_object in *. cbn [String.length] in Hf. rewrite str_app_cons.
    cbn [parse_value skip_ws]. change (is_space "{") with false. change (is_char "{" "{") with true.
    cbv iota. rewrite Hdep.
    assert (∃ s, (member n v +:+ more_members l +:+ "}") +:+ x = String dquote s) as [s Hs]
      by (unfold member; by eexists).
    rewrite Hs at 1. cbn [skip_ws]. change (is_space dquote) with false.
    change (is_char dquote "}") with false. cbv iota.
    rewrite !str_app_assoc. rewrite !str_length_app in Hf. cbn [String.length] in Hf.
    change ("}" +:+ x) with (String "}" x).
    rewrite (parse_members_encode k l js Hl n v j); [done|done| |lia].
    rewrite str_length_app. lia.
Qed.

Lemma reads_object k l js :
  Forall2 (reads_member k) l js → reads (S k) (encode_object l) (JObj js).
Proof. intros Hl f d x Hf Hd _. by apply (parse_object k). Qed.

Lemma parse_encode_object k l js :
  Forall2 (reads_member k) l js → Z.of_nat k < maxNestingDepth → parse_json (encode_object l) = Good (JObj js) "".
Proof.
  intros Hl Hk. unfold parse_json. rewrite <- (str_app_nil_r (encode_object l)) at 2.
  rewrite (parse_object k l js); [done|done|lia|lia].
Qed.

Lemma json_Unmarshal_Marshal_tx tx :
  wf_tx tx = true → json_Unmarshal_tx (json_Marshal_tx tx) = Some tx.
Proof.
  unfold wf_tx. intros ((((?&?)%andb_true_iff&?)%andb_true_iff&?)%andb_true_iff&?)%andb_true_iff.
  unfold json_Unmarshal_tx, json_Marshal_tx.
  rewrite (parse_encode_object 0 _
    [("type", str_value (tx_Type tx)); ("nation_id", str_value (tx_NationID tx));
     ("event_id", str_value (tx_EventID tx)); ("signature", str_value (tx_Signature tx));
     ("payload", str_value (tx_Payload tx))]); [by destruct tx| |done].
  repeat (constructor; [split_and!; [done|done|by apply reads_string]|]). constructor.
Qed.

(** What a well-typed [SensorData] value holds. *)
Definition wf_sensor (d : SensorData) : Prop :=
  valid_utf8 (EventID d) = true ∧ valid_utf8 (SensorID d) = true ∧ is_int64 (SectorID d) ∧
  is_uint64 (InternalClock d) ∧ valid_utf8 (NationID d) = true ∧ valid_utf8 (Signature d) = true.

Lemma into_int_Itoa old z : is_int64 z → into_int old (JNum (Itoa z)) = Some z.
Proof. intros Hz. unfold into_int. by rewrite Atoi_Itoa. Qed.

Lemma into_uint64_digits old n :
  is_uint64 n → into_uint64 old (JNum (digits 20 n "")) = Some n.
Proof. intros Hn. unfold into_uint64. by rewrite parse_uint_digits20. Qed.

Lemma into_struct_step {T} (field : string → json → T → option T) k v l t t' :
  field (fold_name k) v t = Some t' → into_struct field ((k, v) :: l) t = into_struct field l t'.
Proof. intros E. simpl. by rewrite E. Qed.

Lemma field_sector v e se sc rq cr ck na si :
  sensor_field (fold_name "sector_id") v (mkSensorData e se sc rq cr ck na si) =
    (x ← into_int sc v; Some (mkSensorData e se x rq cr ck na si)).
Proof. reflexivity. Qed.

Lemma field_clock v e se sc rq cr ck na si :
  sensor_field (fold_name "internal_clock") v (mkSensorData e se sc rq cr ck na si) =
    (x ← into_uint64 ck v; Some (mkSensorData e se sc rq cr x na si)).
Proof. reflexivity. Qed.

Ltac read_field tac := erewrite into_struct_step by (tac; reflexivity).

Definition sensor_values (d : SensorData) : list (string * json) :=
  [("event_id", str_value (EventID d)); ("sensor_id", str_value (SensorID d));
   ("sector_id", JNum (Itoa (SectorID d))); ("is_requisition", JBool (IsRequisition d));
   ("is_critical", JBool (IsCritical d)); ("internal_clock", JNum (digits 20 (InternalClock d) ""));
   ("nation_id", str_value (NationID d)); ("signature", str_value (Signature d))].

(** Each member of an object written by the encoder reads back. *)
Ltac read_members := repeat (constructor;
  [split_and!; [done|done|first [by apply reads_string|by apply reads_int
    |by apply reads_uint64|by apply reads_bool]]|]); try constructor.

Lemma sensor_members_read k d :
  wf_sensor d → Forall2 (reads_member k) (sensor_members d) (sensor_values d).
Proof. intros (?&?&?&?&?&?). unfold sensor_members, sensor_values. read_members. Qed.

Lemma sensor_fields d :
  wf_sensor d → into_struct sensor_field (sensor_values d) zeroSensorData = Some d.
Proof.
  intros (?&?&?&?&?&?). unfold sensor_values. destruct d as [e se sc rq cr ck na si].
  cbn [EventID SensorID SectorID IsRequisition IsCritical InternalClock NationID Signature] in *.
  unfold zeroSensorData. do 2 read_field idtac.
  read_field ltac:(rewrite field_sector, into_int_Itoa by done). do 2 read_field idtac.
  read_field ltac:(rewrite field_clock, into_uint64_digits by done). by do 2 read_field idtac.
Qed.

Lemma json_Unmarshal_Marshal_sensor d :
  wf_sensor d → json_Unmarshal_sensor (json_Marshal_sensor d) = Some d.
Proof.
  intros Hd. unfold json_Unmarshal_sensor, json_Marshal_sensor.
  rewrite (parse_encode_object 0 _ _ (sensor_members_read 0 d Hd)) by done. by apply sensor_fields.
Qed.

(** ** The codec of the ledger *)

#[export] Instance JsonTx : TxCodec := {
  Unmarshal_tx := json_Unmarshal_tx;
  Marshal_tx := json_Marshal_tx;
}.

#[export] Instance JsonTx_laws : TxCodecLaws.
Proof. split. apply json_Unmarshal_Marshal_tx. Qed.

(** [Unmarshal] always decides: the fuel [parse_json] starts with is never
    used up. *)
Lemma parse_json_fed s : parse_json s ≠ OutOfFuel.
Proof.
  unfold parse_json. destruct (parse_fed (2 * String.length s + 2)) as [Hv _].
  specialize (Hv 0 s ltac:(lia)). intros E.
  destruct (parse_value _ 0 s) as [| |v r]; [done|done|]. simpl in E. by case_match.
Qed.

(** C32: a transaction whose fields are well-formed UTF-8 is what the validator
    decodes from the client's bytes, so the bytes determine the transaction;
    and a sensor reading survives the gossip packet that forwards it, for every
    sector in [int] and every clock in [uint64]. *)
Theorem json_round_trips tx d :
  wf_tx tx = true → wf_sensor d →
  json_Unmarshal_tx (json_Marshal_tx tx) = Some tx ∧
  json_Unmarshal_sensor (json_Marshal_sensor d) = Some d ∧
  (∀ tx', wf_tx tx' = true → json_Marshal_tx tx' = json_Marshal_tx tx → tx' = tx).
Proof.
  intros Ht Hd. split_and!.
  - by apply json_Unmarshal_Marshal_tx.
  - by apply json_Unmarshal_Marshal_sensor.
  - intros tx' Ht' E. apply json_Unmarshal_Marshal_tx in Ht, Ht'. congruence.
Qed.

Lemma json_round_trips_witness :
  let d := mkSensorData "EVT-<Ormuz> & Ção" "S1" (-42) true false 18446744073709551615 "BR" "" in
  let tx := mkTransaction "SAVE_REPORT" "BR" "EVT-0001" "00ff" "linha 1 \ fim" in
  json_Unmarshal_tx (json_Marshal_tx tx) = Some tx ∧
  json_Unmarshal_sensor (json_Marshal_sensor d) = Some d.
Proof.
  intros d tx. destruct (json_round_trips tx d) as (H1 & H2 & _).
  - by vm_compute.
  - repeat split; by vm_compute.
  - by split.
Defined.
