(* ===== verification/Rfc3339.v ===== *)
(** * RFC 3339: the text of an instant

    [time.Time.MarshalJSON] and [UnmarshalJSON] on instants in UTC: the civil
    date of a day by cycles of 400, 100, 4 and 1 years as package time
    computes it, the fraction of a second without its trailing zeros, and the
    parser of the same format, which also takes a zone offset.  The instance
    [Rfc3339] satisfies the interface [TimeText] for the years 1 to 9999. *)

From S2P Require Import Prelude GoStd Model Interfaces Json JsonProps.
Local Open Scope Z_scope.

(** ** Days and civil dates

    Day 0 is the first of January of the year 1. *)

Definition days_cycle : Z := 146097.

(** The year and the day of the year. *)
Definition year_of (d : Z) : Z * Z :=
  let n400 := d / days_cycle in
  let d := d - days_cycle * n400 in
  let n100 := d / 36524 in let n100 := n100 - Z.shiftr n100 2 in
  let d := d - 36524 * n100 in
  let n4 := d / 1461 in
  let d := d - 1461 * n4 in
  let n1 := d / 365 in let n1 := n1 - Z.shiftr n1 2 in
  (400 * n400 + 100 * n100 + 4 * n4 + n1 + 1, d - 365 * n1).

Definition is_leap (y : Z) : bool :=
  (y mod 4 =? 0) && (negb (y mod 100 =? 0) || (y mod 400 =? 0)).

Definition month_lengths (leap : bool) : list Z :=
  [31; if leap then 29 else 28; 31; 30; 31; 30; 31; 31; 30; 31; 30; 31].

(** The month of a day of the year, and its day in the month, from 1. *)
Fixpoint month_of (lengths : list Z) (month yday : Z) : Z * Z :=
  match lengths with
  | [] => (month, yday + 1)
  | l :: lengths => if yday <? l then (month, yday + 1) else month_of lengths (month + 1) (yday - l)
  end.

Definition civil (d : Z) : Z * Z * Z :=
  let '(y, yday) := year_of d in
  let '(m, md) := month_of (month_lengths (is_leap y)) 1 yday in
  (y, m, md).

Definition days_before (y : Z) : Z :=
  let p := y - 1 in 365 * p + p / 4 - p / 100 + p / 400.

Definition day_of (y m d : Z) : Z :=
  days_before y + foldr Z.add 0 (take (Z.to_nat (m - 1)) (month_lengths (is_leap y))) + (d - 1).

(** ** Text *)

(** [n] decimal digits. *)
Fixpoint fixed (n : nat) (z : Z) (acc : string) : string :=
  match n with
  | O => acc
  | S n => fixed n (z / 10) (String (digit_char (z mod 10)) acc)
  end.

Fixpoint read_fixed (n : nat) (acc : Z) (s : string) : option (Z * string) :=
  match n, s with
  | O, _ => Some (acc, s)
  | S n, String c s => if is_digit c then read_fixed n (acc * 10 + (byte_val c - 48)) s else None
  | S _, EmptyString => None
  end.

(** Without trailing zeros; with them again. *)
Fixpoint strip_zeros (s : string) : string :=
  match s with
  | EmptyString => EmptyString
  | String c s =>
    match strip_zeros s with
    | EmptyString => if is_char c "0" then EmptyString else String c EmptyString
    | t => String c t
    end
  end.

Fixpoint pad_zeros (n : nat) (s : string) : string :=
  match n, s with
  | O, _ => EmptyString
  | S n, EmptyString => String "0" (pad_zeros n EmptyString)
  | S n, String c s => String c (pad_zeros n s)
  end.

Definition nanos : Z := 1000000000.

Definition fraction (ns : Z) : string :=
  if ns =? 0 then "" else String "." (strip_zeros (fixed 9 ns "")).

Definition rfc_format (t : Z) : string :=
  let sec := t / nanos in
  let '(y, m, d) := civil (sec / 86400) in
  let sod := sec mod 86400 in
  fixed 4 y "" +:+ "-" +:+ fixed 2 m "" +:+ "-" +:+ fixed 2 d "" +:+ "T" +:+
  fixed 2 (sod / 3600) "" +:+ ":" +:+ fixed 2 (sod / 60 mod 60) "" +:+ ":" +:+
  fixed 2 (sod mod 60) "" +:+ fraction (t mod nanos) +:+ "Z".

(** A field of [n] digits within bounds, then a literal. *)
Definition read_field (n : nat) (lo hi : Z) (s : string) : option (Z * string) :=
  '(z, s) ← read_fixed n 0 s; if (lo <=? z) && (z <=? hi) then Some (z, s) else None.

Definition expect (c : ascii) (s : string) : option string :=
  match s with String d s => if is_char d c then Some s else None | EmptyString => None end.

Definition read_fraction (s : string) : option (Z * string) :=
  match s with
  | String c s' =>
    if is_char c "." then
      '(ds, r) ← digits1 s'; '(ns, _) ← read_fixed 9 0 (pad_zeros 9 ds); Some (ns, r)
    else Some (0, s)
  | EmptyString => Some (0, s)
  end.

(** Seconds east of UTC. *)
Definition read_zone (s : string) : option Z :=
  match s with
  | String c s' =>
    if is_char c "Z" then match s' with EmptyString => Some 0 | _ => None end
    else
      '(h, r) ← read_field 2 0 23 s'; r ← expect ":" r; '(m, r) ← read_field 2 0 59 r;
      match r with
      | EmptyString =>
        if is_char c "+" then Some (h * 3600 + m * 60)
        else if is_char c "-" then Some (- (h * 3600 + m * 60)) else None
      | _ => None
      end
  | EmptyString => None
  end.

Definition rfc_parse (s : string) : option Z :=
  '(y, s) ← read_field 4 0 9999 s; s ← expect "-" s;
  '(mo, s) ← read_field 2 1 12 s; s ← expect "-" s;
  '(d, s) ← read_field 2 1 31 s; s ← expect "T" s;
  '(h, s) ← read_field 2 0 23 s; s ← expect ":" s;
  '(mi, s) ← read_field 2 0 59 s; s ← expect ":" s;
  '(se, s) ← read_field 2 0 59 s;
  '(ns, s) ← read_fraction s; zone ← read_zone s;
  if d <=? default 0 (month_lengths (is_leap y) !! Z.to_nat (mo - 1))
  then Some ((day_of y mo d * 86400 + h * 3600 + mi * 60 + se - zone) * nanos + ns)
  else None.

#[export] Instance Rfc3339 : TimeText := {
  time_Marshal := rfc_format;
  time_Unmarshal := rfc_parse;
}.

(** ** Dates *)

Definition year_length (y : Z) : Z := if is_leap y then 366 else 365.

(** The four quotients of [year_of]. *)
Lemma year_of_spec d :
  0 ≤ d →
  let '(y, yday) := year_of d in
  1 ≤ y ∧ 0 ≤ yday < year_length y ∧ days_before y + yday = d.
Proof.
  intros Hd. unfold year_of, days_cycle. rewrite !Z.shiftr_div_pow2 by lia. change (2 ^ 2) with 4.
  set (a := d / 146097). set (d2 := d - 146097 * a).
  assert (0 ≤ a ∧ 0 ≤ d2 < 146097) as [Ha Hd2].
  { subst a d2. Z.to_euclidean_division_equations. lia. }
  set (b := d2 / 36524 - d2 / 36524 / 4). set (d3 := d2 - 36524 * b).
  assert (0 ≤ b ≤ 3 ∧ 0 ≤ d3 ≤ 36524 ∧ (b < 3 → d3 < 36524)) as (Hb & Hd3 & Hb3).
  { subst b d3. clearbody d2. Z.to_euclidean_division_equations. lia. }
  clearbody b. set (c := d3 / 1461). set (d4 := d3 - 1461 * c).
  assert (0 ≤ c ≤ 24 ∧ 0 ≤ d4 < 1461 ∧ (c = 24 → b < 3 → d4 < 1460)) as (Hc & Hd4 & Hc4).
  { subst c d4. clearbody d3. Z.to_euclidean_division_equations. lia. }
  set (e := d4 / 365 - d4 / 365 / 4). set (yd := d4 - 365 * e).
  assert (0 ≤ e ≤ 3 ∧ 0 ≤ yd ≤ 365 ∧ (yd = 365 → e = 3 ∧ d4 = 1460)) as (He & Hyd & He3).
  { subst e yd. clearbody d4. Z.to_euclidean_division_equations. lia. }
  clearbody e. split; [lia|].
  assert ((400 * a + 100 * b + 4 * c + e) / 4 = 100 * a + 25 * b + c ∧
    (400 * a + 100 * b + 4 * c + e) / 100 = 4 * a + b ∧
    (400 * a + 100 * b + 4 * c + e) / 400 = a) as (Q4 & Q100 & Q400).
  { clear -Hb Hc He. Z.to_euclidean_division_equations. lia. }
  split.
  - split; [lia|]. unfold year_length, is_leap.
    destruct (decide (yd = 365)) as [E|]; [|case_match; lia].
    destruct (He3 E) as [-> E4]. clear -Hb Hc Hc4 E E4.
    assert ((400 * a + 100 * b + 4 * c + 3 + 1) mod 4 = 0) as ->.
    { Z.to_euclidean_division_equations. lia. }
    destruct (Z.eqb_spec ((400 * a + 100 * b + 4 * c + 3 + 1) mod 100) 0) as [E1|]; [|simpl; lia].
    assert (c = 24) as -> by (Z.to_euclidean_division_equations; lia).
    assert (b = 3) as -> by lia.
    assert ((400 * a + 100 * 3 + 4 * 24 + 3 + 1) mod 400 = 0) as ->.
    { Z.to_euclidean_division_equations. lia. }
    simpl. lia.
  - unfold days_before. replace (400 * a + 100 * b + 4 * c + e + 1 - 1) with
      (400 * a + 100 * b + 4 * c + e) by lia.
    rewrite Q4, Q100, Q400. subst yd d4 d3 d2. lia.
Qed.

(** What [month_of] must give on a day of a year. *)
Definition month_ok (leap : bool) (yday : Z) : bool :=
  let '(m, md) := month_of (month_lengths leap) 1 yday in
  (1 <=? m) && (m <=? 12) && (1 <=? md) && (md <=? 31) &&
  (md <=? default 0 (month_lengths leap !! Z.to_nat (m - 1))) &&
  (foldr Z.add 0 (take (Z.to_nat (m - 1)) (month_lengths leap)) + (md - 1) =? yday).

Lemma month_of_spec (leap : bool) (yday : Z) :
  0 ≤ yday < (if leap then 366 else 365) → month_ok leap yday = true.
Proof.
  intros H. assert (∀ n : nat, (n < 366)%nat → (leap = true ∨ (n < 365)%nat) →
    month_ok leap (Z.of_nat n) = true) as K.
  { assert (forallb (λ n, month_ok true (Z.of_nat n)) (seq 0 366) = true ∧
      forallb (λ n, month_ok false (Z.of_nat n)) (seq 0 365) = true) as [K1 K2] by by vm_compute.
    rewrite forallb_forall in K1, K2. intros n Hn Hl.
    destruct leap; [apply K1|apply K2]; apply in_seq; [lia|]. destruct Hl as [Hl|Hl]; [done|lia]. }
  rewrite <- (Z2Nat.id yday) by lia. apply K; destruct leap; try lia; by left.
Qed.

(** A day is the day of its civil date, and the date is one the parser
    takes. *)
Lemma civil_spec d :
  0 ≤ d < 3652059 →
  let '(y, m, md) := civil d in
  1 ≤ y ≤ 9999 ∧ 1 ≤ m ≤ 12 ∧ 1 ≤ md ≤ 31 ∧
  md ≤ default 0 (month_lengths (is_leap y) !! Z.to_nat (m - 1)) ∧ day_of y m md = d.
Proof.
  intros Hd. unfold civil. pose proof (year_of_spec d ltac:(lia)) as Hy.
  destruct (year_of d) as [y yday]. destruct Hy as (Hy & Hyd & Hb).
  assert (y ≤ 9999) as Hy2.
  { unfold days_before in Hb. clear -Hb Hd Hyd Hy. Z.to_euclidean_division_equations. lia. }
  pose proof (month_of_spec (is_leap y) yday Hyd) as Hm. unfold month_ok in Hm.
  destruct (month_of _ 1 yday) as [m md]. unfold day_of.
  repeat apply andb_true_iff in Hm as [Hm ?].
  split_and!; lia.
Qed.

(** ** Text *)

Lemma fixed_read n z acc s x :
  0 ≤ z < 10 ^ Z.of_nat n →
  read_fixed n acc (fixed n z s +:+ x) = Some (acc * 10 ^ Z.of_nat n + z, s +:+ x).
Proof.
  revert z s acc x. assert (∀ m n z acc s x, 0 ≤ z < 10 ^ Z.of_nat n →
    read_fixed (n + m) acc (fixed n z s +:+ x) =
    read_fixed m (acc * 10 ^ Z.of_nat n + z) (s +:+ x)) as K.
  { intros m k. revert m. induction k as [|k IH]; intros m z acc s x Hz.
    - simpl in Hz. replace z with 0 by lia. simpl. f_equal. lia.
    - rewrite Nat2Z.inj_succ, Z.pow_succ_r in * by lia. cbn [fixed].
      replace (S k + m)%nat with (k + S m)%nat by lia.
      assert (0 ≤ z / 10 < 10 ^ Z.of_nat k) as Hz'.
      { split; [apply Z.div_pos; lia|apply Z.div_lt_upper_bound; lia]. }
      rewrite IH by done. pose proof (Z.mod_pos_bound z 10 ltac:(lia)) as Hd.
      rewrite str_app_cons. cbn [read_fixed]. rewrite digit_char_is_digit by done.
      unfold digit_char. rewrite byte_val_of by lia. f_equal.
      pose proof (Z.div_mod z 10). lia. }
  intros z s acc x Hz. specialize (K 0%nat n z acc s x Hz). rewrite Nat.add_0_r in K.
  rewrite K. done.
Qed.

Lemma read_field_fixed n lo hi z x :
  0 ≤ z < 10 ^ Z.of_nat n → lo ≤ z ≤ hi → read_field n lo hi (fixed n z "" +:+ x) = Some (z, x).
Proof.
  intros Hz Hb. unfold read_field. rewrite fixed_read by done. cbn [mbind option_bind].
  rewrite str_app_nil_l, Z.mul_0_l, Z.add_0_l. rewrite (proj2 (Z.leb_le _ _)), (proj2 (Z.leb_le _ _)) by lia.
  done.
Qed.

Lemma all_chars_app p s t : all_chars p (s +:+ t) = all_chars p s && all_chars p t.
Proof.
  induction s as [|c s IH]; [done|]. rewrite str_app_cons. cbn [all_chars].
  by rewrite IH, andb_assoc.
Qed.

Lemma fixed_digits n z s : 0 ≤ z → all_chars is_digit s = true → all_chars is_digit (fixed n z s) = true.
Proof.
  revert z s. induction n as [|n IH]; intros z s Hz Hs; [done|]. cbn [fixed].
  apply IH; [by apply Z.div_pos|]. cbn [all_chars]. rewrite Hs, digit_char_is_digit; [done|].
  by apply Z.mod_pos_bound.
Qed.

Lemma fixed_length n z s : String.length (fixed n z s) = (n + String.length s)%nat.
Proof.
  revert z s. induction n as [|n IH]; intros z s; [done|]. cbn [fixed]. rewrite IH. simpl. lia.
Qed.

Lemma strip_digits s : all_chars is_digit s = true → all_chars is_digit (strip_zeros s) = true.
Proof.
  induction s as [|c s IH]; [done|]. cbn [all_chars strip_zeros]. intros [Hc Hs]%andb_true_iff.
  specialize (IH Hs). destruct (strip_zeros s).
  - destruct (is_char c "0"); [done|]. cbn [all_chars]. by rewrite Hc.
  - cbn [all_chars] in *. by rewrite Hc, IH.
Qed.

Lemma pad_strip s : pad_zeros (String.length s) (strip_zeros s) = s.
Proof.
  induction s as [|c s IH]; [done|]. cbn [strip_zeros String.length].
  destruct (strip_zeros s) as [|d t]; cbn [pad_zeros].
  - destruct (is_char c "0") eqn:E; cbn [pad_zeros]; rewrite IH; [|done].
    apply bool_decide_eq_true in E. by subst.
  - by rewrite IH.
Qed.

Lemma strip_empty s : strip_zeros s = "" → ∀ acc, 0 ≤ acc →
  read_fixed (String.length s) acc s = Some (acc * 10 ^ Z.of_nat (String.length s), "").
Proof.
  induction s as [|c s IH]; intros Hs acc Ha.
  - simpl. f_equal. f_equal. lia.
  - cbn [strip_zeros] in Hs. destruct (strip_zeros s) as [|d t]; [|done].
    destruct (is_char c "0") eqn:E; [|done]. apply bool_decide_eq_true in E. subst c.
    cbn [String.length read_fixed]. change (is_digit "0") with true. cbv iota.
    change (byte_val "0") with 48. rewrite IH by (done || lia).
    rewrite Nat2Z.inj_succ, Z.pow_succ_r by lia. f_equal. f_equal. lia.
Qed.

Lemma span_all_digits s x :
  all_chars is_digit s = true → span_digits x = ("", x) → span_digits (s +:+ x) = (s, x).
Proof.
  intros Hs Hx. induction s as [|c s IH]; [done|]. cbn [all_chars] in Hs.
  apply andb_true_iff in Hs as [Hc Hs]. rewrite str_app_cons. cbn [span_digits].
  by rewrite Hc, IH.
Qed.

Lemma read_fraction_format ns x :
  0 ≤ ns < nanos → read_fraction (fraction ns +:+ String "Z" x) = Some (ns, String "Z" x).
Proof.
  intros Hns. unfold fraction. destruct (Z.eqb_spec ns 0) as [->|Hz]; [done|].
  rewrite str_app_cons. unfold read_fraction. change (is_char "." ".") with true. cbv iota.
  set (t := fixed 9 ns "").
  assert (all_chars is_digit t = true) as Ht by (apply fixed_digits; [lia|done]).
  assert (String.length t = 9%nat) as Hl by apply fixed_length.
  assert (read_fixed 9 0 t = Some (ns, "")) as Hr.
  { pose proof (fixed_read 9 ns 0 "" "" Hns) as E. by rewrite !str_app_nil_r in E. }
  unfold digits1. rewrite (span_all_digits (strip_zeros t) (String "Z" x)); [|by apply strip_digits|done].
  destruct (strip_zeros t) as [|c u] eqn:E.
  - pose proof (strip_empty t E 0 ltac:(lia)) as E2. rewrite Hl, Hr in E2. by injection E2.
  - cbn [mbind option_bind]. rewrite <- E, <- Hl, pad_strip, Hl, Hr. done.
Qed.

Lemma digits_time_chars s : all_chars is_digit s = true → all_chars time_char s = true.
Proof.
  induction s as [|c s IH]; [done|]. cbn [all_chars]. intros [Hc Hs]%andb_true_iff.
  rewrite IH by done. unfold time_char, is_digit in *. by rewrite Hc.
Qed.

(** ** The interface *)

Lemma rfc_parts t : 0 ≤ t < max_time →
  0 ≤ t / nanos / 86400 < 3652059 ∧ 0 ≤ t mod nanos < nanos ∧ 0 ≤ t / nanos mod 86400 < 86400 ∧
  (t / nanos / 86400 * 86400 + t / nanos mod 86400) * nanos + t mod nanos = t.
Proof.
  unfold max_time, nanos. intros Ht. Z.to_euclidean_division_equations. lia.
Qed.

Lemma sod_parts s : 0 ≤ s < 86400 →
  0 ≤ s / 3600 ≤ 23 ∧ 0 ≤ s / 60 mod 60 ≤ 59 ∧ 0 ≤ s mod 60 ≤ 59 ∧
  s / 3600 * 3600 + s / 60 mod 60 * 60 + s mod 60 = s.
Proof. intros Hs. Z.to_euclidean_division_equations. lia. Qed.

Ltac read_number := rewrite read_field_fixed by lia; cbn [mbind option_bind].
Ltac read_literal :=
  match goal with |- context [expect ?c (?s +:+ ?x)] =>
    change (expect c (s +:+ x)) with (Some x) end; cbn [mbind option_bind].

Lemma rfc_round t : 0 ≤ t < max_time → rfc_parse (rfc_format t) = Some t.
Proof.
  intros Ht. destruct (rfc_parts t Ht) as (Hd & Hns & Hs & Et). unfold rfc_format.
  pose proof (civil_spec _ Hd) as Hc. destruct (civil (t / nanos / 86400)) as [[y m] d].
  destruct Hc as (Hy & Hm & Hmd & Hin & Eday).
  set (sod := t / nanos mod 86400) in *. destruct (sod_parts sod Hs) as (Hh & Hmi & Hse & Es).
  unfold rfc_parse. change (10 ^ Z.of_nat 2) with 100.
  assert (10 ^ Z.of_nat 2 = 100 ∧ 10 ^ Z.of_nat 4 = 10000) as [P2 P4] by done.
  do 5 (read_number; read_literal). read_number.
  rewrite read_fraction_format by done. cbn [mbind option_bind].
  change (read_zone "Z") with (Some 0). cbn [mbind option_bind].
  rewrite (proj2 (Z.leb_le _ _)) by done. f_equal. lia.
Qed.

Lemma rfc_chars t : 0 ≤ t < max_time → all_chars time_char (rfc_format t) = true.
Proof.
  intros Ht. destruct (rfc_parts t Ht) as (Hd & Hns & Hs & _). unfold rfc_format.
  pose proof (civil_spec _ Hd) as Hc. destruct (civil (t / nanos / 86400)) as [[y m] d].
  destruct Hc as (Hy & Hm & Hmd & _ & _).
  destruct (sod_parts _ Hs) as (Hh & Hmi & Hse & _). rewrite !all_chars_app.
  assert (∀ n z, 0 ≤ z → all_chars time_char (fixed n z "") = true) as K.
  { intros n z Hz. by apply digits_time_chars, fixed_digits. }
  rewrite !K by lia. cbn [andb]. unfold fraction. destruct (t mod nanos =? 0); [done|].
  cbn [all_chars]. rewrite digits_time_chars; [done|]. apply strip_digits, fixed_digits; [lia|done].
Qed.

#[export] Instance Rfc3339_laws : TimeTextLaws.
Proof. split; [apply rfc_round|apply rfc_chars|by vm_compute]. Qed.
