(* ===== verification/JsonDecoded.v ===== *)
(** * What decoding yields is well formed

    Whatever bytes arrive, a decoded [SensorData] holds well-formed UTF-8
    strings and integers of their types: malformed input is replaced or
    refused by the decoder.  Hence what one broker decodes and forwards, the
    next decodes to the same value. *)

From S2P Require Import Prelude GoStd Model Interfaces Json JsonProps.
Local Open Scope Z_scope.

(** ** Well-formed strings concatenate *)

Lemma valid_skip_app w z : valid_utf8_skip (String.length w) (w +:+ z) = valid_utf8 z.
Proof. induction w as [|c w IH]; [done|]. rewrite str_app_cons. apply IH. Qed.

Lemma valid_app u t : valid_utf8 u = true → valid_utf8 t = true → valid_utf8 (u +:+ t) = true.
Proof.
  intros Hu Ht. induction u as [u IH] using (induction_ltof1 _ String.length). unfold ltof in IH.
  destruct u as [|c u]; [done|]. rewrite str_app_cons. unfold valid_utf8 in Hu |- *.
  cbn [valid_utf8_skip] in *. destruct (byte_val c <? 128).
  - apply IH; [simpl; lia|done].
  - apply andb_true_iff in Hu as [Hr Hv]. apply Nat.ltb_lt in Hr.
    destruct (valid_utf8_split _ _ Hv) as (w & z & -> & Hw & Hz).
    assert (rune_size c ((w +:+ z) +:+ t) = rune_size c (w +:+ z)) as E.
    { rewrite str_app_assoc. rewrite (rune_size_ext c w z (z +:+ t)); lia. }
    rewrite E, (proj2 (Nat.ltb_lt _ _) Hr). cbn [andb]. rewrite <- Hw, str_app_assoc, valid_skip_app.
    apply IH; [|done]. simpl. rewrite str_length_app. lia.
Qed.

(** ** Encoded runes are well formed *)

Ltac decide_bytes :=
  cbv zeta;
  repeat match goal with
  | |- context [?a =? ?b] => destruct (Z.eqb_spec a b); try lia
  end; cbv iota;
  repeat match goal with
  | |- context [?a <? ?b] => destruct (Z.ltb_spec a b); try lia
  | |- context [?a <=? ?b] => destruct (Z.leb_spec a b); try lia
  end; try reflexivity.

Lemma valid_2 a b : 194 ≤ a ≤ 223 → 128 ≤ b ≤ 191 →
  valid_utf8 (String (byte_of a) (String (byte_of b) "")) = true.
Proof.
  intros Ha Hb. unfold valid_utf8. cbn [valid_utf8_skip]. unfold rune_size, cont_byte.
  rewrite !byte_val_of by lia. decide_bytes.
Qed.

Lemma valid_3 a b c : 224 ≤ a ≤ 239 → 128 ≤ b ≤ 191 → 128 ≤ c ≤ 191 →
  (a = 224 → 160 ≤ b) → (a = 237 → b ≤ 159) →
  valid_utf8 (String (byte_of a) (String (byte_of b) (String (byte_of c) ""))) = true.
Proof.
  intros Ha Hb Hc H1 H2. unfold valid_utf8. cbn [valid_utf8_skip]. unfold rune_size, cont_byte.
  cbn [str_tail]. rewrite !byte_val_of by lia. decide_bytes.
Qed.

Lemma valid_4 a b c d : 240 ≤ a ≤ 244 → 128 ≤ b ≤ 191 → 128 ≤ c ≤ 191 → 128 ≤ d ≤ 191 →
  (a = 240 → 144 ≤ b) → (a = 244 → b ≤ 143) →
  valid_utf8 (String (byte_of a) (String (byte_of b) (String (byte_of c) (String (byte_of d) "")))) = true.
Proof.
  intros Ha Hb Hc Hd H1 H2. unfold valid_utf8. cbn [valid_utf8_skip]. unfold rune_size, cont_byte.
  cbn [str_tail]. rewrite !byte_val_of by lia. decide_bytes.
Qed.

Lemma encode_rune_valid r :
  0 ≤ r ≤ 1114111 → is_surrogate r = false → valid_utf8 (encode_rune r) = true.
Proof.
  intros Hr Hs. unfold is_surrogate in Hs. unfold encode_rune.
  destruct (Z.ltb_spec r 128).
  { unfold valid_utf8. cbn [valid_utf8_skip]. rewrite byte_val_of by lia. decide_bytes. }
  destruct (Z.ltb_spec r 2048).
  { apply valid_2; Z.to_euclidean_division_equations; lia. }
  destruct (Z.ltb_spec r 65536).
  - assert (r < 55296 ∨ 57344 ≤ r) as Hns by lia. clear Hs.
    apply valid_3; Z.to_euclidean_division_equations; lia.
  - clear Hs. apply valid_4; Z.to_euclidean_division_equations; lia.
Qed.

(** ** The string parser *)

Lemma from_hex_range c v : from_hex_char c = Some v → 0 ≤ v < 16.
Proof. unfold from_hex_char. intros H. repeat (case_match; simplify_eq); lia. Qed.

Lemma hex4_range s r s' : hex4 s = Some (r, s') → 0 ≤ r < 65536.
Proof.
  destruct s as [|a [|b [|c [|d s]]]]; cbn [hex4]; try done.
  intros (w & Hw & (x & Hx & (y & Hy & (z & Hz & [= <- _])%bind_Some)%bind_Some)%bind_Some)%bind_Some.
  apply from_hex_range in Hw, Hx, Hy, Hz. lia.
Qed.

Lemma unquote_u_valid s t s' : unquote_u s = Some (t, s') → valid_utf8 t = true.
Proof.
  unfold unquote_u. destruct (hex4 s) as [[r s1]|] eqn:E; simpl; [|done].
  apply hex4_range in E. destruct (is_surrogate r) eqn:Es.
  - destruct (getu4 s1) as [[r1 s2]|]; [|by intros [= <- _]].
    unfold utf16_pair. destruct (_ && (r1 <? 57344)) eqn:Ep; [|by intros [= <- _]]. intros [= <- _].
    apply encode_rune_valid; unfold is_surrogate; lia.
  - intros [= <- _]. apply encode_rune_valid; [lia|done].
Qed.

Lemma simple_escape_valid e d : simple_escape e = Some d → valid_utf8 (String d "") = true.
Proof.
  unfold simple_escape, is_char. intros H.
  repeat (case_bool_decide; simpl in H; simplify_eq; try done).
Qed.

Definition good_str (p : parsed string) : Prop :=
  match p with Good t _ => valid_utf8 t = true | _ => True end.

Lemma prepend_good u p : valid_utf8 u = true → good_str p → good_str (prepend u p).
Proof. intros Hu Hp. destruct p as [| |t r]; simpl; [done|done|]. by apply valid_app. Qed.

Lemma split_bytes_spec n s t r : split_bytes n s = (t, r) → (n ≤ String.length s)%nat →
  s = t +:+ r ∧ String.length t = n.
Proof.
  revert s t r. induction n as [|n IH]; intros [|c s] t r; simpl; try (by intros [= <- <-]); [lia|].
  destruct (split_bytes n s) as [x y] eqn:E. intros [= <- <-] Hl.
  destruct (IH s x y E) as [-> <-]; [lia|]. done.
Qed.

(** A complete rune is there in full. *)
Lemma rune_size_there c s : (rune_size c s ≤ S (String.length s))%nat.
Proof.
  unfold rune_size, cont_byte.
  destruct s as [|a [|b [|d s]]]; simpl; repeat case_match; simpl; lia.
Qed.

Lemma parse_str_valid f s : good_str (parse_str f s).
Proof.
  revert s. induction f as [|f IH]; intros s; [done|]. cbn [parse_str].
  destruct s as [|c s1]; [done|]. destruct (is_char c dquote); [done|].
  destruct (is_char c backslash).
  { destruct s1 as [|e s2]; [done|]. destruct (is_char e "u").
    - destruct (unquote_u s2) as [[t s3]|] eqn:E; [|done].
      apply prepend_good; [by apply unquote_u_valid in E|apply IH].
    - destruct (simple_escape e) as [d|] eqn:E; [|done].
      apply prepend_good; [by apply simple_escape_valid in E|apply IH]. }
  destruct (byte_val c <? 32); [done|]. destruct (byte_val c <? 128) eqn:Ec.
  { apply prepend_good; [|apply IH]. unfold valid_utf8. cbn [valid_utf8_skip]. by rewrite Ec. }
  destruct (Nat.eqb_spec (rune_size c s1) 1) as [|Hr]; [apply prepend_good; [done|apply IH]|].
  destruct (split_bytes (rune_size c s1 - 1) s1) as [t s2] eqn:E.
  pose proof (rune_size_there c s1). pose proof (rune_size_bounds c s1).
  apply split_bytes_spec in E as [-> Ht]; [|lia].
  apply prepend_good; [|apply IH]. unfold valid_utf8. cbn [valid_utf8_skip]. rewrite Ec.
  assert (rune_size c t = rune_size c (t +:+ s2)) as Et.
  { rewrite <- (str_app_nil_r t) at 1. rewrite (rune_size_ext c t s2 ""); lia. }
  rewrite Et, (proj2 (Nat.ltb_lt _ _)) by lia. cbn [andb]. rewrite <- Ht.
  rewrite <- (str_app_nil_r t) at 2. by rewrite valid_skip_app.
Qed.

(** ** Values *)

(** Every string inside a value is well formed. *)
Fixpoint json_valid (v : json) : bool :=
  match v with
  | JStr _ s => valid_utf8 s
  | JArr l => forallb json_valid l
  | JObj ms => forallb (λ kv, json_valid (snd kv)) ms
  | _ => true
  end.

Definition members_valid (ms : list (string * json)) : Prop :=
  Forall (λ kv, json_valid (snd kv) = true) ms.

Lemma json_valid_obj ms : json_valid (JObj ms) = true ↔ members_valid ms.
Proof.
  cbn [json_valid]. unfold members_valid.
  induction ms as [|kv ms IH]; cbn [forallb]; [split; [by constructor|done]|].
  rewrite andb_true_iff, Forall_cons. tauto.
Qed.

Lemma parse_valid f :
  (∀ d s v r, parse_value f d s = Good v r → json_valid v = true) ∧
  (∀ d s ms r, parse_members f d s = Good ms r → members_valid ms) ∧
  (∀ d s l r, parse_elems f d s = Good l r → forallb json_valid l = true).
Proof.
  induction f as [|f (IHv & IHm & IHe)]; [done|]. split_and!; intros d s v r.
  - cbn [parse_value]. destruct (skip_ws s) as [|c s1]; [done|].
    destruct (is_char c "{").
    { case_match; [done|]. destruct (skip_ws s1) as [|e s2]; [done|].
      destruct (is_char e "}"); [by intros [= <- _]|].
      destruct (parse_members f (d + 1) s1) as [| |ms r'] eqn:E; simpl; [done|done|].
      intros [= <- _]. apply json_valid_obj. by eapply IHm. }
    destruct (is_char c "[").
    { case_match; [done|]. destruct (skip_ws s1) as [|e s2]; [done|].
      destruct (is_char e "]"); [by intros [= <- _]|].
      destruct (parse_elems f (d + 1) s1) as [| |l r'] eqn:E; simpl; [done|done|].
      intros [= <- _]. by eapply IHe. }
    destruct (is_char c dquote).
    { pose proof (parse_str_valid (S (String.length s1)) s1) as Hp.
      destruct (parse_str _ s1) as [| |t r']; simpl; [done|done|]. by intros [= <- _]. }
    unfold literal. destruct (is_char c "t"); [case_match; [by intros [= <- _]|done]|].
    destruct (is_char c "f"); [case_match; [by intros [= <- _]|done]|].
    destruct (is_char c "n"); [case_match; [by intros [= <- _]|done]|].
    destruct (parse_number _) as [[l r']|]; [by intros [= <- _]|done].
  - cbn [parse_members]. destruct (skip_ws s) as [|c s1]; [done|].
    destruct (is_char c dquote); [|done].
    destruct (parse_str _ s1) as [| |k s2]; simpl; [done|done|].
    destruct (skip_ws s2) as [|e s3]; [done|]. destruct (is_char e ":"); [|done].
    destruct (parse_value f d s3) as [| |w s4] eqn:Ev; simpl; [done|done|].
    apply IHv in Ev. destruct (skip_ws s4) as [|g s5]; [done|].
    destruct (is_char g ",").
    + destruct (parse_members f d s5) as [| |ms r'] eqn:Em; simpl; [done|done|].
      intros [= <- _]. constructor; [done|]. by eapply IHm.
    + destruct (is_char g "}"); [|done]. intros [= <- _]. by repeat constructor.
  - cbn [parse_elems]. destruct (parse_value f d s) as [| |w s1] eqn:Ev; simpl; [done|done|].
    apply IHv in Ev. destruct (skip_ws s1) as [|g s2]; [done|].
    destruct (is_char g ",").
    + destruct (parse_elems f d s2) as [| |l r'] eqn:Em; simpl; [done|done|].
      intros [= <- _]. cbn [forallb]. rewrite Ev. by eapply IHe.
    + destruct (is_char g "]"); [|done]. intros [= <- _]. cbn [forallb]. by rewrite Ev.
Qed.

(** The fields of a struct are stored one by one: what every field keeps,
    the struct keeps. *)
Lemma into_struct_inv {T} (P : T → Prop) (field : string → json → T → option T) ms t t' :
  (∀ k v t t', P t → json_valid v = true → field k v t = Some t' → P t') →
  members_valid ms → P t → into_struct field ms t = Some t' → P t'.
Proof.
  intros Hf Hm. revert t. induction Hm as [|[k v] ms Hv Hm IH]; intros t Ht; simpl; [by intros [= <-]|].
  intros (t1 & E & H)%bind_Some. eapply IH; [|exact H]. by eapply Hf.
Qed.

Lemma into_object_inv {T} (P : T → Prop) (field : string → json → T → option T) zero p t :
  (∀ k v t t', P t → json_valid v = true → field k v t = Some t' → P t') → P zero →
  (∀ v r, p = Good v r → json_valid v = true) → into_object field zero p = Some t → P t.
Proof.
  intros Hf Hz Hp. destruct p as [| |v r]; [done|done|]. specialize (Hp v r eq_refl).
  destruct v; try done; [by intros [= <-]|]. apply json_valid_obj in Hp.
  simpl. by apply into_struct_inv.
Qed.

Lemma parse_json_valid s v r : parse_json s = Good v r → json_valid v = true.
Proof.
  unfold parse_json. destruct (parse_value (2 * String.length s + 2) 0 s) as [| |w r'] eqn:E;
    simpl; [done|done|].
  apply (proj1 (parse_valid _)) in E. destruct (skip_ws r'); [|done]. by intros [= <- _].
Qed.

Lemma decode_first_inv {T} (P : T → Prop) (field : string → json → T → option T) zero s t :
  (∀ k v t t', P t → json_valid v = true → field k v t = Some t' → P t') → P zero →
  decode_first field zero s = Some t → P t.
Proof. intros Hf Hz. apply into_object_inv; [done|done|]. apply parse_valid. Qed.

Lemma into_nested_inv {T} (P : T → Prop) (field : string → json → T → option T) old v t :
  (∀ k v t t', P t → json_valid v = true → field k v t = Some t' → P t') → P old →
  json_valid v = true → into_nested field old v = Some t → P t.
Proof.
  intros Hf Ho Hv. destruct v; try done; [by intros [= <-]|]. apply json_valid_obj in Hv.
  simpl. by apply into_struct_inv.
Qed.

(** ** Numbers *)

Lemma parse_uint_range acc s n : 0 ≤ acc ≤ max_uint64 → parse_uint acc s = POk n → is_uint64 n.
Proof.
  revert acc. induction s as [|c s IH]; intros acc Ha; simpl; [by intros [= <-]|].
  destruct (digit_val c) as [d|] eqn:Ed; [|done].
  assert (0 ≤ d) as Hd. { unfold digit_val in Ed. case_match; simplify_eq. lia. }
  destruct (Z.ltb_spec max_uint64 (acc * 10 + d)); [done|]. apply IH. lia.
Qed.

Lemma atoi_body_range neg s z : atoi_body neg s = (z, None) → is_int64 z.
Proof.
  unfold atoi_body. destruct s as [|c s]; [done|].
  destruct (parse_uint 0 (String c s)) as [| |n] eqn:E; [done|done|].
  apply parse_uint_range in E; [|unfold max_uint64; lia].
  unfold is_uint64, is_int64, min_int64, max_int64 in *.
  destruct neg; case_match; try done; intros [= <-]; lia.
Qed.

Lemma Atoi_range s z : Atoi s = (z, None) → is_int64 z.
Proof.
  destruct s as [|c s]; [done|]. unfold Atoi.
  destruct c as [[] [] [] [] [] [] [] []]; apply atoi_body_range.
Qed.

(** The value [Atoi] returns is an [int64] also when it returns an error. *)
Lemma Atoi_int64 s : is_int64 (fst (Atoi s)).
Proof.
  assert (∀ neg body, is_int64 (fst (atoi_body neg body))) as K.
  { intros neg body. destruct (atoi_body neg body) as [z [e|]] eqn:E; [|by eapply atoi_body_range].
    unfold atoi_body in E. repeat case_match; simplify_eq; by vm_compute. }
  destruct s as [|c s]; [by vm_compute|]. unfold Atoi.
  destruct c as [[] [] [] [] [] [] [] []]; apply K.
Qed.

(** ** Sensor data *)

Lemma into_string_valid old v s :
  valid_utf8 old = true → json_valid v = true → into_string old v = Some s → valid_utf8 s = true.
Proof. destruct v; simpl; intros; simplify_eq; done. Qed.

Lemma into_int_range old v z : is_int64 old → into_int old v = Some z → is_int64 z.
Proof.
  destruct v; simpl; intros Ho H; simplify_eq; [done|].
  destruct (Atoi lit) as [x [e|]] eqn:E; [done|]. simplify_eq. by eapply Atoi_range.
Qed.

Lemma into_uint64_range old v z : is_uint64 old → into_uint64 old v = Some z → is_uint64 z.
Proof.
  destruct v; simpl; intros Ho H; simplify_eq; [done|].
  destruct (parse_uint 0 lit) as [| |n] eqn:E; [done|done|]. simplify_eq.
  eapply parse_uint_range; [|done]. unfold max_uint64. lia.
Qed.

Lemma sensor_field_ok k v d d' :
  wf_sensor d → json_valid v = true → sensor_field k v d = Some d' → wf_sensor d'.
Proof.
  destruct d as [ev se sc rq cr ck na si]. unfold wf_sensor.
  cbn [EventID SensorID SectorID InternalClock NationID Signature]. intros (H1&H2&H3&H4&H5&H6) Hv.
  unfold sensor_field. repeat case_bool_decide; try (intros [= <-]; by split_and!);
    intros (x & Hx & [= <-])%bind_Some; cbn [EventID SensorID SectorID InternalClock NationID Signature];
    split_and!; try done;
    eauto using into_string_valid, into_int_range, into_uint64_range.
Qed.

Lemma zeroSensorData_wf : wf_sensor zeroSensorData.
Proof. repeat split; by vm_compute. Qed.

Lemma decoded_wf s d : json_Unmarshal_sensor s = Some d → wf_sensor d.
Proof.
  apply into_object_inv; [apply sensor_field_ok|apply zeroSensorData_wf|apply parse_json_valid].
Qed.

(** The secondary's copy of a packet reads as the packet with the new clock. *)
Lemma forwarded_reads s d c :
  json_Unmarshal_sensor s = Some d → is_uint64 c →
  json_Unmarshal_sensor (json_Marshal_sensor (set_clock d c)) = Some (set_clock d c).
Proof.
  intros Hd Hc. apply json_Unmarshal_Marshal_sensor.
  destruct (decoded_wf s d Hd) as (H1&H2&H3&_&H5&H6). by split_and!.
Qed.
