(* ===== verification/Wire.v ===== *)
(** * The JSON bodies of the HTTP requests and answers

    What the handlers, the station and the drones encode and decode: missions
    with their nested sensor data and lease time, the requests that resolve a
    mission, synchronize a shadow, register a drone or acknowledge an event,
    and the answers to them.  A decoder is the [Decode] of the struct the code
    declares; an encoder writes the keys of a map in byte order, as
    [json.Marshal] does.  The text of an instant is the interface [TimeText];
    instants are in UTC, as the zero time, the only one the program writes,
    is. *)

From S2P Require Import Prelude GoStd Model Interfaces Json JsonProps JsonDecoded.
Local Open Scope Z_scope.

(** A struct is filled field by field; [Decode] reports a type error at the
    end and keeps what could be stored, which shows where its error is
    dropped. *)
Fixpoint into_struct_lax {T} (field : string → json → T → option T)
    (members : list (string * json)) (t : T) : T :=
  match members with
  | [] => t
  | (k, v) :: members => into_struct_lax field members (default t (field (fold_name k) v t))
  end.

Definition decode_lax {T} (field : string → json → T → option T) (zero : T) (body : string) : T :=
  match parse_value (2 * String.length body + 2) 0 body with
  | Good (JObj members) _ => into_struct_lax field members zero
  | _ => zero
  end.

(** ** The number literals [float64] can hold

    A map of [interface{}] receives numbers as [float64]; [ParseFloat] fails
    on one that rounds to infinity, at or beyond half a unit above the largest
    finite number.  The exponent's digits are read until they exceed 10000. *)

Definition float_limit : Z := 2 ^ 1024 - 2 ^ 970.

Fixpoint read_exponent (acc : Z) (s : string) : Z :=
  match s with
  | EmptyString => acc
  | String c s => read_exponent (if acc <? 10000 then acc * 10 + (byte_val c - 48) else acc) s
  end.

(** The mantissa's digits as a number, the digits after the point, and what
    follows them. *)
Fixpoint read_mantissa (point : bool) (mant scale : Z) (s : string) : Z * Z * string :=
  match s with
  | EmptyString => (mant, scale, EmptyString)
  | String c s' =>
    if is_char c "." then read_mantissa true mant scale s'
    else if is_digit c then
      read_mantissa point (mant * 10 + (byte_val c - 48)) (if point then scale + 1 else scale) s'
    else (mant, scale, s)
  end.

Definition fits_float64 (lit : string) : bool :=
  let '(_, s) := opt_char (λ c, is_char c "-") lit in
  let '(mant, scale, s) := read_mantissa false 0 0 s in
  let exp :=
    match s with
    | String _ (String c s') =>
      if is_char c "-" then - read_exponent 0 s'
      else if is_char c "+" then read_exponent 0 s' else read_exponent 0 (String c s')
    | _ => 0
    end in
  let e := exp - scale in
  if 0 <=? e then mant * 10 ^ e <? float_limit else mant <? float_limit * 10 ^ (- e).

Fixpoint numbers_fit (v : json) : bool :=
  match v with
  | JNum lit => fits_float64 lit
  | JArr l => forallb numbers_fit l
  | JObj ms => forallb (λ kv, numbers_fit (snd kv)) ms
  | _ => true
  end.

(** [Decode] into a [map[string]interface{}]: does it succeed? *)
Definition decodes_map (body : string) : bool :=
  match parse_value (2 * String.length body + 2) 0 body with
  | Good JNull _ => true
  | Good (JObj ms) _ => numbers_fit (JObj ms)
  | _ => false
  end.

Section wire.
Context {TT : TimeText}.

(** ** Missions *)

Definition into_time (old : Z) (v : json) : option Z :=
  match v with JStr false s => time_Unmarshal s | JNull => Some old | _ => None end.

Definition mission_field (k : string) (v : json) (m : Mission) : option Mission :=
  let '(mkMission pl lc ex ho an) := m in
  if bool_decide (k = "PAYLOAD") then x ← into_nested sensor_field pl v; Some (mkMission x lc ex ho an)
  else if bool_decide (k = "LAMPORTCLOCK") then x ← into_uint64 lc v; Some (mkMission pl x ex ho an)
  else if bool_decide (k = "LEASE_EXPIRES") then x ← into_time ex v; Some (mkMission pl lc x ho an)
  else if bool_decide (k = "LEASE_HOLDER") then x ← into_string ho v; Some (mkMission pl lc ex x an)
  else if bool_decide (k = "BROKER_ANCHOR") then x ← into_string an v; Some (mkMission pl lc ex ho x)
  else Some m.

Definition decode_mission : string → option Mission := decode_first mission_field zeroMission.

(** [omitempty] drops an empty holder; a time is a struct and never empty. *)
Definition mission_members (m : Mission) : list (string * string) :=
  [("Payload", json_Marshal_sensor (Payload m)); ("LamportClock", digits 20 (LamportClock m) "");
   ("lease_expires", encode_string (time_Marshal (LeaseExpires m)))] ++
  (if bool_decide (LeaseHolder m = "") then [] else [("lease_holder", encode_string (LeaseHolder m))]) ++
  [("broker_anchor", encode_string (BrokerAnchor m))].

Definition json_Marshal_mission (m : Mission) : string := encode_object (mission_members m).

(** ** Requests *)

Definition resolve_field (k : string) (v : json) (p : string * Mission) :
    option (string * Mission) :=
  let '(action, m) := p in
  if bool_decide (k = "ACTION") then x ← into_string action v; Some (x, m)
  else if bool_decide (k = "MISSION") then x ← into_nested mission_field m v; Some (action, x)
  else Some p.

Definition decode_resolve : string → option (string * Mission) :=
  decode_first resolve_field ("", zeroMission).

Definition encode_resolve (action : string) (m : Mission) : string :=
  encode_object [("action", encode_string action); ("mission", json_Marshal_mission m)].

Definition sync_field (k : string) (v : json) (p : string * string * Mission) :
    option (string * string * Mission) :=
  let '(action, eventID, m) := p in
  if bool_decide (k = "ACTION") then x ← into_string action v; Some (x, eventID, m)
  else if bool_decide (k = "EVENT_ID") then x ← into_string eventID v; Some (action, x, m)
  else if bool_decide (k = "MISSION") then x ← into_nested mission_field m v; Some (action, eventID, x)
  else Some p.

Definition decode_sync : string → option (string * string * Mission) :=
  decode_first sync_field ("", "", zeroMission).

Definition encode_sync (action : string) (m : Mission) : string :=
  encode_object [("action", encode_string action); ("event_id", encode_string (mission_id m));
                 ("mission", json_Marshal_mission m)].
End wire.

Definition string_field (name k : string) (v : json) (s : string) : option string :=
  if bool_decide (k = name) then into_string s v else Some s.

Definition decode_register : string → option string := decode_first (string_field "DRONE_ID") "".
Definition encode_register (droneID : string) : string :=
  encode_object [("drone_id", encode_string droneID)].

Definition ack_field (k : string) (v : json) (p : string * string) : option (string * string) :=
  let '(eventID, droneID) := p in
  if bool_decide (k = "EVENT_ID") then x ← into_string eventID v; Some (x, droneID)
  else if bool_decide (k = "DRONE_ID") then x ← into_string droneID v; Some (eventID, x)
  else Some p.

(** The station drops the decoder's error. *)
Definition decode_ack : string → string * string := decode_lax ack_field ("", "").
Definition encode_ack (eventID droneID : string) : string :=
  encode_object [("drone_id", encode_string droneID); ("event_id", encode_string eventID)].

(** ** Answers *)

Definition decode_direct : string → option string := decode_first (string_field "DIRECT_URL") "".
Definition encode_direct (url : string) : string :=
  encode_object [("direct_url", encode_string url)].

Record HealthCheckResponse : Type := mkHealth { hr_Status : string; hr_Timestamp : Z }.
Record ErrorResponse : Type := mkErrorResponse { er_Error : string; er_Code : string; er_Timestamp : Z }.

Definition NewErrorResponse (now : Z) (err code : string) : ErrorResponse := mkErrorResponse err code now.

Definition encode_health `{!TimeText} (r : HealthCheckResponse) : string :=
  encode_object [("status", encode_string (hr_Status r)); ("timestamp", encode_string (time_Marshal (hr_Timestamp r)))].

Definition encode_received : string := encode_object [("received", "true")].

(** ** The contract of pkg/server/api_types.go that the handlers do not name

    The handlers declare structs of their own; these types are what the file
    says they exchange.  [omitempty] leaves an empty string out. *)

Definition omitempty (name s : string) : list (string * string) :=
  if bool_decide (s = "") then [] else [(name, encode_string s)].

Record RegisterDroneRequest : Type := mkRegister { rd_DroneID : string; rd_IP : string }.
Record ActionRequest : Type := mkAction { ar_EventID : string; ar_DroneID : string; ar_Reason : string }.
Record ActionResponse : Type := mkActionResponse { ap_Success : bool; ap_Message : string }.

Definition encode_RegisterDroneRequest (r : RegisterDroneRequest) : string :=
  encode_object (("drone_id", encode_string (rd_DroneID r)) :: omitempty "ip" (rd_IP r)).

Definition encode_ActionRequest (r : ActionRequest) : string :=
  encode_object (("event_id", encode_string (ar_EventID r)) :: ("drone_id", encode_string (ar_DroneID r)) ::
                 omitempty "reason" (ar_Reason r)).

Definition encode_ActionResponse (r : ActionResponse) : string :=
  encode_object (("success", if ap_Success r then "true" else "false") :: omitempty "message" (ap_Message r)).

(** [json.Encoder] ends a value with a newline. *)
Definition newline : string := String (byte_of 10) "".
Definition json_line (s : string) : string := s +:+ newline.

(** ** Round trips *)

(** An encoded object followed by anything decodes to its members. *)
Lemma decode_first_object {T} (field : string → json → T → option T) zero k l js x :
  Forall2 (reads_member k) l js → Z.of_nat k < maxNestingDepth →
  decode_first field zero (encode_object l +:+ x) = into_struct field js zero.
Proof.
  intros Hl Hk. unfold decode_first. rewrite (parse_object k l js); [done|done| |lia].
  rewrite str_length_app. lia.
Qed.

Lemma decode_lax_object {T} (field : string → json → T → option T) zero k l js x :
  Forall2 (reads_member k) l js → Z.of_nat k < maxNestingDepth →
  decode_lax field zero (encode_object l +:+ x) = into_struct_lax field js zero.
Proof.
  intros Hl Hk. unfold decode_lax. rewrite (parse_object k l js); [done|done| |lia].
  rewrite str_length_app. lia.
Qed.

Lemma into_struct_app {T} (field : string → json → T → option T) l1 l2 t :
  into_struct field (l1 ++ l2) t = into_struct field l1 t ≫= into_struct field l2.
Proof.
  revert t. induction l1 as [|[k v] l1 IH]; intros t; [done|]. simpl.
  destruct (field (fold_name k) v t); [apply IH|done].
Qed.

(** Where the strict decoder succeeds, the lax one agrees with it. *)
Lemma into_struct_lax_strict {T} (field : string → json → T → option T) l t t' :
  into_struct field l t = Some t' → into_struct_lax field l t = t'.
Proof.
  revert t. induction l as [|[k v] l IH]; intros t; simpl; [by intros [= <-]|].
  intros (t1 & E & H)%bind_Some. rewrite E. by apply IH.
Qed.

Lemma all_chars_valid s : all_chars time_char s = true → valid_utf8 s = true.
Proof.
  induction s as [|c s IH]; [done|]. cbn [all_chars]. intros [Hc Hs]%andb_true_iff.
  apply (valid_app (String c "")); [|by apply IH].
  revert Hc. clear. destruct c as [[] [] [] [] [] [] [] []]; vm_compute; done.
Qed.

Lemma all_chars_plain s : all_chars time_char s = true →
  encode_from 0 0 s = s ∧ contains_byte backslash s = false.
Proof.
  induction s as [|c s IH]; [done|]. cbn [all_chars]. intros [Hc Hs]%andb_true_iff.
  destruct (IH Hs) as [E1 E2].
  assert ((byte_val c <? 128) = true ∧ encode_ascii c = String c "" ∧
    bool_decide (c = backslash) = false) as (H1 & H2 & H3).
  { revert Hc. clear. destruct c as [[] [] [] [] [] [] [] []]; vm_compute; done. }
  split.
  - cbn [encode_from]. by rewrite H1, H2, E1.
  - cbn [contains_byte]. by rewrite H3, E2.
Qed.

Section wire_laws.
Context {TT : TimeText} {TL : TimeTextLaws}.

(** The missions a broker can hold and send: typed fields, and a lease time
    RFC 3339 can write. *)
Definition wf_mission (m : Mission) : Prop :=
  wf_sensor (Payload m) ∧ is_uint64 (LamportClock m) ∧ 0 ≤ LeaseExpires m < max_time ∧
  valid_utf8 (LeaseHolder m) = true ∧ valid_utf8 (BrokerAnchor m) = true.

Definition mission_values (m : Mission) : list (string * json) :=
  [("Payload", JObj (sensor_values (Payload m))); ("LamportClock", JNum (digits 20 (LamportClock m) ""));
   ("lease_expires", JStr false (time_Marshal (LeaseExpires m)))] ++
  (if bool_decide (LeaseHolder m = "") then [] else [("lease_holder", str_value (LeaseHolder m))]) ++
  [("broker_anchor", str_value (BrokerAnchor m))].

Lemma time_value t : 0 ≤ t < max_time → str_value (time_Marshal t) = JStr false (time_Marshal t).
Proof.
  intros Ht. destruct (all_chars_plain _ (time_text t Ht)) as [E1 E2]. unfold str_value.
  by rewrite E1, E2.
Qed.

Lemma mission_members_read k m :
  wf_mission m → Forall2 (reads_member (S k)) (mission_members m) (mission_values m).
Proof.
  intros (Hp & Hc & Hl & Hh & Ha). unfold mission_members, mission_values.
  repeat apply Forall2_app.
  - constructor; [split_and!; [done|done|]|].
    { by apply reads_object, sensor_members_read. }
    constructor; [split_and!; [done|done|by apply reads_uint64]|].
    constructor; [split_and!; [done|done|]|constructor].
    cbn [snd]. rewrite <- time_value by done.
    by apply reads_string, all_chars_valid, time_text.
  - case_bool_decide; [constructor|]. by read_members.
  - by read_members.
Qed.

Lemma mission_fields m : wf_mission m → into_struct mission_field (mission_values m) zeroMission = Some m.
Proof.
  intros (Hp & Hc & Hl & _ & _). unfold mission_values. destruct m as [pl lc ex ho an].
  cbn [Payload LamportClock LeaseExpires LeaseHolder BrokerAnchor] in *.
  unfold zeroMission. cbn [app].
  erewrite into_struct_step.
  2: { change (mission_field (fold_name "Payload") (JObj (sensor_values pl)) (mkMission zeroSensorData 0 0 "" ""))
         with (x ← into_struct sensor_field (sensor_values pl) zeroSensorData; Some (mkMission x 0 0 "" "")).
       rewrite sensor_fields by done. reflexivity. }
  erewrite into_struct_step.
  2: { change (mission_field (fold_name "LamportClock") (JNum (digits 20 lc "")) (mkMission pl 0 0 "" ""))
         with (x ← into_uint64 0 (JNum (digits 20 lc "")); Some (mkMission pl x 0 "" "")).
       rewrite into_uint64_digits by done. reflexivity. }
  erewrite into_struct_step.
  2: { change (mission_field (fold_name "lease_expires") (JStr false (time_Marshal ex)) (mkMission pl lc 0 "" ""))
         with (x ← time_Unmarshal (time_Marshal ex); Some (mkMission pl lc x "" "")).
       rewrite time_round by done. reflexivity. }
  case_bool_decide as Eh; [subst ho|]; reflexivity.
Qed.

Lemma decode_mission_round m x :
  wf_mission m → decode_mission (json_Marshal_mission m +:+ x) = Some m.
Proof.
  intros Hm. unfold decode_mission, json_Marshal_mission.
  rewrite (decode_first_object _ _ 1 _ _ _ (mission_members_read 0 m Hm)) by done.
  by apply mission_fields.
Qed.

Lemma mission_reads k m : wf_mission m → reads (2 + k) (json_Marshal_mission m) (JObj (mission_values m)).
Proof. intros Hm. by apply reads_object, mission_members_read. Qed.

Lemma field_mission m0 m :
  wf_mission m → m0 = zeroMission → into_nested mission_field m0 (JObj (mission_values m)) = Some m.
Proof. intros Hm ->. by apply mission_fields. Qed.

Lemma decode_resolve_round action m x :
  valid_utf8 action = true → wf_mission m →
  decode_resolve (encode_resolve action m +:+ x) = Some (action, m).
Proof.
  intros Ha Hm. unfold decode_resolve, encode_resolve.
  rewrite (decode_first_object _ _ 2 _
    [("action", str_value action); ("mission", JObj (mission_values m))]); [| |done].
  - rewrite (into_struct_step resolve_field _ _ _ _ (action, zeroMission)) by reflexivity.
    erewrite into_struct_step; [reflexivity|].
    change (resolve_field (fold_name "mission") (JObj (mission_values m)) (action, zeroMission))
      with (x ← into_struct mission_field (mission_values m) zeroMission; Some (action, x)).
    by rewrite mission_fields.
  - constructor; [split_and!; [done|done|by apply reads_string]|].
    constructor; [split_and!; [done|done|by apply (mission_reads 0)]|constructor].
Qed.

Lemma decode_sync_round action m x :
  valid_utf8 action = true → wf_mission m →
  decode_sync (encode_sync action m +:+ x) = Some (action, mission_id m, m).
Proof.
  intros Ha Hm. pose proof Hm as [[He _] _]. unfold decode_sync, encode_sync.
  rewrite (decode_first_object _ _ 2 _
    [("action", str_value action); ("event_id", str_value (mission_id m));
     ("mission", JObj (mission_values m))]); [| |done].
  - rewrite (into_struct_step sync_field _ _ _ _ (action, "", zeroMission)) by reflexivity.
    rewrite (into_struct_step sync_field _ _ _ _ (action, mission_id m, zeroMission)) by reflexivity.
    erewrite into_struct_step; [reflexivity|].
    change (sync_field (fold_name "mission") (JObj (mission_values m)) (action, mission_id m, zeroMission))
      with (x ← into_struct mission_field (mission_values m) zeroMission; Some (action, mission_id m, x)).
    by rewrite mission_fields.
  - constructor; [split_and!; [done|done|by apply reads_string]|].
    constructor; [split_and!; [done|done|by apply reads_string]|].
    constructor; [split_and!; [done|done|by apply (mission_reads 0)]|constructor].
Qed.

(** What decoding yields: typed missions, whatever the bytes; the lease time
    alone may be an instant [MarshalJSON] refuses. *)
Definition typed_mission (m : Mission) : Prop :=
  wf_sensor (Payload m) ∧ is_uint64 (LamportClock m) ∧
  valid_utf8 (LeaseHolder m) = true ∧ valid_utf8 (BrokerAnchor m) = true.

Lemma typed_wf m : typed_mission m → 0 ≤ LeaseExpires m < max_time → wf_mission m.
Proof. by intros (?&?&?&?) ?. Qed.

Lemma newMission_wf p c : wf_sensor p → is_uint64 c → wf_mission (newMission p c).
Proof. intros Hp Hc. by split_and!. Qed.

Lemma zeroMission_typed : typed_mission zeroMission.
Proof. repeat split; by vm_compute. Qed.

Lemma decode_lax_inv {T} (P : T → Prop) (field : string → json → T → option T) zero s :
  (∀ k v t t', P t → json_valid v = true → field k v t = Some t' → P t') → P zero →
  P (decode_lax field zero s).
Proof.
  intros Hf Hz. unfold decode_lax.
  destruct (parse_value _ 0 s) as [| |v r] eqn:Ep; [done|done|]. apply parse_valid in Ep.
  destruct v; try done. apply json_valid_obj in Ep. revert zero Hz.
  induction Ep as [|[k v] ms Hv _ IH]; intros zero Hz; [done|]. simpl. apply IH.
  destruct (field (fold_name k) v zero) eqn:E; [|done]. by eapply Hf.
Qed.

Lemma mission_field_typed k v m m' :
  typed_mission m → json_valid v = true → mission_field k v m = Some m' → typed_mission m'.
Proof.
  destruct m as [pl lc ex ho an]. unfold typed_mission.
  cbn [Payload LamportClock LeaseExpires LeaseHolder BrokerAnchor]. intros (H1&H2&H3&H4) Hv.
  unfold mission_field. repeat case_bool_decide; try (intros [= <-]; by split_and!);
    intros (x & Hx & [= <-])%bind_Some;
    cbn [Payload LamportClock LeaseExpires LeaseHolder BrokerAnchor]; split_and!; try done;
    eauto using into_string_valid, into_uint64_range.
  eapply (into_nested_inv wf_sensor sensor_field); [apply sensor_field_ok|done|done|done].
Qed.

Lemma decode_mission_typed s m : decode_mission s = Some m → typed_mission m.
Proof. apply decode_first_inv; [apply mission_field_typed|apply zeroMission_typed]. Qed.

Lemma decode_resolve_typed s action m :
  decode_resolve s = Some (action, m) → valid_utf8 action = true ∧ typed_mission m.
Proof.
  apply (decode_first_inv (λ p, valid_utf8 (fst p) = true ∧ typed_mission (snd p))).
  - intros k v [a m0] p' [Ha Hm] Hv. cbn [fst snd] in *. unfold resolve_field.
    repeat case_bool_decide; [| |by intros [= <-]]; intros (x & Hx & [= <-])%bind_Some; simpl.
    + split; [by eapply into_string_valid|done].
    + split; [done|]. by eapply (into_nested_inv typed_mission); [apply mission_field_typed|..].
  - split; [done|apply zeroMission_typed].
Qed.

Lemma decode_sync_typed s action eventID m :
  decode_sync s = Some (action, eventID, m) → valid_utf8 eventID = true ∧ typed_mission m.
Proof.
  apply (decode_first_inv (λ p, valid_utf8 (snd (fst p)) = true ∧ typed_mission (snd p))).
  - intros k v [[a e] m0] p' [He Hm] Hv. cbn [fst snd] in *. unfold sync_field.
    repeat case_bool_decide; [| | |by intros [= <-]]; intros (x & Hx & [= <-])%bind_Some; simpl.
    + done.
    + split; [by eapply into_string_valid|done].
    + split; [done|]. by eapply (into_nested_inv typed_mission); [apply mission_field_typed|..].
  - split; [done|apply zeroMission_typed].
Qed.
End wire_laws.

(** ** The small bodies *)

Lemma decode_register_round droneID x :
  valid_utf8 droneID = true → decode_register (encode_register droneID +:+ x) = Some droneID.
Proof.
  intros Hd. unfold decode_register, encode_register.
  rewrite (decode_first_object _ _ 0 _ [("drone_id", str_value droneID)]); [done| |done].
  by read_members.
Qed.

Lemma decode_direct_round url x :
  valid_utf8 url = true → decode_direct (encode_direct url +:+ x) = Some url.
Proof.
  intros Hd. unfold decode_direct, encode_direct.
  rewrite (decode_first_object _ _ 0 _ [("direct_url", str_value url)]); [done| |done].
  by read_members.
Qed.

Lemma decode_ack_round eventID droneID x :
  valid_utf8 eventID = true → valid_utf8 droneID = true →
  decode_ack (encode_ack eventID droneID +:+ x) = (eventID, droneID).
Proof.
  intros He Hd. unfold decode_ack, encode_ack.
  rewrite (decode_lax_object _ _ 0 _ [("drone_id", str_value droneID); ("event_id", str_value eventID)]);
    [done| |done].
  by read_members.
Qed.

(** The handlers' own structs read the contract's types: a registration with
    or without an address, an action with or without a reason. *)
Lemma register_contract r x :
  valid_utf8 (rd_DroneID r) = true → valid_utf8 (rd_IP r) = true →
  decode_register (encode_RegisterDroneRequest r +:+ x) = Some (rd_DroneID r).
Proof.
  destruct r as [d ip]. cbn [rd_DroneID rd_IP]. intros Hd Hi.
  unfold decode_register, encode_RegisterDroneRequest, omitempty. cbn [rd_DroneID rd_IP]. case_bool_decide.
  - rewrite (decode_first_object _ _ 0 _ [("drone_id", str_value d)]); [done| |done]. by read_members.
  - rewrite (decode_first_object _ _ 0 _ [("drone_id", str_value d); ("ip", str_value ip)]); [done| |done].
    by read_members.
Qed.

Lemma action_contract r x :
  valid_utf8 (ar_EventID r) = true → valid_utf8 (ar_DroneID r) = true → valid_utf8 (ar_Reason r) = true →
  decode_ack (encode_ActionRequest r +:+ x) = (ar_EventID r, ar_DroneID r).
Proof.
  destruct r as [e d w]. cbn [ar_EventID ar_DroneID ar_Reason]. intros He Hd Hw.
  unfold decode_ack, encode_ActionRequest, omitempty. cbn [ar_EventID ar_DroneID ar_Reason]. case_bool_decide.
  - rewrite (decode_lax_object _ _ 0 _ [("event_id", str_value e); ("drone_id", str_value d)]); [done| |done].
    by read_members.
  - rewrite (decode_lax_object _ _ 0 _
      [("event_id", str_value e); ("drone_id", str_value d); ("reason", str_value w)]); [done| |done].
    by read_members.
Qed.
