(* ===== verification/Keys.v ===== *)
(** * Nation keys and signatures

    The seed of a nation is computed by the same code in three places: the
    ledger's [init] (internal/ledger/app.go), the broker's and the drone's
    [SignTransaction] (cmd/broker/ledger_client.go, cmd/drone/main.go). *)

From S2P Require Import Prelude GoStd Model Interfaces.

Section keys.
Context {ED : Ed25519}.

(** [[]byte(fmt.Sprintf("%-32s", n+"-SECRET-SEED-ORMUZ-2026"))[:32]]. *)
Definition nation_seed {S} (nation : string) : go S string :=
  or_panic SliceBounds (slice_to (pad_right 32 (nation +:+ "-SECRET-SEED-ORMUZ-2026")) 32).

(** The message a signature covers. *)
Definition signed_message (txType nationID eventID : string) : string :=
  txType +:+ nationID +:+ eventID.

(** One turn of the loop of [init] in app.go. *)
Definition authorize (n : string) : go (gmap string string) () :=
  seed ← nation_seed n;
  priv ← NewKeyFromSeed seed;
  modify <[n := EncodeToString (ed_public priv)]>.

Definition init_nations : list string := ["BR"; "FR"; "UK"; "US"].

(** The package variable [AuthorizedKeys] after [init] has run. *)
Definition AuthorizedKeys : gmap string string :=
  go_run (go_for authorize init_nations) ∅.

(** [SignTransaction] of the broker and of the drone. *)
Definition SignTransaction {S} (nationID txType eventID : string) : go S string :=
  seed ← nation_seed nationID;
  privKey ← NewKeyFromSeed seed;
  mret (EncodeToString (ed_sign privKey (signed_message txType nationID eventID))).

(** The seed, once known to exist. *)
Definition seed_of (nation : string) : string :=
  String.substring 0 32 (pad_right 32 (nation +:+ "-SECRET-SEED-ORMUZ-2026")).

Lemma seed_of_length n : String.length (seed_of n) = SeedSize.
Proof. apply substring_0_length, pad_right_length. Qed.

Lemma nation_seed_total {S} n (s : S) : nation_seed n s = (Ret (seed_of n), s).
Proof.
  unfold nation_seed, slice_to, seed_of.
  destruct (Nat.leb_spec 32 (String.length (pad_right 32 (n +:+ "-SECRET-SEED-ORMUZ-2026"))))
    as [_|Hlt]; [done|].
  pose proof (pad_right_length 32 (n +:+ "-SECRET-SEED-ORMUZ-2026")). lia.
Qed.

Lemma NewKeyFromSeed_seed {S} n (s : S) : NewKeyFromSeed (seed_of n) s = (Ret (seed_of n), s).
Proof. unfold NewKeyFromSeed. by rewrite seed_of_length. Qed.

Lemma authorize_total n m :
  authorize n m = (Ret (), <[n := EncodeToString (ed_public (seed_of n))]> m).
Proof.
  unfold authorize. rewrite (go_bind_run _ _ _ _ _ (nation_seed_total n m)).
  by rewrite (go_bind_run _ _ _ _ _ (NewKeyFromSeed_seed n m)).
Qed.

Lemma init_total l m :
  go_for authorize l m =
    (Ret (), foldl (λ m n, <[n := EncodeToString (ed_public (seed_of n))]> m) m l).
Proof.
  revert m. induction l as [|n l IH]; intros m; [done|]. cbn [go_for foldl].
  by rewrite (go_bind_run _ _ _ _ _ (authorize_total n m)).
Qed.

Lemma AuthorizedKeys_lookup n :
  AuthorizedKeys !! n =
    if decide (n ∈ init_nations) then Some (EncodeToString (ed_public (seed_of n))) else None.
Proof.
  unfold AuthorizedKeys, go_run. rewrite init_total. cbn [snd foldl init_nations].
  destruct (decide (n ∈ _)) as [Hn|Hn].
  - unfold init_nations in Hn. rewrite !elem_of_cons, elem_of_nil in Hn.
    destruct Hn as [->|[->|[->|[->|[]]]]]; by simplify_map_eq.
  - unfold init_nations in Hn. rewrite !not_elem_of_cons in Hn.
    destruct Hn as (?&?&?&?&_). by simplify_map_eq.
Qed.

Lemma SignTransaction_total {S} n t e (s : S) :
  SignTransaction n t e s =
    (Ret (EncodeToString (ed_sign (seed_of n) (signed_message t n e))), s).
Proof.
  unfold SignTransaction. rewrite (go_bind_run _ _ _ _ _ (nation_seed_total n s)).
  by rewrite (go_bind_run _ _ _ _ _ (NewKeyFromSeed_seed n s)).
Qed.
End keys.

(** For every nation name, of any length and any bytes, the padded seed is
    long enough for the slice and has the size [NewKeyFromSeed] insists on:
    neither the ledger's [init] nor [SignTransaction] can panic, and the four
    nations end up with the public half of the key their brokers sign with. *)
Lemma keys_total `{!Ed25519} (nation txType eventID : string) (s : ()) :
  (∃ sig, SignTransaction nation txType eventID s = (Ret sig, s)) ∧
  fst (go_for authorize init_nations ∅) = Ret () ∧
  (∀ n, n ∈ init_nations →
     AuthorizedKeys !! n = Some (EncodeToString (ed_public (seed_of n)))) ∧
  (∀ n, n ∉ init_nations → AuthorizedKeys !! n = None).
Proof.
  split_and!.
  - eexists. apply SignTransaction_total.
  - by rewrite init_total.
  - intros n Hn. rewrite AuthorizedKeys_lookup. by rewrite decide_True.
  - intros n Hn. rewrite AuthorizedKeys_lookup. by rewrite decide_False.
Qed.
