(* ===== verification/LedgerApp.v ===== *)
(** * The ledger's state machine (internal/ledger/app.go)

    [OrmuzLedgerApp] keeps its whole state in the store: [balance:<nation>],
    [processed:<type>_<event>] and [report:<type>_<event>].  The ABCI methods
    are functions on the store in the [go] monad, because a log line may panic
    after a write. *)

From stdpp Require Import sorting.
From S2P Require Import Prelude GoStd Model Interfaces Keys.

(** ** ABCI responses *)

Record CheckTxResponse : Type := mkCheckTx { ct_Code : Z; ct_Log : string }.
Record ExecTxResult : Type := mkExecTx { ex_Code : Z; ex_Log : string }.
Record QueryResponse : Type := mkQuery { q_Code : Z; q_Value : string; q_Log : string }.
Record FinalizeBlockResponse : Type := mkFinalize {
  fb_TxResults : list ExecTxResult;
  fb_AppHash : string;
}.

(** ** Keys of the store *)

Definition balance_key (nation : string) : string := "balance:" +:+ nation.
(** [fmt.Sprintf("%s_%s", tx.Type, tx.EventID)]. *)
Definition tx_tag (txType eventID : string) : string := txType +:+ "_" +:+ eventID.
Definition processed_key (tag : string) : string := "processed:" +:+ tag.
Definition report_key (tag : string) : string := "report:" +:+ tag.

Definition SPEND_CREDIT : string := "SPEND_CREDIT".
Definition SAVE_REPORT : string := "SAVE_REPORT".

Section app.
Context {DB : Type} `{!LevelDB DB} {ED : Ed25519} {TC : TxCodec}.

(** ** Construction *)

Definition seed_balance (n : string) : go DB () :=
  db ← get;
  if db_Has (balance_key n) db then mret ()
  else modify (db_Put (balance_key n) "1000").

(** [NewOrmuzLedgerApp] on the store it opened. *)
Definition NewOrmuzLedgerApp : go DB () := go_for seed_balance ["BR"; "UK"; "FR"; "US"].

(** ** CheckTx *)

Definition CheckTx (txBytes : string) : go DB CheckTxResponse :=
  match Unmarshal_tx txBytes with
  | None => mret (mkCheckTx 1 "JSON malformado")
  | Some tx =>
    if bool_decide (tx_Type tx = SPEND_CREDIT) then
      db ← get;
      match db_Get (balance_key (tx_NationID tx)) db with
      | None => mret (mkCheckTx 2 "Nação não reconhecida")
      | Some balanceBytes =>
        if (fst (Atoi balanceBytes) <=? 0)%Z then mret (mkCheckTx 3 "Saldo insuficiente")
        else mret (mkCheckTx 0 "")
      end
    else mret (mkCheckTx 0 "")
  end.

(** ** FinalizeBlock *)

(** [eventID[:8]] in a log line. *)
Definition log_event (eventID : string) : go DB string :=
  or_panic SliceBounds (slice_to eventID 8).

(** The bytes of [db.Get] when the error is dropped. *)
Definition get_or_empty (k : string) : go DB string :=
  db ← get; mret (default "" (db_Get k db)).

Definition debit (tx : Transaction) : go DB () :=
  balanceBytes ← get_or_empty (balance_key (tx_NationID tx));
  let newBalance := wrap64 (fst (Atoi balanceBytes) - 1) in
  modify (db_Put (balance_key (tx_NationID tx)) (Itoa newBalance)) ;;
  log_event (tx_EventID tx) ;;
  mret ().

(** Parts 2 to 4 of the loop body, for a transaction whose signature holds. *)
Definition apply_tx (tx : Transaction) (txBytes : string) : go DB ExecTxResult :=
  let tag := tx_tag (tx_Type tx) (tx_EventID tx) in
  db ← get;
  if db_Has (processed_key tag) db then
    log_event (tx_EventID tx) ;;
    mret (mkExecTx 5 "Transação já processada")
  else
    (if bool_decide (tx_Type tx = SPEND_CREDIT) then debit tx
     else if bool_decide (tx_Type tx = SAVE_REPORT) then log_event (tx_EventID tx) ;; mret ()
     else mret ()) ;;
    modify (db_Put (processed_key tag) "true") ;;
    modify (db_Put (report_key tag) txBytes) ;;
    mret (mkExecTx 0 "").

(** The loop body. *)
Definition exec_tx (txBytes : string) : go DB ExecTxResult :=
  match Unmarshal_tx txBytes with
  | None => mret (mkExecTx 1 "Falha no parse")
  | Some tx =>
    match AuthorizedKeys !! tx_NationID tx with
    | None => mret (mkExecTx 2 "Nação não autorizada")
    | Some pubKeyHex =>
      match DecodeString pubKeyHex, DecodeString (tx_Signature tx) with
      | Some pubKeyBytes, Some sigBytes =>
        if negb (Nat.eqb (String.length sigBytes) SignatureSize)
        then mret (mkExecTx 3 "Assinatura corrompida")
        else
          ok ← Verify pubKeyBytes
                 (signed_message (tx_Type tx) (tx_NationID tx) (tx_EventID tx)) sigBytes;
          if negb ok then
            log_event (tx_EventID tx) ;;
            mret (mkExecTx 4 "Falsificação criptográfica")
          else apply_tx tx txBytes
      | _, _ => mret (mkExecTx 3 "Assinatura corrompida")
      end
    end
  end.

Definition FinalizeBlock (txs : list string) : go DB FinalizeBlockResponse :=
  txResults ← go_map exec_tx txs;
  mret (mkFinalize txResults "").

(** [Commit] does nothing: every write was made by [FinalizeBlock]. *)
Definition Commit : go DB () := mret ().

(** ** Query *)

(** What [json.Marshal(state)] makes of the two maps. *)
Context (Marshal_state : gmap string Z → gmap string string → string).

(** [strings.Split(key, ":")[1]]. *)
Definition key_part (key : string) : go DB string :=
  or_panic IndexRange (Split key ":" !! 1%nat).

(** One turn of the iteration over the store. *)
Definition collect (acc : gmap string Z * gmap string string) (kv : string * string) :
    go DB (gmap string Z * gmap string string) :=
  let '(balances, reports) := acc in
  let '(key, val) := kv in
  if HasPrefix key "balance:" then
    nation ← key_part key;
    mret (<[nation := fst (Atoi val)]> balances, reports)
  else if HasPrefix key "report:" then
    eventID ← key_part key;
    mret (balances, <[eventID := val]> reports)
  else mret (balances, reports).

Fixpoint collect_all (acc : gmap string Z * gmap string string) (l : list (string * string)) :
    go DB (gmap string Z * gmap string string) :=
  match l with
  | [] => mret acc
  | kv :: l => acc' ← collect acc kv; collect_all acc' l
  end.

Definition Query (path : string) : go DB QueryResponse :=
  db ← get;
  if bool_decide (path = "state") then
    '(balances, reports) ← collect_all (∅, ∅) (db_Iter db);
    mret (mkQuery 0 (Marshal_state balances reports) "")
  else
    match Split path "/" with
    | [p0; nation] =>
      if bool_decide (p0 = "balance") then
        match db_Get (balance_key nation) db with
        | None => mret (mkQuery 1 "" "Não encontrado")
        | Some balanceBytes => mret (mkQuery 0 balanceBytes "")
        end
      else mret (mkQuery 1 "" "Rota não suportada")
    | _ => mret (mkQuery 1 "" "Rota não suportada")
    end.
End app.
