(* ===== verification/LedgerSpec.v ===== *)
(** * What the ledger promises, and the lemmas that connect it to the code

    [auth_code] is the verdict on a signature stated without the key table;
    [AbsLedger] is the ledger as balances and an archive, with [abs_exec] its
    only operation.  The section ends with the case analysis of [exec_tx]
    every theorem of LedgerProps.v starts from. *)

From stdpp Require Import sorting.
From S2P Require Import Prelude GoStd Model Interfaces Keys LedgerApp.

(** ** Keys never collide across prefixes *)

Lemma balance_processed n t : balance_key n ≠ processed_key t.
Proof. by apply clash_app_ne. Qed.
Lemma balance_report n t : balance_key n ≠ report_key t.
Proof. by apply clash_app_ne. Qed.
Lemma processed_report t u : processed_key t ≠ report_key u.
Proof. by apply clash_app_ne. Qed.

#[export] Instance balance_key_inj : Inj (=) (=) balance_key.
Proof. intros x y. apply str_app_inj_l. Qed.
#[export] Instance processed_key_inj : Inj (=) (=) processed_key.
Proof. intros x y. apply str_app_inj_l. Qed.
#[export] Instance report_key_inj : Inj (=) (=) report_key.
Proof. intros x y. apply str_app_inj_l. Qed.

#[export] Hint Resolve balance_processed balance_report processed_report : ormuz.

(** Decide the reads of a store after writes under the three prefixes. *)
Ltac db_simpl :=
  repeat match goal with
  | |- context [db_Get _ (db_Put _ _ _)] => rewrite Get_Put; case_decide
  | H : context [db_Get _ (db_Put _ _ _)] |- _ => rewrite Get_Put in H; case_decide
  | H : balance_key _ = balance_key _ |- _ => apply (inj balance_key) in H; subst
  | H : processed_key _ = processed_key _ |- _ => apply (inj processed_key) in H; subst
  | H : report_key _ = report_key _ |- _ => apply (inj report_key) in H; subst
  | H : balance_key _ = processed_key _ |- _ => by destruct (balance_processed _ _ H)
  | H : processed_key _ = balance_key _ |- _ => by destruct (balance_processed _ _ (eq_sym H))
  | H : balance_key _ = report_key _ |- _ => by destruct (balance_report _ _ H)
  | H : report_key _ = balance_key _ |- _ => by destruct (balance_report _ _ (eq_sym H))
  | H : processed_key _ = report_key _ |- _ => by destruct (processed_report _ _ H)
  | H : report_key _ = processed_key _ |- _ => by destruct (processed_report _ _ (eq_sym H))
  end; try congruence.

Section spec.
Context {DB : Type} `{!LevelDB DB} {ED : Ed25519} {TC : TxCodec}.

(** ** Verdict on a signature *)

Definition auth_code (tx : Transaction) : Z :=
  if decide (tx_NationID tx ∈ init_nations) then
    match DecodeString (tx_Signature tx) with
    | Some sig =>
      if Nat.eqb (String.length sig) SignatureSize then
        if ed_verify (ed_public (seed_of (tx_NationID tx)))
             (signed_message (tx_Type tx) (tx_NationID tx) (tx_EventID tx)) sig
        then 0 else 4
      else 3
    | None => 3
    end
  else 2.

Definition reject_log (code : Z) : string :=
  if (code =? 2)%Z then "Nação não autorizada" else "Assinatura corrompida".

Definition tag_of (tx : Transaction) : string := tx_tag (tx_Type tx) (tx_EventID tx).

(** ** The stores a transaction can leave *)

Definition balance_of (n : string) (db : DB) : Z :=
  fst (Atoi (default "" (db_Get (balance_key n) db))).

Definition debit_db (tx : Transaction) (db : DB) : DB :=
  db_Put (balance_key (tx_NationID tx)) (Itoa (wrap64 (balance_of (tx_NationID tx) db - 1))) db.

Definition accept_db (tx : Transaction) (txBytes : string) (db : DB) : DB :=
  db_Put (report_key (tag_of tx)) txBytes
    (db_Put (processed_key (tag_of tx)) "true"
       (if bool_decide (tx_Type tx = SPEND_CREDIT) then debit_db tx db else db)).

(** Does the log line of the type's branch exist? *)
Definition known_type (t : string) : bool :=
  bool_decide (t = SPEND_CREDIT) || bool_decide (t = SAVE_REPORT).

Definition long_id (e : string) : bool := Nat.leb 8 (String.length e).

Lemma log_event_eq e (db : DB) :
  log_event e db =
    (if long_id e then Ret (String.substring 0 8 e) else Panic SliceBounds, db).
Proof. unfold log_event, slice_to, long_id. by destruct (Nat.leb 8 (String.length e)). Qed.

Lemma debit_eq tx (db : DB) :
  debit tx db = (if long_id (tx_EventID tx) then Ret () else Panic SliceBounds, debit_db tx db).
Proof.
  unfold debit, get_or_empty. go_unfold. fold (balance_of (tx_NationID tx) db).
  fold (debit_db tx db). rewrite log_event_eq. by destruct (long_id _).
Qed.

Lemma apply_tx_eq tx txBytes (db : DB) :
  apply_tx tx txBytes db =
    if db_Has (processed_key (tag_of tx)) db then
      (if long_id (tx_EventID tx) then Ret (mkExecTx 5 "Transação já processada")
       else Panic SliceBounds, db)
    else if long_id (tx_EventID tx) || negb (known_type (tx_Type tx)) then
      (Ret (mkExecTx 0 ""), accept_db tx txBytes db)
    else
      (Panic SliceBounds,
       if bool_decide (tx_Type tx = SPEND_CREDIT) then debit_db tx db else db).
Proof.
  unfold apply_tx, known_type, accept_db. go_unfold. fold (tag_of tx).
  destruct (db_Has _ db).
  { rewrite log_event_eq. by destruct (long_id _). }
  destruct (decide (tx_Type tx = SPEND_CREDIT)) as [Hs|Hs].
  { rewrite !(bool_decide_eq_true_2 _ Hs), debit_eq. by destruct (long_id _). }
  rewrite !(bool_decide_eq_false_2 _ Hs).
  destruct (decide (tx_Type tx = SAVE_REPORT)) as [Hr|Hr].
  { rewrite !(bool_decide_eq_true_2 _ Hr), log_event_eq. by destruct (long_id _). }
  rewrite !(bool_decide_eq_false_2 _ Hr). simpl. by rewrite orb_true_r.
Qed.

Context {EL : Ed25519Laws}.

Lemma exec_tx_eq txBytes (db : DB) :
  exec_tx txBytes db =
    match Unmarshal_tx txBytes with
    | None => (Ret (mkExecTx 1 "Falha no parse"), db)
    | Some tx =>
      if (auth_code tx =? 0)%Z then apply_tx tx txBytes db
      else if (auth_code tx =? 4)%Z then
        (if long_id (tx_EventID tx) then Ret (mkExecTx 4 "Falsificação criptográfica")
         else Panic SliceBounds, db)
      else (Ret (mkExecTx (auth_code tx) (reject_log (auth_code tx))), db)
    end.
Proof.
  unfold exec_tx. destruct (Unmarshal_tx txBytes) as [tx|]; [|done].
  rewrite AuthorizedKeys_lookup. unfold auth_code.
  destruct (decide (tx_NationID tx ∈ init_nations)); [|done].
  rewrite Decode_EncodeToString. destruct (DecodeString (tx_Signature tx)) as [sig|]; [|done].
  destruct (Nat.eqb (String.length sig) SignatureSize); cbn [negb]; [|done].
  unfold Verify. rewrite ed_public_size by apply seed_of_length.
  rewrite Nat.eqb_refl. go_unfold. destruct (ed_verify _ _ _); [done|]. cbn [negb].
  rewrite log_event_eq. by destruct (long_id _).
Qed.

Lemma auth_code_cases tx :
  auth_code tx = 0%Z ∨ auth_code tx = 2%Z ∨ auth_code tx = 3%Z ∨ auth_code tx = 4%Z.
Proof. unfold auth_code. repeat case_match; auto. Qed.

(** A transaction that got past the signature check. *)
Definition authentic (txBytes : string) (tx : Transaction) : Prop :=
  Unmarshal_tx txBytes = Some tx ∧ auth_code tx = 0%Z.

(** The four ways a transaction ends: rejected without a write, accepted, or
    a panic with or without the debit already written. *)
Lemma exec_tx_cases txBytes (db : DB) :
  (∃ r, exec_tx txBytes db = (Ret r, db) ∧ ex_Code r ≠ 0%Z) ∨
  (∃ tx, authentic txBytes tx ∧ db_Has (processed_key (tag_of tx)) db = false ∧
     exec_tx txBytes db = (Ret (mkExecTx 0 ""), accept_db tx txBytes db)) ∨
  exec_tx txBytes db = (Panic SliceBounds, db) ∨
  (∃ tx, authentic txBytes tx ∧ db_Has (processed_key (tag_of tx)) db = false ∧
     tx_Type tx = SPEND_CREDIT ∧ long_id (tx_EventID tx) = false ∧
     exec_tx txBytes db = (Panic SliceBounds, debit_db tx db)).
Proof.
  rewrite exec_tx_eq. destruct (Unmarshal_tx txBytes) as [tx|] eqn:Et; [|left; by eexists].
  destruct (Z.eqb_spec (auth_code tx) 0) as [E0|N0].
  - rewrite apply_tx_eq. destruct (db_Has _ db) eqn:Eh.
    { destruct (long_id _); [left; by eexists|auto]. }
    destruct (long_id (tx_EventID tx) || negb (known_type (tx_Type tx))) eqn:El.
    { right; left. exists tx. by split_and!. }
    apply orb_false_iff in El as [El _]. case_bool_decide as Es; [|auto].
    do 3 right. exists tx. by split_and!.
  - destruct (Z.eqb_spec (auth_code tx) 4) as [E4|N4].
    + destruct (long_id _); [left; by eexists|auto].
    + left. eexists. split; [done|]. done.
Qed.

(** ** The abstract ledger *)

Record AbsLedger : Type := mkAbs {
  a_balance : gmap string Z;
  a_archive : gmap string string;
}.

Definition abs_exec (a : AbsLedger) (txBytes : string) : Z * AbsLedger :=
  match Unmarshal_tx txBytes with
  | None => (1%Z, a)
  | Some tx =>
    if (auth_code tx =? 0)%Z then
      match a_archive a !! tag_of tx with
      | Some _ => (5%Z, a)
      | None =>
        (0%Z, mkAbs (if bool_decide (tx_Type tx = SPEND_CREDIT)
                     then alter (λ b, b - 1)%Z (tx_NationID tx) (a_balance a) else a_balance a)
                (<[tag_of tx := txBytes]> (a_archive a)))
      end
    else (auth_code tx, a)
  end.

Fixpoint abs_run (a : AbsLedger) (txs : list string) : list Z * AbsLedger :=
  match txs with
  | [] => ([], a)
  | t :: txs =>
    let '(c, a1) := abs_exec a t in
    let '(cs, a2) := abs_run a1 txs in (c :: cs, a2)
  end.

Definition genesis : AbsLedger :=
  mkAbs (<["BR":=1000%Z]> (<["UK":=1000%Z]> (<["FR":=1000%Z]> (<["US":=1000%Z]> ∅)))) ∅.

(** The store holds the abstract ledger. *)
Record ledger_rel (db : DB) (a : AbsLedger) : Prop := mkRel {
  rel_balance n : n ∈ init_nations →
    ∃ b, a_balance a !! n = Some b ∧ is_int64 b ∧ db_Get (balance_key n) db = Some (Itoa b);
  rel_report tag : db_Get (report_key tag) db = a_archive a !! tag;
  rel_processed tag : is_Some (db_Get (processed_key tag) db) ↔ is_Some (a_archive a !! tag);
}.

(** Every decodable transaction of the list names an event of at least eight
    bytes, as every identifier the sensors generate does. *)
Definition long_ids (txs : list string) : Prop :=
  Forall (λ t, ∀ tx, Unmarshal_tx t = Some tx → long_id (tx_EventID tx) = true) txs.

(** Room for [k] more debits before the 64-bit balance underflows. *)
Definition can_debit (a : AbsLedger) (k : nat) : Prop :=
  ∀ n b, a_balance a !! n = Some b → (min_int64 + Z.of_nat k ≤ b)%Z.
End spec.

Arguments AbsLedger : clear implicits.
