(* ===== verification/LedgerProps.v ===== *)
(** * Lemmas about the ledger

    One transaction and a run of transactions against the abstract ledger,
    what a run accepts, the invariant of the archive, executing again, and the
    panics.  LedgerTheorems.v draws the properties from them. *)

From stdpp Require Import sorting.
From S2P Require Import Prelude GoStd Model Interfaces Keys LedgerApp LedgerSpec.

Section lemmas.
Context {DB : Type} `{!LevelDB DB, !LevelDBLaws DB} {ED : Ed25519} {EL : Ed25519Laws}
  {TC : TxCodec}.
Implicit Types db : DB.

(** ** One transaction against the abstract ledger *)

Lemma balance_of_Itoa n db b :
  is_int64 b → db_Get (balance_key n) db = Some (Itoa b) → balance_of n db = b.
Proof. intros Hb E. unfold balance_of. rewrite E. simpl. by rewrite Atoi_Itoa. Qed.

Lemma accept_balance tx t db n :
  db_Get (balance_key n) (accept_db tx t db) =
    if bool_decide (tx_Type tx = SPEND_CREDIT ∧ tx_NationID tx = n)
    then Some (Itoa (wrap64 (balance_of n db - 1))) else db_Get (balance_key n) db.
Proof.
  unfold accept_db, debit_db. do 2 case_bool_decide; destruct_and?; db_simpl; naive_solver.
Qed.

Lemma accept_processed tx t db tag :
  db_Get (processed_key tag) (accept_db tx t db) =
    if decide (tag_of tx = tag) then Some "true" else db_Get (processed_key tag) db.
Proof. unfold accept_db, debit_db. case_bool_decide; db_simpl; repeat case_decide; congruence. Qed.

Lemma accept_report tx t db tag :
  db_Get (report_key tag) (accept_db tx t db) =
    if decide (tag_of tx = tag) then Some t else db_Get (report_key tag) db.
Proof. unfold accept_db, debit_db. case_bool_decide; db_simpl; repeat case_decide; congruence. Qed.

Lemma rel_has db a tag :
  ledger_rel db a → db_Has (processed_key tag) db = bool_decide (is_Some (a_archive a !! tag)).
Proof.
  intros H. destruct (db_Has _ db) eqn:E; symmetry.
  - apply bool_decide_eq_true, (rel_processed _ _ H). by apply Has_Get.
  - apply bool_decide_eq_false. rewrite <- (rel_processed _ _ H), <- Has_Get. congruence.
Qed.

Lemma rel_accept db a t tx :
  ledger_rel db a → authentic t tx → can_debit a 1 → a_archive a !! tag_of tx = None →
  ledger_rel (accept_db tx t db) (snd (abs_exec a t)).
Proof.
  intros H [Et Ea] Hroom Hnone. unfold abs_exec. rewrite Et, Ea, Hnone. simpl.
  split; [|intros tag..]; cbn [a_balance a_archive].
  - intros n Hn. destruct (rel_balance _ _ H n Hn) as (b & Eb & Hb & Ed).
    rewrite accept_balance.
    destruct (decide (tx_Type tx = SPEND_CREDIT)) as [Hs|Hs];
      [rewrite (bool_decide_eq_true_2 _ Hs)|rewrite (bool_decide_eq_false_2 _ Hs)].
    + destruct (decide (tx_NationID tx = n)) as [<-|Hn'].
      * rewrite bool_decide_eq_true_2 by done.
        rewrite (balance_of_Itoa _ _ b Hb Ed), lookup_alter_eq, Eb.
        pose proof (Hroom _ _ Eb). exists (b - 1)%Z. unfold is_int64 in *.
        rewrite wrap64_id by (unfold is_int64; lia). split_and!; [done|lia|lia|done].
      * rewrite bool_decide_eq_false_2 by (by intros [? ?]). rewrite lookup_alter_ne by done. by exists b.
    + rewrite bool_decide_eq_false_2 by (by intros [? ?]). by exists b.
  - rewrite accept_report, lookup_insert. case_decide; [done|]. apply (rel_report _ _ H).
  - rewrite accept_processed, lookup_insert. case_decide; [done|]. apply (rel_processed _ _ H).
Qed.

Lemma exec_refines t db a :
  ledger_rel db a → can_debit a 1 →
  (∀ tx, Unmarshal_tx t = Some tx → long_id (tx_EventID tx) = true) →
  ∃ r db', exec_tx t db = (Ret r, db') ∧ ex_Code r = fst (abs_exec a t) ∧
           ledger_rel db' (snd (abs_exec a t)).
Proof.
  intros H Hroom Hlong. rewrite exec_tx_eq.
  destruct (Unmarshal_tx t) as [tx|] eqn:Et; [|unfold abs_exec; rewrite Et; by eexists _, _].
  specialize (Hlong tx eq_refl).
  destruct (Z.eqb_spec (auth_code tx) 0) as [E0|N0].
  - rewrite apply_tx_eq, Hlong, (rel_has _ a) by done. simpl.
    destruct (a_archive a !! tag_of tx) eqn:Ea.
    + rewrite bool_decide_eq_true_2 by done. eexists _, _. split; [done|].
      unfold abs_exec. by rewrite Et, E0, Ea.
    + rewrite bool_decide_eq_false_2 by (by intros [? ?]). eexists _, _. split; [done|].
      split; [unfold abs_exec; by rewrite Et, E0, Ea|]. by apply rel_accept.
  - unfold abs_exec. rewrite Et. pose proof (proj2 (Z.eqb_neq _ _) N0) as ->.
    destruct (Z.eqb_spec (auth_code tx) 4) as [E4|]; [rewrite Hlong|]; by eexists _, _.
Qed.

Lemma can_debit_step a t k : can_debit a (S k) → can_debit (snd (abs_exec a t)) k.
Proof.
  intros H n b. unfold abs_exec.
  assert (∀ n b, a_balance a !! n = Some b → (min_int64 + Z.of_nat k ≤ b)%Z) as Hw
    by (intros m c Hm; specialize (H _ _ Hm); lia).
  destruct (Unmarshal_tx t) as [tx|]; [|apply Hw].
  destruct (auth_code tx =? 0)%Z; [|apply Hw].
  destruct (a_archive a !! tag_of tx); [apply Hw|]. simpl. case_bool_decide; [|apply Hw].
  rewrite lookup_alter. case_decide; [|apply Hw].
  intros (c & Hc & ->)%fmap_Some. specialize (H _ _ Hc). simpl. lia.
Qed.

Lemma can_debit_le a k k' : (k' ≤ k)%nat → can_debit a k → can_debit a k'.
Proof. intros Hk H n b Hb. specialize (H n b Hb). lia. Qed.

Lemma run_refines txs db a :
  ledger_rel db a → can_debit a (length txs) → long_ids txs →
  ∃ rs db', go_map exec_tx txs db = (Ret rs, db') ∧
            ex_Code <$> rs = fst (abs_run a txs) ∧ ledger_rel db' (snd (abs_run a txs)).
Proof.
  revert db a. induction txs as [|t txs IH]; intros db a H Hroom Hlong; [by exists [], db|].
  apply Forall_cons in Hlong as [Ht Hlong].
  destruct (exec_refines t db a) as (r & db1 & E1 & Ec & H1); [done| |done|].
  { eapply can_debit_le; [|exact Hroom]. simpl. lia. }
  destruct (IH db1 (snd (abs_exec a t)) H1) as (rs & db2 & E2 & Ecs & H2);
    [by apply can_debit_step|done|].
  exists (r :: rs), db2. split; [by eapply go_map_cons|].
  cbn [abs_run]. destruct (abs_exec a t) as [c a1]. cbn [fst snd] in *.
  destruct (abs_run a1 txs) as [cs a2]. cbn [fst snd] in *.
  rewrite fmap_cons. by rewrite Ec, Ecs.
Qed.

(** ** Genesis *)

Lemma seed_balance_eq n db :
  seed_balance n db =
    (Ret (), if db_Has (balance_key n) db then db else db_Put (balance_key n) "1000" db).
Proof. unfold seed_balance. go_unfold. by destruct (db_Has _ db). Qed.

Lemma genesis_rel db :
  (∀ k, db_Get k db = None) → ledger_rel (go_run NewOrmuzLedgerApp db) genesis.
Proof.
  intros Hempty. unfold NewOrmuzLedgerApp, go_run. cbn [go_for].
  repeat (rewrite (go_bind_run _ _ _ _ _ (seed_balance_eq _ _))). cbn [mret go_mret snd].
  rewrite (proj2 (Has_false (balance_key "BR") db)) by apply Hempty.
  rewrite (proj2 (Has_false (balance_key "UK") _)) by (db_simpl; apply Hempty).
  rewrite (proj2 (Has_false (balance_key "FR") _)) by (db_simpl; apply Hempty).
  rewrite (proj2 (Has_false (balance_key "US") _)) by (db_simpl; apply Hempty).
  split; [|intros tag..].
  - intros n Hn. exists 1000%Z.
    assert (is_int64 1000) as H64 by (unfold is_int64, min_int64, max_int64; lia).
    change (Itoa 1000) with "1000". unfold init_nations in Hn. unfold genesis. cbn [a_balance].
    rewrite !elem_of_cons, elem_of_nil in Hn.
    destruct Hn as [->|[->|[->|[->|[]]]]]; (split_and!; [by simplify_map_eq|done|by db_simpl]).
  - simpl. rewrite lookup_empty. by db_simpl.
  - simpl. rewrite lookup_empty. db_simpl; by rewrite ?Hempty.
Qed.
(** Two stores that agree on what is marked give the same answer, and a
    relation between them that every write keeps is kept. *)
Lemma exec_rel (R : DB → DB → Prop) t d1 d2 :
  (∀ d1 d2 tag, R d1 d2 → db_Has (processed_key tag) d1 = db_Has (processed_key tag) d2) →
  (∀ d1 d2 tx, R d1 d2 → db_Has (processed_key (tag_of tx)) d1 = false →
     R (debit_db tx d1) (debit_db tx d2) ∧ R (accept_db tx t d1) (accept_db tx t d2)) →
  R d1 d2 →
  fst (exec_tx t d1) = fst (exec_tx t d2) ∧ R (snd (exec_tx t d1)) (snd (exec_tx t d2)).
Proof.
  intros Hhas Hw H. rewrite !exec_tx_eq. destruct (Unmarshal_tx t) as [tx|]; [|done].
  destruct (auth_code tx =? 0)%Z; [|by destruct (auth_code tx =? 4)%Z].
  rewrite !apply_tx_eq, <- (Hhas d1 d2 _ H).
  destruct (db_Has _ d1) eqn:E; [done|]. destruct (Hw d1 d2 tx H E). case_match; [done|].
  split; [done|]. cbn [snd]. by case_bool_decide.
Qed.

(** ** What a list of results accepted *)

Lemma FinalizeBlock_eq txs db :
  FinalizeBlock txs db =
    match go_map exec_tx txs db with
    | (Ret rs, db') => (Ret (mkFinalize rs ""), db')
    | (Panic p, db') => (Panic p, db')
    end.
Proof. unfold FinalizeBlock. go_unfold. by destruct (go_map exec_tx txs db) as [[] ?]. Qed.

Lemma FinalizeBlock_run txs db : go_run (FinalizeBlock txs) db = go_run (go_map exec_tx txs) db.
Proof. unfold go_run. rewrite FinalizeBlock_eq. by destruct (go_map exec_tx txs db) as [[] ?]. Qed.

(** The transactions of a block that got code 0. *)
Fixpoint accepted (txs : list string) (codes : list Z) : list Transaction :=
  match txs, codes with
  | t :: txs, c :: codes =>
    match (if (c =? 0)%Z then Unmarshal_tx t else None) with
    | Some tx => tx :: accepted txs codes
    | None => accepted txs codes
    end
  | _, _ => []
  end.

(** Accepted payments of a nation. *)
Definition spent (n : string) (l : list Transaction) : Z :=
  Z.of_nat (length (filter (λ tx, tx_Type tx = SPEND_CREDIT ∧ tx_NationID tx = n) l)).

Lemma spent_cons n tx l :
  spent n (tx :: l) =
    ((if bool_decide (tx_Type tx = SPEND_CREDIT ∧ tx_NationID tx = n) then 1 else 0)
     + spent n l)%Z.
Proof. unfold spent. rewrite filter_cons. case_decide; case_bool_decide; simpl; [lia|tauto|tauto|lia]. Qed.

Lemma abs_exec_balance a t n c a' :
  abs_exec a t = (c, a') →
  a_balance a' !! n =
    (λ b, b - spent n (accepted [t] [c]))%Z <$> (a_balance a !! n).
Proof.
  assert (∀ m : option Z, m = (λ b, b - 0)%Z <$> m) as E0
    by (intros [b|]; [simpl; f_equal; lia|done]).
  unfold abs_exec, accepted. destruct (Unmarshal_tx t) as [tx|]; [|by intros [= <- <-]].
  destruct (Z.eqb_spec (auth_code tx) 0) as [Ea|Ha].
  - destruct (a_archive a !! tag_of tx); [by intros [= <- <-]|]. intros [= <- <-]. simpl.
    rewrite spent_cons. unfold spent at 1. cbn [filter list_filter length Z.of_nat].
    case_bool_decide as Hs; case_bool_decide as Hn; try (by destruct Hn); simpl.
    + destruct Hn as [_ <-]. rewrite lookup_alter_eq. destruct (a_balance a !! _); simpl; [f_equal; lia|done].
    + rewrite lookup_alter_ne by tauto. apply E0.
    + apply E0.
  - intros [= <- <-]. rewrite (proj2 (Z.eqb_neq _ _) Ha). apply E0.
Qed.

Lemma abs_run_balance txs a n :
  a_balance (snd (abs_run a txs)) !! n =
    (λ b, b - spent n (accepted txs (fst (abs_run a txs))))%Z <$> (a_balance a !! n).
Proof.
  revert a. induction txs as [|t txs IH]; intros a.
  { simpl. destruct (a_balance a !! n); [simpl; f_equal; unfold spent; simpl; lia|done]. }
  cbn [abs_run]. destruct (abs_exec a t) as [c a1] eqn:E1.
  specialize (IH a1). destruct (abs_run a1 txs) as [cs a2]. cbn [fst snd accepted] in *.
  rewrite IH, (abs_exec_balance a t n c a1 E1). cbn [accepted].
  destruct (if (c =? 0)%Z then Unmarshal_tx t else None); rewrite ?spent_cons;
    destruct (a_balance a !! n); simpl; f_equal; unfold spent; simpl; lia.
Qed.

(** A chain of blocks. *)
Definition run_chain (blocks : list (list string)) : go DB (list FinalizeBlockResponse) :=
  go_map FinalizeBlock blocks.

Definition response_codes (r : FinalizeBlockResponse) : list Z := ex_Code <$> fb_TxResults r.

Lemma run_chain_concat blocks db rs db' :
  go_map exec_tx (concat blocks) db = (Ret rs, db') →
  ∃ resps, run_chain blocks db = (Ret resps, db') ∧
           concat (response_codes <$> resps) = ex_Code <$> rs.
Proof.
  revert db rs. unfold run_chain. induction blocks as [|b blocks IH]; intros db rs H; simpl in H.
  - injection H as <- <-. by exists [].
  - rewrite go_map_app in H. apply go_bind_Ret in H as (rs1 & db1 & E1 & H).
    apply go_bind_Ret in H as (rs2 & db2 & E2 & H). apply go_ret_inv in H as [<- <-].
    destruct (IH _ _ E2) as (resps & E & Ec). exists (mkFinalize rs1 "" :: resps). split.
    + eapply go_map_cons; [|exact E]. by rewrite FinalizeBlock_eq, E1.
    + rewrite fmap_cons, fmap_app, <- Ec. done.
Qed.

(** ** Invariants of a store under the loop *)

(** Every archived event is marked as processed. *)
Definition archive_ok db : Prop :=
  ∀ tag, is_Some (db_Get (report_key tag) db) → db_Has (processed_key tag) db = true.

Lemma rel_archive_ok db a : ledger_rel db a → archive_ok db.
Proof.
  intros H tag Hs. rewrite (rel_report _ _ H) in Hs. apply (rel_processed _ _ H) in Hs.
  by apply Has_Get.
Qed.

Lemma debit_report tx db tag : db_Get (report_key tag) (debit_db tx db) = db_Get (report_key tag) db.
Proof. unfold debit_db. db_simpl. Qed.

Lemma debit_processed tx db tag :
  db_Has (processed_key tag) (debit_db tx db) = db_Has (processed_key tag) db.
Proof.
  destruct (db_Has _ db) eqn:E.
  - apply Has_Get in E. apply Has_Get. unfold debit_db. by db_simpl.
  - apply Has_false in E. apply Has_false. unfold debit_db. by db_simpl.
Qed.

Lemma accept_has tx t db tag :
  db_Has (processed_key tag) (accept_db tx t db) = (bool_decide (tag_of tx = tag) || db_Has (processed_key tag) db).
Proof.
  destruct (bool_decide (tag_of tx = tag) || db_Has (processed_key tag) db) eqn:E.
  - apply Has_Get. rewrite accept_processed. case_decide; [done|].
    rewrite bool_decide_eq_false_2 in E by done. by apply Has_Get.
  - apply orb_false_iff in E as [Ed Eh]. apply bool_decide_eq_false in Ed.
    apply Has_false. rewrite accept_processed, decide_False by done. by apply Has_false.
Qed.

Lemma exec_archive_ok t db : archive_ok db → archive_ok (snd (exec_tx t db)).
Proof.
  intros Hok. destruct (exec_tx_cases t db) as
    [(r & -> & _)|[(tx & _ & Hn & ->)|[->|(tx & _ & Hn & _ & _ & ->)]]]; try done; intros u; cbn [snd].
  - rewrite accept_report, accept_has. case_decide.
    + by rewrite bool_decide_eq_true_2.
    + intros ->%Hok. apply orb_true_r.
  - rewrite debit_report, debit_processed. apply Hok.
Qed.

(** An archived report outlives a transaction, and stays marked. *)
Lemma exec_archive tag v t db :
  archive_ok db ∧ db_Get (report_key tag) db = Some v →
  archive_ok (snd (exec_tx t db)) ∧ db_Get (report_key tag) (snd (exec_tx t db)) = Some v.
Proof.
  intros [Hok Hv]. split; [by apply exec_archive_ok|].
  destruct (exec_tx_cases t db) as
    [(r & -> & _)|[(tx & _ & Hn & ->)|[->|(tx & _ & Hn & _ & _ & ->)]]]; try done; cbn [snd].
  - rewrite accept_report, decide_False; [done|]. intros E. subst tag.
    rewrite Hok in Hn; [done|]. by rewrite Hv.
  - by rewrite debit_report.
Qed.
(** ** One turn that returns *)

Lemma exec_returns t db r db' :
  exec_tx t db = (Ret r, db') →
  (accepted [t] [ex_Code r] = [] ∧ db' = db) ∨
  (∃ tx, accepted [t] [ex_Code r] = [tx] ∧ authentic t tx ∧
     db_Has (processed_key (tag_of tx)) db = false ∧ db' = accept_db tx t db).
Proof.
  destruct (exec_tx_cases t db) as
    [(r' & -> & Hr)|[(tx & Ha & Hn & ->)|[->|(tx & _ & Hn & _ & _ & ->)]]]; try done.
  - intros [= -> <-]. left. split; [|done]. simpl. by rewrite (proj2 (Z.eqb_neq _ _) Hr).
  - intros [= <- <-]. right. exists tx. split; [|done]. simpl. destruct Ha as [-> _]. done.
Qed.

Lemma accepted_cons t txs c cs : accepted (t :: txs) (c :: cs) = accepted [t] [c] ++ accepted txs cs.
Proof. simpl. by destruct (if (c =? 0)%Z then Unmarshal_tx t else None). Qed.

Lemma run_returns txs db rs db' :
  go_map exec_tx txs db = (Ret rs, db') →
  let acc := accepted txs (ex_Code <$> rs) in
  NoDup (tag_of <$> acc) ∧
  (∀ tx, tx ∈ acc → auth_code tx = 0%Z ∧ db_Has (processed_key (tag_of tx)) db = false) ∧
  (∀ tag, db_Has (processed_key tag) db' =
          (bool_decide (tag ∈ tag_of <$> acc) || db_Has (processed_key tag) db)).
Proof.
  revert db rs. induction txs as [|t txs IH]; intros db rs H; simpl in H.
  { injection H as <- <-. simpl. split_and!; [constructor|by intros ? ?%not_elem_of_nil|].
    done. }
  apply go_bind_Ret in H as (r & db1 & E1 & H). apply go_bind_Ret in H as (rs' & db2 & E2 & H).
  apply go_ret_inv in H as [<- <-]. destruct (IH _ _ E2) as (Hnd & Hacc & Hhas).
  rewrite fmap_cons, accepted_cons. apply exec_returns in E1 as
    [[-> ->]|(tx & -> & [_ Ha] & Hn & ->)]; [done|].
  cbn [app]. rewrite fmap_cons. split_and!.
  - apply NoDup_cons. split; [|done]. intros (tx' & E & Hin)%list_elem_of_fmap.
    destruct (Hacc tx' Hin) as [_ Hf]. rewrite <- E, accept_has, bool_decide_eq_true_2 in Hf; done.
  - intros tx' [->|Hin]%elem_of_cons; [done|]. destruct (Hacc tx' Hin) as [Ha' Hf].
    rewrite accept_has in Hf. by apply orb_false_iff in Hf as [_ Hf].
  - intros tag. rewrite Hhas, accept_has.
    destruct (decide (tag = tag_of tx)) as [->|Hne].
    + rewrite (bool_decide_eq_true_2 (tag_of tx ∈ _ :: _)) by left.
      rewrite (bool_decide_eq_true_2 (tag_of tx = _)) by done. simpl. apply orb_true_r.
    + rewrite (bool_decide_eq_false_2 (tag_of tx = tag)) by done. simpl. f_equal.
      apply bool_decide_ext. rewrite elem_of_cons. tauto.
Qed.

(** ** Executing again *)

(** The code a transaction gets the second time. *)
Definition again (c : Z) : Z := if (c =? 0)%Z then 5%Z else c.

(** Once a transaction has returned, executing it later on a store where what
    it marked is still marked changes nothing. *)
Lemma exec_again t db r db1 db2 :
  exec_tx t db = (Ret r, db1) → (∀ tx, Unmarshal_tx t = Some tx → long_id (tx_EventID tx) = true) →
  (∀ tag, db_Has (processed_key tag) db1 = true → db_Has (processed_key tag) db2 = true) →
  ∃ r', exec_tx t db2 = (Ret r', db2) ∧ ex_Code r' = again (ex_Code r).
Proof.
  intros E Hlong Hmono. rewrite exec_tx_eq in *. destruct (Unmarshal_tx t) as [tx|] eqn:Et.
  2: { injection E as <- <-. by eexists. }
  specialize (Hlong tx eq_refl). destruct (Z.eqb_spec (auth_code tx) 0) as [Ha|Ha].
  - rewrite apply_tx_eq in *. rewrite Hlong in *. cbn [orb] in E.
    assert (db_Has (processed_key (tag_of tx)) db2 = true) as ->.
    { apply Hmono. destruct (db_Has _ db) eqn:Eh; injection E as <- <-; [done|].
      by rewrite accept_has, bool_decide_eq_true_2. }
    eexists. split; [done|]. destruct (db_Has _ db); by injection E as <- <-.
  - destruct (auth_code tx =? 4)%Z.
    + rewrite Hlong in *. injection E as <- <-. by eexists.
    + injection E as <- <-. eexists. split; [done|]. unfold again. simpl.
      by rewrite (proj2 (Z.eqb_neq _ _) Ha).
Qed.

Lemma run_again txs db rs db1 db2 :
  go_map exec_tx txs db = (Ret rs, db1) → long_ids txs →
  (∀ tag, db_Has (processed_key tag) db1 = true → db_Has (processed_key tag) db2 = true) →
  ∃ rs', go_map exec_tx txs db2 = (Ret rs', db2) ∧ ex_Code <$> rs' = again <$> (ex_Code <$> rs).
Proof.
  revert db rs. induction txs as [|t txs IH]; intros db rs H Hlong Hmono; simpl in H.
  { injection H as <- <-. by exists []. }
  apply go_bind_Ret in H as (r & dbm & E1 & H). apply go_bind_Ret in H as (rs1 & dbe & E2 & H).
  apply go_ret_inv in H as [<- <-]. apply Forall_cons in Hlong as [Ht Hlong].
  destruct (IH _ _ E2 Hlong Hmono) as (rs' & E' & Ec).
  destruct (exec_again t db r dbm db2 E1 Ht) as (r' & Er & Erc).
  { intros tag Htag. apply Hmono. destruct (run_returns _ _ _ _ E2) as (_ & _ & ->).
    rewrite Htag. apply orb_true_r. }
  exists (r' :: rs'). split; [by eapply go_map_cons|]. rewrite !fmap_cons. by rewrite Erc, Ec.
Qed.

(** ** Panics *)

(** The transactions that make the loop body panic on this store. *)
Definition fatal t db : Prop :=
  ∃ tx, Unmarshal_tx t = Some tx ∧ long_id (tx_EventID tx) = false ∧
    (auth_code tx = 4%Z ∨
     auth_code tx = 0%Z ∧
       (db_Has (processed_key (tag_of tx)) db = true ∨ known_type (tx_Type tx) = true)).

Lemma exec_panics t db :
  (∃ p, fst (exec_tx t db) = Panic p) ↔ fatal t db.
Proof.
  rewrite exec_tx_eq. unfold fatal. destruct (Unmarshal_tx t) as [tx|].
  2: { split; [by intros [p [=]]|by intros (? & [=] & _)]. }
  assert (∀ P : Transaction → Prop, (∃ tx', Some tx = Some tx' ∧ P tx') ↔ P tx) as ->.
  { intros P. split; [by intros (? & [= <-] & ?)|by exists tx]. }
  destruct (Z.eqb_spec (auth_code tx) 0) as [Ha|Ha].
  - rewrite apply_tx_eq, Ha.
    destruct (db_Has _ db), (long_id (tx_EventID tx)), (known_type (tx_Type tx)); simpl;
      (split; [try (by intros [p [=]]); intros _; auto|]);
      intros [? H]; try discriminate; try (by eexists);
      destruct H as [?|[_ [?|?]]]; try discriminate.
  - destruct (Z.eqb_spec (auth_code tx) 4) as [H4|H4].
    + destruct (long_id _); simpl; (split; [try (by intros [p [=]]); intros _; auto|]);
        intros [? H]; try discriminate; by eexists.
    + simpl. split; [by intros [p [=]]|]. intros [_ [?|[? _]]]; congruence.
Qed.
End lemmas.
