(* ===== verification/LedgerTheorems.v ===== *)
(** * Theorems about the ledger

    Refinement of the abstract ledger, at-most-once acceptance, balance
    accounting, immutability of the archive, safe replay, the panics and the
    overdraft.  Each witness runs the code on a finite
    map, the toy signature scheme of Interfaces.v and the JSON codec. *)

From stdpp Require Import sorting.
From S2P Require Import Prelude GoStd Model Interfaces JsonProps.
From S2P Require Import Keys LedgerApp LedgerSpec LedgerProps.

(** ** Sample transactions for the witnesses *)

Definition signed_tx `{!Ed25519} (nation txType eventID payload : string) : Transaction :=
  mkTransaction txType nation eventID
    (EncodeToString (ed_sign (seed_of nation) (signed_message txType nation eventID))) payload.

Definition pay_tx : string := Marshal_tx (signed_tx "BR" "SPEND_CREDIT" "EVT-00000001" "").
Definition report_tx : string := Marshal_tx (signed_tx "UK" "SAVE_REPORT" "EVT-00000001" "ok").
Definition short_tx : string := Marshal_tx (signed_tx "BR" "SPEND_CREDIT" "EVT-1" "").
Definition genesis_db : MapDB := go_run NewOrmuzLedgerApp ∅.
(** The same with one credit left to BR. *)
Definition poor_db : MapDB := <[balance_key "BR" := "0"]> genesis_db.
Definition poor : AbsLedger := mkAbs (<["BR" := 0%Z]> (a_balance genesis)) ∅.

Lemma sample_long_ids : long_ids [pay_tx; report_tx; pay_tx].
Proof. repeat constructor; intros tx H; by vm_compute in H; injection H as <-. Qed.

Lemma genesis_can_debit k : (Z.of_nat k ≤ 2 ^ 63)%Z → can_debit genesis k.
Proof.
  intros Hk n b. unfold genesis, min_int64. cbn [a_balance]. rewrite !lookup_insert, lookup_empty.
  repeat case_decide; intros [=]; lia.
Qed.

Lemma genesis_db_rel : ledger_rel genesis_db genesis.
Proof. apply genesis_rel. intros k. apply lookup_empty. Qed.

Section theorems.
Context {DB : Type} `{!LevelDB DB, !LevelDBLaws DB} {ED : Ed25519} {EL : Ed25519Laws}
  {TC : TxCodec}.
Implicit Types db : DB.

(** C1: FinalizeBlock refines the abstract ledger: on a store that holds a
    ledger, every block whose identifiers have at least eight bytes returns
    the abstract codes in order and leaves a store that holds the abstract
    result. *)
Theorem FinalizeBlock_refines txs db a :
  ledger_rel db a → can_debit a (length txs) → long_ids txs →
  ∃ resp db', FinalizeBlock txs db = (Ret resp, db') ∧
    response_codes resp = fst (abs_run a txs) ∧ fb_AppHash resp = "" ∧
    ledger_rel db' (snd (abs_run a txs)).
Proof.
  intros H Hroom Hlong. destruct (run_refines txs db a H Hroom Hlong) as (rs & db' & E & Ec & Hr).
  exists (mkFinalize rs ""), db'. by rewrite FinalizeBlock_eq, E.
Qed.

(** C3: after any chain of blocks executed from an empty store, the balance
    key of a nation holds exactly 1000 minus the number of that nation's
    accepted payments, whatever else the blocks contained. *)
Theorem balance_accounting blocks db n :
  (∀ k, db_Get k db = None) → long_ids (concat blocks) →
  (Z.of_nat (length (concat blocks)) ≤ 2 ^ 63)%Z → n ∈ init_nations →
  ∃ resps db', run_chain blocks (go_run NewOrmuzLedgerApp db) = (Ret resps, db') ∧
    db_Get (balance_key n) db' =
      Some (Itoa (1000 - spent n (accepted (concat blocks) (concat (response_codes <$> resps))))).
Proof.
  intros Hempty Hlong Hlen Hn.
  destruct (run_refines (concat blocks) _ _ (genesis_rel db Hempty)
    (genesis_can_debit _ Hlen) Hlong) as (rs & db' & E & Ec & Hr).
  destruct (run_chain_concat _ _ _ _ E) as (resps & E' & Ec'). exists resps, db'. split; [done|].
  destruct (rel_balance _ _ Hr n Hn) as (b & Eb & _ & ->). rewrite Ec', Ec.
  rewrite abs_run_balance in Eb. revert Eb. unfold genesis at 2. cbn [a_balance].
  unfold init_nations in Hn. rewrite !elem_of_cons, elem_of_nil in Hn.
  by destruct Hn as [->|[->|[->|[->|[]]]]]; simplify_map_eq; intros [= <-].
Qed.

(** C4: at most once: in a block no two accepted transactions share type and
    event, none was accepted by an earlier block, every one of them carries a
    valid signature of its nation, and from then on it is marked. *)
Theorem accepted_at_most_once txs db resp db' :
  FinalizeBlock txs db = (Ret resp, db') →
  NoDup (tag_of <$> accepted txs (response_codes resp)) ∧
  (∀ tx, tx ∈ accepted txs (response_codes resp) →
     auth_code tx = 0%Z ∧ db_Has (processed_key (tag_of tx)) db = false ∧
     db_Has (processed_key (tag_of tx)) db' = true) ∧
  (∀ tag, db_Has (processed_key tag) db = true → db_Has (processed_key tag) db' = true).
Proof.
  rewrite FinalizeBlock_eq. destruct (go_map exec_tx txs db) as [[rs|] db1] eqn:E; [|done].
  intros [= <- <-]. destruct (run_returns _ _ _ _ E) as (Hnd & Hacc & Hhas). split_and!; [done| |].
  - intros tx Hin. destruct (Hacc tx Hin) as [Ha Hf]. split_and!; [done|done|].
    rewrite Hhas, bool_decide_eq_true_2; [done|]. by apply list_elem_of_fmap_2.
  - intros tag Ht. rewrite Hhas, Ht. apply orb_true_r.
Qed.

(** C10: the archive is append-only: whatever block is executed, and even when
    the execution panics half-way, an archived report keeps its bytes; a
    store that starts with none keeps every archived event marked. *)
Theorem archive_immutable txs db tag v :
  archive_ok db → db_Get (report_key tag) db = Some v →
  archive_ok (go_run (FinalizeBlock txs) db) ∧
  db_Get (report_key tag) (go_run (FinalizeBlock txs) db) = Some v.
Proof.
  intros Hok Hv. rewrite FinalizeBlock_run. unfold go_run.
  apply (go_map_inv (λ d, archive_ok d ∧ db_Get (report_key tag) d = Some v));
    [|done]. intros t d. apply exec_archive.
Qed.

(** Replay: a validator that crashed after executing a block and gets it
    again (Tendermint replays the last block, [Info] reports no height) ends
    in the same state, every accepted transaction being reported as already
    processed and every other code unchanged. *)
Lemma replay_idempotent txs db resp db1 :
  FinalizeBlock txs db = (Ret resp, db1) → long_ids txs →
  ∃ resp', FinalizeBlock txs db1 = (Ret resp', db1) ∧
    response_codes resp' = again <$> response_codes resp.
Proof.
  rewrite FinalizeBlock_eq. destruct (go_map exec_tx txs db) as [[rs|] d1] eqn:E; [|done].
  intros [= <- <-] Hlong. destruct (run_again _ _ _ _ d1 E Hlong) as (rs' & E' & Ec); [done|].
  exists (mkFinalize rs' ""). by rewrite FinalizeBlock_eq, E'.
Qed.

(** C29: the loop body of FinalizeBlock panics exactly on a decodable
    transaction whose event identifier is shorter than eight bytes and whose
    branch logs it: a forged signature, a duplicate, a payment or a report.
    When it is a new payment the debit has already been written, but the
    transaction is not marked, so the same bytes would debit again. *)
Theorem short_id_panics t db :
  ((∃ p, go_val (exec_tx t) db = Panic p) ↔ fatal t db) ∧
  (∀ tx, authentic t tx → tx_Type tx = SPEND_CREDIT → long_id (tx_EventID tx) = false →
     db_Has (processed_key (tag_of tx)) db = false →
     exec_tx t db = (Panic SliceBounds, debit_db tx db) ∧
     db_Has (processed_key (tag_of tx)) (debit_db tx db) = false).
Proof.
  split; [apply exec_panics|]. intros tx [Et Ea] Hs Hl Hn. rewrite debit_processed. split; [|done].
  rewrite exec_tx_eq, Et, Ea. simpl. rewrite apply_tx_eq, Hn, Hl. unfold known_type.
  by rewrite !(bool_decide_eq_true_2 _ Hs).
Qed.

(** C31: FinalizeBlock does not look at the balance it debits: a new, validly
    signed payment is accepted whatever the balance is and lowers it by one,
    below zero if need be, although CheckTx answers 3 to the same bytes. *)
Theorem payment_ignores_balance t tx db b :
  authentic t tx → tx_Type tx = SPEND_CREDIT → long_id (tx_EventID tx) = true →
  db_Has (processed_key (tag_of tx)) db = false →
  db_Get (balance_key (tx_NationID tx)) db = Some (Itoa b) → (min_int64 < b ≤ 0)%Z →
  go_val (CheckTx t) db = Ret (mkCheckTx 3 "Saldo insuficiente") ∧
  ∃ db', exec_tx t db = (Ret (mkExecTx 0 ""), db') ∧ balance_of (tx_NationID tx) db' = (b - 1)%Z.
Proof.
  intros [Et Ea] Hs Hl Hn Hb Hlt.
  assert (is_int64 b ∧ is_int64 (b - 1)) as [Hb1 Hb2]
    by (unfold is_int64, min_int64, max_int64 in *; lia).
  split.
  - unfold go_val, CheckTx. rewrite Et, bool_decide_eq_true_2 by done. go_unfold.
    rewrite Hb, Atoi_Itoa by done. cbn [fst]. by rewrite (proj2 (Z.leb_le b 0)) by lia.
  - rewrite exec_tx_eq, Et, Ea. simpl. rewrite apply_tx_eq, Hn, Hl. simpl.
    eexists. split; [done|]. apply balance_of_Itoa; [done|].
    rewrite accept_balance, bool_decide_eq_true_2 by done.
    rewrite (balance_of_Itoa _ _ b Hb1 Hb). by rewrite wrap64_id.
Qed.

(** CheckTx reads nothing but the type and the nation of a transaction:
    the verdict is the same for a forged, an unsigned or an already processed
    one, it never panics and never writes. *)
Lemma CheckTx_shallow t1 t2 tx1 tx2 db :
  Unmarshal_tx t1 = Some tx1 → Unmarshal_tx t2 = Some tx2 →
  tx_Type tx1 = tx_Type tx2 → tx_NationID tx1 = tx_NationID tx2 →
  CheckTx t1 db = CheckTx t2 db ∧ (∃ r, CheckTx t1 db = (Ret r, db)).
Proof.
  intros E1 E2 Ht Hn. unfold CheckTx. rewrite E1, E2, Ht, Hn. split; [done|].
  case_bool_decide; [|by eexists]. go_unfold.
  destruct (db_Get _ db); [|by eexists]. case_match; by eexists.
Qed.
End theorems.

(** ** Witnesses: the code run on a finite map *)

Lemma FinalizeBlock_refines_witness :
  ∃ resp db', FinalizeBlock [pay_tx; report_tx; pay_tx] genesis_db = (Ret resp, db') ∧
    response_codes resp = [0; 0; 5]%Z ∧ db_Get "balance:BR" db' = Some "999".
Proof.
  destruct (FinalizeBlock_refines [pay_tx; report_tx; pay_tx] genesis_db genesis)
    as (resp & db' & E & Ec & _ & Hr).
  - apply genesis_db_rel.
  - by apply genesis_can_debit.
  - apply sample_long_ids.
  - exists resp, db'. split; [exact E|]. split; [by rewrite Ec; vm_compute|].
    destruct (rel_balance _ _ Hr "BR" ltac:(by left)) as (b & Eb & _ & Ed).
    vm_compute in Eb. injection Eb as <-. exact Ed.
Defined.

Lemma balance_accounting_witness :
  ∃ resps db', run_chain [[pay_tx]; [report_tx; pay_tx]] genesis_db = (Ret resps, db') ∧
    ∃ k, db_Get (balance_key "BR") db' = Some (Itoa (1000 - k)).
Proof.
  destruct (balance_accounting (DB := MapDB) [[pay_tx]; [report_tx; pay_tx]] ∅ "BR")
    as (resps & db' & E & Eb).
  - intros k. apply lookup_empty.
  - apply sample_long_ids.
  - by vm_compute.
  - by left.
  - exists resps, db'. split; [exact E|]. eexists. exact Eb.
Defined.

Lemma accepted_at_most_once_witness :
  ∃ resp db', FinalizeBlock [pay_tx; pay_tx] genesis_db = (Ret resp, db') ∧
    NoDup (tag_of <$> accepted [pay_tx; pay_tx] (response_codes resp)) ∧
    accepted [pay_tx; pay_tx] (response_codes resp) ≠ [].
Proof.
  eexists (mkFinalize [_; _] ""), _. split; [by vm_compute|]. split.
  - refine (proj1 (accepted_at_most_once [pay_tx; pay_tx] genesis_db _ _ _)). by vm_compute.
  - by vm_compute.
Defined.

Definition paid_db : MapDB := go_run (FinalizeBlock [pay_tx]) genesis_db.

Lemma paid_archive_ok : archive_ok paid_db.
Proof.
  destruct (run_refines [pay_tx] genesis_db genesis genesis_db_rel) as (rs & db' & E & _ & Hr).
  - by apply genesis_can_debit.
  - pose proof sample_long_ids as H. apply Forall_cons in H as [H _]. by constructor.
  - apply rel_archive_ok in Hr. unfold paid_db. rewrite FinalizeBlock_run. unfold go_run.
    by rewrite E.
Qed.

(** The block holds a payment whose short identifier crashes the loop. *)
Lemma archive_immutable_witness :
  fst (FinalizeBlock [report_tx; short_tx] paid_db) = Panic SliceBounds ∧
  db_Get (report_key "SPEND_CREDIT_EVT-00000001") (go_run (FinalizeBlock [report_tx; short_tx]) paid_db)
    = Some pay_tx.
Proof.
  split; [by vm_compute|].
  refine (proj2 (archive_immutable [report_tx; short_tx] paid_db _ pay_tx paid_archive_ok _)).
  by vm_compute.
Defined.

Lemma replay_idempotent_witness :
  ∃ resp db1 resp', FinalizeBlock [pay_tx; report_tx; pay_tx] genesis_db = (Ret resp, db1) ∧
    FinalizeBlock [pay_tx; report_tx; pay_tx] db1 = (Ret resp', db1) ∧
    response_codes resp' = [5; 5; 5]%Z.
Proof.
  destruct (run_refines [pay_tx; report_tx; pay_tx] genesis_db genesis genesis_db_rel)
    as (rs & db' & E & Ec & _).
  { by apply genesis_can_debit. } { apply sample_long_ids. }
  destruct (replay_idempotent [pay_tx; report_tx; pay_tx] genesis_db (mkFinalize rs "") db')
    as (resp' & E2 & Ec2).
  - by rewrite FinalizeBlock_eq, E.
  - apply sample_long_ids.
  - exists (mkFinalize rs ""), db', resp'. split; [by rewrite FinalizeBlock_eq, E|].
    split; [exact E2|]. rewrite Ec2. unfold response_codes. cbn [fb_TxResults]. rewrite Ec.
    by vm_compute.
Defined.

Lemma short_authentic : authentic short_tx (signed_tx "BR" "SPEND_CREDIT" "EVT-1" "").
Proof. split; by vm_compute. Qed.

Lemma pay_authentic : authentic pay_tx (signed_tx "BR" "SPEND_CREDIT" "EVT-00000001" "").
Proof. split; by vm_compute. Qed.

(** Executed twice, the short payment debits twice and is never marked. *)
Lemma short_id_panics_witness :
  ∃ db1 db2, exec_tx short_tx genesis_db = (Panic SliceBounds, db1) ∧
    exec_tx short_tx db1 = (Panic SliceBounds, db2) ∧ balance_of "BR" db2 = 998%Z.
Proof.
  destruct (short_id_panics (DB := MapDB) short_tx genesis_db) as [_ H].
  destruct (H _ short_authentic) as [E1 N1]; [done..|by vm_compute|].
  eexists _, _. split; [exact E1|].
  destruct (short_id_panics (DB := MapDB) short_tx
    (debit_db (signed_tx "BR" "SPEND_CREDIT" "EVT-1" "") genesis_db)) as [_ H2].
  destruct (H2 _ short_authentic) as [E2 _]; [done..|exact N1|].
  split; [exact E2|by vm_compute].
Defined.

Lemma payment_ignores_balance_witness :
  go_val (CheckTx pay_tx) poor_db = Ret (mkCheckTx 3 "Saldo insuficiente") ∧
  ∃ db', exec_tx pay_tx poor_db = (Ret (mkExecTx 0 ""), db') ∧ balance_of "BR" db' = (-1)%Z.
Proof.
  refine (payment_ignores_balance pay_tx _ poor_db 0 pay_authentic _ _ _ _ _); try done;
    by vm_compute.
Defined.

(** An unsigned payment passes CheckTx like a signed one. *)
Lemma CheckTx_shallow_witness :
  let forged := Marshal_tx (mkTransaction "SPEND_CREDIT" "BR" "X" "" "") in
  CheckTx forged genesis_db = CheckTx pay_tx genesis_db ∧
  go_val (CheckTx forged) genesis_db = Ret (mkCheckTx 0 "").
Proof.
  intros forged. split; [|by vm_compute].
  refine (proj1 (CheckTx_shallow forged pay_tx (mkTransaction "SPEND_CREDIT" "BR" "X" "" "")
    (signed_tx "BR" "SPEND_CREDIT" "EVT-00000001" "") genesis_db _ _ _ _)); by vm_compute.
Defined.
