(* ===== verification/LedgerQuery.v ===== *)
(** * Queries and replicas

    [Query] never panics or writes; on a store whose tags hold no colon it
    reports every balance and every archived transaction; the store a chain
    leaves is a fold over what it accepted, in which the order does not
    matter. *)

From stdpp Require Import sorting.
From S2P Require Import Prelude GoStd Model Interfaces JsonProps JsonDecoded.
From S2P Require Import Keys LedgerApp LedgerSpec LedgerProps LedgerTheorems.

Section query.
Context {DB : Type} `{!LevelDB DB, !LevelDBLaws DB}.
Context (Marshal_state : gmap string Z → gmap string string → string).
Implicit Types db : DB.

(** ** Keys of the iteration *)

Lemma Split_nonempty s sep : Split s sep ≠ [].
Proof. destruct s as [|c s]; simpl; [done|]. case_bool_decide; [done|]. by case_match. Qed.

Lemma key_part_total p s db :
  contains_byte ":" p = false →
  ∃ w ws, Split s ":" = w :: ws ∧ key_part (p +:+ String ":" s) db = (Ret w, db).
Proof.
  intros Hp. unfold key_part. rewrite Split_app_sep by done.
  destruct (Split s ":") as [|w ws] eqn:E; [by apply Split_nonempty in E|]. by exists w, ws.
Qed.

Lemma key_part_plain p s db :
  contains_byte ":" p = false → contains_byte ":" s = false →
  key_part (p +:+ String ":" s) db = (Ret s, db).
Proof.
  intros Hp Hs. destruct (key_part_total p s db Hp) as (w & ws & E & ->).
  rewrite Split_no_sep in E by done. by injection E as -> _.
Qed.

Lemma collect_total acc kv db : ∃ acc', collect acc kv db = (Ret acc', db).
Proof.
  destruct acc as [B R], kv as [k v]. unfold collect.
  destruct (HasPrefix k "balance:") eqn:E1.
  { apply HasPrefix_true in E1 as [s ->].
    destruct (key_part_total "balance" s db) as (w & ws & _ & E); [done|].
    eexists. by rewrite (go_bind_run _ _ _ _ _ E). }
  destruct (HasPrefix k "report:") eqn:E2; [|by eexists].
  apply HasPrefix_true in E2 as [s ->].
  destruct (key_part_total "report" s db) as (w & ws & _ & E); [done|].
  eexists. by rewrite (go_bind_run _ _ _ _ _ E).
Qed.

Lemma collect_all_total acc l db : ∃ acc', collect_all acc l db = (Ret acc', db).
Proof.
  revert acc. induction l as [|kv l IH]; intros acc; [by eexists|]. cbn [collect_all].
  destruct (collect_total acc kv db) as [acc1 E]. rewrite (go_bind_run _ _ _ _ _ E). apply IH.
Qed.

Lemma collect_balance B R n v db :
  contains_byte ":" n = false →
  collect (B, R) (balance_key n, v) db = (Ret (<[n := fst (Atoi v)]> B, R), db).
Proof.
  intros Hn. unfold collect, balance_key. rewrite HasPrefix_app.
  by rewrite (go_bind_run _ _ _ _ _ (key_part_plain "balance" n db eq_refl Hn)).
Qed.

Lemma HasPrefix_clash p q s : clash q p = true → HasPrefix (p +:+ s) q = false.
Proof.
  intros Hc. destruct (HasPrefix _ q) eqn:E; [|done].
  apply HasPrefix_true in E as [t E]. symmetry in E. by apply clash_app_ne in E.
Qed.

Lemma collect_report B R tag v db :
  contains_byte ":" tag = false →
  collect (B, R) (report_key tag, v) db = (Ret (B, <[tag := v]> R), db).
Proof.
  intros Hn. unfold collect, report_key.
  rewrite (HasPrefix_clash "report:" "balance:") by done. rewrite HasPrefix_app.
  by rewrite (go_bind_run _ _ _ _ _ (key_part_plain "report" tag db eq_refl Hn)).
Qed.

Lemma collect_other B R k v db :
  (∀ n, k ≠ balance_key n) → (∀ tag, k ≠ report_key tag) →
  collect (B, R) (k, v) db = (Ret (B, R), db).
Proof.
  intros Hb Hr. unfold collect.
  destruct (HasPrefix k "balance:") eqn:E1.
  { apply HasPrefix_true in E1 as [s ->]. by destruct (Hb s). }
  destruct (HasPrefix k "report:") eqn:E2; [|done].
  apply HasPrefix_true in E2 as [s ->]. by destruct (Hr s).
Qed.

(** ** The whole iteration *)

(** No nation or tag in the listed keys contains a colon. *)
Definition plain_keys (l : list (string * string)) : Prop :=
  Forall (λ kv, (∀ n, fst kv = balance_key n → contains_byte ":" n = false) ∧
                (∀ tag, fst kv = report_key tag → contains_byte ":" tag = false)) l.

Lemma key_cases k :
  (∃ n, k = balance_key n) ∨ (∃ tag, k = report_key tag) ∨
  (∀ n, k ≠ balance_key n) ∧ (∀ tag, k ≠ report_key tag).
Proof.
  destruct (HasPrefix k "balance:") eqn:E1.
  { left. by apply HasPrefix_true in E1. }
  destruct (HasPrefix k "report:") eqn:E2.
  { right; left. by apply HasPrefix_true in E2. }
  do 2 right. split; intros n ->;
    [unfold balance_key in E1; by rewrite HasPrefix_app in E1
    |unfold report_key in E2; by rewrite HasPrefix_app in E2].
Qed.

Lemma collect_all_spec l B R db :
  NoDup l.*1 → plain_keys l →
  let m : gmap string string := list_to_map l in
  ∃ B' R', collect_all (B, R) l db = (Ret (B', R'), db) ∧
    (∀ n, B' !! n = match m !! balance_key n with Some v => Some (fst (Atoi v)) | None => B !! n end) ∧
    (∀ tag, R' !! tag = match m !! report_key tag with Some v => Some v | None => R !! tag end).
Proof.
  revert B R. induction l as [|[k v] l IH]; intros B R Hnd Hp m; [by exists B, R|].
  rewrite fmap_cons in Hnd. apply NoDup_cons in Hnd as [Hk Hnd].
  apply not_elem_of_list_to_map_1 in Hk. simpl in Hk.
  apply Forall_cons in Hp as [[Hpb Hpr] Hp]. cbn [fst] in *. cbn [collect_all]. subst m.
  rewrite list_to_map_cons.
  destruct (key_cases k) as [[n ->]|[[tag ->]|[Nb Nr]]].
  - rewrite (go_bind_run _ _ _ _ _ (collect_balance B R n v db (Hpb n eq_refl))).
    destruct (IH (<[n:=fst (Atoi v)]> B) R Hnd Hp) as (B' & R' & -> & HB & HR).
    exists B', R'. split_and!; [done| |].
    + intros n'. rewrite HB. destruct (decide (n = n')) as [<-|Hne].
      * by rewrite Hk, !lookup_insert_eq.
      * by rewrite !lookup_insert_ne by (done || by intros ?%(inj balance_key)).
    + intros tag. by rewrite HR, lookup_insert_ne by apply balance_report.
  - rewrite (go_bind_run _ _ _ _ _ (collect_report B R tag v db (Hpr tag eq_refl))).
    destruct (IH B (<[tag:=v]> R) Hnd Hp) as (B' & R' & -> & HB & HR).
    exists B', R'. split_and!; [done| |].
    + intros n. by rewrite HB, lookup_insert_ne by (intros E; by apply (balance_report n tag)).
    + intros tag'. rewrite HR. destruct (decide (tag = tag')) as [<-|Hne].
      * by rewrite Hk, !lookup_insert_eq.
      * by rewrite !lookup_insert_ne by (done || by intros ?%(inj report_key)).
  - rewrite (go_bind_run _ _ _ _ _ (collect_other B R k v db Nb Nr)).
    destruct (IH B R Hnd Hp) as (B' & R' & -> & HB & HR). exists B', R'.
    split_and!; [done| |]; intros x; rewrite ?HB, ?HR, lookup_insert_ne by auto; done.
Qed.

Lemma Iter_keys_NoDup db : NoDup (db_Iter db).*1.
Proof.
  pose proof (Iter_sorted db) as Hs. induction Hs as [|x l Hs IH Hall]; [constructor|].
  rewrite fmap_cons. constructor; [|done]. intros (y & E & Hy)%list_elem_of_fmap.
  rewrite Forall_forall in Hall. specialize (Hall y Hy). by rewrite E, str_ltb_irrefl in Hall.
Qed.

Lemma Iter_map db k : (list_to_map (db_Iter db) : gmap string string) !! k = db_Get k db.
Proof.
  apply option_eq. intros v. rewrite <- Iter_Get. symmetry.
  apply elem_of_list_to_map, Iter_keys_NoDup.
Qed.

Lemma Query_state_run db acc :
  collect_all (∅, ∅) (db_Iter db) db = (Ret acc, db) →
  Query Marshal_state "state" db = (Ret (mkQuery 0 (Marshal_state (fst acc) (snd acc)) ""), db).
Proof. intros E. unfold Query. go_unfold. simpl. rewrite E. by destruct acc. Qed.

Lemma Query_other path db : path ≠ "state" →
  ∃ r, Query Marshal_state path db = (Ret r, db).
Proof.
  intros Hne. unfold Query. go_unfold. rewrite bool_decide_eq_false_2 by done.
  destruct (Split path "/") as [|p0 [|n [|]]]; try by eexists.
  case_bool_decide; [|by eexists]. destruct (db_Get _ db); by eexists.
Qed.
End query.

(** ** The properties *)

(** [Query] always answers, without touching the store; [balance/<nation>]
    returns the stored bytes, or code 1 for an unknown nation; and when no
    stored nation or tag contains a colon, [state] reports exactly the
    balances and the archive. *)
Lemma Query_correct `{!LevelDB DB, !LevelDBLaws DB} (M : gmap string Z → gmap string string → string)
    (db : DB) :
  (∀ path, ∃ r, Query M path db = (Ret r, db)) ∧
  (∀ n, contains_byte "/" n = false →
     Query M ("balance/" +:+ n) db =
       (Ret match db_Get (balance_key n) db with
            | Some b => mkQuery 0 b ""
            | None => mkQuery 1 "" "Não encontrado"
            end, db)) ∧
  (plain_keys (db_Iter db) → ∃ B R, Query M "state" db = (Ret (mkQuery 0 (M B R) ""), db) ∧
     (∀ n, B !! n = (λ v, fst (Atoi v)) <$> db_Get (balance_key n) db) ∧
     (∀ tag, R !! tag = db_Get (report_key tag) db)).
Proof.
  split_and!.
  - intros path. destruct (decide (path = "state")) as [->|Hne]; [|by apply Query_other].
    destruct (collect_all_total (∅, ∅) (db_Iter db) db) as [acc E].
    eexists. by apply Query_state_run.
  - intros n Hn. unfold Query. rewrite bool_decide_eq_false_2 by (exact (clash_app_ne "balance/" "state" n "" eq_refl)).
    change ("balance/" +:+ n) with ("balance" +:+ String "/" n).
    rewrite Split_app_sep, Split_no_sep by done. go_unfold. simpl. by destruct (db_Get _ db).
  - intros Hp. destruct (collect_all_spec (db_Iter db) ∅ ∅ db (Iter_keys_NoDup db) Hp)
      as (B & R & E & HB & HR).
    exists B, R. split; [by apply (Query_state_run M db (B, R))|].
    split; intros x; rewrite ?HB, ?HR, Iter_map, lookup_empty; by destruct (db_Get _ db).
Qed.

(** ** Replicas *)

Section replicas.
Context {DB : Type} `{!LevelDB DB, !LevelDBLaws DB} {ED : Ed25519} {EL : Ed25519Laws}
  {TC : TxCodec}.
Implicit Types d : DB.

#[export] Instance debit_db_proper tx : Proper (db_equiv (DB := DB) ==> db_equiv) (debit_db tx).
Proof. intros d1 d2 H. unfold debit_db, balance_of. by rewrite !H. Qed.

#[export] Instance accept_db_proper tx t : Proper (db_equiv (DB := DB) ==> db_equiv) (accept_db tx t).
Proof. intros d1 d2 H. unfold accept_db. case_bool_decide; by rewrite H. Qed.

(** Two runs that give the same answer and equivalent stores. *)
Definition same_run {A} (m1 m2 : outcome A * DB) : Prop :=
  fst m1 = fst m2 ∧ db_equiv (snd m1) (snd m2).

Lemma exec_sync t d1 d2 : db_equiv d1 d2 → same_run (exec_tx t d1) (exec_tx t d2).
Proof.
  intros H. apply (exec_rel db_equiv); [|clear d1 d2 H; intros d1 d2 tx H _|done].
  - intros ? ? tag E. exact (db_Has_proper _ _ eq_refl _ _ E).
  - split; [by apply debit_db_proper|by apply accept_db_proper].
Qed.

Lemma FinalizeBlock_sync b d1 d2 :
  db_equiv d1 d2 → same_run (FinalizeBlock b d1) (FinalizeBlock b d2).
Proof.
  intros H. destruct (go_map_sync db_equiv exec_tx b d1 d2 exec_sync H) as [E1 E2].
  rewrite !FinalizeBlock_eq. destruct (go_map exec_tx b d1) as [[] ?], (go_map exec_tx b d2) as [[] ?];
    simpl in *; try discriminate; by injection E1 as ->.
Qed.

Lemma collect_indep acc kv d1 d2 : fst (collect acc kv d1) = fst (collect acc kv d2).
Proof.
  unfold collect. destruct acc as [B R], kv as [k v]. unfold key_part, or_panic.
  destruct (Split k ":" !! 1%nat); by repeat case_match.
Qed.

Lemma collect_all_indep acc l d1 d2 :
  fst (collect_all acc l d1) = fst (collect_all acc l d2).
Proof.
  revert acc. induction l as [|kv l IH]; intros acc; [done|]. cbn [collect_all].
  destruct (collect_total acc kv d1) as [a1 E1], (collect_total acc kv d2) as [a2 E2].
  rewrite (go_bind_run _ _ _ _ _ E1), (go_bind_run _ _ _ _ _ E2).
  pose proof (collect_indep acc kv d1 d2) as E. rewrite E1, E2 in E. injection E as ->. apply IH.
Qed.

Lemma Query_sync M path d1 d2 :
  db_equiv d1 d2 → fst (Query M path d1) = fst (Query M path d2).
Proof.
  intros H. destruct (decide (path = "state")) as [->|Hne].
  - destruct (collect_all_total (∅, ∅) (db_Iter d1) d1) as [a1 E1],
      (collect_all_total (∅, ∅) (db_Iter d2) d2) as [a2 E2].
    rewrite (Query_state_run M d1 a1 E1), (Query_state_run M d2 a2 E2). cbn [fst].
    pose proof (collect_all_indep (∅, ∅) (db_Iter d1) d1 d2) as E.
    rewrite (db_Iter_equiv d1 d2 H) in E at 2. rewrite E1, E2 in E. by injection E as ->.
  - unfold Query. go_unfold. rewrite bool_decide_eq_false_2 by done.
    destruct (Split path "/") as [|p0 [|n [|]]]; try done.
    case_bool_decide; [|done]. rewrite (H (balance_key n)). by destruct (db_Get _ d2).
Qed.

(** The same chain on stores that read alike: the same results, panics
    included, and stores that read alike. *)
Lemma chain_sync blocks d1 d2 : db_equiv d1 d2 → same_run (run_chain blocks d1) (run_chain blocks d2).
Proof. intros H. by apply (go_map_sync db_equiv); [intros; apply FinalizeBlock_sync|]. Qed.

(** ** The store as a fold over what was accepted *)

(** The accepted transactions of a block, decoded, with their bytes. *)
Fixpoint kept (txs : list string) (codes : list Z) : list (Transaction * string) :=
  match txs, codes with
  | t :: txs, c :: codes =>
    match (if (c =? 0)%Z then Unmarshal_tx t else None) with
    | Some tx => (tx, t) :: kept txs codes
    | None => kept txs codes
    end
  | _, _ => []
  end.

Lemma kept_accepted txs codes : (kept txs codes).*1 = accepted txs codes.
Proof.
  revert codes. induction txs as [|t txs IH]; intros [|c codes]; [done..|]. cbn [kept accepted].
  destruct (if (c =? 0)%Z then Unmarshal_tx t else None); [rewrite fmap_cons; f_equal|]; apply IH.
Qed.

Definition keep (x : Transaction * string) d : DB := accept_db (fst x) (snd x) d.

Definition kept_tag (x : Transaction * string) : string := tag_of (fst x).

(** A chain that returns writes exactly what it accepted, in order. *)
Lemma run_foldr txs d rs d' :
  go_map exec_tx txs d = (Ret rs, d') → d' = foldr keep d (reverse (kept txs (ex_Code <$> rs))).
Proof.
  revert d rs. induction txs as [|t txs IH]; intros d rs H; simpl in H; [by injection H as <- <-|].
  apply go_bind_Ret in H as (r & d1 & E1 & H). apply go_bind_Ret in H as (rs' & d2 & E2 & H).
  apply go_ret_inv in H as [<- <-]. rewrite fmap_cons. cbn [kept].
  rewrite (IH _ _ E2). destruct (exec_returns _ _ _ _ E1) as [[Ha ->]|(tx & Ha & [Et _] & _ & ->)].
  - simpl in Ha. by destruct (if (ex_Code r =? 0)%Z then Unmarshal_tx t else None).
  - simpl in Ha. destruct (if (ex_Code r =? 0)%Z then Unmarshal_tx t else None) eqn:E; [|done].
    injection Ha as ->. by rewrite reverse_cons, foldr_app.
Qed.

Lemma accept_other tx t d k :
  (∀ n, k ≠ balance_key n) → (∀ tag, k ≠ processed_key tag) → (∀ tag, k ≠ report_key tag) →
  db_Get k (accept_db tx t d) = db_Get k d.
Proof.
  intros Hb Hp Hr. unfold accept_db, debit_db.
  case_bool_decide; rewrite !Get_Put; repeat (rewrite decide_False by (intros E; by eapply eq_sym, Hb in E || by eapply eq_sym, Hp in E || by eapply eq_sym, Hr in E)); done.
Qed.

Lemma balance_of_accept tx t d n :
  balance_of n (accept_db tx t d) =
    if bool_decide (tx_Type tx = SPEND_CREDIT ∧ tx_NationID tx = n)
    then wrap64 (balance_of n d - 1) else balance_of n d.
Proof.
  unfold balance_of at 1. rewrite accept_balance. case_bool_decide; [|done]. simpl.
  by rewrite Atoi_Itoa by apply wrap64_range.
Qed.

Lemma store_key k :
  (∃ n, k = balance_key n) ∨ (∃ tag, k = processed_key tag) ∨ (∃ tag, k = report_key tag) ∨
  (∀ n, k ≠ balance_key n) ∧ (∀ tag, k ≠ processed_key tag) ∧ (∀ tag, k ≠ report_key tag).
Proof.
  destruct (key_cases k) as [?|[?|[Hb Hr]]]; [auto..|].
  destruct (HasPrefix k "processed:") eqn:E; [right; left; by apply HasPrefix_true in E|].
  do 3 right. split_and!; [done| |done]. intros tag ->.
  unfold processed_key in E. by rewrite HasPrefix_app in E.
Qed.

Lemma wrap64_wrap_sub x y : wrap64 (wrap64 x - y) = wrap64 (x - y).
Proof.
  unfold wrap64. f_equal. replace ((x + 2 ^ 63) mod 2 ^ 64 - 2 ^ 63 - y + 2 ^ 63)%Z
    with ((x + 2 ^ 63) mod 2 ^ 64 - y)%Z by lia.
  rewrite Zminus_mod_idemp_l. f_equal. lia.
Qed.

Lemma spent_perm n l1 l2 : l1 ≡ₚ l2 → spent n l1 = spent n l2.
Proof. intros H. unfold spent. by rewrite H. Qed.

Lemma chain_returns blocks d resps d' :
  run_chain blocks d = (Ret resps, d') →
  ∃ rs, go_map exec_tx (concat blocks) d = (Ret rs, d') ∧ concat (response_codes <$> resps) = ex_Code <$> rs.
Proof.
  unfold run_chain. revert d resps. induction blocks as [|b blocks IH]; intros d resps H; simpl in H.
  { injection H as <- <-. by exists []. }
  apply go_bind_Ret in H as (r & d1 & E1 & H). apply go_bind_Ret in H as (rs & d2 & E2 & H).
  apply go_ret_inv in H as [<- <-]. destruct (IH _ _ E2) as (xs & Ex & Ec).
  rewrite FinalizeBlock_eq in E1. destruct (go_map exec_tx b d) as [[ys|] d0] eqn:Ey; [|done].
  injection E1 as <- <-. exists (ys ++ xs). cbn [concat]. split.
  - rewrite go_map_app. by rewrite (go_bind_run _ _ _ _ _ Ey), (go_bind_run _ _ _ _ _ Ex).
  - rewrite fmap_cons. cbn [concat]. rewrite Ec, fmap_app. done.
Qed.

(** Two transactions with different tags may be accepted in either order. *)
Lemma keep_comm x y d :
  kept_tag x ≠ kept_tag y → db_equiv (keep x (keep y d)) (keep y (keep x d)).
Proof.
  destruct x as [x tx], y as [y ty]. unfold keep, kept_tag. cbn [fst snd]. intros Hne k.
  destruct (store_key k) as [[n ->]|[[tag ->]|[[tag ->]|(Hb & Hp & Hr)]]].
  - rewrite !accept_balance, !balance_of_accept. by repeat case_bool_decide.
  - rewrite !accept_processed. by repeat case_decide.
  - rewrite !accept_report. repeat case_decide; congruence.
  - by rewrite !accept_other.
Qed.

Lemma NoDup_kept txs d rs d' :
  go_map exec_tx txs d = (Ret rs, d') → NoDup (kept_tag <$> kept txs (ex_Code <$> rs)).
Proof.
  intros [H _]%run_returns. rewrite <- kept_accepted, <- list_fmap_compose in H. exact H.
Qed.

Lemma keep_permutation l1 l2 d :
  NoDup (kept_tag <$> l1) → l1 ≡ₚ l2 → db_equiv (foldr keep d l1) (foldr keep d l2).
Proof.
  intros Hnd. apply foldr_permutation; [by split; apply _| |].
  - intros [tx t] d1 d2 H. by apply accept_db_proper.
  - intros j1 x1 j2 x2 d0 Hj H1 H2. apply keep_comm. intros E. apply Hj.
    eapply (NoDup_lookup _ _ _ (kept_tag x1) Hnd); rewrite list_lookup_fmap, ?H1, ?H2; simpl; congruence.
Qed.

Lemma keep_equiv l d1 d2 : db_equiv d1 d2 → db_equiv (foldr keep d1 l) (foldr keep d2 l).
Proof. intros H. induction l as [|[tx t] l IH]; [done|]. by apply accept_db_proper. Qed.

Lemma keep_balance l d n :
  balance_of n (foldr keep d l) = wrap64 (balance_of n d - spent n l.*1).
Proof.
  induction l as [|[tx t] l IH]; cbn [foldr].
  - unfold spent. simpl. rewrite Z.sub_0_r, wrap64_id; [done|]. apply Atoi_int64.
  - unfold keep at 1. cbn [fst snd]. rewrite balance_of_accept, fmap_cons, spent_cons, IH. cbn [fst].
    case_bool_decide; [|f_equal; lia]. rewrite wrap64_wrap_sub. f_equal. lia.
Qed.

Lemma keep_report l d x :
  NoDup (kept_tag <$> l) → x ∈ l → db_Get (report_key (kept_tag x)) (foldr keep d l) = Some (snd x).
Proof.
  induction l as [|[tx t] l IH]; [by intros _ ?%not_elem_of_nil|].
  rewrite fmap_cons. intros [Hn Hnd]%NoDup_cons Hx. cbn [foldr]. unfold keep at 1. cbn [fst snd].
  rewrite accept_report. apply elem_of_cons in Hx as [->|Hx]; [by rewrite decide_True|].
  rewrite decide_False; [by apply IH|]. intros E. apply Hn. apply list_elem_of_fmap. by exists x.
Qed.

(** Everything a chain accepted. *)
Definition chain_kept (blocks : list (list string)) (resps : list FinalizeBlockResponse) :
    list (Transaction * string) :=
  kept (concat blocks) (concat (response_codes <$> resps)).

Lemma chain_foldr blocks d resps d' :
  run_chain blocks d = (Ret resps, d') →
  d' = foldr keep d (reverse (chain_kept blocks resps)) ∧ NoDup (kept_tag <$> chain_kept blocks resps).
Proof.
  intros H. destruct (chain_returns _ _ _ _ H) as (rs & E & Ec).
  unfold chain_kept. rewrite Ec. split; [by apply run_foldr|by eapply NoDup_kept].
Qed.

(** C8: validators agree: the ledger is a function of what was accepted.  Two
    validators that started alike and accepted the same transactions, in
    whatever order, in whatever blocks and among whatever rejected ones, read
    alike and answer every query alike; of every nation each has taken exactly
    the accepted payments, and each has archived every accepted transaction
    byte for byte. *)
Theorem replicas_agree blocks1 blocks2 d1 d2 resps1 resps2 d1' d2' :
  db_equiv d1 d2 →
  run_chain blocks1 d1 = (Ret resps1, d1') → run_chain blocks2 d2 = (Ret resps2, d2') →
  let l := chain_kept blocks1 resps1 in l ≡ₚ chain_kept blocks2 resps2 →
  db_equiv d1' d2' ∧
  (∀ M path, go_val (Query M path) d1' = go_val (Query M path) d2') ∧
  (∀ n, balance_of n d2' = wrap64 (balance_of n d1 - spent n l.*1)) ∧
  (∀ x, x ∈ l → db_Get (report_key (tag_of (fst x))) d2' = Some (snd x)).
Proof.
  intros Hd E1 E2 l Hp.
  destruct (chain_foldr _ _ _ _ E1) as [-> Hn1], (chain_foldr _ _ _ _ E2) as [-> Hn2]. fold l in Hn1 |- *.
  assert (db_equiv (foldr keep d1 (reverse l)) (foldr keep d2 (reverse (chain_kept blocks2 resps2)))) as Heq.
  { transitivity (foldr keep d2 (reverse l)); [by apply keep_equiv|].
    apply keep_permutation; [by rewrite fmap_reverse, reverse_Permutation|by rewrite !reverse_Permutation]. }
  split; [done|]. split; [intros M path; by apply Query_sync|]. split.
  - intros n. unfold balance_of. rewrite <- (Heq (balance_key n)).
    change (balance_of n (foldr keep d1 (reverse l)) = wrap64 (balance_of n d1 - spent n l.*1)).
    rewrite keep_balance, fmap_reverse. f_equal. f_equal. apply spent_perm, reverse_Permutation.
  - intros x Hx. rewrite <- (Heq (report_key _)).
    apply (keep_report (reverse l)); [by rewrite fmap_reverse, reverse_Permutation|]. by rewrite elem_of_reverse.
Qed.
End replicas.

(** The codes of a run that returned. *)
Definition run_codes {DB} (r : outcome (list FinalizeBlockResponse) * DB) : option (list Z) :=
  match r with (Ret rs, _) => Some (concat (response_codes <$> rs)) | (Panic _, _) => None end.

Lemma run_codes_Some {DB} (r : outcome (list FinalizeBlockResponse) * DB) c :
  run_codes r = Some c → ∃ rs d, r = (Ret rs, d) ∧ concat (response_codes <$> rs) = c.
Proof. destruct r as [[rs|] d]; [|done]. intros [= <-]. by exists rs, d. Qed.

(** The same two transactions in another order, in one block, with a duplicate
    between them. *)
Lemma replicas_agree_witness :
  ∃ resps1 d1 resps2 d2,
    run_chain [[pay_tx]; [report_tx]] genesis_db = (Ret resps1, d1) ∧
    run_chain [[report_tx; report_tx; pay_tx]] genesis_db = (Ret resps2, d2) ∧
    concat (response_codes <$> resps1) = [0; 0]%Z ∧ concat (response_codes <$> resps2) = [0; 5; 0]%Z ∧
    db_equiv d1 d2 ∧ balance_of "BR" d2 = 999%Z ∧
    db_Get (report_key "SAVE_REPORT_EVT-00000001") d2 = Some report_tx.
Proof.
  set (b1 := [[pay_tx]; [report_tx]]). set (b2 := [[report_tx; report_tx; pay_tx]]).
  destruct (run_codes_Some (run_chain b1 genesis_db) [0; 0]%Z) as (r1 & d1 & E1 & C1); [by vm_compute|].
  destruct (run_codes_Some (run_chain b2 genesis_db) [0; 5; 0]%Z) as (r2 & d2 & E2 & C2); [by vm_compute|].
  set (p := (signed_tx "BR" "SPEND_CREDIT" "EVT-00000001" "", pay_tx)).
  set (q := (signed_tx "UK" "SAVE_REPORT" "EVT-00000001" "ok", report_tx)).
  assert (kept (concat b1) [0; 0]%Z = [p; q]) as K1 by (vm_compute; reflexivity).
  assert (kept (concat b2) [0; 5; 0]%Z = [q; p]) as K2 by (vm_compute; reflexivity).
  assert (chain_kept b1 r1 = [p; q]) as L1 by (unfold chain_kept; by rewrite C1).
  assert (chain_kept b2 r2 = [q; p]) as L2 by (unfold chain_kept; by rewrite C2).
  destruct (replicas_agree b1 b2 genesis_db genesis_db r1 r2 d1 d2) as (Heq & _ & Hb & Hr);
    [done|exact E1|exact E2|rewrite L1, L2; apply Permutation_swap|].
  exists r1, d1, r2, d2. split; [done|]. split; [done|]. split; [exact C1|]. split; [exact C2|].
  split; [exact Heq|]. split.
  - rewrite (Hb "BR"), L1. by vm_compute.
  - apply (Hr q). rewrite L1. right. by left.
Defined.
