(* ===== verification/Validator.v ===== *)
(** * The validator process and its crashes (cmd/ledger/main.go)

    [main] opens the store, seeds it and serves the consensus engine until a
    signal.  The store outlives the process: [Dying] is a store whose process
    is killed after a number of writes, which the code makes one by one.  The
    engine then starts the process again and, because the application does not
    implement [Info], replays the whole chain. *)

From S2P Require Import Prelude GoStd Model Interfaces JsonProps Keys LedgerApp LedgerSpec LedgerProps LedgerTheorems.

Lemma go_run_cons {S A B} (f : A → go S B) a l s b s1 :
  f a s = (Ret b, s1) → go_run (go_map f (a :: l)) s = go_run (go_map f l) s1.
Proof.
  intros E. unfold go_run. cbn [go_map]. rewrite (go_bind_run _ _ _ _ _ E). go_unfold.
  by destruct (go_map f l s1) as [[] ?].
Qed.

(** ** The process *)

(** What may fail on the way: [os.MkdirAll], [leveldb.OpenFile] and the
    socket server's [Start]. *)
Record boot_errors : Type := mkBoot {
  mkdir_err : option string;
  open_err : option string;
  start_err : option string;
}.
Definition no_errors : boot_errors := mkBoot None None None.

Inductive main_event : Type :=
| Opened (path : string)
| Serving (addr : string)
| Fatalf (message : string)      (* [os.Exit(1)], which skips what is deferred *)
| ServerStopped
| DBClosed.

Section process.
Context {DB : Type} `{!LevelDB DB} {ED : Ed25519} {TC : TxCodec}.

(** [session]: what the engine calls until the signal. *)
Definition ledger_main {A} (flag : option string) (errs : boot_errors) (session : go DB A) :
    go DB (list main_event * option A) :=
  let addr := default "tcp://0.0.0.0:26658" flag in
  let dbPath := "/app/data/state.db" in
  match mkdir_err errs with
  | Some err => mret ([Fatalf ("Erro ao criar pasta do DB: " +:+ err)], None)
  | None =>
    match open_err errs with
    | Some err => mret ([Fatalf ("[FATAL] Falha ao abrir o LevelDB: " +:+ err)], None)
    | None =>
      NewOrmuzLedgerApp ;;
      match start_err errs with
      | Some err => mret ([Opened dbPath; Fatalf ("Erro ao iniciar servidor ABCI: " +:+ err)], None)
      | None =>
        r ← session;
        mret ([Opened dbPath; Serving addr; ServerStopped; DBClosed], Some r)
      end
    end
  end.

(** One life of the process in which the engine has [blocks] executed. *)
Definition life (blocks : list (list string)) : go DB (list main_event * option (list FinalizeBlockResponse)) :=
  ledger_main None no_errors (run_chain blocks).

Lemma run_chain_run blocks (db db' : DB) :
  (∃ rs, go_map exec_tx (concat blocks) db = (Ret rs, db')) ↔ ∃ rs, run_chain blocks db = (Ret rs, db').
Proof.
  unfold run_chain. revert db. induction blocks as [|b blocks IH]; intros db.
  { split; intros [rs [= <- <-]]; by exists []. }
  cbn [go_map concat]. rewrite go_map_app. split; intros [rs H].
  - apply go_bind_Ret in H as (rs1 & db1 & E1 & H). apply go_bind_Ret in H as (rs2 & db2 & E2 & H).
    apply go_ret_inv in H as [_ ->]. destruct (proj1 (IH db1)) as [rs3 E3]; [by eexists|].
    exists (mkFinalize rs1 "" :: rs3). eapply go_map_cons; [|done]. by rewrite FinalizeBlock_eq, E1.
  - apply go_bind_Ret in H as (r & db1 & E1 & H). apply go_bind_Ret in H as (rs2 & db2 & E2 & H).
    apply go_ret_inv in H as [_ ->]. destruct (proj2 (IH db1)) as [rs3 E3]; [by eexists|].
    rewrite FinalizeBlock_eq in E1. destruct (go_map exec_tx b db) as [[rs1|] ?] eqn:Eb; [|done].
    injection E1 as <- <-. exists (rs1 ++ rs3). unfold mbind, go_mbind. by rewrite Eb, E3.
Qed.

Lemma run_chain_disk blocks (db : DB) :
  go_run (run_chain blocks) db = go_run (go_map exec_tx (concat blocks)) db.
Proof.
  unfold run_chain. revert db. induction blocks as [|b blocks IH]; intros db; [done|].
  cbn [go_map concat]. unfold go_run in *. rewrite go_map_app. go_unfold. rewrite FinalizeBlock_eq.
  destruct (go_map exec_tx b db) as [[rs1|p] db1]; [|done]. specialize (IH db1).
  destruct (go_map FinalizeBlock blocks db1) as [[] ?], (go_map exec_tx (concat blocks) db1) as [[] ?]; exact IH.
Qed.
End process.

(** ** A store that loses the writes after a crash *)

Record Dying (DB : Type) : Type := mkDying { left : nat; disk : DB }.
Arguments mkDying {DB} _ _.
Arguments left {DB} _.
Arguments disk {DB} _.

#[export] Instance Dying_ops {DB} `{!LevelDB DB} : LevelDB (Dying DB) := {
  db_Get k d := db_Get k (disk d);
  db_Has k d := db_Has k (disk d);
  db_Put k v d :=
    match left d with
    | O => d
    | S n => mkDying n (db_Put k v (disk d))
    end;
  db_Iter d := db_Iter (disk d);
}.

(** What is on the disk when a process that executes [blocks] is killed at its
    [k]-th write. *)
Definition crash {DB} `{!LevelDB DB} {ED : Ed25519} {TC : TxCodec}
    (k : nat) (blocks : list (list string)) (db : DB) : DB :=
  disk (go_run (life blocks) (mkDying k db)).

Section crash.
Context {DB : Type} `{!LevelDB DB, !LevelDBLaws DB} {ED : Ed25519} {EL : Ed25519Laws} {TC : TxCodec}.
Implicit Types (db d : DB) (x : Dying DB).

(** *** After the crash nothing is written *)

Definition dead d x : Prop := left x = O ∧ disk x = d.

Lemma put_dead k v d x : dead d x → dead d (db_Put k v x).
Proof. destruct x as [n e]. intros [E1 E2]. simpl in *. by subst. Qed.

Lemma exec_dead t d x : dead d x → dead d (go_run (exec_tx t) x).
Proof.
  intros H. unfold go_run. rewrite exec_tx_eq. destruct (Unmarshal_tx t) as [tx|]; [|done].
  assert (dead d (if bool_decide (tx_Type tx = SPEND_CREDIT) then debit_db tx x else x)) as Hd.
  { case_bool_decide; [|done]. by apply put_dead. }
  destruct (auth_code tx =? 0)%Z; [|by repeat case_match]. rewrite apply_tx_eq.
  destruct (db_Has _ x); [by case_match|]. destruct (_ || _); [|done].
  cbn [snd]. unfold accept_db. by do 2 apply put_dead.
Qed.

Lemma run_dead txs d x : dead d x → dead d (go_run (go_map exec_tx txs) x).
Proof. apply (go_map_inv (dead d)). intros t y. apply exec_dead. Qed.

(** *** A transaction cut short *)

Definition marked_db (tx : Transaction) d : DB :=
  db_Put (processed_key (tag_of tx)) "true"
    (if bool_decide (tx_Type tx = SPEND_CREDIT) then debit_db tx d else d).

Inductive torn (t : string) d : DB → Prop :=
| torn_nothing : torn t d d
| torn_debited tx : authentic t tx → db_Has (processed_key (tag_of tx)) d = false →
    tx_Type tx = SPEND_CREDIT → torn t d (debit_db tx d)
| torn_marked tx : authentic t tx → db_Has (processed_key (tag_of tx)) d = false →
    torn t d (marked_db tx d).

Lemma exec_dying t d r d' k :
  exec_tx t d = (Ret r, d') →
  (∃ k', exec_tx t (mkDying k d) = (Ret r, mkDying k' d')) ∨
  ∃ dt, torn t d dt ∧ exec_tx t (mkDying k d) = (Ret r, mkDying O dt).
Proof.
  rewrite !exec_tx_eq. destruct (Unmarshal_tx t) as [tx|] eqn:Et; [|intros [= <- <-]; left; by exists k].
  destruct (Z.eqb_spec (auth_code tx) 0) as [Ha|_].
  2: { repeat case_match; intros [= <- <-]; left; by exists k. }
  assert (authentic t tx) as Hauth by done.
  rewrite !apply_tx_eq. change (db_Has ?e (mkDying k d)) with (db_Has e d).
  destruct (db_Has (processed_key (tag_of tx)) d) eqn:Eh.
  { destruct (long_id _); [|done]. intros [= <- <-]. left. by exists k. }
  destruct (long_id (tx_EventID tx) || negb (known_type (tx_Type tx))); [|done].
  intros [= <- <-]. pose proof (torn_marked t d tx Hauth Eh) as Hm. revert Hm. unfold accept_db, marked_db.
  case_bool_decide as Hs.
  - intros Hm. destruct k as [|[|[|k]]]; [right..|left; by exists k].
    + exists d. split; [constructor|done].
    + exists (debit_db tx d). split; [by apply torn_debited|done].
    + by eexists.
  - intros Hm. destruct k as [|[|k]]; [right..|left; by exists k].
    + exists d. split; [constructor|done].
    + by eexists.
Qed.

(** A run that is cut short stopped inside one transaction. *)
Lemma run_dying txs d rs d' k :
  go_map exec_tx txs d = (Ret rs, d') →
  (∃ k', go_map exec_tx txs (mkDying k d) = (Ret rs, mkDying k' d')) ∨
  ∃ pre t post rs1 d1 dt, txs = pre ++ t :: post ∧ go_map exec_tx pre d = (Ret rs1, d1) ∧
    torn t d1 dt ∧ dead dt (go_run (go_map exec_tx txs) (mkDying k d)).
Proof.
  revert d rs k. induction txs as [|t txs IH]; intros d rs k E; [injection E as <- <-; left; by exists k|].
  simpl in E. apply go_bind_Ret in E as (r & d1 & E1 & E). apply go_bind_Ret in E as (rs1 & d2 & E2 & E).
  apply go_ret_inv in E as [<- <-].
  destruct (exec_dying _ _ _ _ k E1) as [[k1 Ek]|(dt & Ht & Ek)].
  - destruct (IH _ _ k1 E2) as [[k2 Ek2]|(pre & t' & post & rs' & d3 & dt & -> & Ep & Ht & Hd)].
    + left. exists k2. by eapply go_map_cons.
    + right. exists (t :: pre), t', post, (r :: rs'), d3, dt. split; [done|]. split; [by eapply go_map_cons|]. split; [done|].
      by rewrite (go_run_cons _ _ _ _ _ _ Ek).
  - right. exists [], t, txs, [], d, dt. do 3 (split; [done|]).
    rewrite (go_run_cons _ _ _ _ _ _ Ek). by apply run_dead.
Qed.

(** *** The seeds *)

Definition has_mono d d' : Prop := ∀ k, db_Has k d = true → db_Has k d' = true.

Lemma put_mono k v d : has_mono d (db_Put k v d).
Proof.
  intros k' H. apply Has_Get in H. apply Has_Get.
  destruct (decide (k = k')) as [<-|Hne]; [rewrite Get_Put_eq; by eexists|by rewrite Get_Put_ne].
Qed.

Lemma put_has k v d : db_Has k (db_Put k v d) = true.
Proof. apply Has_Get. rewrite Get_Put_eq. by eexists. Qed.

Definition seeds (l : list string) {D} `{!LevelDB D} (d : D) : D := go_run (go_for seed_balance l) d.

Lemma seeds_cons n l D `{!LevelDB D} (d : D) :
  seeds (n :: l) d = seeds l (if db_Has (balance_key n) d then d else db_Put (balance_key n) "1000" d).
Proof.
  unfold seeds, go_run. cbn [go_for]. unfold seed_balance. go_unfold. by destruct (db_Has _ d).
Qed.

Lemma seeds_mono l d : has_mono d (seeds l d).
Proof.
  revert d. induction l as [|n l IH]; intros d k H; [done|]. rewrite seeds_cons. apply IH.
  case_match; [done|by apply put_mono].
Qed.

Lemma seeds_dead l d x : dead d x → dead d (seeds l x).
Proof.
  revert x. induction l as [|n l IH]; intros x H; [done|]. rewrite seeds_cons. apply IH.
  case_match; [done|by apply put_dead].
Qed.

Lemma seeds_dying l d k :
  has_mono d (disk (seeds l (mkDying k d))) ∧
  seeds l (disk (seeds l (mkDying k d))) = seeds l d ∧
  (left (seeds l (mkDying k d)) = O ∨ disk (seeds l (mkDying k d)) = seeds l d).
Proof.
  revert d k. induction l as [|n l IH]; intros d k; [split_and!; [by intros ?|done|by right]|].
  rewrite !seeds_cons. change (db_Has ?e (mkDying k d)) with (db_Has e d).
  destruct (db_Has (balance_key n) d) eqn:E.
  { destruct (IH d k) as (Hm & Hs & Hd). rewrite (Hm _ E). by split_and!. }
  destruct k as [|k].
  { destruct (seeds_dead l d (mkDying 0 d) (conj eq_refl eq_refl)) as [E1 E2].
    change (db_Put ?a ?b (mkDying 0 d)) with (mkDying 0 d). rewrite E2, E. split_and!; [by intros ?|done|by left]. }
  change (db_Put ?a ?b (mkDying (S k) d)) with (mkDying k (db_Put a b d)).
  destruct (IH (db_Put (balance_key n) "1000" d) k) as (Hm & Hs & Hd).
  rewrite (Hm _ (put_has _ _ _)). split_and!; [|done|done].
  intros e He. by apply Hm, put_mono.
Qed.

Definition seeded d : Prop := ∀ n, n ∈ ["BR"; "UK"; "FR"; "US"] → db_Has (balance_key n) d = true.

Lemma seeds_seeded l d : (∀ n, n ∈ l → db_Has (balance_key n) (seeds l d) = true).
Proof.
  revert d. induction l as [|n l IH]; intros d n' Hn; [by apply not_elem_of_nil in Hn|].
  rewrite seeds_cons. apply elem_of_cons in Hn as [->|Hn]; [|by apply IH].
  apply seeds_mono. destruct (db_Has _ d) eqn:E; [done|apply put_has].
Qed.

Lemma seeds_again l d : (∀ n, n ∈ l → db_Has (balance_key n) d = true) → seeds l d = d.
Proof.
  induction l as [|n l IH]; intros H; [done|]. rewrite seeds_cons, H by (by left).
  apply IH. intros n' Hn. apply H. by right.
Qed.

Lemma exec_mono t d : has_mono d (go_run (exec_tx t) d).
Proof.
  intros k H. unfold go_run.
  destruct (exec_tx_cases t d) as [(r & -> & _)|[(tx & _ & _ & ->)|[->|(tx & _ & _ & _ & _ & ->)]]]; try done;
    cbn [snd]; unfold accept_db, debit_db; repeat case_bool_decide; repeat (apply put_mono); done.
Qed.

Lemma run_mono txs d : has_mono d (go_run (go_map exec_tx txs) d).
Proof.
  intros k. unfold go_run. apply (go_map_inv (λ d', db_Has k d' = true)). intros t d'. apply exec_mono.
Qed.

Lemma torn_mono t d dt : torn t d dt → has_mono d dt.
Proof.
  intros [|tx _ _ _|tx _ _] k H; [done|by apply put_mono|]. apply put_mono.
  case_bool_decide; [by apply put_mono|done].
Qed.

(** *** What a crash may cost *)

(** The balance of [n] is one credit short. *)
Definition short (n : string) d d' : Prop :=
  (∀ k, k ≠ balance_key n → db_Get k d = db_Get k d') ∧
  ∃ b, is_int64 b ∧ db_Get (balance_key n) d = Some (Itoa b) ∧
    db_Get (balance_key n) d' = Some (Itoa (wrap64 (b - 1))).

(** The report [tag] is missing although its transaction counts as processed. *)
Definition lost (tag : string) d d' : Prop :=
  (∀ k, k ≠ report_key tag → db_Get k d = db_Get k d') ∧
  db_Has (processed_key tag) d = true ∧
  is_Some (db_Get (report_key tag) d) ∧ db_Get (report_key tag) d' = None.

Lemma Has_same k d d' : db_Get k d = db_Get k d' → db_Has k d = db_Has k d'.
Proof.
  intros E. destruct (db_Has k d') eqn:H; [apply Has_Get; rewrite E; by apply Has_Get|].
  apply Has_false. rewrite E. by apply Has_false.
Qed.

Lemma put_same k v k' d d' :
  db_Get k' d = db_Get k' d' → db_Get k' (db_Put k v d) = db_Get k' (db_Put k v d').
Proof.
  intros E. destruct (decide (k = k')) as [<-|Hne]; [by rewrite !Get_Put_eq|by rewrite !Get_Put_ne].
Qed.

Lemma short_put n k v d d' : k ≠ balance_key n → short n d d' → short n (db_Put k v d) (db_Put k v d').
Proof.
  intros Hk [Hs (b & Hb & E1 & E2)]. split; [intros k' Hk'; by apply put_same, Hs|].
  exists b. by rewrite !Get_Put_ne.
Qed.

Lemma short_debit n tx d d' : short n d d' → short n (debit_db tx d) (debit_db tx d').
Proof.
  intros H. destruct (decide (tx_NationID tx = n)) as [Hn|Hne].
  - destruct H as [Hs (b & Hb & E1 & E2)]. unfold debit_db. rewrite Hn.
    rewrite (balance_of_Itoa n d b), (balance_of_Itoa n d' (wrap64 (b - 1))) by (done || apply wrap64_range).
    split; [intros k Hk; by rewrite !Get_Put_ne, Hs|].
    exists (wrap64 (b - 1)). rewrite !Get_Put_eq. split_and!; [apply wrap64_range|done|done].
  - assert (balance_key (tx_NationID tx) ≠ balance_key n) as Hk by (by intros ?%(inj balance_key)).
    unfold debit_db, balance_of. rewrite <- (proj1 H) by done. by apply short_put.
Qed.

Lemma short_accept n tx t d d' : short n d d' → short n (accept_db tx t d) (accept_db tx t d').
Proof.
  intros H. unfold accept_db. apply short_put; [intros E; by apply (balance_report n (tag_of tx))|].
  apply short_put; [intros E; by apply (balance_processed n (tag_of tx))|].
  case_bool_decide; [by apply short_debit|done].
Qed.

Lemma lost_put tag k v d d' : k ≠ report_key tag → lost tag d d' → lost tag (db_Put k v d) (db_Put k v d').
Proof.
  intros Hk (Hs & Hp & E1 & E2). split_and!.
  - intros k' Hk'. by apply put_same, Hs.
  - by apply put_mono.
  - by rewrite Get_Put_ne.
  - by rewrite Get_Put_ne.
Qed.

Lemma lost_debit tag tx d d' : lost tag d d' → lost tag (debit_db tx d) (debit_db tx d').
Proof.
  intros H. unfold debit_db, balance_of.
  rewrite <- (proj1 H) by (intros E; by apply (balance_report (tx_NationID tx) tag)).
  apply lost_put; [|done]. intros E. by apply (balance_report (tx_NationID tx) tag).
Qed.

Lemma lost_accept tag tx t d d' :
  tag_of tx ≠ tag → lost tag d d' → lost tag (accept_db tx t d) (accept_db tx t d').
Proof.
  intros Hne H. unfold accept_db. apply lost_put; [by intros ?%(inj report_key)|].
  apply lost_put; [intros E; by apply (processed_report (tag_of tx) tag)|].
  case_bool_decide; [by apply lost_debit|done].
Qed.

Lemma short_exec n t d d' :
  short n d d' → fst (exec_tx t d) = fst (exec_tx t d') ∧ short n (snd (exec_tx t d)) (snd (exec_tx t d')).
Proof.
  apply exec_rel.
  - intros d1 d2 tag H. apply Has_same, H. intros E. by apply (balance_processed n tag).
  - intros d1 d2 tx H _. split; [by apply short_debit|by apply short_accept].
Qed.

Lemma lost_exec tag t d d' :
  lost tag d d' → fst (exec_tx t d) = fst (exec_tx t d') ∧ lost tag (snd (exec_tx t d)) (snd (exec_tx t d')).
Proof.
  apply exec_rel.
  - intros d1 d2 tag' H. apply Has_same, H. intros E. by apply (processed_report tag' tag).
  - intros d1 d2 tx H Hn. split; [by apply lost_debit|]. apply lost_accept; [|done].
    intros E. destruct H as (_ & Hp & _). rewrite <- E, Hn in Hp. done.
Qed.

(** *** The transaction in which it happened *)

Definition damaged d d' : Prop := d' = d ∨ (∃ n, n ∈ init_nations ∧ short n d d') ∨ ∃ tag, lost tag d d'.

(** Executed again, it leaves the store right, or damaged in one place. *)
Lemma torn_again t d r d' dt :
  archive_ok d → exec_tx t d = (Ret r, d') → torn t d dt →
  (∀ tx, Unmarshal_tx t = Some tx → long_id (tx_EventID tx) = true) →
  ∃ r' dt', exec_tx t dt = (Ret r', dt') ∧ damaged d' dt'.
Proof.
  intros Ha E Ht Hl. destruct Ht as [|tx [Et Eauth] Hn Hs|tx [Et Eauth] Hn].
  - exists r, d'. split; [done|by left].
  - pose proof (Hl _ Et) as Hlong. rewrite exec_tx_eq, Et, Eauth in E |- *. cbn [Z.eqb] in *. rewrite apply_tx_eq in *.
    rewrite debit_processed, Hn, Hlong in *. cbn [orb] in *. injection E as <- <-.
    eexists _, _. split; [done|]. right. left. exists (tx_NationID tx).
    split; [unfold auth_code in Eauth; by destruct (decide (tx_NationID tx ∈ init_nations))|]. split.
    + intros k Hk. unfold accept_db. rewrite bool_decide_eq_true_2 by done. do 2 apply put_same.
      unfold debit_db. by rewrite !Get_Put_ne.
    + exists (wrap64 (balance_of (tx_NationID tx) d - 1)). rewrite !accept_balance.
      rewrite bool_decide_eq_true_2 by done. split_and!; [apply wrap64_range|done|]. do 4 f_equal.
      apply balance_of_Itoa; [apply wrap64_range|]. unfold debit_db. by rewrite Get_Put_eq.
  - pose proof (Hl _ Et) as Hlong. rewrite exec_tx_eq, Et, Eauth in E |- *. cbn [Z.eqb] in *. rewrite apply_tx_eq in *.
    unfold marked_db at 1. rewrite put_has. rewrite Hn, Hlong in *. cbn [orb] in *. injection E as <- <-.
    eexists _, _. split; [done|]. right. right. exists (tag_of tx). split_and!.
    + intros k Hk. unfold accept_db. by rewrite Get_Put_ne.
    + rewrite accept_has, bool_decide_eq_true_2 by done. done.
    + rewrite accept_report, decide_True by done. by eexists.
    + unfold marked_db. rewrite Get_Put_ne by (intros E; by apply (processed_report (tag_of tx) (tag_of tx))).
      assert (db_Get (report_key (tag_of tx)) d = None) as En.
      { apply eq_None_not_Some. intros H%Ha. by rewrite Hn in H. }
      case_bool_decide; [by rewrite debit_report|done].
Qed.

(** Whatever is executed later keeps the damage in its place. *)
Lemma damaged_run txs d d' rs e :
  damaged d d' → go_map exec_tx txs d = (Ret rs, e) →
  ∃ e', go_map exec_tx txs d' = (Ret rs, e') ∧ damaged e e'.
Proof.
  assert (∀ R : DB → DB → Prop, (∀ e e', R e e' → damaged e e') →
    (∀ t d d', R d d' → fst (exec_tx t d) = fst (exec_tx t d') ∧ R (snd (exec_tx t d)) (snd (exec_tx t d'))) →
    R d d' → go_map exec_tx txs d = (Ret rs, e) →
    ∃ e', go_map exec_tx txs d' = (Ret rs, e') ∧ damaged e e') as K.
  { intros R HR Hstep H E. destruct (go_map_sync R exec_tx txs d d' Hstep H) as [E1 E2].
    rewrite E in E1, E2. destruct (go_map exec_tx txs d') as [o e']. simpl in *. subst o.
    exists e'. split; [done|by apply HR]. }
  intros [->|[(n & Hn & H)|[tag H]]] E.
  - exists e. split; [done|by left].
  - refine (K (short n) _ (short_exec n) H E). intros e1 e2 Hs. right. left. by exists n.
  - refine (K (lost tag) _ (lost_exec tag) H E). intros e1 e2 Hs. right. right. by exists tag.
Qed.

(** *** Two lives *)

Local Abbreviation nations := ["BR"; "UK"; "FR"; "US"].

Lemma life_run {D} `{!LevelDB D} blocks (x : D) :
  life blocks x =
    match run_chain blocks (seeds nations x) with
    | (Ret rs, y) =>
      (Ret ([Opened "/app/data/state.db"; Serving "tcp://0.0.0.0:26658"; ServerStopped; DBClosed], Some rs), y)
    | (Panic p, y) => (Panic p, y)
    end.
Proof.
  assert (NewOrmuzLedgerApp x = (Ret (), seeds nations x)) as E.
  { unfold NewOrmuzLedgerApp, seeds, go_run. generalize nations. intros l. revert x.
    induction l as [|n l IH]; intros x; [done|]. cbn [go_for]. unfold seed_balance. go_unfold.
    destruct (db_Has _ x); apply IH. }
  unfold life, ledger_main. cbn [mkdir_err open_err start_err no_errors].
  rewrite (go_bind_run _ _ _ _ _ E). go_unfold. by destruct (run_chain blocks _) as [[] ?].
Qed.

Lemma life_disk {D} `{!LevelDB D} blocks (x : D) :
  go_run (life blocks) x = go_run (go_map exec_tx (concat blocks)) (seeds nations x).
Proof.
  rewrite <- run_chain_disk. unfold go_run. rewrite life_run. by destruct (run_chain _ _) as [[] ?].
Qed.

Lemma life_returns blocks d d' :
  (∃ rs, go_map exec_tx (concat blocks) (seeds nations d) = (Ret rs, d')) ↔ ∃ r, life blocks d = (Ret r, d').
Proof.
  rewrite run_chain_run, life_run. split; [intros [rs ->]; by eexists|].
  intros [r H]. destruct (run_chain _ _) as [[rs|] y]; [|done]. injection H as _ <-. by exists rs.
Qed.

Lemma seeds_archive l d : archive_ok d → archive_ok (seeds l d).
Proof.
  revert d. induction l as [|n l IH]; intros d Ha; [done|]. rewrite seeds_cons. apply IH.
  case_match; [done|]. intros tag. rewrite Get_Put_ne by (by apply balance_report).
  intros HF%Ha. by apply put_mono.
Qed.

Lemma run_archive txs d : archive_ok d → archive_ok (go_run (go_map exec_tx txs) d).
Proof. apply (go_map_inv archive_ok). intros t d'. apply exec_archive_ok. Qed.

(** The chain again, from the state a torn transaction left. *)
Lemma replay_torn pre t post d0 rs1 d1 dt rs dF :
  archive_ok d0 → long_ids (pre ++ t :: post) →
  go_map exec_tx pre d0 = (Ret rs1, d1) → torn t d1 dt →
  go_map exec_tx (pre ++ t :: post) d0 = (Ret rs, dF) →
  ∃ rs' dR, go_map exec_tx (pre ++ t :: post) dt = (Ret rs', dR) ∧ damaged dF dR.
Proof.
  intros Ha [Hpre [Ht Hpost]%Forall_cons]%Forall_app E1 Htorn E. rewrite go_map_app in E.
  rewrite (go_bind_run _ _ _ _ _ E1) in E. apply go_bind_Ret in E as (rs2 & d2 & E2 & E).
  apply go_ret_inv in E as [_ ->]. apply go_bind_Ret in E2 as (r & d2 & Er & E2).
  apply go_bind_Ret in E2 as (rs3 & d3 & E3 & E2). apply go_ret_inv in E2 as [_ ->].
  destruct (run_again pre d0 rs1 d1 dt E1 Hpre) as (rs1' & E1' & _).
  { intros tag. by apply (torn_mono t). }
  assert (archive_ok d1) as Ha1.
  { pose proof (run_archive pre d0 Ha) as H. unfold go_run in H. by rewrite E1 in H. }
  destruct (torn_again t d1 r d2 dt Ha1 Er Htorn Ht) as (r' & dt' & Er' & Hd).
  destruct (damaged_run post d2 dt' rs3 dF Hd E3) as (dR & E3' & HR).
  exists (rs1' ++ r' :: rs3), dR. split; [|done]. rewrite go_map_app, (go_bind_run _ _ _ _ _ E1').
  rewrite (go_bind_run _ _ _ (r' :: rs3) dR); [done|]. by eapply go_map_cons.
Qed.

(** C11: what a crash may cost.  The process is killed at any write, whether it
    is seeding or executing; the engine starts it again and, since it reports
    no height, replays the whole chain.  Then nothing panics, and its store is
    the one of a validator that never stopped, but for at most one place: the
    balance of one nation is one credit short, or one report is missing
    although its transaction counts as processed. *)
Theorem crash_damage blocks db k r dF :
  archive_ok db → long_ids (concat blocks) → life blocks db = (Ret r, dF) →
  ∃ r' dR, life blocks (crash k blocks db) = (Ret r', dR) ∧
    (dR = dF ∨ (∃ n, n ∈ init_nations ∧ short n dF dR) ∨ ∃ tag, lost tag dF dR).
Proof.
  intros Ha Hlong HF. destruct (proj2 (life_returns blocks db dF)) as [rs E]; [by eexists|].
  cut (∃ rs' dR, go_map exec_tx (concat blocks) (seeds nations (crash k blocks db)) = (Ret rs', dR) ∧ damaged dF dR).
  { intros (rs' & dR & E' & Hd). destruct (proj1 (life_returns blocks (crash k blocks db) dR)) as [r' H];
      [by eexists|]. by exists r', dR. }
  unfold crash. rewrite life_disk. set (x := seeds nations (mkDying k db)).
  assert (∀ d, has_mono (seeds nations db) d → seeds nations d = d) as Hseeded.
  { intros d Hd. apply seeds_again. intros n Hn. by apply Hd, seeds_seeded. }
  destruct (seeds_dying nations db k) as (_ & Hs & [H0|Hx]); fold x in Hs.
  { destruct (run_dead (concat blocks) (disk x) x (conj H0 eq_refl)) as [_ ->]. rewrite Hs.
    exists rs, dF. split; [done|by left]. }
  fold x in Hx. destruct x as [k1 d0]. cbn [disk] in Hx. subst d0.
  destruct (run_dying _ _ _ _ k1 E) as [[k2 Ek]|(pre & t & post & rs1 & d1 & dt & Etxs & E1 & Ht & [_ Hd])].
  - unfold go_run. rewrite Ek. cbn [snd disk].
    pose proof (run_mono (concat blocks) (seeds nations db)) as Hm. unfold go_run in Hm. rewrite E in Hm.
    rewrite Hseeded by exact Hm. destruct (run_again _ _ _ _ dF E Hlong) as (rs' & E' & _); [done|].
    exists rs', dF. split; [done|by left].
  - rewrite Hd. rewrite Hseeded.
    2: { intros e He. eapply torn_mono; [exact Ht|].
         pose proof (run_mono pre (seeds nations db)) as Hm. unfold go_run in Hm. rewrite E1 in Hm. by apply Hm. }
    rewrite Etxs in *. eapply replay_torn; [by apply seeds_archive|done..].
Qed.
End crash.

(** ** On a finite map *)

(** Killed after the debit: charged twice.  Killed after the mark: no report. *)
Example crash_charges_twice :
  balance_of "BR" (go_run (life [[pay_tx]]) (∅ : MapDB)) = 999%Z ∧
  balance_of "BR" (go_run (life [[pay_tx]]) (crash 5 [[pay_tx]] (∅ : MapDB))) = 998%Z.
Proof. split; by vm_compute. Qed.

Example crash_loses_report :
  is_Some (db_Get (report_key "SPEND_CREDIT_EVT-00000001") (go_run (life [[pay_tx]]) (∅ : MapDB))) ∧
  db_Get (report_key "SPEND_CREDIT_EVT-00000001")
    (go_run (life [[pay_tx]]) (crash 6 [[pay_tx]] (∅ : MapDB))) = None.
Proof. split; [eexists; by vm_compute|by vm_compute]. Qed.

Lemma crash_damage_witness :
  let blocks := [[pay_tx]; [report_tx; pay_tx]] in
  ∃ r dF r' dR, life blocks (∅ : MapDB) = (Ret r, dF) ∧
    life blocks (crash 8 blocks (∅ : MapDB)) = (Ret r', dR) ∧
    (dR = dF ∨ (∃ n, n ∈ init_nations ∧ short n dF dR) ∨ ∃ tag, lost tag dF dR).
Proof.
  intros blocks. assert (∃ r dF, life blocks (∅ : MapDB) = (Ret r, dF)) as (r & dF & E).
  { assert (match fst (life blocks (∅ : MapDB)) with Ret _ => true | Panic _ => false end = true) as H
      by (vm_compute; reflexivity).
    destruct (life blocks (∅ : MapDB)) as [[r|] dF]; [by exists r, dF|discriminate]. }
  destruct (crash_damage (DB := MapDB) blocks ∅ 8 r dF) as (r' & dR & E' & Hd).
  - intros tag [v Hv]. by vm_compute in Hv.
  - pose proof sample_long_ids as H. unfold long_ids in *.
    apply Forall_cons in H as [H1 [H2 _]%Forall_cons]. by repeat constructor.
  - exact E.
  - exists r, dF, r', dR. split; [exact E|]. split; [exact E'|exact Hd].
Defined.
