(* ===== verification/Inventory.v ===== *)
(** * The idempotency filter (internal/inventory/idempotency_table.go)

    A concurrent map from event identifiers to expiry instants.  The atomic
    steps are [LoadOrStore] and one visit of the cleanup's [Range]; ten
    workers, the gossip handler and the cleanup interleave them freely, so
    the properties are about arbitrary lists of steps.  Instants and
    durations are nanoseconds. *)

From S2P Require Import Prelude GoStd Flow.
Local Open Scope Z_scope.

Record IdempotencyFilter : Type := mkFilter {
  seen : gmap string Z;
  ttl : Z;
}.

Definition set_seen (m : gmap string Z) (f : IdempotencyFilter) : IdempotencyFilter :=
  mkFilter m (ttl f).

Definition NewIdempotencyFilter (ttl : Z) : IdempotencyFilter := mkFilter ∅ ttl.

(** [CheckAndAdd] at the instant [now]: [LoadOrStore] keeps the value of a
    key that is there. *)
Definition CheckAndAdd (now : Z) (eventID : string) : go IdempotencyFilter bool :=
  f ← get;
  match seen f !! eventID with
  | Some _ => mret false
  | None => modify (set_seen (<[eventID := now + ttl f]> (seen f))) ;; mret true
  end.

(** The function [Range] calls on a key.  The load and the [Delete] are one
    step: the filter has one cleanup goroutine, nobody else deletes, and
    [LoadOrStore] does not overwrite, so the entry cannot change in between. *)
Definition cleanup_visit (now : Z) (key : string) : go IdempotencyFilter () :=
  f ← get;
  match seen f !! key with
  | Some expiry =>
    if expiry <? now then modify (set_seen (delete key (seen f))) else mret ()
  | None => mret ()
  end.

(** One tick of [cleanupWorker]: [now] is read once, [keys] is the order in
    which [Range] visits. *)
Definition cleanup_round (now : Z) (keys : list string) : go IdempotencyFilter () :=
  go_for (cleanup_visit now) keys.

(** ** Interleavings *)

Inductive filter_op : Type :=
| FAdd (now : Z) (eventID : string)
| FVisit (now : Z) (key : string).

Definition op_now (o : filter_op) : Z := match o with FAdd now _ | FVisit now _ => now end.

(** The answer is [None] for a step of the cleanup. *)
Definition filter_step (o : filter_op) : go IdempotencyFilter (option bool) :=
  match o with
  | FAdd now id => b ← CheckAndAdd now id; mret (Some b)
  | FVisit now key => cleanup_visit now key ;; mret None
  end.

Definition filter_run (ops : list filter_op) : go IdempotencyFilter (list (option bool)) :=
  go_map filter_step ops.

Definition is_add (id : string) (o : filter_op) : bool :=
  match o with FAdd _ id' => bool_decide (id' = id) | FVisit _ _ => false end.

(** The answers to the calls with [id], in order. *)
Definition answers (id : string) (ops : list filter_op) (rs : list (option bool)) : list bool :=
  omap (λ p, if is_add id (fst p) then snd p else None) (zip ops rs).

(** ** Lemmas *)

Lemma CheckAndAdd_eq now id f :
  CheckAndAdd now id f =
    match seen f !! id with
    | Some _ => (Ret false, f)
    | None => (Ret true, set_seen (<[id := now + ttl f]> (seen f)) f)
    end.
Proof. unfold CheckAndAdd. go_unfold. by destruct (seen f !! id). Qed.

(** The entries the cleanup takes. *)
Definition stale (now expiry : Z) : bool := expiry <? now.

Lemma cleanup_visit_eq now key f :
  cleanup_visit now key f = (Ret (), set_seen (snd (take_one (stale now) key (seen f))) f).
Proof.
  unfold cleanup_visit, take_one, stale. go_unfold.
  destruct (seen f !! key) as [e|]; [destruct (e <? now)|]; by destruct f.
Qed.

Lemma take_one_none now key m k :
  m !! k = None → snd (take_one (stale now) key m) !! k = None.
Proof. intros H. apply eq_None_not_Some. intros [e [He _]%take_one_left]. congruence. Qed.

Lemma filter_step_total o f : ∃ r f', filter_step o f = (Ret r, f') ∧ ttl f' = ttl f.
Proof.
  destruct o as [now id|now key]; unfold filter_step; go_unfold.
  - rewrite CheckAndAdd_eq. destruct (seen f !! id); by eexists _, _.
  - rewrite cleanup_visit_eq. by eexists _, _.
Qed.

(** An entry that has not expired survives a step, and refuses its own
    identifier. *)
Lemma filter_step_known o f id e :
  seen f !! id = Some e → op_now o ≤ e →
  ∃ r f', filter_step o f = (Ret r, f') ∧ seen f' !! id = Some e ∧
    (is_add id o = true → r = Some false).
Proof.
  intros He Ht. destruct o as [now id'|now key]; unfold filter_step; go_unfold; simpl in *.
  - rewrite CheckAndAdd_eq. destruct (decide (id' = id)) as [->|Hne].
    + rewrite He. by eexists _, _.
    + destruct (seen f !! id'); (eexists _, _; split_and!; [done| |]).
      * done.
      * intros H. by apply bool_decide_eq_true in H.
      * simpl. by rewrite lookup_insert_ne.
      * intros H. by apply bool_decide_eq_true in H.
  - rewrite cleanup_visit_eq. eexists _, _. split_and!; [done| |done]. simpl.
    apply take_one_left. split; [done|]. unfold stale. intros ?. lia.
Qed.

(** A step that is not an attempt on [id] cannot make [id] known. *)
Lemma filter_step_unknown o f id :
  seen f !! id = None → is_add id o = false →
  ∃ r f', filter_step o f = (Ret r, f') ∧ seen f' !! id = None ∧ ttl f' = ttl f.
Proof.
  intros He Ho. destruct o as [now id'|now key]; unfold filter_step; go_unfold; simpl in *.
  - apply bool_decide_eq_false in Ho. rewrite CheckAndAdd_eq.
    destruct (seen f !! id'); (eexists _, _; split_and!; [done| |done]); [done|].
    simpl. by rewrite lookup_insert_ne.
  - rewrite cleanup_visit_eq. eexists _, _. split_and!; [done| |done]. by apply take_one_none.
Qed.

Lemma answers_cons id o ops r rs :
  answers id (o :: ops) (r :: rs) =
    match (if is_add id o then r else None) with
    | Some b => b :: answers id ops rs
    | None => answers id ops rs
    end.
Proof. done. Qed.

Lemma run_known ops f id e :
  seen f !! id = Some e → Forall (λ o, op_now o ≤ e) ops →
  ∃ rs f', filter_run ops f = (Ret rs, f') ∧ seen f' !! id = Some e ∧
    Forall (λ b, b = false) (answers id ops rs).
Proof.
  revert f. unfold filter_run. induction ops as [|o ops IH]; intros f He Ht.
  { exists [], f. by split_and!. }
  apply Forall_cons in Ht as [Ho Ht].
  destruct (filter_step_known o f id e He Ho) as (r & f1 & E1 & H1 & Hr).
  destruct (IH f1 H1 Ht) as (rs & f2 & E2 & H2 & Ha). exists (r :: rs), f2.
  split; [by eapply go_map_cons|]. split; [done|]. rewrite answers_cons.
  destruct (is_add id o); [|done]. rewrite Hr by done. by constructor.
Qed.

(** ** The properties *)

(** C28: whatever the interleaving of the workers' calls and of the cleanup's
    visits, among all the calls with one new identifier made within [ttl] of
    each other exactly the first is told the event is new. *)
Theorem dedup_exactly_once f id t0 ops :
  seen f !! id = None → Forall (λ o, t0 ≤ op_now o ≤ t0 + ttl f) ops →
  ∃ rs f', filter_run ops f = (Ret rs, f') ∧
    (answers id ops rs = [] ∨
     ∃ bs, answers id ops rs = true :: bs ∧ Forall (λ b, b = false) bs) ∧
    (existsb (is_add id) ops = true → answers id ops rs ≠ []).
Proof.
  revert f. induction ops as [|o ops IH]; intros f Hn Ht.
  { exists [], f. split_and!; [done|by left|done]. }
  apply Forall_cons in Ht as [Ho Ht]. destruct (is_add id o) eqn:Ea.
  - destruct o as [now id'|]; [|done]. simpl in Ea, Ho. apply bool_decide_eq_true in Ea as ->.
    assert (filter_step (FAdd now id) f = (Ret (Some true), set_seen (<[id := now + ttl f]> (seen f)) f)) as E1.
    { unfold filter_step. go_unfold. by rewrite CheckAndAdd_eq, Hn. }
    destruct (run_known ops (set_seen (<[id := now + ttl f]> (seen f)) f) id (now + ttl f))
      as (rs & f2 & E2 & _ & Ha).
    { apply lookup_insert_eq. }
    { eapply Forall_impl; [exact Ht|]. simpl. intros; lia. }
    exists (Some true :: rs), f2. rewrite answers_cons. simpl. rewrite bool_decide_eq_true_2 by done.
    split_and!; [by eapply go_map_cons| |done]. right. by exists (answers id ops rs).
  - destruct (filter_step_unknown o f id Hn Ea) as (r & f1 & E1 & H1 & Et).
    destruct (IH f1 H1) as (rs & f2 & E2 & Ha & Hne); [by rewrite Et|].
    exists (r :: rs), f2. rewrite answers_cons. cbn [existsb]. rewrite Ea.
    split_and!; [by eapply go_map_cons|done|done].
Qed.

Lemma dedup_exactly_once_witness :
  let ops := [FAdd 10 "a"; FVisit 20 "a"; FAdd 30 "b"; FAdd 60 "a"; FAdd 61 "a"] in
  ∃ rs f', filter_run ops (NewIdempotencyFilter 60) = (Ret rs, f') ∧ answers "a" ops rs ≠ [].
Proof.
  intros ops. destruct (dedup_exactly_once (NewIdempotencyFilter 60) "a" 5 ops)
    as (rs & f' & E & _ & Hne).
  - done.
  - repeat constructor; simpl; lia.
  - exists rs, f'. split; [exact E|]. by apply Hne.
Defined.

Lemma cleanup_round_eq now keys f :
  cleanup_round now keys f = (Ret (), set_seen (snd (take_all (stale now) keys (seen f))) f).
Proof.
  revert f. unfold cleanup_round. induction keys as [|k keys IH]; intros f; [by destruct f|].
  cbn [go_for]. rewrite (go_bind_run _ _ _ _ _ (cleanup_visit_eq now k f)), IH, take_all_cons. done.
Qed.

(** A tick of the cleanup forgets exactly the entries whose instant has
    passed, in whatever order [Range] visits the keys, and touches no other:
    afterwards an expired identifier counts as new again, and one that has
    not expired is still refused. *)
Lemma cleanup_exact now keys f :
  (∀ k, is_Some (seen f !! k) → k ∈ keys) →
  ∃ f', cleanup_round now keys f = (Ret (), f') ∧
    (∀ k e, seen f' !! k = Some e ↔ seen f !! k = Some e ∧ now ≤ e) ∧
    (∀ k t, go_val (CheckAndAdd t k) f' =
       Ret match seen f !! k with Some e => e <? now | None => true end).
Proof.
  intros Hk. rewrite cleanup_round_eq. eexists. split; [done|].
  assert (∀ k e, snd (take_all (stale now) keys (seen f)) !! k = Some e ↔
    seen f !! k = Some e ∧ now ≤ e) as Hleft.
  { intros k e. rewrite take_all_covers by done. unfold stale. by rewrite Z.ltb_ge. }
  split; [exact Hleft|]. intros k t. unfold go_val. rewrite CheckAndAdd_eq. simpl.
  destruct (snd (take_all (stale now) keys (seen f)) !! k) as [e|] eqn:E.
  - apply Hleft in E as [-> He]. by rewrite (proj2 (Z.ltb_ge e now) He).
  - destruct (seen f !! k) as [e|] eqn:Es; [|done].
    destruct (Z.ltb_spec e now) as [|Hge]; [done|].
    assert (snd (take_all (stale now) keys (seen f)) !! k = Some e) by (by apply Hleft). congruence.
Qed.

Lemma cleanup_exact_witness :
  let f := mkFilter (<["a" := 50]> (<["b" := 70]> ∅)) 60 in
  ∃ f', cleanup_round 60 ["b"; "a"] f = (Ret (), f') ∧
    go_val (CheckAndAdd 61 "a") f' = Ret true ∧ go_val (CheckAndAdd 61 "b") f' = Ret false.
Proof.
  intros f. destruct (cleanup_exact 60 ["b"; "a"] f) as (f' & E & _ & H).
  - intros k. simpl. rewrite !lookup_insert, lookup_empty. repeat case_decide; subst.
    + intros _. right. by left.
    + intros _. by left.
    + by intros [? [=]].
  - exists f'. split; [exact E|]. by rewrite !H.
Defined.
