(* ===== verification/Radar.v ===== *)
(** * The station's radar (pkg/radar/flight.go, pkg/radar/radar.go)

    Missions in the hands of drones, each under a lease, and the queue the
    expired ones go to.  The mutex covers the table, not the queue, so [Nack]
    and [sweep] hold a mission in neither while they go from one to the
    other: [hand] of [RadarSys] is where it is then, and the conservation
    theorem is about arbitrary interleavings of the locked sections. *)

From S2P Require Import Prelude GoStd GoHeap Model Queue Flow.
Local Open Scope Z_scope.

Record InFlightRecord : Type := mkRecord {
  rec_Mission : Mission;
  ExpiresAt : Z;
}.

Record InFlightManager : Type := mkRadar {
  records : gmap string InFlightRecord;
  pq : PriorityQueue;
}.

Definition set_records (r : gmap string InFlightRecord) (m : InFlightManager) : InFlightManager :=
  mkRadar r (pq m).
Definition set_pq (q : PriorityQueue) (m : InFlightManager) : InFlightManager :=
  mkRadar (records m) q.

Definition NewInFlightManager (q : PriorityQueue) : InFlightManager := mkRadar ∅ q.

(** ** Operations; [now] is what [time.Now()] returns *)

Definition MarkInFlight (now : Z) (mission : Mission) (duration : Z) : go InFlightManager () :=
  m ← get;
  modify (set_records (<[mission_id mission := mkRecord mission (now + duration)]> (records m))).

(** [now.After(t)]. *)
Definition after (now t : Z) : bool := t <? now.

Definition RenewLease (now : Z) (eventID : string) (duration : Z) : go InFlightManager bool :=
  m ← get;
  match records m !! eventID with
  | None => mret false
  | Some record =>
    if after now (ExpiresAt record) then mret false
    else
      modify (set_records
        (<[eventID := mkRecord (rec_Mission record) (now + duration)]> (records m))) ;;
      mret true
  end.

Definition Acknowledge (eventID : string) : go InFlightManager bool :=
  m ← get;
  match records m !! eventID with
  | None => mret false
  | Some _ => modify (set_records (delete eventID (records m))) ;; mret true
  end.

(** The locked section of [Nack]. *)
Definition nack_take (eventID : string) : go InFlightManager (option Mission) :=
  m ← get;
  match records m !! eventID with
  | None => mret None
  | Some record =>
    modify (set_records (delete eventID (records m))) ;; mret (Some (rec_Mission record))
  end.

(** [m.pq.Enqueue(mission)]. *)
Definition requeue (mission : Mission) : go InFlightManager () :=
  zoom pq set_pq (Enqueue mission).

Definition Nack (eventID : string) : go InFlightManager bool :=
  r ← nack_take eventID;
  match r with
  | Some mission => requeue mission ;; mret true
  | None => mret false
  end.

(** One turn of the locked loop of [sweep]: the expired mission, if any. *)
Definition collect_visit (now : Z) (id : string) : go InFlightManager (option Mission) :=
  m ← get;
  match records m !! id with
  | Some record =>
    if after now (ExpiresAt record)
    then modify (set_records (delete id (records m))) ;; mret (Some (rec_Mission record))
    else mret None
  | None => mret None
  end.

(** The locked section of [sweep], [order] being the order in which [range]
    visits the keys. *)
Definition sweep_collect (now : Z) (order : list string) : go InFlightManager (list Mission) :=
  rs ← go_map (collect_visit now) order;
  mret (omap id rs).

(** One turn of the unlocked loop: the log line comes first. *)
Definition give_expired (miss : Mission) : go InFlightManager () :=
  or_panic SliceBounds (slice_to (mission_id miss) 8) ;;
  requeue miss.

Definition sweep (now : Z) (order : list string) : go InFlightManager () :=
  expired ← sweep_collect now order;
  go_for give_expired expired.

(** ** The radar with its concurrent users

    [hand] lists the missions a [Nack] ([false]) or a [sweep] ([true]) holds
    between its two sections. *)

Record RadarSys : Type := mkSys {
  rs_radar : InFlightManager;
  hand : list (bool * Mission);
}.

Definition set_radar (r : InFlightManager) (s : RadarSys) : RadarSys := mkSys r (hand s).
Definition set_hand (h : list (bool * Mission)) (s : RadarSys) : RadarSys := mkSys (rs_radar s) h.
Definition radar {A} (m : go InFlightManager A) : go RadarSys A := zoom rs_radar set_radar m.

Inductive radar_op : Type :=
| RMark (now : Z) (mission : Mission) (duration : Z)
| RRenew (now : Z) (eventID : string) (duration : Z)
| RAck (eventID : string)
| RNack (eventID : string)
| RCollect (now : Z) (order : list string)
| RGive (i : nat)
| RTake
| RAge (currentClock : Z).

(** One locked section: the identifiers it brought in and let out.  [RTake]
    is the station's fallback loop taking a mission from the queue, [RAge] a
    round of the queue's own worker. *)
Definition radar_step (o : radar_op) : go RadarSys (list flow) :=
  match o with
  | RMark now mission d =>
    s ← get;
    radar (MarkInFlight now mission d) ;;
    let e := mission_id mission in
    mret (match records (rs_radar s) !! e with
          | Some _ => [Entered e; Left e]
          | None => [Entered e]
          end)
  | RRenew now e d => radar (RenewLease now e d) ;; mret []
  | RAck e => b ← radar (Acknowledge e); mret (if (b : bool) then [Left e] else [])
  | RNack e =>
    r ← radar (nack_take e);
    match r with
    | Some m => modify (λ s, set_hand ((false, m) :: hand s) s) ;; mret []
    | None => mret []
    end
  | RCollect now order =>
    l ← radar (sweep_collect now order);
    modify (λ s, set_hand (((λ m, (true, m)) <$> l) ++ hand s) s) ;; mret []
  | RGive i =>
    s ← get;
    match hand s !! i with
    | Some (b, m) =>
      radar (if (b : bool) then give_expired m else requeue m) ;;
      modify (set_hand (delete i (hand s))) ;; mret []
    | None => mret []
    end
  | RTake =>
    r ← radar (zoom pq set_pq Dequeue);
    let '(m, found) := r in mret (if (found : bool) then [Left (mission_id m)] else [])
  | RAge currentClock => radar (zoom pq set_pq (antiStarvationRound currentClock)) ;; mret []
  end.

(** Every place a mission can be in. *)
Definition places (s : RadarSys) : list string :=
  keys (records (rs_radar s)) ++ (mission_id ∘ snd <$> hand s) ++
  (mission_id <$> mh (pq (rs_radar s))).

(** ** Invariant *)

Record radar_ok (s : RadarSys) : Prop := mkRadarOk {
  ok_keys e r : records (rs_radar s) !! e = Some r → mission_id (rec_Mission r) = e;
  ok_queue : pq_ok (pq (rs_radar s));
  ok_long e : e ∈ places s → (8 ≤ String.length e)%nat;
}.

Definition op_long (o : radar_op) : Prop :=
  match o with RMark _ m _ => (8 ≤ String.length (mission_id m))%nat | _ => True end.

(** ** Lemmas: the operations *)

Lemma MarkInFlight_eq now m d r :
  MarkInFlight now m d r =
    (Ret (), set_records (<[mission_id m := mkRecord m (now + d)]> (records r)) r).
Proof. done. Qed.

Lemma RenewLease_eq now e d r :
  RenewLease now e d r =
    match records r !! e with
    | Some x =>
      if after now (ExpiresAt x) then (Ret false, r)
      else (Ret true, set_records (<[e := mkRecord (rec_Mission x) (now + d)]> (records r)) r)
    | None => (Ret false, r)
    end.
Proof. unfold RenewLease. go_unfold. destruct (records r !! e); [by case_match|done]. Qed.

Lemma Acknowledge_eq e r :
  Acknowledge e r =
    match records r !! e with
    | Some _ => (Ret true, set_records (delete e (records r)) r)
    | None => (Ret false, r)
    end.
Proof. unfold Acknowledge. go_unfold. by destruct (records r !! e). Qed.

Lemma nack_take_eq e r :
  nack_take e r =
    match records r !! e with
    | Some x => (Ret (Some (rec_Mission x)), set_records (delete e (records r)) r)
    | None => (Ret None, r)
    end.
Proof. unfold nack_take. go_unfold. by destruct (records r !! e). Qed.

Lemma collect_visit_eq now e r :
  collect_visit now e r =
    match records r !! e with
    | Some x =>
      if after now (ExpiresAt x)
      then (Ret (Some (rec_Mission x)), set_records (delete e (records r)) r)
      else (Ret None, r)
    | None => (Ret None, r)
    end.
Proof. unfold collect_visit. go_unfold. destruct (records r !! e); [by case_match|done]. Qed.

Lemma requeue_ok r m :
  pq_ok (pq r) →
  ∃ q', requeue m r = (Ret (), set_pq q' r) ∧ pq_ok q' ∧ mh q' ≡ₚ m :: mh (pq r).
Proof.
  intros Hq. destruct (Enqueue_ok (pq r) m Hq) as (q' & E & Hok & Hp & _).
  exists q'. unfold requeue, zoom. by rewrite E.
Qed.

Lemma give_expired_ok r m :
  pq_ok (pq r) → (8 ≤ String.length (mission_id m))%nat →
  ∃ q', give_expired m r = (Ret (), set_pq q' r) ∧ pq_ok q' ∧ mh q' ≡ₚ m :: mh (pq r).
Proof.
  intros Hq Hl. destruct (requeue_ok r m Hq) as (q' & E & Hok & Hp). exists q'.
  unfold give_expired. apply slice_to_is_Some in Hl as [t Ht]. rewrite Ht. split; [|done]. exact E.
Qed.

(** The table's records sit under their mission's identifier. *)
Definition keyed (r : gmap string InFlightRecord) : Prop :=
  ∀ e x, r !! e = Some x → mission_id (rec_Mission x) = e.

Lemma keyed_delete r e : keyed r → keyed (delete e r).
Proof. intros H e' x. rewrite lookup_delete. case_decide; [done|apply H]. Qed.

Lemma keyed_insert r e x : keyed r → mission_id (rec_Mission x) = e → keyed (<[e := x]> r).
Proof.
  intros H Hx e' y. rewrite lookup_insert. case_decide as Heq; [|apply H].
  intros [= <-]. congruence.
Qed.

(** A mission whose lease has run out. *)
Definition expired (now : Z) (r : gmap string InFlightRecord) (m : Mission) : Prop :=
  ∃ x, r !! mission_id m = Some x ∧ rec_Mission x = m ∧ after now (ExpiresAt x) = true.

(** The locked loop is the walk of Flow.v. *)
Definition dead (now : Z) (x : InFlightRecord) : bool := after now (ExpiresAt x).

Lemma collect_walk now order r :
  ∃ rs, go_map (collect_visit now) order r =
      (Ret rs, set_records (snd (take_all (dead now) order (records r))) r) ∧
    omap id rs = rec_Mission <$> fst (take_all (dead now) order (records r)).
Proof.
  revert r. induction order as [|k order IH]; intros r; [exists []; by destruct r|].
  rewrite take_all_cons. cbn [fst snd].
  pose proof (collect_visit_eq now k r) as E. unfold take_one.
  destruct (records r !! k) as [x|]; [destruct (dead now x) eqn:Ed; unfold dead in Ed; rewrite Ed in E|].
  - destruct (IH (set_records (delete k (records r)) r)) as (rs & E2 & Ho).
    exists (Some (rec_Mission x) :: rs). split; [by eapply go_map_cons|]. simpl. f_equal. exact Ho.
  - destruct (IH r) as (rs & E2 & Ho). exists (None :: rs). split; [by eapply go_map_cons|exact Ho].
  - destruct (IH r) as (rs & E2 & Ho). exists (None :: rs). split; [by eapply go_map_cons|exact Ho].
Qed.

Lemma sweep_collect_eq now order r :
  sweep_collect now order r =
    (Ret (rec_Mission <$> fst (take_all (dead now) order (records r))),
     set_records (snd (take_all (dead now) order (records r))) r).
Proof.
  destruct (collect_walk now order r) as (rs & E & Ho). unfold sweep_collect.
  rewrite (go_bind_run _ _ _ _ _ E). by rewrite <- Ho.
Qed.

Lemma sweep_collect_ok now order r :
  keyed (records r) →
  ∃ l r', sweep_collect now order r = (Ret l, r') ∧ keyed (records r') ∧ pq r' = pq r ∧
    keys (records r) ≡ₚ (mission_id <$> l) ++ keys (records r') ∧
    (∀ e x, records r' !! e = Some x ↔
       records r !! e = Some x ∧ (after now (ExpiresAt x) = true → e ∉ order)) ∧
    (∀ m, m ∈ l ↔ expired now (records r) m ∧ mission_id m ∈ order).
Proof.
  intros Hk. eexists _, _. split; [apply sweep_collect_eq|]. simpl. split_and!; [|done| | |].
  - intros e x [Hx _]%take_all_left. by apply Hk.
  - rewrite <- list_fmap_compose. by apply (take_all_keys _ (mission_id ∘ rec_Mission)).
  - intros e x. apply (take_all_left (dead now)).
  - intros m. rewrite list_elem_of_fmap. split.
    + intros (x & -> & (e & He & Hx & Hp)%take_all_taken). rewrite (Hk _ _ Hx).
      split; [|done]. exists x. by rewrite (Hk _ _ Hx).
    + intros [(x & Hx & <- & Ha) Hin]. exists x. split; [done|]. apply take_all_taken.
      by exists (mission_id (rec_Mission x)).
Qed.

(** ** Lemmas: one section of the whole radar *)

Lemma places_eq s :
  places s = keys (records (rs_radar s)) ++ (mission_id ∘ snd <$> hand s) ++
             (mission_id <$> mh (pq (rs_radar s))).
Proof. done. Qed.

Definition step_ok (o : radar_op) (s : RadarSys) : Prop :=
  ∃ fl s', radar_step o s = (Ret fl, s') ∧ keyed (records (rs_radar s')) ∧
    pq_ok (pq (rs_radar s')) ∧ balanced places s fl s'.

Lemma radar_run {A} (m : go InFlightManager A) s a r :
  m (rs_radar s) = (Ret a, r) → radar m s = (Ret a, set_radar r s).
Proof. intros E. unfold radar, zoom. by rewrite E. Qed.

Section step.
Context (s : RadarSys) (Hk : keyed (records (rs_radar s))) (Hq : pq_ok (pq (rs_radar s))).

Lemma step_mark now m d : step_ok (RMark now m d) s.
Proof.
  unfold step_ok, radar_step. go_unfold. cbn.
  eexists _, _. split; [done|]. split_and!; [by apply keyed_insert|done|].
  unfold balanced. rewrite !places_eq. simpl.
  destruct (records (rs_radar s) !! mission_id m) as [x|] eqn:E.
  - by rewrite (keys_insert_old _ _ _ x E).
  - rewrite (keys_insert_new _ _ _ E), app_nil_r. cbn [app entered omap list_omap].
    apply (Permutation_app_comm [_]).
Qed.

Lemma step_renew now e d : step_ok (RRenew now e d) s.
Proof.
  unfold step_ok, radar_step. pose proof (RenewLease_eq now e d (rs_radar s)) as E.
  destruct (records (rs_radar s) !! e) as [x|] eqn:Ex; [destruct (after _ _)|].
  - apply radar_run in E. rewrite (go_bind_run _ _ _ _ _ E). eexists _, _. split; [done|].
    split_and!; [done|done|by apply balanced_same].
  - apply radar_run in E. rewrite (go_bind_run _ _ _ _ _ E). eexists _, _. split; [done|].
    split_and!; [apply keyed_insert; [done|by apply (Hk e x)]|done|].
    unfold balanced. rewrite !places_eq. simpl. by rewrite (keys_insert_old _ _ _ x Ex).
  - apply radar_run in E. rewrite (go_bind_run _ _ _ _ _ E). eexists _, _. split; [done|].
    split_and!; [done|done|by apply balanced_same].
Qed.

Lemma step_ack e : step_ok (RAck e) s.
Proof.
  unfold step_ok, radar_step. pose proof (Acknowledge_eq e (rs_radar s)) as E.
  destruct (records (rs_radar s) !! e) as [x|] eqn:Ex; apply radar_run in E;
    rewrite (go_bind_run _ _ _ _ _ E); (eexists _, _; split; [done|]);
    [|split_and!; [done|done|by apply balanced_same]].
  split_and!; [by apply keyed_delete|done|]. unfold balanced. rewrite !places_eq. simpl.
  rewrite (keys_delete _ _ _ Ex), app_nil_r. apply (Permutation_app_comm _ [_]).
Qed.

Lemma step_nack e : step_ok (RNack e) s.
Proof.
  unfold step_ok, radar_step. pose proof (nack_take_eq e (rs_radar s)) as E.
  destruct (records (rs_radar s) !! e) as [x|] eqn:Ex; apply radar_run in E;
    rewrite (go_bind_run _ _ _ _ _ E); (eexists _, _; split; [done|]);
    [|split_and!; [done|done|by apply balanced_same]].
  split_and!; [by apply keyed_delete|done|]. unfold balanced. rewrite !places_eq. simpl.
  rewrite !app_nil_r, (Hk _ _ Ex), (keys_delete _ _ _ Ex). symmetry. apply perm_swap3.
Qed.

Lemma step_collect now order : step_ok (RCollect now order) s.
Proof.
  unfold step_ok, radar_step.
  destruct (sweep_collect_ok now order (rs_radar s) Hk) as (l & r' & E & Hk' & Hpq & Hp & _ & _).
  apply radar_run in E. rewrite (go_bind_run _ _ _ _ _ E). eexists _, _. split; [done|].
  split_and!; [done|by simpl; rewrite Hpq|]. unfold balanced. rewrite !places_eq. simpl.
  rewrite !app_nil_r, Hp, Hpq, fmap_app, <- list_fmap_compose.
  change (mission_id ∘ snd ∘ λ m : Mission, (true, m)) with mission_id.
  rewrite <- !app_assoc. rewrite !(app_assoc (keys _)), (Permutation_app_comm (keys _)).
  by rewrite <- !app_assoc.
Qed.

Lemma step_give i :
  (∀ m, hand s !! i = Some (true, m) → (8 ≤ String.length (mission_id m))%nat) →
  step_ok (RGive i) s.
Proof.
  intros Hl. unfold step_ok, radar_step.
  destruct (hand s !! i) as [[b m]|] eqn:Eh.
  2: { exists [], s. go_unfold. rewrite Eh. split_and!; [done|done|done|by apply balanced_same]. }
  assert (∃ q', (if b then give_expired m else requeue m) (rs_radar s) =
      (Ret (), set_pq q' (rs_radar s)) ∧ pq_ok q' ∧ mh q' ≡ₚ m :: mh (pq (rs_radar s)))
    as (q' & E & Hok & Hp).
  { destruct b; [apply give_expired_ok|apply requeue_ok]; auto. }
  apply radar_run in E. exists [].
  exists (set_hand (delete i (hand s)) (set_radar (set_pq q' (rs_radar s)) s)).
  split; [unfold mbind, go_mbind, get; by rewrite Eh, E|].
  split_and!; [done|done|]. unfold balanced. rewrite !places_eq. simpl. rewrite !app_nil_r.
  assert (mission_id ∘ snd <$> hand s ≡ₚ mission_id m :: (mission_id ∘ snd <$> delete i (hand s)))
    as -> by (by rewrite (delete_Permutation (hand s) i (b, m) Eh) at 1).
  rewrite Hp, fmap_cons. symmetry. apply perm_swap4.
Qed.

Lemma step_take : step_ok RTake s.
Proof.
  unfold step_ok, radar_step.
  destruct (decide (mh (pq (rs_radar s)) = [])) as [En|Hne].
  - pose proof (Dequeue_empty _ En) as E.
    assert (radar (zoom pq set_pq Dequeue) s = (Ret (zeroMission, false), s)) as E1.
    { unfold radar, zoom. rewrite E. by destruct s as [[] ?]. }
    rewrite (go_bind_run _ _ _ _ _ E1). eexists _, _. split; [done|].
    split_and!; [done|done|by apply balanced_same].
  - destruct (Dequeue_ok _ Hq Hne) as (m & q' & E & Hok & Hp & _).
    assert (radar (zoom pq set_pq Dequeue) s =
      (Ret (m, true), set_radar (set_pq q' (rs_radar s)) s)) as E1.
    { apply radar_run. unfold zoom. by rewrite E. }
    rewrite (go_bind_run _ _ _ _ _ E1). eexists _, _. split; [done|].
    split_and!; [done|done|]. unfold balanced. rewrite !places_eq. simpl.
    rewrite Hp, fmap_cons, app_nil_r. rewrite <- perm_swap4, <- perm_swap3.
    apply (Permutation_app_comm _ [_]).
Qed.

Lemma step_age c : step_ok (RAge c) s.
Proof.
  unfold step_ok, radar_step. destruct (aging_ids _ c Hq) as (q' & E & Hok & Hi).
  assert (radar (zoom pq set_pq (antiStarvationRound c)) s =
    (Ret (), set_radar (set_pq q' (rs_radar s)) s)) as E1.
  { apply radar_run. unfold zoom. by rewrite E. }
  rewrite (go_bind_run _ _ _ _ _ E1). eexists _, _. split; [done|].
  split_and!; [done|done|]. unfold balanced. rewrite !places_eq. simpl. by rewrite Hi.
Qed.
End step.

Lemma radar_step_ok o s : radar_ok s → op_long o →
  ∃ fl s', radar_step o s = (Ret fl, s') ∧ radar_ok s' ∧ balanced places s fl s'.
Proof.
  intros [Hk Hq Hl] Ho.
  assert (step_ok o s) as (fl & s' & E & Hk' & Hq' & Hb).
  { destruct o; [by apply step_mark|by apply step_renew|by apply step_ack|by apply step_nack
      |by apply step_collect| |by apply step_take|by apply step_age].
    apply step_give; [done|done|]. intros m Hm. apply Hl. rewrite places_eq.
    apply elem_of_app. right. apply elem_of_app. left. apply list_elem_of_fmap.
    exists (true, m). split; [done|]. by apply list_elem_of_lookup_2 in Hm. }
  exists fl, s'. split; [done|]. split; [|done]. split; [done|done|].
  intros e He. destruct (balanced_elem _ _ _ _ e Hb He) as [He'|He']; [by apply Hl|].
  destruct o as [now m d|now e' d|e'|e'|now order|i| |c]; unfold radar_step in E; go_unfold_in E;
    repeat (case_match; try discriminate; simplify_eq); simpl in He';
    try (by apply not_elem_of_nil in He').
  all: apply list_elem_of_singleton in He'; by subst.
Qed.

(** The radar the station starts with. *)
Definition new_sys (limit : Z) : RadarSys := mkSys (NewInFlightManager (New limit)) [].

Lemma new_sys_ok limit : radar_ok (new_sys limit).
Proof. split; [done|apply New_ok|]. intros e He. by apply not_elem_of_nil in He. Qed.

(** ** The properties *)

(** C16: no mission is lost or duplicated by the radar: for every interleaving
    of the locked sections of all its callers, the identifiers that entered
    it are exactly those that left it (acknowledged, overwritten or taken
    from the queue) and those it still tracks, in the table, in the queue or
    in the hand of a sweep; and no section panics while the identifiers have
    eight bytes. *)
Theorem radar_conservation limit ops :
  Forall op_long ops →
  ∃ fls s', go_map radar_step ops (new_sys limit) = (Ret fls, s') ∧
    places s' ++ left_ids (concat fls) ≡ₚ entered (concat fls).
Proof.
  intros Ho. destruct (flow_run_ok places radar_step radar_ok op_long radar_step_ok ops _ (new_sys_ok limit) Ho) as (fls & s' & E & _ & B).
  by exists fls, s'.
Qed.

Lemma radar_conservation_witness :
  let a := sample "event-001" false 3 in
  let b := sample "event-002" false 4 in
  let ops := [RMark 0 a 10; RMark 1 b 10; RCollect 11 ["event-002"; "event-001"];
              RAck "event-001"; RNack "event-002"; RGive 1; RAge 20; RTake] in
  ∃ fls s', go_map radar_step ops (new_sys 10) = (Ret fls, s') ∧
    places s' = ["event-002"] ∧ places s' ++ left_ids (concat fls) ≡ₚ entered (concat fls).
Proof.
  intros a b ops. destruct (radar_conservation 10 ops) as (fls & s' & E & B).
  - repeat constructor.
  - exists fls, s'. split; [exact E|]. split; [|exact B].
    revert E. vm_compute. by intros [= <- <-].
Defined.

(** Steps that leave the lease of [e] alone until the instant [until]. *)
Definition lease_op (e : string) (until : Z) (o : radar_op) : Prop :=
  match o with
  | RMark _ m _ => mission_id m ≠ e
  | RRenew now e' d => e' = e → until ≤ now + d
  | RAck e' | RNack e' => e' ≠ e
  | RCollect now _ => now ≤ until
  | RGive _ | RTake | RAge _ => True
  end.

Definition leased (e : string) (m : Mission) (until : Z) (s : RadarSys) : Prop :=
  ∃ x, records (rs_radar s) !! e = Some x ∧ rec_Mission x = m ∧ until ≤ ExpiresAt x.

Lemma collect_leased e m until now order r x :
  records r !! e = Some x → rec_Mission x = m → until ≤ ExpiresAt x → now ≤ until →
  records (snd (sweep_collect now order r)) !! e = Some x.
Proof.
  intros Hx Hm Hu Hn. unfold sweep_collect. go_unfold.
  pose proof (go_map_inv (λ r, records r !! e = Some x) (collect_visit now) order r) as H.
  destruct (go_map (collect_visit now) order r) as [[l|p] r']; apply H; try done; clear -Hu Hn;
    intros k r Hx; rewrite collect_visit_eq;
    (destruct (records r !! k) as [y|] eqn:Ek; [|done]); destruct (after now (ExpiresAt y)) eqn:Ea; try done;
    simpl; (rewrite lookup_delete_ne; [done|]); intros ->; rewrite Hx in Ek; injection Ek as <-;
    unfold after in Ea; lia.
Qed.

Lemma requeue_records m r : records (snd (requeue m r)) = records r.
Proof. unfold requeue, zoom. by destruct (Enqueue m (pq r)). Qed.

Lemma give_records m r : records (snd (give_expired m r)) = records r.
Proof.
  unfold give_expired. go_unfold. destruct (slice_to _ 8); [|done].
  unfold requeue, zoom. by destruct (Enqueue m (pq r)).
Qed.

Lemma radar_snd {A} (m : go InFlightManager A) s : rs_radar (snd (radar m s)) = snd (m (rs_radar s)).
Proof. unfold radar, zoom. by destruct (m (rs_radar s)). Qed.

Lemma step_leased e m until o s :
  lease_op e until o → leased e m until s → leased e m until (snd (radar_step o s)).
Proof.
  intros Ho (x & Hx & Hm & Hu). unfold leased.
  destruct o as [now m' d|now e' d|e'|e'|now order|i| |c]; simpl in Ho; unfold radar_step.
  - go_unfold. simpl. rewrite lookup_insert_ne by done. by exists x.
  - go_unfold. unfold radar, zoom. rewrite RenewLease_eq.
    destruct (records (rs_radar s) !! e') as [y|] eqn:Ey; [destruct (after _ _)|]; simpl; try by exists x.
    destruct (decide (e' = e)) as [->|Hne]; [|rewrite lookup_insert_ne by done; by exists x].
    rewrite lookup_insert_eq. rewrite Hx in Ey. injection Ey as <-. eexists. split; [done|]. simpl. auto.
  - go_unfold. unfold radar, zoom. rewrite Acknowledge_eq.
    destruct (records (rs_radar s) !! e') eqn:Ey; simpl; [rewrite lookup_delete_ne by done|]; by exists x.
  - go_unfold. unfold radar, zoom. rewrite nack_take_eq.
    destruct (records (rs_radar s) !! e') eqn:Ey; simpl; [rewrite lookup_delete_ne by done|]; by exists x.
  - pose proof (collect_leased e m until now order (rs_radar s) x Hx Hm Hu Ho) as Hc.
    exists x. split; [|done]. revert Hc. unfold mbind, go_mbind, radar, zoom, modify.
    destruct (sweep_collect now order (rs_radar s)) as [[l|p] r']; done.
  - exists x. split; [|done]. unfold mbind, go_mbind, get, modify.
    destruct (hand s !! i) as [[b m']|]; [|done].
    pose proof (radar_snd (if b then give_expired m' else requeue m') s) as Hr.
    assert (records (rs_radar (snd (radar (if b then give_expired m' else requeue m') s))) =
            records (rs_radar s)) as Hs.
    { rewrite Hr. destruct b; [apply give_records|apply requeue_records]. }
    destruct (radar _ s) as [[u|p] s1]; simpl in *; by rewrite Hs.
  - exists x. split; [|done]. unfold mbind, go_mbind, radar, zoom.
    destruct (Dequeue (pq (rs_radar s))) as [[[m' b]|p] q']; done.
  - exists x. split; [|done]. unfold mbind, go_mbind, radar, zoom.
    destruct (antiStarvationRound c (pq (rs_radar s))) as [[u|p] q']; done.
Qed.

(** C23: a lease protects its drone.  From the moment a lease to [until] holds,
    whatever other callers do, the janitor included as long as it reads an
    instant no later than [until], the mission stays the drone's; then a
    renewal that arrives in time is granted. *)
Theorem lease_safety e m until ops s now d :
  leased e m until s → Forall (lease_op e until) ops → now ≤ until →
  let s' := snd (go_map radar_step ops s) in
  leased e m until s' ∧ go_val (RenewLease now e d) (rs_radar s') = Ret true.
Proof.
  intros Hs Ho Hn s'. assert (leased e m until s') as Hl.
  { subst s'. revert s Hs. induction ops as [|o ops IH]; intros s Hs; [done|].
    apply Forall_cons in Ho as [Ho Hos]. cbn [go_map]. unfold mbind, go_mbind.
    pose proof (step_leased e m until o s Ho Hs) as H1.
    destruct (radar_step o s) as [[fl|p] s1]; simpl in H1; [|done].
    specialize (IH Hos s1 H1). by destruct (go_map radar_step ops s1) as [[]]. }
  split; [done|]. destruct Hl as (x & Hx & _ & Hu). unfold go_val. rewrite RenewLease_eq, Hx.
  unfold after. by rewrite (proj2 (Z.ltb_ge _ _)) by lia.
Qed.

Lemma lease_safety_witness :
  let a := sample "event-001" false 3 in
  let s := snd (radar_step (RMark 0 a 10) (new_sys 10)) in
  let s' := snd (go_map radar_step [RCollect 10 ["event-001"]; RTake] s) in
  leased "event-001" a 10 s' ∧ go_val (RenewLease 10 "event-001" 10) (rs_radar s') = Ret true.
Proof.
  intros a s. apply (lease_safety "event-001" a 10 [RCollect 10 ["event-001"]; RTake] s 10 10).
  - exists (mkRecord a 10). by split_and!.
  - repeat constructor. simpl. lia.
  - lia.
Defined.

Lemma sweep_spec now order r :
  keyed (records r) → pq_ok (pq r) → (∀ e, is_Some (records r !! e) → e ∈ order) →
  (∀ e, is_Some (records r !! e) → (8 ≤ String.length e)%nat) →
  ∃ r' l, sweep now order r = (Ret (), r') ∧ pq_ok (pq r') ∧ mh (pq r') ≡ₚ l ++ mh (pq r) ∧
    (∀ m, m ∈ l ↔ expired now (records r) m) ∧
    keys (records r) ≡ₚ (mission_id <$> l) ++ keys (records r') ∧
    ∀ e x, records r' !! e = Some x ↔ records r !! e = Some x ∧ after now (ExpiresAt x) = false.
Proof.
  intros Hk Hq Hall Hlong.
  destruct (sweep_collect_ok now order r Hk) as (l & r1 & E & Hk1 & Hp1 & Hperm & Hl & Hm).
  assert (∀ m, m ∈ l ↔ expired now (records r) m) as Hm'.
  { intros m. rewrite Hm. split; [by intros [? _]|]. intros He. split; [done|].
    destruct He as (x & Hx & _). apply Hall. by rewrite Hx. }
  assert (∀ m, m ∈ l → (8 ≤ String.length (mission_id m))%nat) as Hll.
  { intros m (x & Hx & _)%Hm'. apply Hlong. by rewrite Hx. }
  assert (∃ r', go_for give_expired l r1 = (Ret (), r') ∧ pq_ok (pq r') ∧
    records r' = records r1 ∧ mh (pq r') ≡ₚ l ++ mh (pq r1)) as (r' & E' & Hq' & Hr' & Hp').
  { rewrite <- Hp1 in Hq. clear -Hll Hq. revert r1 Hq. induction l as [|m l IH]; intros r1 Hq; [by exists r1|].
    destruct (give_expired_ok r1 m Hq) as (q' & E & Hok & Hp); [apply Hll; by left|].
    destruct (IH (λ x Hx, Hll x (list_elem_of_further _ _ _ Hx)) (set_pq q' r1) Hok) as (r' & E' & Hq' & Hr & Hp').
    exists r'. cbn [go_for]. rewrite (go_bind_run _ _ _ _ _ E). split_and!; [done|done|done|].
    rewrite Hp'. simpl. rewrite Hp. symmetry. apply Permutation_middle. }
  exists r', l. split_and!; [unfold sweep; by rewrite (go_bind_run _ _ _ _ _ E)|done|by rewrite Hp', Hp1
    |done|by rewrite Hr'|].
  intros e x. rewrite Hr', Hl. destruct (after now (ExpiresAt x)); [|by split; intros [? _]].
  split; [|by intros [_ [=]]]. intros [Hx Hn]. destruct (Hn eq_refl). apply Hall. by rewrite Hx.
Qed.

(** A sweep takes exactly the missions whose lease has run out from the
    table to the queue, in whatever order it visits the table; a mission with
    a short identifier makes it panic after the mission left the table and
    before it reached the queue. *)
Lemma sweep_exact now order r :
  keyed (records r) → pq_ok (pq r) → (∀ e, is_Some (records r !! e) → e ∈ order) →
  ((∀ e, is_Some (records r !! e) → (8 ≤ String.length e)%nat) →
   ∃ r' l, sweep now order r = (Ret (), r') ∧ pq_ok (pq r') ∧ mh (pq r') ≡ₚ l ++ mh (pq r) ∧
     (∀ m, m ∈ l ↔ expired now (records r) m) ∧
     keys (records r) ≡ₚ (mission_id <$> l) ++ keys (records r') ∧
     ∀ e x, records r' !! e = Some x ↔ records r !! e = Some x ∧ after now (ExpiresAt x) = false) ∧
  (∀ m, expired now (records r) m → order = [mission_id m] → (String.length (mission_id m) < 8)%nat →
     sweep now order r = (Panic SliceBounds, set_records (delete (mission_id m) (records r)) r)).
Proof.
  intros Hk Hq Hall. split.
  - by apply sweep_spec.
  - intros m (x & Hx & <- & Ha) -> Hshort. unfold sweep, sweep_collect.
    assert (go_map (collect_visit now) [mission_id (rec_Mission x)] r =
      (Ret [Some (rec_Mission x)], set_records (delete (mission_id (rec_Mission x)) (records r)) r)) as E.
    { eapply go_map_cons; [|done]. by rewrite collect_visit_eq, Hx, Ha. }
    unfold mbind, go_mbind. rewrite E. simpl. unfold mbind, go_mbind, give_expired.
    unfold mbind, go_mbind. by rewrite (proj2 (slice_to_None _ 8) Hshort).
Qed.

Lemma sweep_exact_witness :
  let a := sample "EVT-1" false 3 in
  let r := set_records {[ "EVT-1" := mkRecord a 10 ]} (NewInFlightManager (New 10)) in
  sweep 11 ["EVT-1"] r = (Panic SliceBounds, set_records (delete "EVT-1" (records r)) r).
Proof.
  intros a r. refine (proj2 (sweep_exact 11 ["EVT-1"] r _ _ _) a _ _ _).
  - intros e x. simpl. rewrite lookup_singleton. case_decide; [|done]. by intros [= <-].
  - apply New_ok.
  - intros e. simpl. rewrite lookup_singleton. case_decide; [subst; by left|]. by intros [? [=]].
  - by exists (mkRecord a 10).
  - done.
  - simpl. lia.
Defined.
