(* ===== verification/Router.v ===== *)
(** * Topology and sector ownership (cmd/broker/routing.go)

    The consistent-hashing ring is the interface [Ring]: the program relies
    on [RingLaws].  The DNS answer and the machine's interface addresses are
    arguments.  One round of [WatchTopology] is one step. *)

From stdpp Require Import sorting.
From S2P Require Import Prelude GoStd.

(** ** The ring *)

Class Ring : Type := {
  ring : Type;
  ring_New : ring;
  ring_SetReplicas : Z → ring → ring;    (* the field NumberOfReplicas *)
  ring_Set : list string → ring → ring;
  ring_Add : string → ring → ring;
  ring_Remove : string → ring → ring;
  ring_Get : string → ring → option string;
  ring_Members : ring → list string;
}.

(** [Set] makes the ring hold the given members, and [Get] answers with a
    member whenever there is one. *)
Class RingLaws `{!Ring} : Prop := {
  Members_Set l r x : x ∈ ring_Members (ring_Set l r) ↔ x ∈ l;
  Get_member k r x : ring_Get k r = Some x → x ∈ ring_Members r;
  Get_total k r x : x ∈ ring_Members r → is_Some (ring_Get k r);
}.

(** ** strings.Join *)

Fixpoint Join (l : list string) (sep : ascii) : string :=
  match l with
  | [] => ""
  | [w] => w
  | w :: ws => w +:+ String sep (Join ws sep)
  end.

(** ** The machine's addresses *)

(** What the program asks of a [net.Addr]: is it an [*net.IPNet], is its
    address a loopback one, has it an IPv4 form, and its text. *)
Record Addr : Type := mkAddr {
  is_ipnet : bool;
  is_loopback : bool;
  has_v4 : bool;
  addr_text : string;
}.

Fixpoint first_v4 (addrs : list Addr) : string :=
  match addrs with
  | [] => "127.0.0.1"
  | a :: addrs =>
    if is_ipnet a && negb (is_loopback a) && has_v4 a then addr_text a else first_v4 addrs
  end.

(** [None]: [net.InterfaceAddrs] failed. *)
Definition getLocalIP (ifs : option (list Addr)) : string :=
  match ifs with None => "127.0.0.1" | Some addrs => first_v4 addrs end.

Definition isLocalIP (ifs : option (list Addr)) (ip : string) : bool :=
  if bool_decide (ip = "127.0.0.1") || bool_decide (ip = "localhost") then true
  else if bool_decide (ip = getLocalIP ifs) then true
  else match ifs with
       | None => false
       | Some addrs => existsb (λ a, is_ipnet a && bool_decide (addr_text a = ip)) addrs
       end.

(** What a UDP transmission meets. *)
Inductive udp_outcome : Type := ResolveFails | DialFails | WriteFails | Written.

(** The datagram to port 9000 of the target, if there is one. *)
Definition forwardPacket (net : udp_outcome) (targetIP payload : string) : option (string * string) :=
  match net with
  | ResolveFails => None
  | DialFails => None
  | WriteFails => None
  | Written => Some (targetIP, payload)
  end.

(** ** The router *)

Section router.
Context {RG : Ring}.

Record SectorRouter : Type := mkRouter {
  the_ring : ring;
  previousSwarmState : string;
  sectorCount : Z;
  dnsTarget : string;
}.

Definition NewSectorRouter (sectorCount : Z) (dnsTarget : string) : SectorRouter :=
  mkRouter ring_New "" sectorCount dnsTarget.

Definition set_ring (rg : ring) (r : SectorRouter) : SectorRouter :=
  mkRouter rg (previousSwarmState r) (sectorCount r) (dnsTarget r).

(** The ring built for an answer, [NumberOfReplicas] being 256. *)
Definition build_ring (ipStrs : list string) : ring :=
  ring_Set ipStrs (ring_SetReplicas 256 ring_New).

(** One round of [WatchTopology]: [answer] is [None] when the lookup fails.
    The result tells whether the callback is started. *)
Definition watch_round (answer : option (list string)) : go SectorRouter bool :=
  match answer with
  | None | Some [] => mret false
  | Some ips =>
    let ipStrs := sort_strings ips in
    let currentState := Join ipStrs "," in
    r ← get;
    if bool_decide (currentState = previousSwarmState r) then mret false
    else
      modify (λ r, mkRouter (build_ring ipStrs) currentState (sectorCount r) (dnsTarget r)) ;;
      mret true
  end.

Definition sector_key (sectorID : Z) : string := "sector-" +:+ Itoa sectorID.

Definition GetOwnerIP (sectorID : Z) (r : SectorRouter) : string :=
  default "" (ring_Get (sector_key sectorID) (the_ring r)).

(** A nil list and an empty one are the same list here. *)
Definition GetAllMembers (r : SectorRouter) : list string := ring_Members (the_ring r).

Definition AddMember (ip : string) : go SectorRouter () :=
  modify (λ r, set_ring (ring_Add ip (the_ring r)) r).
Definition RemoveMember (ip : string) : go SectorRouter () :=
  modify (λ r, set_ring (ring_Remove ip (the_ring r)) r).

(** ** Invariant: the ring is the one of the last answer *)

(** The text of an address: not empty and without commas. *)
Definition ip_text (ip : string) : Prop := ip ≠ "" ∧ contains_byte "," ip = false.

Definition saw (l : list string) (r : SectorRouter) : Prop :=
  Forall ip_text l ∧ l ≠ [] ∧ previousSwarmState r = Join (sort_strings l) "," ∧
  the_ring r = build_ring (sort_strings l).

(** Before the first answer. *)
Definition fresh (r : SectorRouter) : Prop := previousSwarmState r = "" ∧ the_ring r = ring_New.

(** ** Lemmas *)

Lemma Join_nonempty l : Forall ip_text l → l ≠ [] → Join l "," ≠ "".
Proof.
  intros Hl Hne. destruct Hl as [|w ws [Hw _] Hws]; [done|]. destruct ws as [|v ws]; [done|].
  cbn [Join]. destruct w; [done|]. by rewrite str_app_cons.
Qed.

Lemma Split_Join l : Forall ip_text l → l ≠ [] → Split (Join l ",") "," = l.
Proof.
  intros Hl Hne. induction Hl as [|w ws [Hw Hc] Hws IH]; [done|].
  destruct ws as [|v ws]; [by apply Split_no_sep|].
  change (Join (w :: v :: ws) ",") with (w +:+ String "," (Join (v :: ws) ",")).
  rewrite Split_app_sep by done. by rewrite IH.
Qed.

Lemma sort_strings_ok l : Forall ip_text l → l ≠ [] →
  Forall ip_text (sort_strings l) ∧ sort_strings l ≠ [].
Proof.
  intros Hl Hne. split; [by rewrite sort_strings_perm|]. intros E. apply Hne.
  apply Permutation_nil_r. by rewrite <- E, sort_strings_perm.
Qed.

(** Equal states come from equal answers. *)
Lemma Join_sorted_inj l1 l2 :
  Forall ip_text l1 → l1 ≠ [] → Forall ip_text l2 → l2 ≠ [] →
  Join (sort_strings l1) "," = Join (sort_strings l2) "," ↔ l1 ≡ₚ l2.
Proof.
  intros H1 N1 H2 N2. split; [|by intros ->%sort_strings_proper].
  destruct (sort_strings_ok l1 H1 N1) as [F1 M1], (sort_strings_ok l2 H2 N2) as [F2 M2].
  intros E. apply (f_equal (λ s, Split s ",")) in E. rewrite !Split_Join in E by done.
  by rewrite <- (sort_strings_perm l1), E, sort_strings_perm.
Qed.

Lemma watch_round_eq l r : l ≠ [] →
  watch_round (Some l) r =
    if bool_decide (Join (sort_strings l) "," = previousSwarmState r) then (Ret false, r)
    else (Ret true, mkRouter (build_ring (sort_strings l)) (Join (sort_strings l) ",")
                      (sectorCount r) (dnsTarget r)).
Proof.
  intros Hne. destruct l as [|x l]; [done|]. unfold watch_round. go_unfold. by case_bool_decide.
Qed.

Lemma watch_round_saw l r :
  Forall ip_text l → l ≠ [] → fresh r ∨ (∃ l0, saw l0 r) →
  saw l (go_run (watch_round (Some l)) r).
Proof.
  intros Hl Hne Hr. unfold go_run. rewrite watch_round_eq by done.
  case_bool_decide as E; [|by split_and!]. destruct Hr as [[Hp _]|(l0 & Hl0 & Hne0 & Hp & Hg)].
  - destruct (sort_strings_ok l Hl Hne) as [F M]. rewrite Hp in E. by apply Join_nonempty in E.
  - rewrite Hp in E. apply Join_sorted_inj in E; try done. simpl. split_and!; [done|done| |].
    + by rewrite Hp, (sort_strings_proper _ _ E).
    + by rewrite Hg, (sort_strings_proper _ _ E).
Qed.

Context {RL : RingLaws}.

Lemma owner_member l r sectorID : saw l r → GetOwnerIP sectorID r ∈ l.
Proof.
  intros (Hl & Hne & _ & Hg). unfold GetOwnerIP. rewrite Hg. unfold build_ring.
  destruct (sort_strings_ok l Hl Hne) as [_ M].
  destruct (sort_strings l) as [|x l'] eqn:Es; [done|].
  assert (x ∈ ring_Members (ring_Set (x :: l') (ring_SetReplicas 256 ring_New))) as Hx
    by (apply Members_Set; by left).
  destruct (Get_total (sector_key sectorID) _ _ Hx) as [y Hy]. rewrite Hy. simpl.
  apply Get_member, Members_Set in Hy. by rewrite <- Es, sort_strings_perm in Hy.
Qed.

(** C24: brokers agree on who owns a sector: after a round that saw the same
    set of addresses, in any order and from any earlier state of the watch,
    two routers name the same owner for every sector, one of the addresses,
    and list exactly the addresses as members. *)
Theorem routers_agree l1 l2 r1 r2 sectorID :
  l1 ≡ₚ l2 → Forall ip_text l1 → l1 ≠ [] →
  fresh r1 ∨ (∃ l, saw l r1) → fresh r2 ∨ (∃ l, saw l r2) →
  let r1' := go_run (watch_round (Some l1)) r1 in
  let r2' := go_run (watch_round (Some l2)) r2 in
  GetOwnerIP sectorID r1' = GetOwnerIP sectorID r2' ∧ GetOwnerIP sectorID r1' ∈ l1 ∧
  (∀ ip, ip ∈ GetAllMembers r1' ↔ ip ∈ l1) ∧ saw l1 r1'.
Proof.
  intros Hp Hl Hne H1 H2 r1' r2'.
  assert (saw l1 r1') as S1 by (by apply watch_round_saw).
  assert (saw l2 r2') as S2.
  { apply watch_round_saw; [by rewrite <- Hp|intros ->; by apply Permutation_nil_r in Hp|done]. }
  split_and!; [|by apply owner_member| |done].
  - destruct S1 as (_ & _ & _ & E1), S2 as (_ & _ & _ & E2).
    unfold GetOwnerIP. by rewrite E1, E2, (sort_strings_proper _ _ Hp).
  - intros ip. unfold GetAllMembers. destruct S1 as (_ & _ & _ & ->). unfold build_ring.
    rewrite Members_Set. by rewrite sort_strings_perm.
Qed.

(** The rescue callback is started exactly when the set of addresses
    differs from the last one seen; a failed or empty lookup, or the same
    addresses in another order, changes nothing. *)
Lemma rescue_triggers l0 r answer :
  saw l0 r →
  (∀ l, answer = Some l → Forall ip_text l) →
  (go_val (watch_round answer) r = Ret true ↔ ∃ l, answer = Some l ∧ l ≠ [] ∧ ¬ l ≡ₚ l0) ∧
  (go_val (watch_round answer) r = Ret false → go_run (watch_round answer) r = r).
Proof.
  intros (Hl0 & Hne0 & Hp & _) Hans. unfold go_val, go_run. destruct answer as [[|x l]|].
  1,3: split; [split; [done|by intros (? & [= <-] & ? & _)]|done].
  rewrite watch_round_eq by done. rewrite Hp. case_bool_decide as E.
  - apply Join_sorted_inj in E; [|by apply Hans|done..]. split; [|done].
    split; [done|]. by intros (? & [= <-] & _ & ?).
  - split; [|done]. split; [|done]. intros _. exists (x :: l). split_and!; [done|done|].
    intros Hpe. apply E. by rewrite (sort_strings_proper _ _ Hpe).
Qed.

(** What counts as a local address. *)
Lemma isLocalIP_spec ifs ip :
  isLocalIP ifs ip = true ↔
    ip = "127.0.0.1" ∨ ip = "localhost" ∨
    ∃ addrs a, ifs = Some addrs ∧ a ∈ addrs ∧ is_ipnet a = true ∧ addr_text a = ip.
Proof.
  assert (getLocalIP ifs = "127.0.0.1" ∨ ∃ addrs a, ifs = Some addrs ∧ a ∈ addrs ∧
    is_ipnet a = true ∧ addr_text a = getLocalIP ifs) as Hg.
  { destruct ifs as [addrs|]; [|by left]. simpl. induction addrs as [|a addrs IH]; [by left|].
    simpl. destruct (is_ipnet a) eqn:E1; simpl;
      [destruct (negb (is_loopback a)); simpl; [destruct (has_v4 a)|]|].
    1: { right. exists (a :: addrs), a. split_and!; [done|by left|done|done]. }
    all: destruct IH as [->|(? & b & [= <-] & Hb & ? & ?)]; [by left|];
      right; exists (a :: addrs), b; (split_and!; [done|by right|done|done]). }
  unfold isLocalIP. repeat case_bool_decide; simplify_eq/=; try (split; [by auto|done]).
  - split; [|done]. intros _. destruct Hg as [?|?]; [by left|by do 2 right].
  - destruct ifs as [addrs|]; [|split; [done|by intros [?|[?|(? & ? & ? & _)]]]].
    rewrite existsb_exists. split.
    + intros (a & Ha & [Hi Ht]%andb_true_iff). apply bool_decide_eq_true in Ht.
      do 2 right. exists addrs, a. split_and!; [done|by apply list_elem_of_In|done|done].
    + intros [?|[?|(? & a & [= <-] & Ha & ? & ?)]]; [done|done|]. exists a.
      split; [by apply list_elem_of_In|]. apply andb_true_iff. split; [done|].
      by apply bool_decide_eq_true.
Qed.
End router.

(** ** A concrete ring, to run the router on *)

Definition toy_slot (k : string) (n : nat) : nat :=
  Nat.modulo (fold_left (λ acc c, acc + Z.to_nat (byte_val c))%nat (String.list_ascii_of_string k) O) n.

#[export] Instance ToyRing : Ring := {
  ring := list string;
  ring_New := [];
  ring_SetReplicas _ r := r;
  ring_Set l _ := l;
  ring_Add ip r := ip :: r;
  ring_Remove ip r := filter (λ x, x ≠ ip) r;
  ring_Get k r := r !! toy_slot k (length r);
  ring_Members r := r;
}.

#[export] Instance ToyRing_laws : RingLaws.
Proof.
  split; simpl.
  - done.
  - intros k r x H. by apply list_elem_of_lookup_2 in H.
  - intros k r x Hx. apply lookup_lt_is_Some_2, Nat.mod_upper_bound.
    intros E. apply nil_length_inv in E. subst. by apply not_elem_of_nil in Hx.
Qed.

Definition two_ips : list string := ["10.0.0.2"; "10.0.0.1"].

Lemma two_ips_text : Forall ip_text two_ips.
Proof. by repeat constructor. Qed.

Lemma routers_agree_witness :
  let r1 := NewSectorRouter 25 "tasks.broker" in
  let r2 := go_run (watch_round (Some ["10.0.0.9"])) r1 in
  GetOwnerIP 7 (go_run (watch_round (Some two_ips)) r1) =
  GetOwnerIP 7 (go_run (watch_round (Some (reverse two_ips))) r2).
Proof.
  intros r1 r2. refine (proj1 (routers_agree two_ips (reverse two_ips) r1 r2 7 _ _ _ _ _)).
  - symmetry. apply reverse_Permutation.
  - exact two_ips_text.
  - done.
  - by left.
  - right. exists ["10.0.0.9"]. apply watch_round_saw; [by repeat constructor|done|by left].
Defined.

Lemma rescue_triggers_witness :
  let r := go_run (watch_round (Some two_ips)) (NewSectorRouter 25 "tasks.broker") in
  go_val (watch_round (Some ["10.0.0.1"])) r = Ret true ∧
  go_val (watch_round (Some (reverse two_ips))) r ≠ Ret true.
Proof.
  intros r. assert (saw two_ips r) as Hs
    by (apply watch_round_saw; [exact two_ips_text|done|by left]).
  split.
  - apply (rescue_triggers two_ips r (Some ["10.0.0.1"]) Hs).
    + intros l [= <-]. by repeat constructor.
    + exists ["10.0.0.1"]. split_and!; [done|done|]. intros H. by apply Permutation_length in H.
  - intros H. apply (rescue_triggers two_ips r (Some (reverse two_ips)) Hs) in H.
    + destruct H as (l & [= <-] & _ & Hn). apply Hn. apply reverse_Permutation.
    + intros l [= <-]. by repeat constructor.
Defined.
