(* ===== verification/Buffers.v ===== *)
(** * The broker's two buffers (cmd/broker/shadowbuffer.go, cmd/broker/unverified_buffer.go)

    Missions of sectors other brokers own: those whose payment the owner has
    confirmed (shadow) and those still waiting for the verdict (unverified).
    Both are concurrent maps keyed by event; one visit of a [Range] is one
    step. *)

From S2P Require Import Prelude GoStd GoHeap Model Queue Flow Router.
Local Open Scope Z_scope.

(** [eventID[:8]] in a log line. *)
Definition log_id {S} (eventID : string) : go S () :=
  or_panic SliceBounds (slice_to eventID 8) ;; mret ().

Lemma log_id_long {S} e (s : S) : (8 ≤ String.length e)%nat → log_id e s = (Ret (), s).
Proof. intros H. apply slice_to_is_Some in H as [t Ht]. unfold log_id. by rewrite Ht. Qed.

Lemma log_id_short {S} e (s : S) : (String.length e < 8)%nat → log_id e s = (Panic SliceBounds, s).
Proof. intros H. apply slice_to_None in H. unfold log_id. by rewrite H. Qed.

(** A handler under net/http: a panic ends the request, not the process. *)
Definition serve {S A} (h : go S A) : go S (option A) := λ s,
  match h s with
  | (Ret a, s') => (Ret (Some a), s')
  | (Panic _, s') => (Ret None, s')
  end.

(** ** Unverified *)

Record UnverifiedRecord : Type := mkUnverified {
  uv_Mission : Mission;
  uv_ExpiresAt : Z;
}.

Abbreviation Unverified := (gmap string UnverifiedRecord).

Definition NewUnverifiedBufferManager : Unverified := ∅.

(** Ten seconds to hear from the owner. *)
Definition validation_timeout : Z := 10 * 1000000000.

Definition Unverified_Store (now : Z) (mission : Mission) : go Unverified () :=
  modify <[mission_id mission := mkUnverified mission (now + validation_timeout)]>.

Definition RetrieveAndRemove (eventID : string) : go Unverified (Mission * bool) :=
  b ← get;
  match b !! eventID with
  | Some record => modify (delete eventID) ;; mret (uv_Mission record, true)
  | None => mret (zeroMission, false)
  end.

(** One visit of the janitor. *)
Definition unverified_visit (now : Z) (key : string) : go Unverified () :=
  b ← get;
  match b !! key with
  | Some record =>
    if uv_ExpiresAt record <? now then modify (delete key) ;; log_id key else mret ()
  | None => mret ()
  end.

Definition unverified_round (now : Z) (keys : list string) : go Unverified () :=
  go_for (unverified_visit now) keys.

(** ** Shadow *)

Abbreviation Shadow := (gmap string Mission).

Definition NewShadowBufferManager : Shadow := ∅.

Definition Shadow_Store (mission : Mission) : go Shadow () :=
  modify <[mission_id mission := mission]> ;; log_id (mission_id mission).

Definition ClearMission (eventID : string) : go Shadow () :=
  modify (delete eventID) ;; log_id eventID.

Section rescue.
Context {RG : Ring} (ifs : option (list Addr)) (router : SectorRouter).

(** The function [Range] calls on a key: is the mission rescued? *)
Definition rescue_visit (key : string) : go (Shadow * PriorityQueue) bool :=
  s ← get;
  match fst s !! key with
  | None => mret false
  | Some mission =>
    let currentOwner := GetOwnerIP (SectorID (Payload mission)) router in
    if isLocalIP ifs currentOwner then
      zoom snd (λ q s, (fst s, q)) (Enqueue mission) ;;
      modify (λ s, (delete key (fst s), snd s)) ;;
      log_id (mission_id mission) ;;
      mret true
    else mret false
  end.

(** The count of rescued missions. *)
Definition RescueOrphanedMissions (keys : list string) : go (Shadow * PriorityQueue) nat :=
  bs ← go_map rescue_visit keys;
  mret (length (filter (λ b, b = true) bs)).

(** ** Lemmas *)

Definition ours (m : Mission) : bool :=
  isLocalIP ifs (GetOwnerIP (SectorID (Payload m)) router).

Lemma rescue_visit_ok key sh q :
  pq_ok q → (∀ m, sh !! key = Some m → (8 ≤ String.length (mission_id m))%nat) →
  ∃ b q', rescue_visit key (sh, q) =
      (Ret b, (match sh !! key with Some m => if ours m then delete key sh else sh | None => sh end, q')) ∧
    pq_ok q' ∧
    b = match sh !! key with Some m => ours m | None => false end ∧
    mh q' ≡ₚ match sh !! key with Some m => if ours m then m :: mh q else mh q | None => mh q end.
Proof.
  intros Hq Hl. unfold rescue_visit. destruct (sh !! key) as [m|] eqn:E.
  2: { exists false, q. unfold mbind, go_mbind, get. simpl. by rewrite E. }
  unfold mbind, go_mbind, get. simpl. rewrite E. fold (ours m). destruct (ours m).
  - destruct (Enqueue_ok q m Hq) as (q' & Eq & Hok & Hp & _). exists true, q'.
    unfold zoom. simpl. rewrite Eq. simpl. rewrite log_id_long by (by apply Hl). by split_and!.
  - by exists false, q.
Qed.

(** A table's missions sit under their identifiers. *)
Definition shadow_keyed (sh : Shadow) : Prop := ∀ k m, sh !! k = Some m → mission_id m = k.

Lemma rescue_map_ok order sh q :
  pq_ok q → shadow_keyed sh →
  (∀ k, is_Some (sh !! k) → (8 ≤ String.length k)%nat) →
  ∃ bs q', go_map rescue_visit order (sh, q) = (Ret bs, (snd (take_all ours order sh), q')) ∧
    pq_ok q' ∧ mh q' ≡ₚ fst (take_all ours order sh) ++ mh q ∧
    length (filter (λ b, b = true) bs) = length (fst (take_all ours order sh)).
Proof.
  revert sh q. induction order as [|k ks IH]; intros sh q Hq Hk Hl; [by exists [], q|].
  destruct (rescue_visit_ok k sh q Hq) as (b & q1 & E1 & Hq1 & Hb & Hp1).
  { intros m Hm. rewrite (Hk _ _ Hm). apply Hl. by rewrite Hm. }
  destruct (IH (snd (take_one ours k sh)) q1 Hq1) as (bs & q2 & E2 & Hq2 & Hp2 & Hlen).
  { intros i m [Hm _]%take_one_left. by apply Hk. }
  { intros i [m [Hm _]%take_one_left]. apply Hl. by rewrite Hm. }
  exists (b :: bs), q2. rewrite take_all_cons. cbn [fst snd]. split_and!; [|done|..].
  - eapply go_map_cons; [|exact E2]. rewrite E1. do 2 f_equal. unfold take_one.
    destruct (sh !! k) as [m|]; [by destruct (ours m)|done].
  - rewrite Hp2, Hp1. unfold take_one. destruct (sh !! k) as [m|]; [destruct (ours m)|]; simpl;
      [|done..]. symmetry. apply Permutation_middle.
  - rewrite filter_cons, length_app, <- Hlen, Hb. unfold take_one.
    destruct (sh !! k) as [m|]; [destruct (ours m)|]; done.
Qed.

(** The rescue after a change of topology: every shadowed mission of a
    sector this broker now owns moves to the queue, once, and no other
    mission moves; the count is the number moved. *)
Lemma rescue_exact order sh q :
  pq_ok q → shadow_keyed sh → (∀ k, is_Some (sh !! k) → k ∈ order) →
  (∀ k, is_Some (sh !! k) → (8 ≤ String.length k)%nat) →
  ∃ sh' q' l, RescueOrphanedMissions order (sh, q) = (Ret (length l), (sh', q')) ∧
    pq_ok q' ∧ mh q' ≡ₚ l ++ mh q ∧
    NoDup (mission_id <$> l) ∧
    (∀ m, m ∈ l ↔ sh !! mission_id m = Some m ∧ ours m = true) ∧
    (∀ e m, sh' !! e = Some m ↔ sh !! e = Some m ∧ ours m = false).
Proof.
  intros Hq Hk Hall Hl.
  destruct (rescue_map_ok order sh q Hq Hk Hl) as (bs & q' & E & Hq' & Hp & Hlen).
  exists (snd (take_all ours order sh)), q', (fst (take_all ours order sh)).
  split_and!; [|done|done|..].
  - unfold RescueOrphanedMissions. by rewrite (go_bind_run _ _ _ _ _ E), Hlen.
  - pose proof (keys_NoDup sh) as Hnd.
    rewrite (take_all_keys ours mission_id order sh Hk) in Hnd. by apply NoDup_app in Hnd as [? _].
  - intros m. rewrite take_all_taken. split.
    + intros (e & _ & He & Ho). by rewrite (Hk _ _ He).
    + intros [Hm Ho]. exists (mission_id m). split_and!; [|done|done]. apply Hall. by rewrite Hm.
  - intros e m. by apply take_all_covers.
Qed.
End rescue.

Definition shadow_sample : Shadow :=
  <["event-001" := sample "event-001" false 3]> {[ "event-002" := sample "event-002" true 4 ]}.

Lemma rescue_exact_witness :
  let r := mkRouter (RG := ToyRing) ["127.0.0.1"] "" 25 "" in
  ∃ sh' q' l, RescueOrphanedMissions None r ["event-002"; "event-001"] (shadow_sample, New 100) =
      (Ret (length l), (sh', q')) ∧ mh q' ≡ₚ l ++ [] ∧ sample "event-001" false 3 ∈ l.
Proof.
  intros r.
  assert (∀ k m, shadow_sample !! k = Some m →
    k = "event-001" ∧ m = sample k false 3 ∨ k = "event-002" ∧ m = sample k true 4) as Hs.
  { intros k m. unfold shadow_sample. rewrite lookup_insert, lookup_singleton.
    repeat case_decide; simplify_eq; intros E; simplify_eq; auto. }
  destruct (rescue_exact None r ["event-002"; "event-001"] shadow_sample (New 100))
    as (sh' & q' & l & E & _ & Hp & _ & Hin & _).
  - apply New_ok.
  - intros k m [[-> ->]|[-> ->]]%Hs; done.
  - intros k [m [[-> _]|[-> _]]%Hs]; [right|]; by left.
  - intros k [m [[-> _]|[-> _]]%Hs]; simpl; lia.
  - exists sh', q', l. split; [exact E|split; [exact Hp|]]. apply Hin. split; vm_compute; reflexivity.
Defined.
