(* ===== verification/HTTPClient.v ===== *)
(** * HTTP with retries (pkg/server/http_client.go)

    The network is an oracle: [net i] is what the [i]-th attempt meets.  The
    result of a call records the sleeps and the number of requests next to
    what the caller gets, so that the retry policy can be stated.  The body's
    [json.Marshal] and the [Decode] of the answer are arguments; a nil result
    decodes anything to [()]. *)

From S2P Require Import Prelude GoStd.
Local Open Scope Z_scope.

Definition millisecond : Z := 1000000.
Definition second : Z := 1000 * millisecond.

Record HTTPClient : Type := mkClient {
  maxRetries : nat;
  initialBackoff : Z;
  maxBackoff : Z;
  timeout : Z;
}.

Definition NewHTTPClient (timeout : Z) : HTTPClient :=
  mkClient 3 (100 * millisecond) (5 * second) timeout.

(** What an attempt meets: the request cannot be built, the connection
    fails or times out, or a response. *)
Inductive attempt : Type :=
| ReqErr
| ConnErr
| Resp (status : Z) (body : string).

Inductive last_error : Type :=
| LRequest
| LConnection
| LStatus (status : Z).

Inductive http_error : Type :=
| EMarshal
| EGaveUp (last : option last_error)
| EClient (status : Z) (body : string)
| EDecode.

Record http_run (A : Type) : Type := mkRun {
  result : A + http_error;
  sleeps : list Z;
  requests : nat;
}.
Arguments mkRun {A} _ _ _.
Arguments result {A} _.
Arguments sleeps {A} _.
Arguments requests {A} _.

(** [time.Duration(float64(backoff) * 1.5)] capped at [maxBackoff]; below
    2^52 nanoseconds the product is exact and truncation is the quotient. *)
Definition next_backoff (hc : HTTPClient) (backoff : Z) : Z :=
  let b := backoff * 3 / 2 in if maxBackoff hc <? b then maxBackoff hc else b.

(** The status codes worth another attempt. *)
Definition retry_post (status : Z) : bool :=
  (500 <=? status) || (status =? 408) || (status =? 429) || (status =? 503).
Definition retry_get (status : Z) : bool := (500 <=? status) || (status =? 408).

Section client.
Context {A : Type} (retry : Z → bool) (decode : string → option A) (hc : HTTPClient)
  (net : nat → attempt).

(** The part of the body after the retry test. *)
Definition answer (status : Z) (body : string) : A + http_error :=
  if 400 <=? status then inr (EClient status body)
  else match decode body with Some a => inl a | None => inr EDecode end.

Definition slept (d : list Z) (n : nat) (r : http_run A) : http_run A :=
  mkRun (result r) (d ++ sleeps r) (n + requests r).

(** The loop: [rem] attempts remain, [i] were made. *)
Fixpoint attempts (rem i : nat) (backoff : Z) (last : option last_error) : http_run A :=
  match rem with
  | O => mkRun (inr (EGaveUp last)) [] 0
  | S rem =>
    let d := if Nat.ltb 0 i then [backoff] else [] in
    let backoff := if Nat.ltb 0 i then next_backoff hc backoff else backoff in
    match net i with
    | ReqErr => slept d 0 (attempts rem (S i) backoff (Some LRequest))
    | ConnErr => slept d 1 (attempts rem (S i) backoff (Some LConnection))
    | Resp status body =>
      if retry status then slept d 1 (attempts rem (S i) backoff (Some (LStatus status)))
      else mkRun (answer status body) d 1
    end
  end.

Definition call : http_run A := attempts (S (maxRetries hc)) 0 (initialBackoff hc) None.
End client.

(** [payload] is [None] when [json.Marshal] fails. *)
Definition PostJSON {A} (hc : HTTPClient) (payload : option string) (decode : string → option A)
    (net : nat → attempt) : http_run A :=
  match payload with
  | None => mkRun (inr EMarshal) [] 0
  | Some _ => call retry_post decode hc net
  end.

Definition GetJSON {A} (hc : HTTPClient) (decode : string → option A) (net : nat → attempt) :
    http_run A := call retry_get decode hc net.

(** ** Specification *)

(** An attempt after which the loop goes on, and the error it records. *)
Definition transient (retry : Z → bool) (x : attempt) : option last_error :=
  match x with
  | ReqErr => Some LRequest
  | ConnErr => Some LConnection
  | Resp status _ => if retry status then Some (LStatus status) else None
  end.

(** What a decisive attempt gives. *)
Definition verdict {A} (decode : string → option A) (x : attempt) : A + http_error :=
  match x with
  | Resp status body => answer decode status body
  | _ => inr (EGaveUp None)
  end.

(** The pauses before the second, third and fourth attempt. *)
Definition pauses : list Z := [100 * millisecond; 150 * millisecond; 225 * millisecond].

Definition retry_spec {A} (retry : Z → bool) (decode : string → option A) (net : nat → attempt)
    (r : http_run A) : Prop :=
  (∃ i, (i ≤ 3)%nat ∧ (∀ j, (j < i)%nat → is_Some (transient retry (net j))) ∧
     transient retry (net i) = None ∧
     result r = verdict decode (net i) ∧ sleeps r = take i pauses ∧ (requests r ≤ S i)%nat) ∨
  (∀ j, (j ≤ 3)%nat → is_Some (transient retry (net j))) ∧
    result r = inr (EGaveUp (transient retry (net 3%nat))) ∧ sleeps r = pauses ∧ (requests r ≤ 4)%nat.

Lemma attempts_step {A} retry (decode : string → option A) hc net rem i backoff last :
  attempts retry decode hc net (S rem) i backoff last =
    let d := if Nat.ltb 0 i then [backoff] else [] in
    let b := if Nat.ltb 0 i then next_backoff hc backoff else backoff in
    match transient retry (net i) with
    | Some e =>
      slept d (match net i with ReqErr => 0 | _ => 1 end)
        (attempts retry decode hc net rem (S i) b (Some e))
    | None => mkRun (verdict decode (net i)) d 1
    end.
Proof. cbn [attempts]. destruct (net i) as [| |st bd]; [done|done|]. simpl. by destruct (retry st). Qed.

Lemma call_spec {A} retry (decode : string → option A) t net :
  retry_spec retry decode net (call retry decode (NewHTTPClient t) net).
Proof.
  unfold call, retry_spec. cbn [NewHTTPClient maxRetries initialBackoff].
  assert (∀ e : option last_error, ∀ x : attempt, (match x with ReqErr => 0 | _ => 1 end ≤ 1)%nat)
    as Hone by (by intros _ [| |]; lia).
  rewrite attempts_step. cbn zeta. destruct (transient retry (net 0%nat)) as [e0|] eqn:E0.
  2: { left. exists O. split_and!; try done; lia. }
  rewrite attempts_step. cbn zeta. destruct (transient retry (net 1%nat)) as [e1|] eqn:E1.
  2: { left. exists 1%nat. simpl. pose proof (Hone None (net 0%nat)).
       split_and!; try done; try lia. intros j Hj. by replace j with O by lia; rewrite E0. }
  rewrite attempts_step. cbn zeta. destruct (transient retry (net 2%nat)) as [e2|] eqn:E2.
  2: { left. exists 2%nat. simpl. pose proof (Hone None (net 0%nat)). pose proof (Hone None (net 1%nat)).
       split_and!; try done; try lia. intros j Hj.
       destruct j as [|[|j]]; [by rewrite E0|by rewrite E1|lia]. }
  rewrite attempts_step. cbn zeta. destruct (transient retry (net 3%nat)) as [e3|] eqn:E3.
  - right. simpl. pose proof (Hone None (net 0%nat)). pose proof (Hone None (net 1%nat)).
    pose proof (Hone None (net 2%nat)). pose proof (Hone None (net 3%nat)).
    split_and!; try done; try lia. intros j Hj.
    destruct j as [|[|[|[|j]]]]; [by rewrite E0|by rewrite E1|by rewrite E2|by rewrite E3|lia].
  - left. exists 3%nat. simpl. pose proof (Hone None (net 0%nat)). pose proof (Hone None (net 1%nat)).
    pose proof (Hone None (net 2%nat)). split_and!; try done; try lia. intros j Hj.
    destruct j as [|[|[|j]]]; [by rewrite E0|by rewrite E1|by rewrite E2|lia].
Qed.

(** C35: the retry policy.  Both methods stop at the first attempt that is not
    transient and return its verdict, make at most four attempts, and pause
    exactly 100, 150 and 225 milliseconds between them (there is no jitter);
    after four transient attempts the caller gets the last error.  A POST
    counts 429 as transient, a GET gives up on it at once. *)
Theorem retry_policy {A} (decode : string → option A) t payload net :
  retry_spec retry_post decode net (PostJSON (NewHTTPClient t) (Some payload) decode net) ∧
  retry_spec retry_get decode net (GetJSON (NewHTTPClient t) decode net) ∧
  (∀ body, net O = Resp 429 body →
     result (GetJSON (NewHTTPClient t) decode net) = inr (EClient 429 body) ∧
     ∀ body', net 1%nat = Resp 200 body' →
       result (PostJSON (NewHTTPClient t) (Some payload) decode net) =
         match decode body' with Some a => inl a | None => inr EDecode end).
Proof.
  split_and!; [apply call_spec|apply call_spec|]. intros body E. split.
  - unfold GetJSON, call. rewrite attempts_step, E. done.
  - intros body' E'. unfold PostJSON, call. rewrite attempts_step, E. simpl. by rewrite E'.
Qed.

Lemma retry_policy_witness :
  let net := λ i, match i with O => Resp 429 "busy" | _ => Resp 200 "ok" end in
  result (GetJSON (NewHTTPClient 0) Some net) = inr (EClient 429 "busy") ∧
  result (PostJSON (NewHTTPClient 0) (Some "{}") Some net) = inl "ok".
Proof.
  intros net. destruct (retry_policy Some 0 "{}" net) as (_ & _ & H).
  destruct (H "busy" eq_refl) as [Hg Hp]. split; [exact Hg|exact (Hp "ok" eq_refl)].
Defined.
