(* ===== verification/Http.v ===== *)
(** * HTTP as the servers see it (net/http, net/url)

    Requests and answers as methods, paths, queries and bytes; the multiplexer;
    [http.Error]; and the query string: how [url.Query] reads it, and what of a
    query pasted into a URL by [fmt.Sprintf] reaches the server at all.  A
    request's path is in canonical form (the multiplexer redirects the
    others), and headers are left out. *)

From S2P Require Import Prelude GoStd Interfaces Json JsonProps Wire HTTPClient.
Local Open Scope Z_scope.

Inductive http_method : Type := MGet | MPost | MOther.

Record http_request : Type := mkRequest {
  hq_method : http_method;
  hq_path : string;
  hq_query : string;
  hq_body : string;
}.

Record http_response : Type := mkHttp {
  hs_status : Z;
  hs_body : string;
}.

(** [w.WriteHeader(code)] alone. *)
Definition WriteHeader (code : Z) : http_response := mkHttp code "".

(** [http.Error(w, text, code)]. *)
Definition http_Error (text : string) (code : Z) : http_response := mkHttp code (json_line text).

(** What the client's attempt meets when the answer arrives; a handler that
    panicked has closed the connection. *)
Definition arrives (r : option http_response) : attempt :=
  match r with Some r => Resp (hs_status r) (hs_body r) | None => ConnErr end.

Definition NotFound : http_response := http_Error "404 page not found" 404.

(** [ServeMux]: the handler registered for the path, or [not_found]. *)
Fixpoint ServeMux {M : Type → Type} `{!MRet M} {A} (not_found : A)
    (routes : list (string * (http_request → M A))) (r : http_request) : M A :=
  match routes with
  | [] => mret not_found
  | (path, h) :: routes => if bool_decide (path = hq_path r) then h r else ServeMux not_found routes r
  end.

(** ** Query strings *)

(** [strings.Cut] at a byte: what is before it, and what is after it. *)
Fixpoint Cut (s : string) (c : ascii) : string * option string :=
  match s with
  | EmptyString => (EmptyString, None)
  | String d s =>
    if is_char d c then (EmptyString, Some s)
    else let '(a, b) := Cut s c in (String d a, b)
  end.

(** [url.QueryUnescape]. *)
Fixpoint QueryUnescape (s : string) : option string :=
  match s with
  | EmptyString => Some EmptyString
  | String c s1 =>
    if is_char c "%" then
      match s1 with
      | String a (String b s2) =>
        x ← from_hex_char a; y ← from_hex_char b; t ← QueryUnescape s2;
        Some (String (byte_of (16 * x + y)) t)
      | _ => None
      end
    else t ← QueryUnescape s1; Some (String (if is_char c "+" then " "%char else c) t)
  end.

(** One field between ampersands: a name and a value. *)
Definition query_field (f : string) : option (string * string) :=
  if contains_byte ";" f then None
  else if bool_decide (f = "") then None
  else
    let '(k, v) := Cut f "=" in
    name ← QueryUnescape k; value ← QueryUnescape (default "" v); Some (name, value).

(** [url.ParseQuery], its error dropped as [URL.Query] does. *)
Definition ParseQuery (q : string) : list (string * string) :=
  omap query_field (Split q "&").

(** [Values.Get]. *)
Fixpoint query_get (name : string) (l : list (string * string)) : string :=
  match l with
  | [] => EmptyString
  | (k, v) :: l => if bool_decide (k = name) then v else query_get name l
  end.

Definition Query_Get (name q : string) : string := query_get name (ParseQuery q).

(** ** What a URL built from a format string asks for

    [url.Parse] refuses control bytes, cuts the fragment off at the first
    number sign and checks the fragment's escapes; a space left in the query
    breaks the request line, which the server answers 400. *)

Definition control_byte (c : ascii) : bool := (byte_val c <? 32) || (byte_val c =? 127).

Fixpoint any_char (p : ascii → bool) (s : string) : bool :=
  match s with EmptyString => false | String c s => p c || any_char p s end.

(** Escapes of a fragment are two hex digits each. *)
Fixpoint escapes_ok (s : string) : bool :=
  match s with
  | EmptyString => true
  | String c s1 =>
    if is_char c "%" then
      match s1 with
      | String a (String b s2) =>
        bool_decide (is_Some (from_hex_char a)) && bool_decide (is_Some (from_hex_char b)) && escapes_ok s2
      | _ => false
      end
    else escapes_ok s1
  end.

Inductive sent : Type :=
| NotBuilt                     (* NewRequest fails *)
| Malformed                    (* the server answers 400 *)
| Asked (query : string).      (* the query the server sees *)

Definition send_query (q : string) : sent :=
  if any_char control_byte q then NotBuilt
  else
    let '(q, frag) := Cut q "#" in
    if negb (escapes_ok (default "" frag)) then NotBuilt
    else if contains_byte " " q then Malformed
    else Asked q.

(** The bytes that mean nothing in a query. *)
Definition query_safe (c : ascii) : bool :=
  negb (control_byte c) && negb (bool_decide (c ∈ [" "; "#"; "&"; ";"; "%"; "+"]%char)).

Definition safe_text (s : string) : bool := all_chars query_safe s.

(** ** Lemmas *)

Lemma is_char_true c d : is_char c d = true ↔ c = d.
Proof. apply bool_decide_eq_true. Qed.

Lemma is_char_false c d : is_char c d = false ↔ c ≠ d.
Proof. apply bool_decide_eq_false. Qed.

Lemma Cut_app s c a b : Cut s c = (a, Some b) → s = a +:+ String c b.
Proof.
  revert a b. induction s as [|d s IH]; intros a b; [done|]. cbn [Cut].
  destruct (is_char d c) eqn:E; [apply is_char_true in E as ->; by intros [= <- <-]|].
  destruct (Cut s c) as [a' b'] eqn:Ec. intros [= <- ->]. by rewrite (IH _ _ eq_refl).
Qed.

Lemma Cut_none s c : contains_byte c s = false → Cut s c = (s, None).
Proof.
  induction s as [|d s IH]; [done|]. cbn [contains_byte Cut]. intros [Hd Hs]%orb_false_iff.
  unfold is_char. by rewrite Hd, IH.
Qed.

Lemma Cut_first k c v : contains_byte c k = false → Cut (k +:+ String c v) c = (k, Some v).
Proof.
  intros Hk. induction k as [|d k IH].
  - rewrite str_app_nil_l. cbn [Cut]. by rewrite (proj2 (is_char_true c c)).
  - rewrite str_app_cons. cbn [contains_byte Cut] in *. apply orb_false_iff in Hk as [Hd Hk].
    unfold is_char. by rewrite Hd, IH.
Qed.

Lemma Cut_missing s c a : Cut s c = (a, None) → a = s ∧ contains_byte c s = false.
Proof.
  revert a. induction s as [|d s IH]; intros a; [by intros [= <-]|]. cbn [Cut contains_byte].
  unfold is_char. destruct (bool_decide (d = c)) eqn:E; [done|].
  destruct (Cut s c) as [a' b'] eqn:Ec. intros [= <- ->]. destruct (IH a' eq_refl) as [-> ->]. done.
Qed.

(** Unescaping never lengthens, and keeps the length only of a text without
    escapes. *)
Lemma QueryUnescape_le s t : QueryUnescape s = Some t →
  (String.length t ≤ String.length s)%nat ∧
  (String.length t = String.length s → contains_byte "%" s = false).
Proof.
  revert t. induction s as [s IH] using (induction_ltof1 _ String.length). unfold ltof in IH.
  intros t. destruct s as [|c s1]; [by intros [= <-]|]. cbn [QueryUnescape contains_byte].
  unfold is_char. destruct (bool_decide (c = "%"%char)).
  - destruct s1 as [|a [|b s2]]; [done|done|].
    intros (x & _ & (y & _ & (u & Hu & [= <-])%bind_Some)%bind_Some)%bind_Some.
    destruct (IH s2) with (t := u) as [Hl _]; [simpl; lia|done|]. simpl. split; [lia|lia].
  - intros (u & Hu & [= <-])%bind_Some.
    destruct (IH s1) with (t := u) as [Hl He]; [simpl; lia|done|]. simpl.
    split; [lia|]. intros [= E]. by apply He.
Qed.

(** Without escapes and plus signs unescaping does nothing; a plus sign
    becomes a space. *)
Lemma QueryUnescape_id s :
  contains_byte "%" s = false → contains_byte "+" s = false → QueryUnescape s = Some s.
Proof.
  induction s as [|c s IH]; [done|]. cbn [contains_byte QueryUnescape].
  intros [H1 H2]%orb_false_iff [H3 H4]%orb_false_iff. unfold is_char. by rewrite H1, H3, IH.
Qed.

Lemma QueryUnescape_plus s t :
  contains_byte "%" s = false → QueryUnescape s = Some t → t = s → contains_byte "+" s = false.
Proof.
  revert t. induction s as [|c s IH]; [done|]. intros t. cbn [contains_byte QueryUnescape].
  intros [H1 H2]%orb_false_iff. unfold is_char. rewrite H1.
  intros (u & Hu & [= <-])%bind_Some. destruct (bool_decide (c = "+"%char)) eqn:E.
  - apply bool_decide_eq_true in E. subst c. by intros [=].
  - intros [= ->]. by eapply IH.
Qed.

Lemma Split_elem s c f : f ∈ Split s c →
  (String.length f ≤ String.length s)%nat ∧
  (String.length f = String.length s → f = s ∧ contains_byte c s = false).
Proof.
  revert f. induction s as [|d s IH]; intros f; cbn [Split].
  - intros ->%list_elem_of_singleton. by split.
  - cbn [contains_byte]. destruct (bool_decide (d = c)) eqn:E.
    + intros [->|Hf]%elem_of_cons; [simpl; split; [lia|done]|].
      destruct (IH f Hf) as [Hl _]. simpl. split; lia.
    + destruct (Split s c) as [|g l] eqn:Es.
      { destruct s as [|e s]; [done|]. cbn [Split] in Es.
        destruct (bool_decide (e = c)); [done|]. by destruct (Split s c). }
      intros [->|Hf]%elem_of_cons.
      * destruct (IH g) as [Hl He]; [by left|]. simpl. split; [lia|]. intros [= E2].
        by destruct (He E2) as [-> ->].
      * destruct (IH f) as [Hl _]; [by right|]. simpl. split; lia.
Qed.

Lemma query_get_elem name l : query_get name l = "" ∨ (name, query_get name l) ∈ l.
Proof.
  induction l as [|[k v] l IH]; [by left|]. cbn [query_get].
  destruct (bool_decide (k = name)) eqn:E.
  - apply bool_decide_eq_true in E. subst. right. by left.
  - destruct IH as [H|H]; [by left|]. right. by right.
Qed.

(** A value and its name fit into the field they come from. *)
Lemma query_field_le f name v : query_field f = Some (name, v) → v ≠ "" →
  ∃ k w, f = k +:+ String "=" w ∧ QueryUnescape k = Some name ∧ QueryUnescape w = Some v ∧
    contains_byte ";" f = false.
Proof.
  unfold query_field. destruct (contains_byte ";" f); [done|]. case_bool_decide; [done|].
  destruct (Cut f "=") as [k w] eqn:Ec.
  intros (n & Hn & (x & Hx & [= -> ->])%bind_Some)%bind_Some Hv.
  destruct w as [w|]; [|simpl in Hx; by injection Hx as <-].
  apply Cut_app in Ec. by exists k, w.
Qed.

Lemma query_safe_spec c : query_safe c = true ↔
  control_byte c = false ∧ c ≠ " "%char ∧ c ≠ "#"%char ∧ c ≠ "&"%char ∧ c ≠ ";"%char ∧ c ≠ "%"%char ∧ c ≠ "+"%char.
Proof.
  unfold query_safe. rewrite andb_true_iff, !negb_true_iff, bool_decide_eq_false.
  rewrite !not_elem_of_cons. split; [tauto|]. intros (?&?&?&?&?&?&?). split_and!; try done.
  apply not_elem_of_nil.
Qed.

Lemma contains_byte_cons c d s : contains_byte c (String d s) = false ↔ d ≠ c ∧ contains_byte c s = false.
Proof. cbn [contains_byte]. rewrite orb_false_iff, bool_decide_eq_false. done. Qed.

Lemma safe_text_spec s : safe_text s = true ↔
  any_char control_byte s = false ∧ contains_byte " " s = false ∧ contains_byte "#" s = false ∧
  contains_byte "&" s = false ∧ contains_byte ";" s = false ∧ contains_byte "%" s = false ∧
  contains_byte "+" s = false.
Proof.
  unfold safe_text. induction s as [|c s IH]; [done|]. cbn [all_chars any_char].
  rewrite andb_true_iff, IH, query_safe_spec, !contains_byte_cons, orb_false_iff. tauto.
Qed.

Lemma any_char_app p s t : any_char p (s +:+ t) = any_char p s || any_char p t.
Proof.
  induction s as [|c s IH]; [done|]. rewrite str_app_cons. cbn [any_char].
  by rewrite IH, orb_assoc.
Qed.

(** What the server reads of the value pasted after a safe name. *)
Definition received (name v : string) : option string :=
  match send_query (name +:+ String "=" v) with
  | Asked q => Some (Query_Get name q)
  | _ => None
  end.

Section named.
Context (name : string) (Hname : safe_text name = true) (Heq : contains_byte "=" name = false)
  (Hne : name ≠ "").

Lemma contains_named c v :
  c ≠ "="%char → contains_byte c name = false →
  contains_byte c (name +:+ String "=" v) = contains_byte c v.
Proof.
  intros Hc Hn. rewrite contains_byte_app, Hn. cbn [contains_byte orb].
  by rewrite bool_decide_eq_false_2.
Qed.

(** A value is never longer than what was pasted, and as long only if the
    query is the one field with nothing to unescape. *)
Lemma Query_Get_le q : let v := Query_Get name q in v ≠ "" →
  (String.length name + 1 + String.length v ≤ String.length q)%nat ∧
  ((String.length name + 1 + String.length v)%nat = String.length q →
   ∃ w, q = name +:+ String "=" w ∧ contains_byte "&" q = false ∧ contains_byte ";" q = false ∧
     QueryUnescape w = Some v ∧ contains_byte "%" w = false).
Proof.
  intros v Hv. destruct (query_get_elem name (ParseQuery q)) as [E|Hin]; [done|].
  fold (Query_Get name q) in Hin. fold v in Hin.
  unfold ParseQuery in Hin. apply list_elem_of_omap in Hin as (f & Hf & Hq).
  destruct (query_field_le f name v Hq Hv) as (k & w & -> & Hk & Hw & Hs).
  destruct (Split_elem _ _ _ Hf) as [Hl He]. rewrite str_length_app in Hl, He. cbn [String.length] in *.
  destruct (QueryUnescape_le _ _ Hk) as [Hlk Hek]. destruct (QueryUnescape_le _ _ Hw) as [Hlw Hew].
  split; [lia|]. intros E. destruct He as [He Hamp]; [lia|]. subst q.
  assert (String.length v = String.length w) as E1 by lia.
  assert (String.length name = String.length k) as E2 by lia.
  assert (k = name) as ->.
  { specialize (Hek E2). pose proof (QueryUnescape_plus k name Hek Hk) as Hp. clear Hp.
    revert Hk. destruct (contains_byte "+" k) eqn:Ep.
    - intros Hk. exfalso.
      assert (∀ k n, contains_byte "%" k = false → contains_byte "+" k = true → QueryUnescape k = Some n →
        contains_byte " " n = true) as K.
      { clear. intros k. induction k as [|c k IH]; [done|]. intros n. cbn [contains_byte QueryUnescape].
        intros [H1 H2]%orb_false_iff H3. unfold is_char. rewrite H1.
        intros (u & Hu & [= <-])%bind_Some. destruct (bool_decide (c = "+"%char)).
        - by cbn [contains_byte].
        - cbn [contains_byte]. cbn [orb] in H3. rewrite (IH u); [apply orb_true_r|done..]. }
      apply safe_text_spec in Hname as (_ & Hsp & _). by rewrite (K k name) in Hsp.
    - rewrite QueryUnescape_id by done. by intros [= ->]. }
  exists w. split_and!; [done|done|done|done|by apply Hew].
Qed.

(** A value pasted unescaped into a query is received as it is exactly when
    none of its bytes means something there. *)
Lemma received_exact v : received name v = Some v ↔ safe_text v = true.
Proof.
  pose proof Hname as (Hn1 & Hn2 & Hn3 & Hn4 & Hn5 & Hn6 & Hn7)%safe_text_spec.
  rewrite safe_text_spec. unfold received, send_query.
  rewrite any_char_app, Hn1. cbn [orb any_char]. change (control_byte "=") with false. cbn [orb].
  split.
  - destruct (any_char control_byte v) eqn:Hc; [done|].
    destruct (Cut (name +:+ String "=" v) "#") as [q frag] eqn:Ecut.
    destruct (negb (escapes_ok (default "" frag))); [done|].
    destruct (contains_byte " " q) eqn:Esp; [done|]. intros [= E].
    destruct (decide (v = "")) as [->|Hv]; [done|].
    pose proof (Query_Get_le q) as H. rewrite E in H. destruct (H Hv) as [Hle Heqq].
    assert (q = name +:+ String "=" v ∧ contains_byte "#" (name +:+ String "=" v) = false) as [-> Hh].
    { destruct frag as [frag|]; [|by apply Cut_missing in Ecut as [-> ?]].
      apply Cut_app in Ecut. apply (f_equal String.length) in Ecut.
      rewrite !str_length_app in Ecut. simpl in Ecut. lia. }
    destruct Heqq as (w & Eq & Ha & Hs & Hw & Hp); [rewrite str_length_app; simpl; lia|].
    apply str_app_inj_l in Eq. injection Eq as <-.
    rewrite contains_named in Hh by done. rewrite contains_named in Esp by done.
    rewrite contains_named in Ha by done. rewrite contains_named in Hs by done.
    split_and!; try done. by eapply QueryUnescape_plus.
  - intros (Hc & Hsp & Hh & Ha & Hs & Hp & Hpl).
    rewrite Hc, Cut_none by (by rewrite contains_named). cbn [default negb escapes_ok].
    rewrite contains_named, Hsp by done. f_equal. unfold Query_Get, ParseQuery.
    rewrite Split_no_sep by (by rewrite contains_named). cbn [omap list_omap].
    unfold query_field. rewrite contains_named, Hs by done.
    rewrite bool_decide_eq_false_2 by (by destruct name). rewrite Cut_first by done.
    rewrite QueryUnescape_id by done. cbn [default mbind option_bind].
    rewrite QueryUnescape_id by done. cbn [mbind option_bind query_get]. by rewrite bool_decide_eq_true_2.
Qed.
End named.
