(* ===== verification/LedgerClient.v ===== *)
(** * The broker's ledger client (cmd/broker/ledger_client.go)

    The transactions it signs, the JSON-RPC requests that carry them in
    base64, what it makes of the answers, and the query of the global state.
    CometBFT is behind the network oracle of HTTPClient.v.  The drone's
    report (cmd/drone/main.go) goes the same way and is modelled in Drone.v
    with the definitions of this file. *)

From S2P Require Import Prelude GoStd Model Interfaces Json.
From S2P Require Import JsonProps Keys LedgerApp LedgerSpec HTTPClient.
Local Open Scope Z_scope.

(** ** encoding/base64, StdEncoding *)

Definition b64_char (v : Z) : ascii :=
  if v <? 26 then byte_of (65 + v)
  else if v <? 52 then byte_of (71 + v)
  else if v <? 62 then byte_of (v - 4)
  else if v =? 62 then "+"%char else "/"%char.

Definition b64_val (c : ascii) : option Z :=
  let v := byte_val c in
  if (65 <=? v) && (v <=? 90) then Some (v - 65)
  else if (97 <=? v) && (v <=? 122) then Some (v - 71)
  else if (48 <=? v) && (v <=? 57) then Some (v + 4)
  else if v =? 43 then Some 62
  else if v =? 47 then Some 63
  else None.

Fixpoint b64_encode (s : string) : string :=
  match s with
  | EmptyString => EmptyString
  | String a EmptyString =>
    let x := byte_val a in
    String (b64_char (x / 4)) (String (b64_char (x mod 4 * 16)) "==")
  | String a (String b EmptyString) =>
    let x := byte_val a in
    let y := byte_val b in
    String (b64_char (x / 4)) (String (b64_char (x mod 4 * 16 + y / 16))
      (String (b64_char (y mod 16 * 4)) "="))
  | String a (String b (String c s)) =>
    let x := byte_val a in
    let y := byte_val b in
    let z := byte_val c in
    String (b64_char (x / 4)) (String (b64_char (x mod 4 * 16 + y / 16))
      (String (b64_char (y mod 16 * 4 + z / 64)) (String (b64_char (z mod 64)) (b64_encode s))))
  end.

(** The decoder skips line ends before it groups. *)
Fixpoint drop_newlines (s : string) : string :=
  match s with
  | EmptyString => EmptyString
  | String c s =>
    if (byte_val c =? 10) || (byte_val c =? 13) then drop_newlines s else String c (drop_newlines s)
  end.

Fixpoint b64_groups (s : string) : option string :=
  match s with
  | EmptyString => Some EmptyString
  | String a (String b (String c (String d s))) =>
    w ← b64_val a;
    x ← b64_val b;
    let b1 := byte_of (w * 4 + x / 16) in
    if is_char c "=" then
      if is_char d "=" then match s with EmptyString => Some (String b1 "") | _ => None end else None
    else
      y ← b64_val c;
      let b2 := byte_of (x mod 16 * 16 + y / 4) in
      if is_char d "=" then
        match s with EmptyString => Some (String b1 (String b2 "")) | _ => None end
      else
        z ← b64_val d;
        rest ← b64_groups s;
        Some (String b1 (String b2 (String (byte_of (y mod 4 * 64 + z)) rest)))
  | _ => None
  end.

Definition b64_decode (s : string) : option string := b64_groups (drop_newlines s).

(** ** Requests *)

(** [json.Marshal] of the request, its map keys sorted. *)
Definition rpc_request (rpc_id : string) (txBytes : string) : string :=
  encode_object
    [("id", rpc_id); ("jsonrpc", encode_string "2.0");
     ("method", encode_string "broadcast_tx_sync");
     ("params", encode_object [("tx", encode_string (b64_encode txBytes))])].

(** ** Answers *)

(** [CometRPCResponse.Result]: the code and the log. *)
Definition result_field (k : string) (v : json) (r : Z * string) : option (Z * string) :=
  let '(code, log) := r in
  if bool_decide (k = "CODE") then x ← into_int code v; Some (x, log)
  else if bool_decide (k = "LOG") then x ← into_string log v; Some (code, x)
  else Some r.

Definition rpc_field (k : string) (v : json) (r : Z * string) : option (Z * string) :=
  if bool_decide (k = "RESULT") then into_nested result_field r v else Some r.

Definition decode_rpc (body : string) : option (Z * string) := decode_first rpc_field (0, "") body.

(** [ABCIQueryResponse]: code, value and log of the inner response. *)
Record ABCIResponse : Type := mkABCI { abci_Code : Z; abci_Value : string; abci_Log : string }.

Definition into_uint32 (old : Z) (v : json) : option Z :=
  x ← into_uint64 old v; if x <=? 2 ^ 32 - 1 then Some x else None.

Definition into_bytes (v : json) : option string :=
  match v with JStr _ s => b64_decode s | JNull => Some "" | _ => None end.

Definition response_field (k : string) (v : json) (r : ABCIResponse) : option ABCIResponse :=
  let '(mkABCI code value log) := r in
  if bool_decide (k = "CODE") then x ← into_uint32 code v; Some (mkABCI x value log)
  else if bool_decide (k = "VALUE") then x ← into_bytes v; Some (mkABCI code x log)
  else if bool_decide (k = "LOG") then x ← into_string log v; Some (mkABCI code value x)
  else Some r.

Definition abci_result_field (k : string) (v : json) (r : ABCIResponse) : option ABCIResponse :=
  if bool_decide (k = "RESPONSE") then into_nested response_field r v else Some r.

Definition abci_field (k : string) (v : json) (r : ABCIResponse) : option ABCIResponse :=
  if bool_decide (k = "RESULT") then into_nested abci_result_field r v else Some r.

Definition decode_abci (body : string) : option ABCIResponse :=
  decode_first abci_field (mkABCI 0 "" "") body.

(** ** The client *)

Definition client_timeout : Z := 2 * second.

Definition NewLedgerClient : HTTPClient := NewHTTPClient client_timeout.

Section client.
Context {ED : Ed25519} {TC : TxCodec}.

Definition spend_tx {S} (data : SensorData) : go S Transaction :=
  sig ← SignTransaction (NationID data) SPEND_CREDIT (EventID data);
  mret (mkTransaction SPEND_CREDIT (NationID data) (EventID data) sig "").

Definition report_tx_of {S} (data : SensorData) (reportPayload : string) : go S Transaction :=
  sig ← SignTransaction (NationID data) SAVE_REPORT (EventID data);
  mret (mkTransaction SAVE_REPORT (NationID data) (EventID data) sig reportPayload).

(** Both calls end alike: false on an error of the transport or a code other
    than 0. *)
Definition approved (r : (Z * string) + http_error) : bool :=
  match r with inr _ => false | inl (code, _) => code =? 0 end.

Definition SpendCredit {S} (net : nat → attempt) (data : SensorData) : go S bool :=
  tx ← spend_tx data;
  mret (approved (result
    (PostJSON NewLedgerClient (Some (rpc_request "1" (Marshal_tx tx))) decode_rpc net))).

Definition SaveReport {S} (net : nat → attempt) (data : SensorData) (reportPayload : string) :
    go S bool :=
  tx ← report_tx_of data reportPayload;
  mret (approved (result
    (PostJSON NewLedgerClient (Some (rpc_request "2" (Marshal_tx tx))) decode_rpc net))).
End client.

(** The value, or an error of the transport or of the ledger. *)
Inductive query_error : Type := QTransport (e : http_error) | QLedger (log : string).

Definition QueryGlobalState (net : nat → attempt) : string + query_error :=
  match result (GetJSON NewLedgerClient decode_abci net) with
  | inr e => inr (QTransport e)
  | inl r => if abci_Code r =? 0 then inl (abci_Value r) else inr (QLedger (abci_Log r))
  end.

(** ** Lemmas: base64 *)

Lemma b64_val_char v : 0 ≤ v < 64 → b64_val (b64_char v) = Some v.
Proof.
  intros Hv. unfold b64_char.
  destruct (Z.ltb_spec v 26); [|destruct (Z.ltb_spec v 52); [|destruct (Z.ltb_spec v 62);
    [|destruct (Z.eqb_spec v 62); [by subst|by replace v with 63 by lia]]]];
    unfold b64_val; rewrite byte_val_of by lia;
    repeat (case_match; simpl; try lia); f_equal; lia.
Qed.

Lemma b64_char_plain v : 0 ≤ v < 64 →
  is_char (b64_char v) "=" = false ∧ byte_val (b64_char v) ≠ 10 ∧ byte_val (b64_char v) ≠ 13.
Proof.
  intros Hv. unfold b64_char.
  assert (∀ x, 43 ≤ x < 61 ∨ 61 < x < 123 → is_char (byte_of x) "=" = false ∧
    byte_val (byte_of x) ≠ 10 ∧ byte_val (byte_of x) ≠ 13) as K.
  { intros x Hx. rewrite byte_val_of by lia. split; [|lia]. apply is_char_byte.
    rewrite byte_val_of by lia. change (byte_val "=") with 61. lia. }
  destruct (Z.ltb_spec v 26); [apply K; lia|]. destruct (Z.ltb_spec v 52); [apply K; lia|].
  destruct (Z.ltb_spec v 62); [apply K; lia|]. by destruct (v =? 62).
Qed.

Lemma drop_newlines_char v s :
  0 ≤ v < 64 → drop_newlines (String (b64_char v) s) = String (b64_char v) (drop_newlines s).
Proof.
  intros Hv. destruct (b64_char_plain v Hv) as (_ & H1 & H2). cbn [drop_newlines].
  by rewrite (proj2 (Z.eqb_neq _ _) H1), (proj2 (Z.eqb_neq _ _) H2).
Qed.

(** The ranges the sextets are in. *)
Lemma sextets x y : 0 ≤ x < 256 → 0 ≤ y < 256 →
  0 ≤ x / 4 < 64 ∧ 0 ≤ x mod 4 * 16 + y / 16 < 64 ∧ 0 ≤ x mod 16 * 4 + y / 64 < 64 ∧
  0 ≤ x mod 64 < 64 ∧ 0 ≤ x mod 4 * 16 < 64 ∧ 0 ≤ x mod 16 * 4 < 64.
Proof. intros Hx Hy. Z.to_euclidean_division_equations. lia. Qed.

(** Reassembling the bytes. *)
Lemma byte1 x y : 0 ≤ x < 256 → 0 ≤ y < 256 → x / 4 * 4 + (x mod 4 * 16 + y / 16) / 16 = x.
Proof. intros. Z.to_euclidean_division_equations. lia. Qed.
Lemma byte2 x y z : 0 ≤ x < 256 → 0 ≤ y < 256 → 0 ≤ z < 256 →
  (x mod 4 * 16 + y / 16) mod 16 * 16 + (y mod 16 * 4 + z / 64) / 4 = y.
Proof. intros. Z.to_euclidean_division_equations. lia. Qed.
Lemma byte3 y z : 0 ≤ y < 256 → 0 ≤ z < 256 → (y mod 16 * 4 + z / 64) mod 4 * 64 + z mod 64 = z.
Proof. intros. Z.to_euclidean_division_equations. lia. Qed.

Lemma drop_newlines_encode s : drop_newlines (b64_encode s) = b64_encode s.
Proof.
  induction s as [s IH] using (induction_ltof1 _ String.length). unfold ltof in IH.
  destruct s as [|a [|b [|c s]]]; [done|..]; cbn [b64_encode];
    pose proof (byte_val_range a); try pose proof (byte_val_range b); try pose proof (byte_val_range c).
  - destruct (sextets (byte_val a) 0) as (?&?&?&?&?&?); [lia..|].
    by rewrite !drop_newlines_char by lia.
  - destruct (sextets (byte_val a) (byte_val b)) as (?&?&?&?&?&?); [lia..|].
    destruct (sextets (byte_val b) 0) as (?&?&?&?&?&?); [lia..|].
    by rewrite !drop_newlines_char by lia.
  - destruct (sextets (byte_val a) (byte_val b)) as (?&?&?&?&?&?); [lia..|].
    destruct (sextets (byte_val b) (byte_val c)) as (?&?&?&?&?&?); [lia..|].
    destruct (sextets (byte_val c) 0) as (?&?&?&?&?&?); [lia..|].
    rewrite !drop_newlines_char by lia. rewrite IH; [done|]. simpl. lia.
Qed.

Lemma b64_decode_encode s : b64_decode (b64_encode s) = Some s.
Proof.
  unfold b64_decode. rewrite drop_newlines_encode.
  induction s as [s IH] using (induction_ltof1 _ String.length). unfold ltof in IH.
  destruct s as [|a [|b [|c s]]]; [done|..]; cbn [b64_encode b64_groups];
    pose proof (byte_val_range a) as Ha; try pose proof (byte_val_range b) as Hb;
    try pose proof (byte_val_range c) as Hc.
  - destruct (sextets (byte_val a) 0) as (?&?&?&?&?&?); [lia..|].
    rewrite !b64_val_char by lia. simpl. do 2 f_equal.
    rewrite <- (byte_of_val a) at 3. f_equal. pose proof (byte1 (byte_val a) 0 Ha ltac:(lia)) as E.
    by rewrite Z.add_0_r in E.
  - destruct (sextets (byte_val a) (byte_val b)) as (?&?&?&?&?&?); [lia..|].
    destruct (sextets (byte_val b) 0) as (?&?&?&?&?&?); [lia..|].
    rewrite !b64_val_char by lia. cbn [mbind option_bind].
    rewrite (proj1 (b64_char_plain (byte_val b mod 16 * 4) ltac:(lia))). cbn zeta.
    change (is_char "=" "=") with true. cbv iota.
    rewrite byte1, byte_of_val by done.
    pose proof (byte2 (byte_val a) (byte_val b) 0 Ha Hb ltac:(lia)) as E.
    rewrite Z.add_0_r in E. by rewrite E, byte_of_val.
  - destruct (sextets (byte_val a) (byte_val b)) as (?&?&?&?&?&?); [lia..|].
    destruct (sextets (byte_val b) (byte_val c)) as (?&?&?&?&?&?); [lia..|].
    destruct (sextets (byte_val c) 0) as (?&?&?&?&?&?); [lia..|].
    rewrite !b64_val_char by lia. cbn [mbind option_bind].
    rewrite (proj1 (b64_char_plain (byte_val b mod 16 * 4 + byte_val c / 64) ltac:(lia))).
    rewrite (proj1 (b64_char_plain (byte_val c mod 64) ltac:(lia))). cbn zeta.
    rewrite IH by (simpl; lia). cbn [mbind option_bind].
    by rewrite byte1, byte2, byte3, !byte_of_val.
Qed.

(** ** Lemmas: the signed transactions *)

Lemma hex_valid_utf8 b : valid_utf8 (EncodeToString b) = true.
Proof.
  unfold valid_utf8. induction b as [|c b IH]; [done|]. cbn [EncodeToString valid_utf8_skip].
  assert (∀ v, 0 ≤ v < 16 → byte_val (hex_char v) < 128) as Hh.
  { intros v Hv. unfold hex_char. destruct (Z.ltb_spec v 10); rewrite byte_val_of; lia. }
  pose proof (byte_val_range c) as Hc. pose proof (Z.mod_pos_bound (byte_val c) 16 ltac:(lia)).
  rewrite (proj2 (Z.ltb_lt _ _)) by (apply Hh; split; [apply Z.div_pos|apply Z.div_lt_upper_bound]; lia).
  rewrite (proj2 (Z.ltb_lt _ _)) by (by apply Hh). exact IH.
Qed.

Section signed.
Context {ED : Ed25519} {EL : Ed25519Laws}.

Definition signed (nation txType eventID payload : string) : Transaction :=
  mkTransaction txType nation eventID
    (EncodeToString (ed_sign (seed_of nation) (signed_message txType nation eventID))) payload.

Lemma spend_tx_eq {S} data (s : S) :
  spend_tx data s = (Ret (signed (NationID data) SPEND_CREDIT (EventID data) ""), s).
Proof. unfold spend_tx. by rewrite (go_bind_run _ _ _ _ _ (SignTransaction_total _ _ _ s)). Qed.

Lemma report_tx_of_eq {S} data p (s : S) :
  report_tx_of data p s = (Ret (signed (NationID data) SAVE_REPORT (EventID data) p), s).
Proof. unfold report_tx_of. by rewrite (go_bind_run _ _ _ _ _ (SignTransaction_total _ _ _ s)). Qed.

Lemma signed_auth n t e p : n ∈ init_nations → auth_code (signed n t e p) = 0.
Proof.
  intros Hn. unfold auth_code, signed. cbn [tx_NationID tx_Signature tx_Type tx_EventID].
  rewrite decide_True by done. rewrite Decode_EncodeToString.
  rewrite ed_sign_size by apply seed_of_length. rewrite Nat.eqb_refl.
  by rewrite ed_verify_sign by apply seed_of_length.
Qed.

Lemma signed_wf n t e p :
  valid_utf8 n = true → valid_utf8 t = true → valid_utf8 e = true → valid_utf8 p = true →
  wf_tx (signed n t e p) = true.
Proof. intros Hn Ht He Hp. unfold wf_tx, signed. simpl. by rewrite Hn, Ht, He, Hp, hex_valid_utf8. Qed.
End signed.

(** The broker's approval of an answer without a result. *)
Lemma no_result_fields members r :
  Forall (λ kv, fold_name (fst kv) ≠ "RESULT") members → into_struct rpc_field members r = Some r.
Proof.
  induction 1 as [|[k v] members Hk Hm IH]; [done|]. cbn [fst] in Hk.
  rewrite (into_struct_step _ _ _ _ _ r); [done|]. unfold rpc_field. by rewrite bool_decide_eq_false_2.
Qed.

(** ** The properties *)

Section end_to_end.
Context {DB : Type} `{!LevelDB DB, !LevelDBLaws DB} {ED : Ed25519} {EL : Ed25519Laws}
  {TC : TxCodec} {TL : TxCodecLaws}.
Implicit Types db : DB.

(** C12: the broker's and the drone's bytes are what the validators accept: for
    a member nation and well-formed fields, executing the payment (or the
    report) the client signs and serializes on any store where that event is
    new returns code 0, archives exactly those bytes, and a payment lowers
    the nation's balance by one. *)
Theorem client_transactions_accepted data report db b :
  NationID data ∈ init_nations → valid_utf8 (EventID data) = true → valid_utf8 report = true →
  long_id (EventID data) = true →
  db_Has (processed_key (tx_tag SPEND_CREDIT (EventID data))) db = false →
  db_Has (processed_key (tx_tag SAVE_REPORT (EventID data))) db = false →
  db_Get (balance_key (NationID data)) db = Some (Itoa b) → min_int64 < b ≤ max_int64 →
  (∃ tx db', go_val (spend_tx data) () = Ret tx ∧
     exec_tx (Marshal_tx tx) db = (Ret (mkExecTx 0 ""), db') ∧
     db_Get (report_key (tag_of tx)) db' = Some (Marshal_tx tx) ∧
     db_Get (balance_key (NationID data)) db' = Some (Itoa (b - 1))) ∧
  (∃ tx db', go_val (report_tx_of data report) () = Ret tx ∧
     exec_tx (Marshal_tx tx) db = (Ret (mkExecTx 0 ""), db') ∧
     db_Get (report_key (tag_of tx)) db' = Some (Marshal_tx tx) ∧
     db_Get (balance_key (NationID data)) db' = Some (Itoa b)).
Proof.
  intros Hn He Hr Hl H1 H2 Hb Hlt.
  assert (is_int64 b ∧ is_int64 (b - 1)) as [Hb1 Hb2] by (unfold is_int64, min_int64, max_int64 in *; lia).
  assert (valid_utf8 (NationID data) = true) as Hnv.
  { unfold init_nations in Hn. rewrite !elem_of_cons, elem_of_nil in Hn.
    by destruct Hn as [->|[->|[->|[->|[]]]]]. }
  assert (balance_of (NationID data) db = b) as Hbal
    by (unfold balance_of; rewrite Hb; simpl; by rewrite Atoi_Itoa).
  split.
  - eexists _, _. unfold go_val. rewrite spend_tx_eq. split; [done|].
    rewrite exec_tx_eq, Unmarshal_Marshal by (by apply signed_wf). rewrite signed_auth by done.
    cbn [Z.eqb]. rewrite apply_tx_eq. unfold tag_of. cbn [signed tx_Type tx_EventID].
    rewrite H1, Hl. split; [done|]. unfold accept_db, debit_db. cbn [signed tx_Type tx_NationID tx_EventID].
    rewrite bool_decide_eq_true_2 by done. rewrite Hbal, wrap64_id by done.
    split; [apply Get_Put_eq|]. by db_simpl.
  - eexists _, _. unfold go_val. rewrite report_tx_of_eq. split; [done|].
    rewrite exec_tx_eq, Unmarshal_Marshal by (by apply signed_wf). rewrite signed_auth by done.
    cbn [Z.eqb]. rewrite apply_tx_eq. unfold tag_of. cbn [signed tx_Type tx_EventID].
    rewrite H2, Hl. split; [done|]. unfold accept_db, debit_db. cbn [signed tx_Type tx_NationID tx_EventID].
    rewrite bool_decide_eq_false_2 by done.
    split; [apply Get_Put_eq|]. by db_simpl.
Qed.
End end_to_end.

(** The client approves a payment on any answer whose JSON object has no
    [result], such as a JSON-RPC error: the missing code reads as 0. *)
Lemma missing_result_approves `{!Ed25519, !Ed25519Laws} {TC : TxCodec} net data body members rest :
  net O = Resp 200 body →
  parse_value (2 * String.length body + 2) 0 body = Good (JObj members) rest →
  Forall (λ kv, fold_name (fst kv) ≠ "RESULT") members →
  go_val (SpendCredit net data) () = Ret true.
Proof.
  intros E Hb Hm. unfold go_val, SpendCredit.
  rewrite (go_bind_run _ _ _ _ _ (spend_tx_eq data ())). unfold PostJSON, call.
  rewrite attempts_step, E. cbn [transient]. change (retry_post 200) with false. cbv iota zeta.
  cbn [result verdict]. unfold answer. change (400 <=? 200) with false. cbv iota.
  unfold decode_rpc, decode_first. rewrite Hb. cbn [into_object].
  by rewrite no_result_fields.
Qed.

Definition rpc_error_body : string :=
  encode_object [("jsonrpc", encode_string "2.0");
                 ("error", encode_object [("code", "-32603"); ("message", encode_string "mempool is full")])].

Lemma missing_result_approves_witness :
  go_val (SpendCredit (ED := ToySigner) (TC := JsonTx) (λ _, Resp 200 rpc_error_body)
    (mkSensorData "event-001" "S" 1 true false 0 "BR" "")) () = Ret true.
Proof.
  eapply (missing_result_approves (λ _, Resp 200 rpc_error_body) _ rpc_error_body).
  - reflexivity.
  - vm_compute. reflexivity.
  - repeat constructor; by vm_compute.
Defined.

Lemma client_transactions_accepted_witness :
  let data := mkSensorData "event-001" "S" 1 true false 0 "BR" "" in
  let db : MapDB := {[ "balance:BR" := "7" ]} in
  ∃ tx db', go_val (spend_tx data) () = Ret tx ∧
    exec_tx (Marshal_tx tx) db = (Ret (mkExecTx 0 ""), db') ∧
    db_Get (report_key (tag_of tx)) db' = Some (Marshal_tx tx) ∧
    db_Get (balance_key "BR") db' = Some "6".
Proof.
  intros data db. refine (proj1 (client_transactions_accepted data "ok" db 7 _ _ _ _ _ _ _ _)).
  - by left.
  - done.
  - done.
  - done.
  - by vm_compute.
  - by vm_compute.
  - by vm_compute.
  - by vm_compute.
Defined.
