(* ===== verification/Broker.v ===== *)
(** * The broker (cmd/broker/mission_processor.go, cmd/broker/http_server.go, cmd/broker/main.go)

    The state the broker's goroutines share, the processing of a packet, the
    HTTP handlers and the janitor of pending missions.  Each locked section
    is a definition of its own and the handlers are composed of them, so that
    BrokerMissions.v can interleave the sections of different callers.  The
    network, the clock on the wall, the interface addresses and the decoded
    request bodies are arguments. *)

From S2P Require Import Prelude GoStd GoHeap Model Lamport Queue Inventory.
From S2P Require Import Interfaces Json Keys Router Buffers HTTPClient Http LedgerClient.
Local Open Scope Z_scope.

Record PendingMission : Type := mkPending {
  pd_Mission : Mission;
  CheckoutTime : Z;
}.

(** ** State *)

Section broker.
Context {RG : Ring} {ED : Ed25519} {TC : TxCodec}.

Record Broker : Type := mkBroker {
  b_queue : PriorityQueue;
  b_shadow : Shadow;
  b_unverified : Unverified;
  b_filter : IdempotencyFilter;
  b_clock : Z;
  b_router : SectorRouter;
  b_pending : gmap string PendingMission;
}.

Definition set_queue (q : PriorityQueue) (b : Broker) : Broker :=
  mkBroker q (b_shadow b) (b_unverified b) (b_filter b) (b_clock b) (b_router b) (b_pending b).
Definition set_shadow (x : Shadow) (b : Broker) : Broker :=
  mkBroker (b_queue b) x (b_unverified b) (b_filter b) (b_clock b) (b_router b) (b_pending b).
Definition set_unverified (x : Unverified) (b : Broker) : Broker :=
  mkBroker (b_queue b) (b_shadow b) x (b_filter b) (b_clock b) (b_router b) (b_pending b).
Definition set_filter (x : IdempotencyFilter) (b : Broker) : Broker :=
  mkBroker (b_queue b) (b_shadow b) (b_unverified b) x (b_clock b) (b_router b) (b_pending b).
Definition set_the_clock (x : Z) (b : Broker) : Broker :=
  mkBroker (b_queue b) (b_shadow b) (b_unverified b) (b_filter b) x (b_router b) (b_pending b).
Definition set_router (x : SectorRouter) (b : Broker) : Broker :=
  mkBroker (b_queue b) (b_shadow b) (b_unverified b) (b_filter b) (b_clock b) x (b_pending b).
Definition set_pending (x : gmap string PendingMission) (b : Broker) : Broker :=
  mkBroker (b_queue b) (b_shadow b) (b_unverified b) (b_filter b) (b_clock b) (b_router b) x.

Definition on_queue {A} (m : go PriorityQueue A) : go Broker A := zoom b_queue set_queue m.
Definition on_shadow {A} (m : go Shadow A) : go Broker A := zoom b_shadow set_shadow m.
Definition on_unverified {A} (m : go Unverified A) : go Broker A := zoom b_unverified set_unverified m.
Definition on_filter {A} (m : go IdempotencyFilter A) : go Broker A := zoom b_filter set_filter m.
Definition on_clock {A} (m : go Z A) : go Broker A := zoom b_clock set_the_clock m.
Definition on_router {A} (m : go SectorRouter A) : go Broker A := zoom b_router set_router m.

(** The HTTP server shares the parts of the packet processor and adds the
    table of pending missions. *)
Definition NewHTTPServer (mq : PriorityQueue) (sb : Shadow) (ub : Unverified) (filter : IdempotencyFilter)
    (clock : Z) (router : SectorRouter) : Broker :=
  mkBroker mq sb ub filter clock router ∅.

(** What [main] builds: aging limit 100, a filter of 60 seconds, 25 sectors. *)
Definition initial_broker : Broker :=
  let missionQueue := New 100 in
  let shadowBuffer := NewShadowBufferManager in
  let idempotency := NewIdempotencyFilter (60 * second) in
  let unverified := NewUnverifiedBufferManager in
  let router := NewSectorRouter 25 "tasks.broker" in
  NewHTTPServer missionQueue shadowBuffer unverified idempotency 0 router.

(** ** Packets *)

(** What a worker sends while it processes a packet. *)
Inductive effect : Type :=
| Spend (data : SensorData)                              (* SpendCredit was called *)
| Forward (ip : string) (payload : string)               (* UDP, port 9000 *)
| Sync_to (ip : string) (action : string) (mission : Mission).  (* POST /internal/shadow/sync *)

(** The requests [broadcastValidationSync] starts. *)
Definition broadcastValidationSync (ifs : option (list Addr)) (action : string) (mission : Mission) :
    go Broker (list effect) :=
  b ← get;
  let myIP := getLocalIP ifs in
  mret ((λ ip, Sync_to ip action mission) <$> filter (λ ip, ip ≠ myIP) (GetAllMembers (b_router b))).

(** The packets [process] looks at. *)
Definition wellformed (data : SensorData) : bool :=
  negb (negb (IsRequisition data) || bool_decide (SensorID data = "") || (SectorID data <=? 0)).

(** From the clock onwards, for an event that is new. *)
Definition process_new (now : Z) (ifs : option (list Addr)) (net : nat → attempt)
    (data : SensorData) : go Broker (list effect) :=
  t ← on_clock Tick;
  currentClock ← (if 0 <? InternalClock data then on_clock (Sync (InternalClock data)) else mret t);
  let mission := newMission data currentClock in
  b ← get;
  let ownerIP := GetOwnerIP (SectorID data) (b_router b) in
  if negb (bool_decide (ownerIP = "")) && negb (isLocalIP ifs ownerIP) then
    on_unverified (Unverified_Store now mission) ;;
    mret [Forward ownerIP (json_Marshal_sensor (set_clock data currentClock))]
  else
    ok ← SpendCredit net data;
    if (ok : bool) then
      on_queue (Enqueue mission) ;;
      sent ← broadcastValidationSync ifs "ACK" mission;
      mret (Spend data :: sent)
    else
      sent ← broadcastValidationSync ifs "NACK" mission;
      mret (Spend data :: sent).

Definition process (now : Z) (ifs : option (list Addr)) (net : nat → attempt) (rawBytes : string) :
    go Broker (list effect) :=
  match json_Unmarshal_sensor rawBytes with
  | None => mret []
  | Some data =>
    if negb (wellformed data) then mret []
    else
      new ← on_filter (CheckAndAdd now (EventID data));
      if negb new then mret [] else process_new now ifs net data
  end.

(** The rescue [main] hangs on the topology watch. *)
Definition rescue (ifs : option (list Addr)) (keys : list string) : go Broker nat :=
  b ← get;
  zoom (λ b, (b_shadow b, b_queue b)) (λ s b, set_queue (snd s) (set_shadow (fst s) b))
    (RescueOrphanedMissions ifs (b_router b) keys).

(** A datagram longer than the buffer loses its end. *)
Definition udp_buffer : nat := 1024.
Definition ReadFromUDP (datagram : string) : string := String.substring 0 udp_buffer datagram.

(** The channel holds 5000 packets; one that finds it full is dropped. *)
Definition udp_capacity : nat := 5000.
Definition startUDPIngestion (datagram : string) (outChan : list string) : list string :=
  let packetCopy := ReadFromUDP datagram in
  if Nat.ltb (length outChan) udp_capacity then outChan ++ [packetCopy] else outChan.

(** *** Configuration *)

Definition getEnv (env : gmap string string) (key fallback : string) : string :=
  match LookupEnv env key with Some val => val | None => fallback end.

(** The UDP port, the HTTP port and the address of the ledger's node. *)
Definition broker_config (env : gmap string string) : string * string * string :=
  (getEnv env "UDP_PORT" "9000", getEnv env "HTTP_PORT" "8080",
   getEnv env "COMET_URL" "http://tasks.cometbft:26657").

(** ** HTTP *)

Record response : Type := mkResponse {
  rs_status : Z;
  rs_mission : option Mission;
}.

Definition status (code : Z) : response := mkResponse code None.

(** *** Pending missions *)

Definition pending_timeout : Z := 60 * second.

(** The locked section of the checkout. *)
Definition checkout (now : Z) (mission : Mission) : go Broker () :=
  modify (λ b, set_pending (<[mission_id mission := mkPending mission now]> (b_pending b)) b).

Definition HandleQueuePop (now : Z) (m : http_method) : go Broker response :=
  match m with
  | MGet =>
    '(mission, found) ← on_queue Dequeue;
    if negb found then mret (status 204)
    else
      checkout now mission ;;
      log_id (mission_id mission) ;;
      mret (mkResponse 200 (Some mission))
  | _ => mret (status 405)
  end.

(** The locked section of the resolution: was the event pending? *)
Definition resolve_take (eventID : string) : go Broker bool :=
  b ← get;
  match b_pending b !! eventID with
  | Some _ => modify (λ b, set_pending (delete eventID (b_pending b)) b) ;; mret true
  | None => mret false
  end.

(** [body]: the decoded request, [None] when it does not decode. *)
Definition HandleQueueResolve (m : http_method) (body : option (string * Mission)) :
    go Broker response :=
  match m with
  | MPost =>
    match body with
    | None => mret (status 400)
    | Some (action, mission) =>
      let eventID := mission_id mission in
      exists_ ← resolve_take eventID;
      if negb exists_ then log_id eventID ;; mret (status 200)
      else
        (if bool_decide (action = "REQUEUE") then on_queue (Enqueue mission) ;; log_id eventID
         else if bool_decide (action = "SUCCESS") then log_id eventID
         else mret ()) ;;
        mret (status 200)
    end
  | _ => mret (status 405)
  end.

(** One visit of the pending janitor, in two parts: the entry leaves the
    table, then its mission goes back to the queue and is logged. *)
Definition pending_take (now : Z) (eventID : string) : go Broker (option Mission) :=
  b ← get;
  match b_pending b !! eventID with
  | Some pending =>
    if pending_timeout <? now - CheckoutTime pending then
      modify (λ b, set_pending (delete eventID (b_pending b)) b) ;; mret (Some (pd_Mission pending))
    else mret None
  | None => mret None
  end.

Definition pending_give (eventID : string) (mission : Mission) : go Broker () :=
  on_queue (Enqueue mission) ;; log_id eventID.

Definition pending_visit (now : Z) (eventID : string) : go Broker () :=
  r ← pending_take now eventID;
  match r with Some mission => pending_give eventID mission | None => mret () end.

(** One tick, [order] being the order in which [range] visits the keys. *)
Definition pending_round (now : Z) (order : list string) : go Broker () :=
  go_for (pending_visit now) order.

(** *** Gossip *)

(** [body]: action, event and mission. *)
Definition HandleShadowSync (now : Z) (m : http_method) (body : option (string * string * Mission)) :
    go Broker response :=
  match m with
  | MPost =>
    match body with
    | None => mret (status 400)
    | Some (action, eventID, mission) =>
      if bool_decide (eventID = "") then mret (status 400)
      else
        on_filter (CheckAndAdd now eventID) ;;
        (if bool_decide (action = "ACK") then
           on_unverified (RetrieveAndRemove eventID) ;;
           on_shadow (Shadow_Store mission) ;;
           log_id eventID
         else if bool_decide (action = "NACK") then
           '(_, found) ← on_unverified (RetrieveAndRemove eventID);
           if (found : bool) then log_id eventID else mret ()
         else mret ()) ;;
        mret (status 200)
    end
  | _ => mret (status 405)
  end.

(** Changes of topology are acknowledged and ignored. *)
Definition topologySync (m : http_method) (decoded : bool) : go Broker response :=
  match m with
  | MPost => mret (if decoded then status 200 else status 400)
  | _ => mret (status 405)
  end.

Definition healthCheck : go Broker response := mret (status 200).

(** The status of the explorer's answer and, with 200, its body (the texts of
    the error answers are left out). *)
Definition handleExplorer (net : nat → attempt) (m : http_method) : go Broker (Z * option string) :=
  match m with
  | MGet =>
    match QueryGlobalState net with
    | inl stateJSON => mret (200, Some stateJSON)
    | inr _ => mret (500, None)
    end
  | _ => mret (405, None)
  end.
End broker.
