(* ===== verification/BrokerMissions.v ===== *)
(** * No mission is lost by the broker

    The life of a mission between the queue and the station: checked out by
    [HandleQueuePop], resolved by [HandleQueueResolve], or timed out by the
    janitor.  [BrokerSys] adds to the broker the missions its goroutines hold
    between two locked sections; the conservation theorem is about arbitrary
    interleavings of these sections, of which the handlers are compositions
    ([HandleQueuePop_sections], [HandleQueueResolve_sections]). *)

From S2P Require Import Prelude GoStd GoHeap Model Queue Inventory.
From S2P Require Import Interfaces Router Buffers Flow HTTPClient Http Broker.
Local Open Scope Z_scope.

(** Why a goroutine holds a mission. *)
Inductive holding : Type :=
| Popped      (* taken from the queue, to be checked out *)
| Returned    (* given back by the station, to be enqueued *)
| TimedOut.   (* taken by the janitor, to be enqueued and logged *)

Section missions.
Context {RG : Ring}.

Record BrokerSys : Type := mkBSys {
  bs_broker : Broker;
  bs_hand : list (holding * Mission);
}.

Definition set_broker (b : Broker) (s : BrokerSys) : BrokerSys := mkBSys b (bs_hand s).
Definition set_bhand (h : list (holding * Mission)) (s : BrokerSys) : BrokerSys :=
  mkBSys (bs_broker s) h.
Definition broker {A} (m : go Broker A) : go BrokerSys A := zoom bs_broker set_broker m.
Definition take_in_hand (k : holding) (m : Mission) : go BrokerSys () :=
  modify (λ s, set_bhand ((k, m) :: bs_hand s) s).

Inductive broker_op : Type :=
| BArrive (mission : Mission)                     (* Enqueue by a worker or a rescue *)
| BPop                                            (* Dequeue by HandleQueuePop *)
| BCheckout (i : nat) (now : Z)                   (* its locked section *)
| BResolve (action : string) (mission : Mission)  (* the locked section of HandleQueueResolve *)
| BExpire (now : Z) (eventID : string)            (* a visit of the janitor *)
| BGive (i : nat)                                 (* Enqueue of a held mission *)
| BAge (currentClock : Z).                        (* a round of the queue's worker *)

Definition broker_step (o : broker_op) : go BrokerSys (list flow) :=
  match o with
  | BArrive m => broker (on_queue (Enqueue m)) ;; mret [Entered (mission_id m)]
  | BPop =>
    r ← broker (on_queue Dequeue);
    let '(m, found) := r in
    if (found : bool) then take_in_hand Popped m ;; mret [] else mret []
  | BCheckout i now =>
    s ← get;
    match bs_hand s !! i with
    | Some (Popped, m) =>
      broker (checkout now m) ;;
      modify (set_bhand (delete i (bs_hand s))) ;;
      mret (match b_pending (bs_broker s) !! mission_id m with
            | Some _ => [Left (mission_id m)]
            | None => []
            end)
    | _ => mret []
    end
  | BResolve action m =>
    found ← broker (resolve_take (mission_id m));
    if (found : bool) then
      if bool_decide (action = "REQUEUE") then take_in_hand Returned m ;; mret []
      else mret [Left (mission_id m)]
    else mret []
  | BExpire now e =>
    r ← broker (pending_take now e);
    match r with
    | Some m => take_in_hand TimedOut m ;; mret []
    | None => mret []
    end
  | BGive i =>
    s ← get;
    match bs_hand s !! i with
    | Some (Returned, m) =>
      broker (on_queue (Enqueue m)) ;; modify (set_bhand (delete i (bs_hand s))) ;; mret []
    | Some (TimedOut, m) =>
      broker (pending_give (mission_id m) m) ;; modify (set_bhand (delete i (bs_hand s))) ;; mret []
    | _ => mret []
    end
  | BAge currentClock => broker (on_queue (antiStarvationRound currentClock)) ;; mret []
  end.

Definition bplaces (s : BrokerSys) : list string :=
  keys (b_pending (bs_broker s)) ++ (mission_id ∘ snd <$> bs_hand s) ++
  (mission_id <$> mh (b_queue (bs_broker s))).

Definition pending_keyed (p : gmap string PendingMission) : Prop :=
  ∀ e x, p !! e = Some x → mission_id (pd_Mission x) = e.

Record broker_ok (s : BrokerSys) : Prop := mkBrokerOk {
  bok_keys : pending_keyed (b_pending (bs_broker s));
  bok_queue : pq_ok (b_queue (bs_broker s));
  bok_long e : e ∈ bplaces s → (8 ≤ String.length e)%nat;
}.

Definition bop_long (o : broker_op) : Prop :=
  match o with BArrive m => (8 ≤ String.length (mission_id m))%nat | _ => True end.

(** ** Lemmas: the sections *)

Lemma resolve_take_eq e (b : Broker) :
  resolve_take e b =
    match b_pending b !! e with
    | Some _ => (Ret true, set_pending (delete e (b_pending b)) b)
    | None => (Ret false, b)
    end.
Proof. unfold resolve_take. go_unfold. by destruct (b_pending b !! e). Qed.

Lemma pending_take_eq now e (b : Broker) :
  pending_take now e b =
    match b_pending b !! e with
    | Some x =>
      if pending_timeout <? now - CheckoutTime x
      then (Ret (Some (pd_Mission x)), set_pending (delete e (b_pending b)) b)
      else (Ret None, b)
    | None => (Ret None, b)
    end.
Proof. unfold pending_take. go_unfold. destruct (b_pending b !! e); [by case_match|done]. Qed.

Lemma on_queue_run {A} (m : go PriorityQueue A) (b : Broker) a q :
  m (b_queue b) = (Ret a, q) → on_queue m b = (Ret a, set_queue q b).
Proof. intros E. unfold on_queue, zoom. by rewrite E. Qed.

Lemma enqueue_ok (b : Broker) m :
  pq_ok (b_queue b) →
  ∃ q, on_queue (Enqueue m) b = (Ret (), set_queue q b) ∧ pq_ok q ∧ mh q ≡ₚ m :: mh (b_queue b).
Proof.
  intros Hq. destruct (Enqueue_ok _ m Hq) as (q & E & Hok & Hp & _). exists q.
  by rewrite (on_queue_run _ _ _ _ E).
Qed.

Lemma pending_give_ok (b : Broker) m :
  pq_ok (b_queue b) → (8 ≤ String.length (mission_id m))%nat →
  ∃ q, pending_give (mission_id m) m b = (Ret (), set_queue q b) ∧ pq_ok q ∧
       mh q ≡ₚ m :: mh (b_queue b).
Proof.
  intros Hq Hl. destruct (enqueue_ok b m Hq) as (q & E & Hok & Hp). exists q.
  unfold pending_give. by rewrite (go_bind_run _ _ _ _ _ E), log_id_long.
Qed.

Lemma broker_run {A} (m : go Broker A) s a b :
  m (bs_broker s) = (Ret a, b) → broker m s = (Ret a, set_broker b s).
Proof. intros E. unfold broker, zoom. by rewrite E. Qed.

Lemma pkeyed_delete p e : pending_keyed p → pending_keyed (delete e p).
Proof. intros H e' x. rewrite lookup_delete. case_decide; [done|apply H]. Qed.

Definition bstep_ok (o : broker_op) (s : BrokerSys) : Prop :=
  ∃ fl s', broker_step o s = (Ret fl, s') ∧ pending_keyed (b_pending (bs_broker s')) ∧
    pq_ok (b_queue (bs_broker s')) ∧ balanced bplaces s fl s'.

Lemma bstep_same o s :
  pending_keyed (b_pending (bs_broker s)) → pq_ok (b_queue (bs_broker s)) →
  broker_step o s = (Ret [], s) → bstep_ok o s.
Proof. intros Hk Hq E. exists [], s. split_and!; [done|done|done|by apply balanced_same]. Qed.

Section step.
Context (s : BrokerSys) (Hk : pending_keyed (b_pending (bs_broker s)))
  (Hq : pq_ok (b_queue (bs_broker s))).

Lemma bstep_arrive m : bstep_ok (BArrive m) s.
Proof.
  unfold bstep_ok, broker_step. destruct (enqueue_ok _ m Hq) as (q & E & Hok & Hp).
  rewrite (go_bind_run _ _ _ _ _ (broker_run _ _ _ _ E)). eexists _, _. split; [done|].
  split_and!; [done|done|]. unfold balanced, bplaces. simpl.
  rewrite Hp, fmap_cons, app_nil_r. rewrite <- perm_swap4, <- perm_swap3.
  apply (Permutation_app_comm [_]).
Qed.

Lemma bstep_pop : bstep_ok BPop s.
Proof.
  unfold bstep_ok, broker_step. destruct (decide (mh (b_queue (bs_broker s)) = [])) as [En|Hne].
  - pose proof (on_queue_run _ _ _ _ (Dequeue_empty _ En)) as E.
    rewrite (go_bind_run _ _ _ _ _ (broker_run _ _ _ _ E)). eexists _, _. split; [done|].
    split_and!; [done|done|by apply balanced_same].
  - destruct (Dequeue_ok _ Hq Hne) as (m & q & E & Hok & Hp & _).
    apply on_queue_run in E.
    rewrite (go_bind_run _ _ _ _ _ (broker_run _ _ _ _ E)). eexists _, _. split; [done|].
    split_and!; [done|done|]. unfold balanced, bplaces. simpl. rewrite !app_nil_r, Hp, fmap_cons.
    apply (perm_swap4 (mission_id m)).
Qed.

Lemma hand_delete i k m :
  bs_hand s !! i = Some (k, m) →
  mission_id ∘ snd <$> bs_hand s ≡ₚ mission_id m :: (mission_id ∘ snd <$> delete i (bs_hand s)).
Proof. intros E. by rewrite (delete_Permutation (bs_hand s) i (k, m) E) at 1. Qed.

Lemma bstep_checkout i now : bstep_ok (BCheckout i now) s.
Proof.
  destruct (bs_hand s !! i) as [[[] m]|] eqn:Eh;
    try (apply bstep_same; [done|done|]; unfold broker_step; go_unfold; by rewrite Eh).
  unfold bstep_ok, broker_step, mbind, go_mbind, get. rewrite Eh. cbn.
  eexists _, _. split; [done|]. split_and!; [|done|].
  - intros e x. simpl. rewrite lookup_insert. case_decide as He; [|apply Hk].
    intros [= <-]. done.
  - unfold balanced, bplaces. simpl. rewrite (hand_delete _ _ _ Eh).
    destruct (b_pending (bs_broker s) !! mission_id m) as [x|] eqn:Ep; simpl.
    + rewrite (keys_insert_old _ _ _ x Ep), app_nil_r, <- Permutation_middle, app_nil_r.
      apply Permutation_middle.
    + rewrite (keys_insert_new _ _ _ Ep), !app_nil_r. apply Permutation_middle.
Qed.

Lemma bstep_resolve action m : bstep_ok (BResolve action m) s.
Proof.
  unfold bstep_ok, broker_step. pose proof (resolve_take_eq (mission_id m) (bs_broker s)) as E.
  destruct (b_pending (bs_broker s) !! mission_id m) as [x|] eqn:Ep; apply broker_run in E;
    rewrite (go_bind_run _ _ _ _ _ E).
  2: { eexists _, _. split; [done|]. split_and!; [done|done|by apply balanced_same]. }
  case_bool_decide; (eexists _, _; split; [done|]; split_and!; [by apply pkeyed_delete|done|]);
    unfold balanced, bplaces; simpl; rewrite (keys_delete _ _ _ Ep), ?app_nil_r.
  - symmetry. apply (perm_swap3 (mission_id m)).
  - apply (Permutation_app_comm _ [_]).
Qed.

Lemma bstep_expire now e : bstep_ok (BExpire now e) s.
Proof.
  unfold bstep_ok, broker_step. pose proof (pending_take_eq now e (bs_broker s)) as E.
  destruct (b_pending (bs_broker s) !! e) as [x|] eqn:Ep;
    [destruct (pending_timeout <? now - CheckoutTime x)|]; apply broker_run in E;
    rewrite (go_bind_run _ _ _ _ _ E); (eexists _, _; split; [done|]);
    try (split_and!; [done|done|by apply balanced_same]).
  split_and!; [by apply pkeyed_delete|done|]. unfold balanced, bplaces. simpl.
  rewrite !app_nil_r, (keys_delete _ _ _ Ep), (Hk _ _ Ep). symmetry. apply perm_swap3.
Qed.

Lemma bstep_give i :
  (∀ k m, bs_hand s !! i = Some (k, m) → (8 ≤ String.length (mission_id m))%nat) →
  bstep_ok (BGive i) s.
Proof.
  intros Hl. destruct (bs_hand s !! i) as [[k m]|] eqn:Eh.
  2: { apply bstep_same; [done|done|]. unfold broker_step. go_unfold. by rewrite Eh. }
  specialize (Hl _ _ eq_refl).
  assert (∀ q, mh q ≡ₚ m :: mh (b_queue (bs_broker s)) → pq_ok q →
    broker_step (BGive i) s = (Ret [], set_bhand (delete i (bs_hand s)) (set_broker (set_queue q (bs_broker s)) s)) →
    bstep_ok (BGive i) s) as K.
  { intros q Hp Hok E. eexists _, _. split; [exact E|]. split_and!; [done|done|].
    unfold balanced, bplaces. simpl. rewrite !app_nil_r, Hp, fmap_cons, (hand_delete _ _ _ Eh).
    symmetry. apply perm_swap4. }
  destruct k.
  - apply bstep_same; [done|done|]. unfold broker_step. go_unfold. by rewrite Eh.
  - destruct (enqueue_ok _ m Hq) as (q & E & Hok & Hp). apply broker_run in E.
    apply (K q Hp Hok). unfold broker_step, mbind, go_mbind, get. by rewrite Eh, E.
  - destruct (pending_give_ok _ m Hq Hl) as (q & E & Hok & Hp). apply broker_run in E.
    apply (K q Hp Hok). unfold broker_step, mbind, go_mbind, get. by rewrite Eh, E.
Qed.

Lemma bstep_age c : bstep_ok (BAge c) s.
Proof.
  unfold bstep_ok, broker_step. destruct (aging_ids _ c Hq) as (q & E & Hok & Hi).
  apply on_queue_run in E. rewrite (go_bind_run _ _ _ _ _ (broker_run _ _ _ _ E)).
  eexists _, _. split; [done|]. split_and!; [done|done|].
  unfold balanced, bplaces. simpl. by rewrite Hi.
Qed.
End step.

Lemma broker_step_ok o s : broker_ok s → bop_long o →
  ∃ fl s', broker_step o s = (Ret fl, s') ∧ broker_ok s' ∧ balanced bplaces s fl s'.
Proof.
  intros [Hk Hq Hl] Ho.
  assert (bstep_ok o s) as (fl & s' & E & Hk' & Hq' & Hb).
  { destruct o; [by apply bstep_arrive|by apply bstep_pop|by apply bstep_checkout
      |by apply bstep_resolve|by apply bstep_expire| |by apply bstep_age].
    apply bstep_give; [done|done|]. intros k m Hm. apply Hl. unfold bplaces.
    apply elem_of_app. right. apply elem_of_app. left. apply list_elem_of_fmap.
    exists (k, m). split; [done|]. by apply list_elem_of_lookup_2 in Hm. }
  exists fl, s'. split; [done|]. split; [|done]. split; [done|done|].
  intros e He. destruct (balanced_elem _ _ _ _ e Hb He) as [He'|He']; [by apply Hl|].
  destruct o as [m| |i now|a m|now e'|i|c]; unfold broker_step in E; go_unfold_in E;
    repeat (case_match; try discriminate; simplify_eq); simpl in He';
    try (by apply not_elem_of_nil in He').
  apply list_elem_of_singleton in He'. by subst.
Qed.

Definition initial_sys : BrokerSys := mkBSys initial_broker [].

Lemma initial_sys_ok : broker_ok initial_sys.
Proof. split; [done|apply New_ok|]. intros e He. by apply not_elem_of_nil in He. Qed.

(** ** The handlers are made of these sections *)

(** The pop of an empty or non-empty queue, alone on the broker. *)
Lemma HandleQueuePop_sections now s :
  pq_ok (b_queue (bs_broker s)) → bs_hand s = [] →
  (∀ m, m ∈ mh (b_queue (bs_broker s)) → (8 ≤ String.length (mission_id m))%nat) →
  ∃ r fls s', go_map broker_step [BPop; BCheckout 0 now] s = (Ret fls, s') ∧ bs_hand s' = [] ∧
    HandleQueuePop now MGet (bs_broker s) = (Ret r, bs_broker s').
Proof.
  intros Hq Hh Hl. destruct s as [b h]. simpl in *. subst h.
  destruct (decide (mh (b_queue b) = [])) as [En|Hne].
  - pose proof (on_queue_run _ _ _ _ (Dequeue_empty _ En)) as E.
    exists (status 204), [[]; []], (mkBSys (set_queue (b_queue b) b) []). split; [|split; [done|]].
    + cbn [go_map]. unfold broker_step, broker, zoom. go_unfold. simpl. by rewrite E.
    + unfold HandleQueuePop. by rewrite (go_bind_run _ _ _ _ _ E).
  - destruct (Dequeue_ok _ Hq Hne) as (m & q & E & Hok & Hp & _). apply on_queue_run in E.
    assert (8 ≤ String.length (mission_id m))%nat as Hm.
    { apply Hl. rewrite Hp. by left. }
    exists (mkResponse 200 (Some m)), [[]; match b_pending b !! mission_id m with
      Some _ => [Left (mission_id m)] | None => [] end],
      (mkBSys (set_pending (<[mission_id m:=mkPending m now]> (b_pending b)) (set_queue q b)) []).
    split; [|split].
    + cbn [go_map]. unfold broker_step, broker, zoom, take_in_hand. go_unfold. simpl.
      rewrite E. simpl. done.
    + done.
    + unfold HandleQueuePop. rewrite (go_bind_run _ _ _ _ _ E). unfold checkout. go_unfold. simpl.
      pose proof (log_id_long (mission_id m)
        (set_pending (<[mission_id m:=mkPending m now]> (b_pending b)) (set_queue q b)) Hm) as El.
      by rewrite El.
Qed.

(** The resolution, alone on the broker: one section, two when the mission
    comes back. *)
Lemma HandleQueueResolve_sections action m s :
  pq_ok (b_queue (bs_broker s)) → bs_hand s = [] → (8 ≤ String.length (mission_id m))%nat →
  ∃ fls s', go_map broker_step [BResolve action m; BGive 0] s = (Ret fls, s') ∧ bs_hand s' = [] ∧
    HandleQueueResolve MPost (Some (action, m)) (bs_broker s) = (Ret (status 200), bs_broker s').
Proof.
  intros Hq Hh Hl. destruct s as [b h]. simpl in *. subst h.
  pose proof (resolve_take_eq (mission_id m) b) as E.
  assert (∀ b : Broker, log_id (mission_id m) b = (Ret (), b)) as El
    by (intros b'; by apply log_id_long).
  destruct (b_pending b !! mission_id m) as [x|] eqn:Ep.
  2: { exists [[]; []], (mkBSys b []). split; [|split; [done|]].
    + cbn [go_map]. unfold broker_step, broker, zoom. go_unfold. simpl. by rewrite E.
    + unfold HandleQueueResolve. rewrite (go_bind_run _ _ _ _ _ E). go_unfold. simpl. by rewrite El. }
  set (b1 := set_pending (delete (mission_id m) (b_pending b)) b) in *.
  destruct (enqueue_ok b1 m Hq) as (q & Eq & _).
  destruct (decide (action = "REQUEUE")) as [->|Hne].
  - exists [[]; []], (mkBSys (set_queue q b1) []). split; [|split; [done|]].
    + cbn [go_map]. unfold broker_step, broker, zoom, take_in_hand. go_unfold. simpl.
      rewrite E. simpl. by rewrite Eq.
    + unfold HandleQueueResolve. rewrite (go_bind_run _ _ _ _ _ E). go_unfold. simpl.
      by rewrite Eq, El.
  - exists [[Left (mission_id m)]; []], (mkBSys b1 []). split; [|split; [done|]].
    + cbn [go_map]. unfold broker_step, broker, zoom. go_unfold. simpl. rewrite E.
      by rewrite bool_decide_eq_false_2.
    + unfold HandleQueueResolve. rewrite (go_bind_run _ _ _ _ _ E). go_unfold. simpl.
      rewrite bool_decide_eq_false_2 by done. case_bool_decide; [by rewrite El|done].
Qed.

(** ** The properties *)

(** The broker loses no mission: for every interleaving of arrivals, pops,
    checkouts, resolutions, time-outs, returns and aging rounds, the events that arrived
    are exactly those the broker still holds (queued, pending, or in the hand
    of a handler) and those that left it: resolved by the station without a
    return, or checked out twice under one identifier.  No section panics
    while the identifiers have eight bytes. *)
Lemma broker_conservation ops :
  Forall bop_long ops →
  ∃ fls s', go_map broker_step ops initial_sys = (Ret fls, s') ∧
    bplaces s' ++ left_ids (concat fls) ≡ₚ entered (concat fls).
Proof.
  intros Ho. destruct (flow_run_ok bplaces broker_step broker_ok bop_long broker_step_ok
    ops _ initial_sys_ok Ho) as (fls & s' & E & _ & B).
  by exists fls, s'.
Qed.

(** The entries the janitor takes. *)
Definition overdue (now : Z) (x : PendingMission) : bool :=
  pending_timeout <? now - CheckoutTime x.

Lemma pending_round_ok now order b :
  pending_keyed (b_pending b) → pq_ok (b_queue b) →
  (∀ e, is_Some (b_pending b !! e) → (8 ≤ String.length e)%nat) →
  let t := take_all (overdue now) order (b_pending b) in
  ∃ q, pending_round now order b = (Ret (), set_queue q (set_pending (snd t) b)) ∧ pq_ok q ∧
    mh q ≡ₚ (pd_Mission <$> fst t) ++ mh (b_queue b).
Proof.
  unfold pending_round. revert b. induction order as [|k order IH]; intros b Hk Hq Hl.
  { exists (b_queue b). by destruct b. }
  cbn [go_for]. rewrite take_all_cons. cbn [fst snd]. pose proof (pending_take_eq now k b) as E.
  unfold take_one. destruct (b_pending b !! k) as [x|] eqn:Ek;
    [destruct (overdue now x) eqn:Eo; unfold overdue in Eo; rewrite Eo in E|].
  2,3: assert (pending_visit now k b = (Ret (), b)) as Ev
    by (unfold pending_visit; by rewrite (go_bind_run _ _ _ _ _ E));
    rewrite (go_bind_run _ _ _ _ _ Ev); by apply IH.
  pose proof (Hk _ _ Ek) as Ei. set (b1 := set_pending (delete k (b_pending b)) b) in *.
  destruct (pending_give_ok b1 (pd_Mission x) Hq) as (q & Eg & Hok & Hp1).
  { rewrite Ei. apply Hl. by rewrite Ek. }
  rewrite Ei in Eg. assert (pending_visit now k b = (Ret (), set_queue q b1)) as Ev
    by (unfold pending_visit; by rewrite (go_bind_run _ _ _ _ _ E)).
  rewrite (go_bind_run _ _ _ _ _ Ev). destruct (IH (set_queue q b1)) as (q' & E' & Hq' & Hp).
  { by apply pkeyed_delete. }
  { done. }
  { intros e [y Hy]. simpl in Hy. apply lookup_delete_Some in Hy as [_ Hy]. apply Hl. by rewrite Hy. }
  exists q'. split_and!; [done|done|]. rewrite Hp. simpl. rewrite Hp1. symmetry.
  apply Permutation_middle.
Qed.

(** Forgotten missions come back: a tick of the janitor moves to the queue
    exactly the missions checked out more than sixty seconds before, in
    whatever order it visits them, so a station that died with a mission, or
    whose answer was lost, only delays it. *)
Lemma pending_recovered now order b :
  pending_keyed (b_pending b) → pq_ok (b_queue b) →
  (∀ e, is_Some (b_pending b !! e) → (8 ≤ String.length e)%nat ∧ e ∈ order) →
  ∃ b' l, pending_round now order b = (Ret (), b') ∧ pq_ok (b_queue b') ∧
    mh (b_queue b') ≡ₚ l ++ mh (b_queue b) ∧
    keys (b_pending b) ≡ₚ (mission_id <$> l) ++ keys (b_pending b') ∧
    (∀ e x, b_pending b' !! e = Some x ↔
       b_pending b !! e = Some x ∧ now - CheckoutTime x ≤ pending_timeout).
Proof.
  intros Hk Hq Hall.
  destruct (pending_round_ok now order b Hk Hq (λ e He, proj1 (Hall e He))) as (q & E & Hq' & Hp).
  eexists _, _. split_and!; [exact E|done|exact Hp| |].
  - rewrite <- list_fmap_compose. by apply (take_all_keys _ (mission_id ∘ pd_Mission)).
  - intros e x. simpl. rewrite take_all_covers by apply Hall. unfold overdue. by rewrite Z.ltb_ge.
Qed.
End missions.

(** ** Witnesses *)

Lemma broker_conservation_witness :
  let m := sample "event-001" false 3 in
  let ops := [BArrive m; BPop; BArrive (sample "event-002" false 4); BCheckout 0 0;
              BExpire (61 * second) "event-001"; BResolve "SUCCESS" m; BGive 0] in
  ∃ fls s', go_map (broker_step (RG := ToyRing)) ops initial_sys = (Ret fls, s') ∧
    bplaces s' ≡ₚ ["event-001"; "event-002"].
Proof.
  intros m ops. destruct (broker_conservation (RG := ToyRing) ops) as (fls & s' & E & B).
  - repeat constructor.
  - exists fls, s'. split; [exact E|]. vm_compute in E. injection E as <- <-.
    vm_compute in B |- *. exact B.
Defined.

Lemma pending_recovered_witness :
  let m := sample "event-001" false 3 in
  let b := set_pending {[ "event-001" := mkPending m 0 ]} (initial_broker (RG := ToyRing)) in
  ∃ b' l, pending_round (61 * second) ["event-001"] b = (Ret (), b') ∧
    mh (b_queue b') ≡ₚ l ++ [] ∧ b_pending b' !! "event-001" = None.
Proof.
  intros m b.
  assert (∀ e x, b_pending b !! e = Some x → e = "event-001" ∧ x = mkPending m 0) as Hb.
  { intros e x. simpl. rewrite lookup_singleton. case_decide; [by intros [= <-]|done]. }
  destruct (pending_recovered (61 * second) ["event-001"] b) as (b' & l & E & _ & Hp & _ & Hpend).
  - by intros e x [-> ->]%Hb.
  - apply New_ok.
  - intros e [x [-> _]%Hb]. split; [simpl; lia|by left].
  - exists b', l. split; [exact E|]. split; [exact Hp|].
    apply eq_None_not_Some. intros [x Hx]. apply Hpend in Hx as [[_ ->]%Hb Ht].
    by vm_compute in Ht.
Defined.
