(* ===== verification/BrokerGossip.v ===== *)
(** * Packets, payments and gossip

    What [process] does with a packet on each of its branches, that an event
    is charged once however often its packet arrives, that the owner of a
    sector orders a forwarded mission after the broker that forwarded it, that
    the verdict and the packet may arrive at a secondary in either order, and
    how far one packet with a short identifier reaches. *)

From S2P Require Import Prelude GoStd GoHeap Model Lamport Queue Flow Inventory Interfaces Json JsonProps.
From S2P Require Import JsonDecoded Keys LedgerApp LedgerSpec LedgerProps Router Buffers HTTPClient Http LedgerClient Broker BrokerMissions.
Local Open Scope Z_scope.

Section gossip.
Context {RG : Ring} {ED : Ed25519} {EL : Ed25519Laws} {TC : TxCodec}.
Implicit Types b : Broker.

(** ** One packet *)

(** The clock [process] stamps a mission with. *)
Definition stamp (data : SensorData) (c : Z) : Z :=
  if 0 <? InternalClock data then sync_val (InternalClock data) (tick_val c) else tick_val c.

(** Is the sector of the packet another broker's? *)
Definition foreign (ifs : option (list Addr)) (data : SensorData) b : bool :=
  let owner := GetOwnerIP (SectorID data) (b_router b) in
  negb (bool_decide (owner = "")) && negb (isLocalIP ifs owner).

(** The ledger client's answer, without its state. *)
Definition pays (net : nat → attempt) (data : SensorData) : bool :=
  approved (result (PostJSON NewLedgerClient
    (Some (rpc_request "1" (Marshal_tx (signed (NationID data) SPEND_CREDIT (EventID data) ""))))
    decode_rpc net)).

Lemma SpendCredit_eq {S} net data (s : S) : SpendCredit net data s = (Ret (pays net data), s).
Proof. unfold SpendCredit. by rewrite (go_bind_run _ _ _ _ _ (spend_tx_eq data s)). Qed.

Definition sync_effects (ifs : option (list Addr)) (action : string) (m : Mission) b : list effect :=
  (λ ip, Sync_to ip action m) <$> filter (λ ip, ip ≠ getLocalIP ifs) (GetAllMembers (b_router b)).

(** The three ways a new packet goes. *)
Definition routed (now : Z) (ifs : option (list Addr)) (net : nat → attempt) (data : SensorData)
    b (effs : list effect) b' : Prop :=
  let c := stamp data (b_clock b) in
  let m := newMission data c in
  b_clock b' = c ∧ b_filter b' = b_filter b ∧ b_shadow b' = b_shadow b ∧
  b_pending b' = b_pending b ∧ b_router b' = b_router b ∧ pq_ok (b_queue b') ∧
  if foreign ifs data b then
    effs = [Forward (GetOwnerIP (SectorID data) (b_router b))
              (json_Marshal_sensor (set_clock data c))] ∧
    b_queue b' = b_queue b ∧
    b_unverified b' = <[EventID data := mkUnverified m (now + validation_timeout)]> (b_unverified b)
  else
    b_unverified b' = b_unverified b ∧
    if pays net data then
      effs = Spend data :: sync_effects ifs "ACK" m b ∧ mh (b_queue b') ≡ₚ m :: mh (b_queue b)
    else
      effs = Spend data :: sync_effects ifs "NACK" m b ∧ b_queue b' = b_queue b.

Lemma process_new_ok now ifs net data b :
  pq_ok (b_queue b) →
  ∃ effs b', process_new now ifs net data b = (Ret effs, b') ∧ routed now ifs net data b effs b'.
Proof.
  intros Hq. unfold process_new.
  assert (on_clock Tick b = (Ret (tick_val (b_clock b)), set_the_clock (tick_val (b_clock b)) b)) as E1
    by done.
  rewrite (go_bind_run _ _ _ _ _ E1). set (c := stamp data (b_clock b)).
  assert ((if 0 <? InternalClock data then on_clock (Sync (InternalClock data)) else mret (tick_val (b_clock b)))
    (set_the_clock (tick_val (b_clock b)) b) = (Ret c, set_the_clock c b)) as E2.
  { unfold c, stamp. by destruct (0 <? InternalClock data). }
  rewrite (go_bind_run _ _ _ _ _ E2). unfold mbind at 1, go_mbind at 1, get at 1.
  change (b_router (set_the_clock c b)) with (b_router b). unfold routed. fold c. fold (foreign ifs data b).
  destruct (foreign ifs data b).
  - eexists _, _. split; [done|]. by split_and!.
  - rewrite (go_bind_run _ _ _ _ _ (SpendCredit_eq net data (set_the_clock c b))).
    destruct (pays net data).
    + destruct (Enqueue_ok (b_queue b) (newMission data c) Hq) as (q & E & Hok & Hp & _).
      assert (on_queue (Enqueue (newMission data c)) (set_the_clock c b) =
        (Ret (), set_queue q (set_the_clock c b))) as E3 by (by apply on_queue_run).
      rewrite (go_bind_run _ _ _ _ _ E3). eexists _, _. split; [done|]. by split_and!.
    + eexists _, _. split; [done|]. by split_and!.
Qed.

(** A packet that gets past the checks and the filter. *)
Definition new_packet (raw : string) (data : SensorData) b : Prop :=
  json_Unmarshal_sensor raw = Some data ∧ wellformed data = true ∧
  seen (b_filter b) !! EventID data = None.

Definition remember (now : Z) (e : string) b : Broker :=
  set_filter (set_seen (<[e := now + ttl (b_filter b)]> (seen (b_filter b))) (b_filter b)) b.

Lemma process_new_packet now ifs net raw data b :
  new_packet raw data b →
  process now ifs net raw b = process_new now ifs net data (remember now (EventID data) b).
Proof.
  intros (E & W & N). unfold process. rewrite E, W. cbn [negb].
  assert (on_filter (CheckAndAdd now (EventID data)) b = (Ret true, remember now (EventID data) b)) as E1
    by (unfold on_filter, zoom; by rewrite CheckAndAdd_eq, N).
  by rewrite (go_bind_run _ _ _ _ _ E1).
Qed.

Lemma process_cases now ifs net raw b :
  process now ifs net raw b = (Ret [], b) ∨ ∃ data, new_packet raw data b.
Proof.
  unfold process, new_packet. destruct (json_Unmarshal_sensor raw) as [data|] eqn:E0; [|by left].
  destruct (wellformed data) eqn:W0; [|by left]. cbn [negb].
  destruct (seen (b_filter b) !! EventID data) as [e|] eqn:N; [|right; exists data; by split_and!].
  left. assert (on_filter (CheckAndAdd now (EventID data)) b = (Ret false, b)) as E1.
  { unfold on_filter, zoom. rewrite CheckAndAdd_eq, N. by destruct b. }
  by rewrite (go_bind_run _ _ _ _ _ E1).
Qed.

Lemma wellformed_spec data :
  wellformed data = true ↔ IsRequisition data = true ∧ SensorID data ≠ "" ∧ 0 < SectorID data.
Proof.
  unfold wellformed. rewrite negb_true_iff, !orb_false_iff, negb_false_iff, bool_decide_eq_false, Z.leb_gt. tauto.
Qed.

Lemma foreign_remember now e ifs data b : foreign ifs data (remember now e b) = foreign ifs data b.
Proof. done. Qed.

(** C21: what a worker does with a packet.  Bytes that are no sensor data, data
    that is no requisition or has no sensor or no positive sector, and an event
    the filter still has: nothing changes and nothing is sent.  Every other
    packet is remembered until its time to live ends, stamped with a clock
    above the broker's and the packet's, and, if another broker owns its
    sector, kept unverified and forwarded there, else charged, and then
    enqueued and announced, or dropped and announced as rejected.  No worker
    panics. *)
Theorem process_routes now ifs net raw b :
  pq_ok (b_queue b) → 0 ≤ b_clock b →
  (json_Unmarshal_sensor raw = None → process now ifs net raw b = (Ret [], b)) ∧
  ∀ data, json_Unmarshal_sensor raw = Some data →
    (IsRequisition data = false ∨ SensorID data = "" ∨ SectorID data ≤ 0 →
       process now ifs net raw b = (Ret [], b)) ∧
    (is_Some (seen (b_filter b) !! EventID data) → process now ifs net raw b = (Ret [], b)) ∧
    (IsRequisition data = true → SensorID data ≠ "" → 0 < SectorID data →
     seen (b_filter b) !! EventID data = None →
     ∃ effs b', process now ifs net raw b = (Ret effs, b') ∧
       routed now ifs net data (remember now (EventID data) b) effs b' ∧
       (b_clock b < max_uint64 - 1 → InternalClock data < max_uint64 →
        b_clock b < b_clock b' ∧ InternalClock data < b_clock b')).
Proof.
  intros Hq Hc. split; [intros E; unfold process; by rewrite E|].
  intros data E. pose proof (wellformed_spec data) as Hw. split_and!.
  - intros Hbad. unfold process. rewrite E. destruct (wellformed data); [|done].
    destruct (proj1 Hw eq_refl) as (? & ? & ?). destruct Hbad as [?|[?|?]]; [congruence|done|lia].
  - intros [x Hx]. destruct (process_cases now ifs net raw b) as [?|(data' & E' & _ & Hn)]; [done|].
    rewrite E in E'. injection E' as <-. congruence.
  - intros H1 H2 H3 H4. assert (new_packet raw data b) as Hn by (split_and!; [done|by apply Hw|done]).
    destruct (process_new_ok now ifs net data (remember now (EventID data) b) Hq) as (effs & b' & Er & R).
    exists effs, b'. split_and!; [by rewrite (process_new_packet _ _ _ _ data)|done|].
    intros Hb Hi. destruct R as (-> & _). unfold stamp. cbn [remember set_filter b_clock].
    assert (tick_val (b_clock b) = b_clock b + 1) as Ht by (apply tick_val_small; lia).
    destruct (Z.ltb_spec 0 (InternalClock data)); rewrite Ht; [|lia].
    rewrite sync_val_small by lia. lia.
Qed.

(** ** Charged once *)

(** Payments attempted for an event. *)
Definition is_charge (e : string) (x : effect) : bool :=
  match x with Spend d => bool_decide (EventID d = e) | _ => false end.

Definition charges (e : string) (effs : list effect) : nat := length (List.filter (is_charge e) effs).

Inductive traffic : Type :=
| Packet (now : Z) (ifs : option (list Addr)) (net : nat → attempt) (raw : string)
| Cleanup (now : Z) (key : string).

Definition traffic_now (t : traffic) : Z := match t with Packet now _ _ _ | Cleanup now _ => now end.

Definition traffic_step (t : traffic) : go Broker (list effect) :=
  match t with
  | Packet now ifs net raw => process now ifs net raw
  | Cleanup now key => on_filter (cleanup_visit now key) ;; mret []
  end.

Lemma charges_sync e ifs a m b : charges e (sync_effects ifs a m b) = O.
Proof.
  unfold charges, sync_effects. induction (filter _ (GetAllMembers (b_router b))) as [|ip l IH]; [done|].
  rewrite fmap_cons. exact IH.
Qed.

Lemma routed_charges now ifs net data b effs b' e :
  routed now ifs net data b effs b' →
  charges e effs = if negb (foreign ifs data b) && bool_decide (EventID data = e) then 1%nat else 0%nat.
Proof.
  intros (_ & _ & _ & _ & _ & _ & R). destruct (foreign ifs data b); [by destruct R as (-> & _)|].
  destruct R as [_ R]. simpl.
  assert (∃ a, effs = Spend data :: sync_effects ifs a (newMission data (stamp data (b_clock b))) b)
    as [a ->] by (destruct (pays net data); destruct R as [-> _]; by eexists).
  unfold charges. cbn [List.filter is_charge].
  pose proof (charges_sync e ifs a (newMission data (stamp data (b_clock b))) b) as E.
  unfold charges in E. case_bool_decide; cbn [length andb negb]; by rewrite E.
Qed.

Lemma one_or_none (x : bool) : ((if x then 1 else 0) ≤ 1)%nat.
Proof. destruct x; lia. Qed.

(** One step of the traffic: it never panics, keeps an entry that has not
    expired, and charges an event only if it is unknown, once, making it
    known. *)
Lemma traffic_step_ok t b e :
  pq_ok (b_queue b) →
  ∃ effs b', traffic_step t b = (Ret effs, b') ∧ pq_ok (b_queue b') ∧
    ttl (b_filter b') = ttl (b_filter b) ∧
    (∀ x, seen (b_filter b) !! e = Some x → traffic_now t ≤ x →
       charges e effs = 0%nat ∧ seen (b_filter b') !! e = Some x) ∧
    (seen (b_filter b) !! e = None →
       charges e effs = 0%nat ∧ seen (b_filter b') !! e = None ∨
       (charges e effs ≤ 1)%nat ∧ seen (b_filter b') !! e = Some (traffic_now t + ttl (b_filter b))).
Proof.
  intros Hq. destruct t as [now ifs net raw|now key]; simpl.
  - destruct (process_cases now ifs net raw b) as [E|[data Hn]].
    { rewrite E. exists [], b. split_and!; try done. by left. }
    rewrite (process_new_packet _ _ _ _ _ _ Hn).
    destruct (process_new_ok now ifs net data (remember now (EventID data) b) Hq) as (effs & b' & E & R).
    exists effs, b'. pose proof (routed_charges _ _ _ _ _ _ _ e R) as Hch.
    destruct R as (_ & Hf & _ & _ & _ & Hq' & _). rewrite Hf. destruct Hn as (_ & _ & Hn).
    split_and!; [done|done|done|..]; simpl.
    + intros x Hx _. rewrite Hch, lookup_insert_ne by congruence.
      rewrite (bool_decide_eq_false_2 (EventID data = e)) by congruence. by rewrite andb_false_r.
    + intros He. destruct (decide (EventID data = e)) as [Heq|Hne].
      * right. rewrite Hch, <- Heq, lookup_insert_eq. split; [apply one_or_none|done].
      * left. rewrite Hch, lookup_insert_ne by done. rewrite bool_decide_eq_false_2 by done.
        by rewrite andb_false_r.
  - assert (on_filter (cleanup_visit now key) b =
      (Ret (), set_filter (set_seen (snd (take_one (stale now) key (seen (b_filter b)))) (b_filter b)) b)) as E.
    { unfold on_filter, zoom. by rewrite cleanup_visit_eq. }
    rewrite (go_bind_run _ _ _ _ _ E). eexists _, _. split; [done|]. simpl. split_and!; [done|done|..].
    + intros x Hx Ht. split; [done|]. apply take_one_left. split; [done|]. unfold stale. intros ?. lia.
    + intros He. left. split; [done|]. by apply take_one_none.
Qed.

Lemma charges_app e l1 l2 : charges e (l1 ++ l2) = (charges e l1 + charges e l2)%nat.
Proof. unfold charges. by rewrite List.filter_app, length_app. Qed.

Lemma traffic_known ts b e x :
  pq_ok (b_queue b) → seen (b_filter b) !! e = Some x → Forall (λ t, traffic_now t ≤ x) ts →
  ∃ effss b', go_map traffic_step ts b = (Ret effss, b') ∧ charges e (concat effss) = 0%nat.
Proof.
  revert b. induction ts as [|t ts IH]; intros b Hq Hx Ht; [by exists [], b|].
  apply Forall_cons in Ht as [H1 Ht].
  destruct (traffic_step_ok t b e Hq) as (effs & b1 & E1 & Hq1 & _ & Hk & _).
  destruct (Hk x Hx H1) as [Hc Hx1]. destruct (IH b1 Hq1 Hx1 Ht) as (effss & b2 & E2 & Hc2).
  exists (effs :: effss), b2. split; [by eapply go_map_cons|]. cbn [concat].
  by rewrite charges_app, Hc, Hc2.
Qed.

(** An event is charged at most once: whatever packets arrive, in whatever
    number, and however the filter's cleanup interleaves with the workers,
    one broker asks the ledger at most once to charge an event within the
    filter's window. *)
Lemma charged_once ts b e t0 :
  pq_ok (b_queue b) → seen (b_filter b) !! e = None →
  Forall (λ t, t0 ≤ traffic_now t ≤ t0 + ttl (b_filter b)) ts →
  ∃ effss b', go_map traffic_step ts b = (Ret effss, b') ∧ (charges e (concat effss) ≤ 1)%nat.
Proof.
  revert b. induction ts as [|t ts IH]; intros b Hq Hn Ht; [exists [], b; split; [done|]; unfold charges; simpl; lia|].
  apply Forall_cons in Ht as [H1 Ht].
  destruct (traffic_step_ok t b e Hq) as (effs & b1 & E1 & Hq1 & Httl & _ & Hu).
  destruct (Hu Hn) as [[Hc Hn1]|[Hc Hx1]].
  - destruct (IH b1 Hq1 Hn1) as (effss & b2 & E2 & Hc2); [by rewrite Httl|].
    exists (effs :: effss), b2. split; [by eapply go_map_cons|]. cbn [concat]. rewrite charges_app. lia.
  - destruct (traffic_known ts b1 e _ Hq1 Hx1) as (effss & b2 & E2 & Hc2).
    { eapply Forall_impl; [exact Ht|]. simpl. intros; lia. }
    exists (effs :: effss), b2. split; [by eapply go_map_cons|]. cbn [concat]. rewrite charges_app. lia.
Qed.

(** ** From one broker to the next *)

(** C17: gossip keeps causality: when a broker forwards a packet to the owner of
    its sector, the owner decodes the same event and orders its mission
    strictly after the forwarder's stamp, which is strictly after the
    forwarder's own clock and the sensor's (as long as no clock has reached
    its end). *)
Theorem gossip_causality now now' ifs ifs' net net' raw data b1 b2 :
  pq_ok (b_queue b1) → pq_ok (b_queue b2) → new_packet raw data b1 → foreign ifs data b1 = true →
  seen (b_filter b2) !! EventID data = None → foreign ifs' data b2 = false →
  0 ≤ b_clock b1 → 0 ≤ b_clock b2 < max_uint64 - 2 → b_clock b1 < max_uint64 - 3 →
  InternalClock data < max_uint64 - 2 → pays net' data = true →
  ∃ owner payload b1' effs b2' m,
    process now ifs net raw b1 = (Ret [Forward owner payload], b1') ∧
    process now' ifs' net' payload b2 = (Ret effs, b2') ∧
    mh (b_queue b2') ≡ₚ m :: mh (b_queue b2) ∧ mission_id m = EventID data ∧
    SectorID (Payload m) = SectorID data ∧ IsCritical (Payload m) = IsCritical data ∧
    b_clock b1 < b_clock b1' ∧ InternalClock data < b_clock b1' ∧
    b_clock b1' < LamportClock m ∧ b_clock b2 < LamportClock m.
Proof.
  intros Hq1 Hq2 Hn1 Hf1 Hs2 Hf2 Hc1 Hc2 Hm1 Hm2 Hpay.
  destruct (process_new_ok now ifs net data (remember now (EventID data) b1) Hq1) as (e1 & b1' & E1 & R1).
  destruct R1 as (Hk1 & _ & _ & _ & _ & _ & R1). rewrite foreign_remember, Hf1 in R1.
  destruct R1 as (-> & _ & _). pose proof Hn1 as (Hd & Hw & _).
  pose proof (decoded_wf raw data Hd) as (_ & _ & _ & Hic & _).
  unfold is_uint64, max_uint64 in Hic. unfold max_uint64 in *. cbn [remember set_filter b_clock b_router] in *.
  set (c1 := stamp data (b_clock b1)) in *.
  assert (b_clock b1 < c1 ∧ InternalClock data < c1 ∧ c1 < 2 ^ 64 - 2) as (L1 & L2 & L3).
  { unfold c1, stamp. assert (tick_val (b_clock b1) = b_clock b1 + 1) as Ht
      by (apply tick_val_small; unfold max_uint64; lia).
    rewrite Ht. destruct (Z.ltb_spec 0 (InternalClock data)); [|lia].
    rewrite sync_val_small by (unfold max_uint64; lia). lia. }
  set (data2 := set_clock data c1) in *.
  assert (new_packet (json_Marshal_sensor data2) data2 b2) as Hn2.
  { split_and!; [apply (forwarded_reads raw); [done|unfold is_uint64, max_uint64; lia]|exact Hw|exact Hs2]. }
  destruct (process_new_ok now' ifs' net' data2 (remember now' (EventID data2) b2) Hq2)
    as (e2 & b2' & E2 & R2).
  destruct R2 as (Hk2 & _ & _ & _ & _ & _ & R2). rewrite foreign_remember in R2.
  change (foreign ifs' data2 b2) with (foreign ifs' data b2) in R2. rewrite Hf2 in R2.
  change (pays net' data2) with (pays net' data) in R2. rewrite Hpay in R2.
  destruct R2 as (_ & -> & Hp2).
  eexists _, _, b1', _, b2', _. split_and!.
  - by rewrite (process_new_packet _ _ _ _ data).
  - by rewrite (process_new_packet _ _ _ _ data2).
  - exact Hp2.
  - done.
  - done.
  - done.
  - lia.
  - lia.
  - rewrite Hk1. simpl. unfold stamp. rewrite tick_val_small by (unfold max_uint64; lia).
    rewrite (proj2 (Z.ltb_lt 0 (InternalClock data2))) by (simpl; lia). simpl.
    rewrite sync_val_small by (unfold max_uint64; lia). lia.
  - simpl. unfold stamp. rewrite tick_val_small by (unfold max_uint64; lia).
    rewrite (proj2 (Z.ltb_lt 0 (InternalClock data2))) by (simpl; lia). simpl.
    rewrite sync_val_small by (unfold max_uint64; lia). lia.
Qed.

(** ** The verdict and the packet in either order *)

(** What a secondary holds about an event. *)
Definition holds (e : string) b : option UnverifiedRecord * option Mission :=
  (b_unverified b !! e, b_shadow b !! e).

Definition verdict_body (action : string) (m : Mission) : option (string * string * Mission) :=
  Some (action, mission_id m, m).

Lemma sync_ok now action m b :
  (8 ≤ String.length (mission_id m))%nat → action = "ACK" ∨ action = "NACK" →
  ∃ b', HandleShadowSync now MPost (verdict_body action m) b = (Ret (status 200), b') ∧
    is_Some (seen (b_filter b') !! mission_id m) ∧
    b_unverified b' = delete (mission_id m) (b_unverified b) ∧
    b_shadow b' = (if bool_decide (action = "ACK") then <[mission_id m := m]> (b_shadow b) else b_shadow b) ∧
    b_queue b' = b_queue b ∧ b_router b' = b_router b ∧ b_pending b' = b_pending b.
Proof.
  intros Hl Ha. unfold HandleShadowSync, verdict_body.
  rewrite (bool_decide_eq_false_2 (mission_id m = ""))
    by (intros E; rewrite E in Hl; simpl in Hl; lia).
  set (f1 := match seen (b_filter b) !! mission_id m with
             | Some _ => b_filter b
             | None => set_seen (<[mission_id m := now + ttl (b_filter b)]> (seen (b_filter b))) (b_filter b)
             end).
  assert (∃ r, on_filter (CheckAndAdd now (mission_id m)) b = (Ret r, set_filter f1 b)) as [r E1].
  { unfold on_filter, zoom, f1. rewrite CheckAndAdd_eq. destruct (seen (b_filter b) !! mission_id m); by eexists. }
  assert (is_Some (seen f1 !! mission_id m)) as Hf1.
  { unfold f1. destruct (seen (b_filter b) !! mission_id m) eqn:E; [by rewrite E|]. simpl.
    by rewrite lookup_insert_eq. }
  rewrite (go_bind_run _ _ _ _ _ E1).
  assert (∃ q, on_unverified (RetrieveAndRemove (mission_id m)) (set_filter f1 b) =
    (Ret q, set_unverified (delete (mission_id m) (b_unverified b)) (set_filter f1 b))) as [q E2].
  { unfold on_unverified, zoom, RetrieveAndRemove. go_unfold. simpl.
    destruct (b_unverified b !! mission_id m) eqn:E; eexists; [done|].
    by rewrite delete_id. }
  destruct Ha as [-> | ->]; simpl.
  - unfold mbind, go_mbind. rewrite E2. unfold on_shadow, zoom, Shadow_Store, mbind, go_mbind, modify.
    rewrite !log_id_long by done. eexists. split; [done|]. by split_and!.
  - unfold mbind, go_mbind. rewrite E2. destruct q as [m' found].
    destruct found; rewrite ?log_id_long by done; (eexists; split; [done|]; by split_and!).
Qed.

(** C22: at a secondary the owner's verdict and the sensor's packet may arrive
    in either order: both orders end with the event unverified nowhere,
    shadowed exactly when the verdict was ACK, and the queue untouched. *)
Theorem verdict_commutes now now' ifs net raw data action m b :
  pq_ok (b_queue b) → new_packet raw data b → foreign ifs data b = true →
  mission_id m = EventID data → (8 ≤ String.length (mission_id m))%nat →
  action = "ACK" ∨ action = "NACK" →
  let packet_first := go_run (process now ifs net raw ;; HandleShadowSync now' MPost (verdict_body action m)) b in
  let verdict_first := go_run (HandleShadowSync now' MPost (verdict_body action m) ;; process now ifs net raw) b in
  holds (EventID data) packet_first = holds (EventID data) verdict_first ∧
  holds (EventID data) packet_first =
    (None, if bool_decide (action = "ACK") then Some m else b_shadow b !! EventID data) ∧
  mh (b_queue packet_first) ≡ₚ mh (b_queue b) ∧ mh (b_queue verdict_first) ≡ₚ mh (b_queue b).
Proof.
  intros Hq Hn Hf Hid Hl Ha. cbv zeta.
  destruct (process_new_ok now ifs net data (remember now (EventID data) b) Hq) as (e1 & b1 & E1 & R1).
  destruct R1 as (_ & _ & Hs1 & _ & _ & _ & R1). rewrite foreign_remember, Hf in R1.
  destruct R1 as (_ & Hq1 & _). simpl in Hs1, Hq1.
  destruct (sync_ok now' action m b1 Hl Ha) as (b2 & E2 & _ & Hu2 & Hs2 & Hq2 & _).
  destruct (sync_ok now' action m b Hl Ha) as (b3 & E3 & Hseen & Hu3 & Hs3 & Hq3 & _).
  rewrite <- (process_new_packet now ifs net raw data b Hn) in E1.
  assert (process now ifs net raw b3 = (Ret [], b3)) as E4.
  { destruct (process_cases now ifs net raw b3) as [E|(data' & Hd' & _ & Hn')]; [done|].
    destruct Hn as (Hd & _ & _). rewrite Hd in Hd'. injection Hd' as <-.
    rewrite <- Hid, eq_None_not_Some in Hn'. done. }
  unfold go_run. rewrite (go_bind_run _ _ _ _ _ E1), (go_bind_run _ _ _ _ _ E3), E2, E4. cbn [snd].
  unfold holds. rewrite Hu2, Hu3, Hs2, Hs3, Hs1, Hq2, Hq1, Hq3, <- Hid, !lookup_delete_eq.
  split_and!; [done| |done|done]. f_equal. case_bool_decide; [by rewrite lookup_insert_eq|done].
Qed.
End gossip.

(** ** How far one packet reaches *)

(** C30: one unauthenticated packet stops every validator: if its event
    identifier has fewer than eight bytes, the broker that owns the sector
    signs a payment for it with the nation's key, and executing that payment
    panics in FinalizeBlock on every store. *)
Theorem one_packet_halts {RG : Ring} {ED : Ed25519} {EL : Ed25519Laws} {TC : TxCodec}
    {TL : TxCodecLaws} {DB : Type} `{!LevelDB DB, !LevelDBLaws DB} now ifs net raw data (b : Broker) :
  pq_ok (b_queue b) → new_packet raw data b → foreign ifs data b = false →
  NationID data ∈ init_nations → (String.length (EventID data) < 8)%nat →
  ∃ effs b' tx, process now ifs net raw b = (Ret (Spend data :: effs), b') ∧
    go_val (spend_tx data) () = Ret tx ∧
    ∀ db : DB, ∃ p, go_val (FinalizeBlock [Marshal_tx tx]) db = Panic p.
Proof.
  intros Hq Hn Hf Hna Hshort.
  destruct (process_new_ok now ifs net data (remember now (EventID data) b) Hq) as (e1 & b1 & E1 & R1).
  destruct R1 as (_ & _ & _ & _ & _ & _ & R1). rewrite foreign_remember, Hf in R1. destruct R1 as [_ R1].
  assert (∃ effs, e1 = Spend data :: effs) as [effs ->]
    by (destruct (pays net data); destruct R1 as [-> _]; by eexists).
  eexists effs, b1, _. split_and!.
  - by rewrite (process_new_packet _ _ _ _ data).
  - unfold go_val. by rewrite spend_tx_eq.
  - intros db. set (tx := signed (NationID data) SPEND_CREDIT (EventID data) "").
    destruct (decoded_wf _ _ (proj1 Hn)) as (He & _ & _ & _ & Hnv & _).
    assert (fatal (Marshal_tx tx) db) as Hfatal.
    { exists tx. split_and!; [by apply Unmarshal_Marshal, signed_wf|by apply Nat.leb_gt|].
      right. split; [by apply signed_auth|by right]. }
    apply exec_panics in Hfatal as [p Hp]. exists p. unfold go_val. rewrite FinalizeBlock_eq.
    cbn [go_map]. unfold mbind, go_mbind. destruct (exec_tx (Marshal_tx tx) db) as [[r|p'] db'];
      simpl in Hp; [done|]. by injection Hp as ->.
Qed.

(** ** Witnesses *)

Definition sample_data : SensorData := mkSensorData "event-001" "sensor-sec-07" 7 true false 5 "BR" "".
Definition short_data : SensorData := mkSensorData "EVT" "sensor-sec-07" 7 true false 0 "BR" "".
Definition packet_of (d : SensorData) : string := json_Marshal_sensor d.
Definition ok_net : nat → attempt :=
  λ _, Resp 200 (encode_object [("result", encode_object [("code", "0")])]).

(** A broker that owns every sector, and one that owns none. *)
Definition owner_broker : Broker (RG := ToyRing) := initial_broker.
Definition other_broker : Broker (RG := ToyRing) :=
  set_router (mkRouter (RG := ToyRing) ["10.0.0.2"] "10.0.0.2" 25 "tasks.broker") initial_broker.

Lemma sample_new : new_packet (packet_of sample_data) sample_data other_broker.
Proof. split_and!; by vm_compute. Qed.

(** An owner charges the sample and queues it; the same packet again, and one
    without a sensor, change nothing. *)
Lemma process_routes_witness :
  (∃ effs b', process 0 None ok_net (packet_of sample_data) owner_broker = (Ret effs, b') ∧
     effs = [Spend sample_data] ∧ mission_id <$> mh (b_queue b') = ["event-001"] ∧ b_clock b' = 6 ∧
     process 9 None ok_net (packet_of sample_data) b' = (Ret [], b')) ∧
  process 0 None ok_net (packet_of (mkSensorData "event-001" "" 7 true false 5 "BR" "")) owner_broker =
    (Ret [], owner_broker).
Proof.
  split.
  - destruct (process_routes (TC := JsonTx) 0 None ok_net (packet_of sample_data) owner_broker (New_ok _))
      as [_ H]; [by vm_compute|].
    destruct (H sample_data) as (_ & _ & K); [by vm_compute|].
    destruct K as (effs & b' & E & R & _); [by vm_compute..|].
    assert (pq_ok (b_queue b')) as Hq by (destruct R as (_ & _ & _ & _ & _ & Hq & _); exact Hq).
    set (shown := λ r : outcome (list effect) * Broker, match r with
      | (Ret effs, b) => Some (effs, mission_id <$> mh (b_queue b), b_clock b, seen (b_filter b) !! "event-001")
      | (Panic _, _) => None end).
    assert (shown (process 0 None ok_net (packet_of sample_data) owner_broker) =
      Some ([Spend sample_data], ["event-001"], 6, Some (ttl (b_filter owner_broker)))) as Es
      by (vm_compute; reflexivity).
    rewrite E in Es. injection Es as Heffs Hids Hclock Hseen.
    exists effs, b'. split; [exact E|]. split; [exact Heffs|]. split; [exact Hids|]. split; [exact Hclock|].
    destruct (process_routes (TC := JsonTx) 9 None ok_net (packet_of sample_data) b' Hq) as [_ H2];
      [by rewrite Hclock|].
    apply (H2 sample_data); [by vm_compute|]. exists (ttl (b_filter owner_broker)). exact Hseen.
  - destruct (process_routes (TC := JsonTx) 0 None ok_net
      (packet_of (mkSensorData "event-001" "" 7 true false 5 "BR" "")) owner_broker (New_ok _)) as [_ H];
      [by vm_compute|].
    destruct (H (mkSensorData "event-001" "" 7 true false 5 "BR" "")) as (K & _); [by vm_compute|].
    apply K. right. by left.
Defined.

Lemma charged_once_witness :
  let p now := Packet now None ok_net (packet_of sample_data) in
  ∃ effss b', go_map traffic_step [p 0; p 10; Cleanup 20 "event-001"; p 30] owner_broker = (Ret effss, b') ∧
    charges "event-001" (concat effss) = 1%nat.
Proof.
  intros p. destruct (charged_once (TC := JsonTx) [p 0; p 10; Cleanup 20 "event-001"; p 30] owner_broker "event-001" 0)
    as (effss & b' & E & H).
  - apply New_ok.
  - by vm_compute.
  - by repeat constructor.
  - exists effss, b'. split; [exact E|]. vm_compute in E. injection E as <- <-.
    clear H. by vm_compute.
Defined.

Lemma gossip_causality_witness :
  ∃ owner payload b1' effs b2' m,
    process 0 None ok_net (packet_of sample_data) other_broker = (Ret [Forward owner payload], b1') ∧
    process 9 None ok_net payload owner_broker = (Ret effs, b2') ∧
    mh (b_queue b2') ≡ₚ m :: [] ∧ b_clock b1' < LamportClock m.
Proof.
  destruct (gossip_causality (TC := JsonTx) 0 9 None None ok_net ok_net (packet_of sample_data) sample_data
    other_broker owner_broker)
    as (owner & payload & b1' & effs & b2' & m & E1 & E2 & Hp & _ & _ & _ & _ & _ & Hc & _).
  - apply New_ok.
  - apply New_ok.
  - exact sample_new.
  - by vm_compute.
  - by vm_compute.
  - by vm_compute.
  - by vm_compute.
  - by vm_compute.
  - by vm_compute.
  - by vm_compute.
  - by vm_compute.
  - by exists owner, payload, b1', effs, b2', m.
Defined.

Lemma verdict_commutes_witness :
  let m := newMission sample_data 9 in
  holds "event-001" (go_run (HandleShadowSync 5 MPost (verdict_body "ACK" m) ;;
    process 0 None ok_net (packet_of sample_data)) other_broker) = (None, Some m).
Proof.
  intros m. destruct (verdict_commutes (TC := JsonTx) 0 5 None ok_net (packet_of sample_data) sample_data
    "ACK" m other_broker) as (E1 & E2 & _).
  - apply New_ok.
  - exact sample_new.
  - by vm_compute.
  - done.
  - simpl. lia.
  - by left.
  - rewrite E2 in E1. symmetry. exact E1.
Defined.

Lemma one_packet_halts_witness :
  ∃ effs b' tx, process 0 None ok_net (packet_of short_data) owner_broker = (Ret (Spend short_data :: effs), b') ∧
    go_val (spend_tx short_data) () = Ret tx ∧
    ∀ db : MapDB, ∃ p, go_val (FinalizeBlock [Marshal_tx tx]) db = Panic p.
Proof.
  apply (one_packet_halts (TC := JsonTx)).
  - apply New_ok.
  - split_and!; by vm_compute.
  - by vm_compute.
  - by left.
  - simpl. lia.
Defined.
