(* ===== verification/BrokerHTTP.v ===== *)
(** * The broker's HTTP server on bytes (cmd/broker/http_server.go)

    The handlers of Broker.v behind [SetupRouter]: a request is a method, a
    path and the bytes of a body, an answer a status and bytes.  [reason] is
    the text of an error the decoder or the ledger client reports.  The API's
    contract: which requests are refused, and with what. *)

From S2P Require Import Prelude GoStd GoHeap Model Lamport Queue Flow Inventory Interfaces Json JsonProps.
From S2P Require Import JsonDecoded Rfc3339 Wire Keys LedgerApp Router Buffers HTTPClient Http LedgerClient.
From S2P Require Import Broker BrokerMissions BrokerGossip.
Local Open Scope Z_scope.

Section http.
Context {RG : Ring} {ED : Ed25519} {EL : Ed25519Laws} {TC : TxCodec} {TT : TimeText} {TL : TimeTextLaws}.

Definition method_not_allowed : http_response := http_Error "Method not allowed" 405.
Definition bad_request : http_response := http_Error "Bad request" 400.

(** The answer of a handler that writes no text of its own. *)
Definition plain_answer (rs : response) : http_response :=
  if rs_status rs =? 405 then method_not_allowed
  else match rs_mission rs with
       | Some m => mkHttp (rs_status rs) (json_line (json_Marshal_mission m))
       | None => WriteHeader (rs_status rs)
       end.

Definition http_health (now : Z) (r : http_request) : go Broker http_response :=
  rs ← healthCheck; mret (mkHttp (rs_status rs) (json_line (encode_health (mkHealth "ok" now)))).

Definition http_pop (now : Z) (r : http_request) : go Broker http_response :=
  rs ← HandleQueuePop now (hq_method r); mret (plain_answer rs).

Definition http_resolve (r : http_request) : go Broker http_response :=
  let body := decode_resolve (hq_body r) in
  rs ← HandleQueueResolve (hq_method r) body;
  mret (if rs_status rs =? 400 then bad_request else plain_answer rs).

(** The handler writes a text when the body does not decode and none when it
    names no event. *)
Definition http_sync (now : Z) (r : http_request) : go Broker http_response :=
  let body := decode_sync (hq_body r) in
  rs ← HandleShadowSync now (hq_method r) body;
  mret (if (rs_status rs =? 400) && bool_decide (body = None) then bad_request else plain_answer rs).

Definition http_topology (reason : string) (r : http_request) : go Broker http_response :=
  rs ← topologySync (hq_method r) (decodes_map (hq_body r));
  mret (if rs_status rs =? 400 then http_Error ("Invalid request: " +:+ reason) 400
        else if rs_status rs =? 405 then method_not_allowed
        else mkHttp (rs_status rs) (json_line encode_received)).

Definition http_explorer (reason : string) (net : nat → attempt) (r : http_request) :
    go Broker http_response :=
  '(code, state) ← handleExplorer net (hq_method r);
  mret (match state with
        | Some stateJSON => mkHttp code stateJSON
        | None => http_Error (if code =? 405 then "Método não permitido"
                              else "Falha ao ler a Blockchain: " +:+ reason) code
        end).

Definition SetupRouter (now : Z) (reason : string) (net : nat → attempt) :
    list (string * (http_request → go Broker http_response)) :=
  [("/health", http_health now);
   ("/queue/pop", http_pop now);
   ("/queue/resolve", http_resolve);
   ("/explorer", http_explorer reason net);
   ("/internal/shadow/sync", http_sync now);
   ("/internal/topology/sync", http_topology reason)].

(** One request; [None] when the handler panicked and the connection was
    closed. *)
Definition broker_serve (now : Z) (reason : string) (net : nat → attempt) (r : http_request) :
    go Broker (option http_response) :=
  serve (ServeMux NotFound (SetupRouter now reason net) r).

(** ** What is refused *)

(** The status of the requests the API does not serve. *)
Definition refused (r : http_request) : option Z :=
  let at_path (path : string) := bool_decide (path = hq_path r) in
  let only (m : http_method) (rest : option Z) :=
    match m, hq_method r with MGet, MGet | MPost, MPost => rest | _, _ => Some 405 end in
  let unless (ok : bool) := if ok then None else Some 400 in
  if at_path "/health" then None
  else if at_path "/queue/pop" then only MGet None
  else if at_path "/queue/resolve" then
    only MPost (unless (bool_decide (is_Some (decode_resolve (hq_body r)))))
  else if at_path "/explorer" then only MGet None
  else if at_path "/internal/shadow/sync" then
    only MPost (match decode_sync (hq_body r) with
                | Some (_, eventID, _) => unless (negb (bool_decide (eventID = "")))
                | None => Some 400
                end)
  else if at_path "/internal/topology/sync" then only MPost (unless (decodes_map (hq_body r)))
  else Some 404.

(** The codes of the requests that are served. *)
Definition served (rs : response) : Prop := rs_status rs = 200 ∨ rs_status rs = 204.

Lemma served_codes {A} (m : go Broker A) (f : A → http_response) (Q : A → Prop) :
  ensures (λ _, True) m Q → (∀ x, Q x → hs_status (f x) ∈ [200; 204; 500]) →
  ensures (λ _, True) (m ≫= λ x, mret (f x)) (λ a, hs_status a ∈ [200; 204; 500]).
Proof. intros Hm Hf. eapply ensures_bind; [done|]. intros x Hx. by apply ensures_ret, Hf. Qed.

Lemma plain_served rs : served rs → hs_status (plain_answer rs) ∈ [200; 204; 500].
Proof.
  unfold plain_answer. intros [-> | ->]; simpl; destruct (rs_mission rs); simpl; set_solver.
Qed.

(** Without an invariant nothing is to be shown of the state. *)
Lemma any_ensures {S A} (m : go S A) : ensures (λ _, True) m (λ _, True).
Proof. by intros s _. Qed.

Lemma any_then {A B} (m : go Broker A) (f : A → go Broker B) Q :
  (∀ a, ensures (λ _, True) (f a) Q) → ensures (λ _, True) (m ≫= f) Q.
Proof. intros Hf. eapply ensures_bind; [apply any_ensures|]. intros a _. apply Hf. Qed.

Lemma pop_served now : ensures (λ _, True) (HandleQueuePop now MGet) served.
Proof.
  unfold HandleQueuePop. apply any_then. intros [mission found]. destruct (negb found).
  - apply ensures_ret. by right.
  - do 2 (apply any_then; intros _). apply ensures_ret. by left.
Qed.

Lemma resolve_served p : ensures (λ _, True) (HandleQueueResolve MPost (Some p)) served.
Proof.
  destruct p as [action m]. cbn [HandleQueueResolve]. apply any_then. intros ex. destruct (negb ex);
    apply any_then; intros _; apply ensures_ret; by left.
Qed.

Lemma sync_served now a e m :
  e ≠ "" → ensures (λ _, True) (HandleShadowSync now MPost (Some (a, e, m))) served.
Proof.
  intros He. cbn [HandleShadowSync]. rewrite bool_decide_eq_false_2 by done.
  do 2 (apply any_then; intros _). apply ensures_ret. by left.
Qed.

Lemma served_serve (h : go Broker http_response) a b b' :
  ensures (λ _, True) h (λ a, hs_status a ∈ [200; 204; 500]) →
  serve h b = (Ret (Some a), b') → hs_status a ∈ [200; 204; 500].
Proof.
  intros Hh. destruct (Hh b I) as [_ H]. unfold serve. destruct (h b) as [[x|p] b1]; [|done].
  intros [= -> _]. by apply H.
Qed.

(** C25: the API refuses exactly the requests listed, whatever the state: an
    unknown path is 404, a wrong method 405, a body that does not decode or
    names no event 400, and a refused request changes nothing; every other
    request is answered 200, 204 or 500, or its handler panics and the
    connection closes. *)
Theorem api_refuses (now : Z) (reason : string) (net : nat → attempt) (r : http_request) (b : Broker) :
  match refused r with
  | Some code => ∃ text, broker_serve now reason net r b = (Ret (Some (mkHttp code text)), b)
  | None => ∀ a b', broker_serve now reason net r b = (Ret (Some a), b') → hs_status a ∈ [200; 204; 500]
  end.
Proof.
  unfold refused, broker_serve, SetupRouter. cbn [ServeMux].
  case_bool_decide; cbv iota.
  { intros a b'. apply served_serve. eapply (served_codes _ _ (λ rs, rs_status rs = 200));
      [by apply ensures_ret|]. intros x Hx. simpl. rewrite Hx. by left. }
  case_bool_decide; cbv iota.
  { unfold http_pop. destruct (hq_method r); [|by eexists..].
    intros a b'. apply served_serve. eapply served_codes; [apply pop_served|apply plain_served]. }
  case_bool_decide; cbv iota.
  { unfold http_resolve. destruct (hq_method r); [by eexists| |by eexists].
    destruct (decode_resolve (hq_body r)) as [p|]; [|by eexists].
    rewrite bool_decide_eq_true_2 by (by eexists).
    intros a b'. apply served_serve. eapply served_codes; [apply resolve_served|].
    intros rs Hrs. replace (rs_status rs =? 400) with false by (by destruct Hrs as [-> | ->]).
    by apply plain_served. }
  case_bool_decide; cbv iota.
  { unfold http_explorer. destruct (hq_method r); [|by eexists..].
    intros a b'. apply served_serve. unfold handleExplorer.
    eapply (ensures_bind _ _ _ (λ x, fst x ∈ [200; 500])).
    - destruct (QueryGlobalState net); apply ensures_ret; simpl; [by left|by right; left].
    - intros [code st] Hx. apply ensures_ret. destruct st; simpl in *;
        apply elem_of_cons in Hx as [-> | ->%list_elem_of_singleton]; [by left|by right; right; left|by left|by right; right; left]. }
  case_bool_decide; cbv iota.
  { unfold http_sync. destruct (hq_method r); [by eexists| |by eexists].
    destruct (decode_sync (hq_body r)) as [[[action e] m]|]; [|by eexists].
    case_bool_decide as He; cbn [negb].
    { subst e. eexists. unfold HandleShadowSync. reflexivity. }
    intros a b'. apply served_serve. eapply served_codes; [by apply sync_served|].
    intros rs Hrs. replace (rs_status rs =? 400) with false by (by destruct Hrs as [-> | ->]).
    by apply plain_served. }
  case_bool_decide; cbv iota; [|by eexists].
  unfold http_topology. destruct (hq_method r); [by eexists| |by eexists].
  destruct (decodes_map (hq_body r)); [|by eexists].
  intros a b'. apply served_serve.
  eapply (served_codes _ _ (λ rs, rs_status rs = 200)); [by apply ensures_ret|].
  intros rs Hx. rewrite Hx. by left.
Qed.

End http.

Lemma api_refuses_witness :
  ∃ text, broker_serve (RG := ToyRing) 0 "" (λ _, ConnErr) (mkRequest MPost "/queue/pop" "" "") initial_broker
    = (Ret (Some (mkHttp 405 text)), initial_broker).
Proof.
  exact (api_refuses (RG := ToyRing) 0 "" (λ _, ConnErr) (mkRequest MPost "/queue/pop" "" "") initial_broker).
Defined.
