(* ===== verification/Explorer.v ===== *)
(** * The explorer: from a validator's store to the HTTP answer

    The JSON text of the state that [Query] reports (internal/ledger/app.go),
    its way through the node's answer to [abci_query] and the broker's ledger
    client (cmd/broker/ledger_client.go), and what [GET /explorer] therefore
    shows. *)

From S2P Require Import Prelude GoStd GoHeap Flow Model Interfaces Json JsonProps JsonDecoded Rfc3339 Wire Keys.
From S2P Require Import LedgerApp LedgerSpec LedgerProps LedgerTheorems LedgerQuery.
From S2P Require Import Inventory Router Buffers HTTPClient Http LedgerClient Broker BrokerHTTP.
Local Open Scope Z_scope.

(** ** Text *)

(** [json.Marshal] of a map: its keys are sorted and escaped. *)
Definition map_members {A} (f : A → string) (m : gmap string A) : list (string * string) :=
  omap (λ k, (λ v, (encode_from 0 0 k, f v)) <$> m !! k) (sort_strings (keys m)).
Definition json_Marshal_map {A} (f : A → string) (m : gmap string A) : string :=
  encode_object (map_members f m).

Definition json_Marshal_state (balances : gmap string Z) (reports : gmap string string) : string :=
  encode_object
    [("balances", json_Marshal_map Itoa balances); ("reports", json_Marshal_map encode_string reports)].

(** ** Reading it *)

(** The member of an object. *)
Fixpoint obj_get (k : string) (l : list (string * json)) : option json :=
  match l with
  | [] => None
  | (k', v) :: l => if bool_decide (k' = k) then Some v else obj_get k l
  end.

(** The value at a path. *)
Fixpoint json_at (path : list string) (v : json) : option json :=
  match path, v with
  | [], _ => Some v
  | k :: path, JObj l => obj_get k l ≫= json_at path
  | _ :: _, _ => None
  end.

Section map.
Context {A : Type} (f : A → string) (g : A → json).
Implicit Types m : gmap string A.

Definition map_values m : list (string * json) :=
  omap (λ k, (λ v, (k, g v)) <$> m !! k) (sort_strings (keys m)).

Lemma map_reads k m :
  (∀ x v, m !! x = Some v → valid_utf8 x = true ∧ reads k (f v) (g v)) →
  Forall2 (reads_member k) (map_members f m) (map_values m).
Proof.
  intros Hm. unfold map_members, map_values. induction (sort_strings (keys m)) as [|x l IH]; [constructor|].
  cbn [omap list_omap]. destruct (m !! x) as [v|] eqn:E; [|done]. simpl. constructor; [|done].
  destruct (Hm x v E). by split_and!.
Qed.

Lemma map_get k m : obj_get k (map_values m) = g <$> m !! k.
Proof.
  assert (is_Some (m !! k) → k ∈ sort_strings (keys m)) as Hin.
  { intros H. rewrite sort_strings_perm. by apply elem_of_keys. }
  revert Hin. unfold map_values. induction (sort_strings (keys m)) as [|x l IH]; intros Hin; simpl.
  - destruct (m !! k); [|done]. assert (k ∈ @nil string) as []%not_elem_of_nil by (apply Hin; by eexists).
  - destruct (decide (x = k)) as [->|Hne].
    + destruct (m !! k) as [v|] eqn:E; simpl; [by rewrite bool_decide_eq_true_2|]. apply IH. by intros [? ?].
    + assert (is_Some (m !! k) → k ∈ l) as Hl.
      { intros H. by apply Hin in H as [->|H]%elem_of_cons. }
      destruct (m !! x) as [v|]; simpl; [rewrite bool_decide_eq_false_2 by done|]; by apply IH.
Qed.
End map.

Lemma state_reads (B : gmap string Z) (R : gmap string string) :
  (∀ n z, B !! n = Some z → valid_utf8 n = true ∧ is_int64 z) →
  (∀ t b, R !! t = Some b → valid_utf8 t = true ∧ valid_utf8 b = true) →
  ∃ v, parse_json (json_Marshal_state B R) = Good v "" ∧
    (∀ n, json_at ["balances"; n] v = (λ z, JNum (Itoa z)) <$> B !! n) ∧
    (∀ t, json_at ["reports"; t] v = str_value <$> R !! t).
Proof.
  intros HB HR.
  exists (JObj [("balances", JObj (map_values (λ z, JNum (Itoa z)) B)); ("reports", JObj (map_values str_value R))]).
  split_and!.
  - apply (parse_encode_object 1); [|done].
    constructor; [split_and!; [done|done|]|constructor; [split_and!; [done|done|]|constructor]];
      apply reads_object, map_reads.
    + intros n z Hn. destruct (HB n z Hn). split; [done|by apply reads_int].
    + intros t b Ht. destruct (HR t b Ht). split; [done|by apply reads_string].
  - intros n. simpl. rewrite map_get. by destruct (B !! n).
  - intros t. simpl. rewrite map_get. by destruct (R !! t).
Qed.

(** ** The way to the broker *)

(** What the broker relies on: the body of the node's answer to [abci_query]
    carries the code, the value and the log of the application's response,
    whatever other fields it has. *)
Definition carries (body : string) (r : QueryResponse) : Prop :=
  decode_abci body = Some (mkABCI (q_Code r) (q_Value r) (q_Log r)).

(** One such body: JSON-RPC 2.0 with the value in base64. *)
Definition abci_answer (r : QueryResponse) : string :=
  encode_object
    [("jsonrpc", encode_string "2.0");
     ("result", encode_object [("response", encode_object
        [("code", Itoa (q_Code r)); ("log", encode_string (q_Log r));
         ("value", encode_string (b64_encode (q_Value r)))])])].

Lemma b64_valid s : valid_utf8 (b64_encode s) = true.
Proof.
  assert (∀ v t, 0 ≤ v < 64 → valid_utf8 t = true → valid_utf8 (String (b64_char v) t) = true) as K.
  { intros v t Hv Ht. apply (valid_app (String (b64_char v) "")); [|done].
    unfold valid_utf8. cbn [valid_utf8_skip]. rewrite (proj2 (Z.ltb_lt _ _)); [done|].
    unfold b64_char. repeat case_match; first [rewrite byte_val_of by lia; lia|by vm_compute]. }
  induction s as [s IH] using (induction_ltof1 _ String.length). unfold ltof in IH.
  destruct s as [|a [|b [|c s]]]; [done|..]; cbn [b64_encode];
    pose proof (byte_val_range a); try pose proof (byte_val_range b); try pose proof (byte_val_range c).
  - destruct (sextets (byte_val a) 0) as (?&?&?&?&?&?); [lia..|].
    do 2 (apply K; [lia|]). done.
  - destruct (sextets (byte_val a) (byte_val b)) as (?&?&?&?&?&?); [lia..|].
    destruct (sextets (byte_val b) 0) as (?&?&?&?&?&?); [lia..|].
    do 3 (apply K; [lia|]). done.
  - destruct (sextets (byte_val a) (byte_val b)) as (?&?&?&?&?&?); [lia..|].
    destruct (sextets (byte_val b) (byte_val c)) as (?&?&?&?&?&?); [lia..|].
    destruct (sextets (byte_val c) 0) as (?&?&?&?&?&?); [lia..|].
    do 4 (apply K; [lia|]). apply IH. simpl. lia.
Qed.

Lemma decode_abci_answer r :
  0 ≤ q_Code r < 2 ^ 32 → valid_utf8 (q_Log r) = true → carries (abci_answer r) r.
Proof.
  intros Hc Hl. unfold carries, decode_abci, abci_answer. rewrite <- (str_app_nil_r (encode_object _)).
  assert (is_int64 (q_Code r)) as Hi by (unfold is_int64, min_int64, max_int64; lia).
  rewrite (decode_first_object _ _ 2 _
    [("jsonrpc", str_value "2.0"); ("result", JObj [("response", JObj
       [("code", JNum (Itoa (q_Code r))); ("log", str_value (q_Log r));
        ("value", str_value (b64_encode (q_Value r)))])])]); [| |done].
  2: { constructor; [split_and!; [done|done|by apply reads_string]|].
       constructor; [split_and!; [done|done|]|constructor].
       apply reads_object. constructor; [split_and!; [done|done|]|constructor].
       apply reads_object. pose proof (b64_valid (q_Value r)). read_members. }
  rewrite (into_struct_step _ "jsonrpc" _ _ _ (mkABCI 0 "" "")) by done.
  assert (into_nested response_field (mkABCI 0 "" "") (JObj
    [("code", JNum (Itoa (q_Code r))); ("log", str_value (q_Log r));
     ("value", str_value (b64_encode (q_Value r)))]) = Some (mkABCI (q_Code r) (q_Value r) (q_Log r))) as E.
  { cbn [into_nested].
    rewrite (into_struct_step _ "code" _ _ _ (mkABCI (q_Code r) "" "")).
    2: { change (response_field (fold_name "code") (JNum (Itoa (q_Code r))) (mkABCI 0 "" ""))
           with (x ← into_uint32 0 (JNum (Itoa (q_Code r))); Some (mkABCI x "" "")).
         unfold into_uint32, Itoa. rewrite (proj2 (Z.ltb_ge _ _)) by lia.
         rewrite into_uint64_digits by (unfold is_uint64, max_uint64; lia). cbn [mbind option_bind].
         by rewrite (proj2 (Z.leb_le _ _)) by lia. }
    rewrite (into_struct_step _ "log" _ _ _ (mkABCI (q_Code r) "" (q_Log r))) by done.
    rewrite (into_struct_step _ "value" _ _ _ (mkABCI (q_Code r) (q_Value r) (q_Log r))); [done|].
    change (response_field (fold_name "value") (str_value (b64_encode (q_Value r))) (mkABCI (q_Code r) "" (q_Log r)))
      with (x ← b64_decode (b64_encode (q_Value r)); Some (mkABCI (q_Code r) x (q_Log r))).
    by rewrite b64_decode_encode. }
  rewrite (into_struct_step _ "result" _ _ _ (mkABCI (q_Code r) (q_Value r) (q_Log r))); [done|].
  change (into_struct abci_result_field [("response", JObj
    [("code", JNum (Itoa (q_Code r))); ("log", str_value (q_Log r));
     ("value", str_value (b64_encode (q_Value r)))])] (mkABCI 0 "" "") =
    Some (mkABCI (q_Code r) (q_Value r) (q_Log r))).
  by rewrite (into_struct_step _ "response" _ _ _ (mkABCI (q_Code r) (q_Value r) (q_Log r))).
Qed.

(** A request to the explorer while the node answers at once. *)
Definition explorer_request : http_request := mkRequest MGet "/explorer" "" "".

Section explorer.
Context {RG : Ring} {ED : Ed25519} {EL : Ed25519Laws} {TC : TxCodec} {TT : TimeText} {TL : TimeTextLaws}.

(** What the application answers the broker passes on: the value with 200, or
    500 when the code is not 0. *)
Lemma explorer_relays now reason net body r (b : Broker) :
  net 0%nat = Resp 200 body → carries body r →
  broker_serve now reason net explorer_request b =
    (Ret (Some (if q_Code r =? 0 then mkHttp 200 (q_Value r)
                else http_Error ("Falha ao ler a Blockchain: " +:+ reason) 500)), b).
Proof.
  intros Hnet Hc.
  assert (result (GetJSON NewLedgerClient decode_abci net) = inl (mkABCI (q_Code r) (q_Value r) (q_Log r))) as E.
  { unfold GetJSON, call. cbn [NewLedgerClient NewHTTPClient maxRetries initialBackoff].
    rewrite attempts_step. cbn zeta. rewrite Hnet.
    change (transient retry_get (Resp 200 body)) with (@None last_error). cbv iota. cbn [result verdict].
    unfold answer. simpl. by rewrite Hc. }
  unfold broker_serve, SetupRouter, explorer_request. cbn [ServeMux hq_path].
  rewrite (bool_decide_eq_false_2 ("/health" = _)), (bool_decide_eq_false_2 ("/queue/pop" = _)),
    (bool_decide_eq_false_2 ("/queue/resolve" = _)), (bool_decide_eq_true_2 ("/explorer" = _)) by done.
  unfold serve, http_explorer, handleExplorer, QueryGlobalState. cbn [hq_method]. rewrite E.
  cbn [abci_Code abci_Value abci_Log]. by destruct (q_Code r =? 0).
Qed.

(** ** The property *)

(** C33: what the explorer shows is the ledger: on a store whose nations and
    tags hold no colon, with keys and archive in UTF-8, the [state] query
    leaves the store as it is, and when the node's answer to it reaches the broker
    [GET /explorer] answers 200 with a JSON document that has, for every
    nation, the stored balance and, for every tag, the archived report, and
    neither for any other. *)
Theorem explorer_shows_ledger `{!LevelDB DB, !LevelDBLaws DB} (db : DB) now reason (b : Broker) :
  plain_keys (db_Iter db) →
  (∀ n v, db_Get (balance_key n) db = Some v → valid_utf8 n = true) →
  (∀ t v, db_Get (report_key t) db = Some v → valid_utf8 t = true ∧ valid_utf8 v = true) →
  ∃ text v,
    Query json_Marshal_state "state" db = (Ret (mkQuery 0 text ""), db) ∧
    (∀ net body, net 0%nat = Resp 200 body → carries body (mkQuery 0 text "") →
     broker_serve now reason net explorer_request b = (Ret (Some (mkHttp 200 text)), b)) ∧
    parse_json text = Good v "" ∧
    (∀ n, json_at ["balances"; n] v = (λ s, JNum (Itoa (fst (Atoi s)))) <$> db_Get (balance_key n) db) ∧
    (∀ t, json_at ["reports"; t] v = str_value <$> db_Get (report_key t) db).
Proof.
  intros Hp Hb Hr.
  destruct (proj2 (proj2 (Query_correct json_Marshal_state db)) Hp) as (B & R & HQ & HB & HR).
  destruct (state_reads B R) as (v & Hv & HvB & HvR).
  { intros n z. rewrite HB. intros (s & Hs & ->)%fmap_Some_1. split; [by eapply Hb|apply Atoi_int64]. }
  { intros t s. rewrite HR. apply Hr. }
  exists (json_Marshal_state B R), v. split_and!; [done| |done| |].
  - intros net body Hnet Hc. by rewrite (explorer_relays _ _ _ _ _ _ Hnet Hc).
  - intros n. rewrite HvB, HB. by destruct (db_Get _ db).
  - intros t. by rewrite HvR, HR.
Qed.
End explorer.

Definition paid_listing : list (string * string) := Eval vm_compute in db_Iter paid_db.

Lemma explorer_shows_ledger_witness :
  ∃ text v,
    Query json_Marshal_state "state" paid_db = (Ret (mkQuery 0 text ""), paid_db) ∧
    broker_serve (RG := ToyRing) 0 "" (λ _, Resp 200 (abci_answer (mkQuery 0 text "")))
      explorer_request initial_broker = (Ret (Some (mkHttp 200 text)), initial_broker) ∧
    json_at ["balances"; "BR"] v = Some (JNum "999") ∧ json_at ["balances"; "XX"] v = None ∧
    json_at ["reports"; "SPEND_CREDIT_EVT-00000001"] v = Some (str_value pay_tx).
Proof.
  destruct (explorer_shows_ledger (RG := ToyRing) paid_db 0 "" initial_broker) as (text & v & HQ & Hs & _ & HB & HR).
  1: { unfold plain_keys. replace (db_Iter paid_db) with paid_listing by (by vm_compute). unfold paid_listing.
       repeat constructor; intros x E; (vm_compute in E; injection E as <-; by vm_compute) || by vm_compute in E. }
  1,2: intros x s Hx%Iter_Get; replace (db_Iter paid_db) with paid_listing in Hx by (by vm_compute);
    repeat (apply elem_of_cons in Hx as [Hx|Hx];
      [vm_compute in Hx; first [discriminate|injection Hx as -> ->; by vm_compute]|]);
    by apply elem_of_nil in Hx.
  exists text, v. split; [exact HQ|]. split.
  { apply (Hs (λ _, Resp 200 (abci_answer (mkQuery 0 text ""))) (abci_answer (mkQuery 0 text ""))); [reflexivity|].
    apply decode_abci_answer; [cbn; lia|reflexivity]. }
  rewrite !HB, HR. split; [vm_compute; reflexivity|]. split; [vm_compute; reflexivity|].
  vm_compute. reflexivity.
Defined.
