(* ===== verification/BrokerThreads.v ===== *)
(** * The broker's goroutines, section by section

    The workers, the HTTP handlers and the loops of the broker as goroutines
    (Threads.v): each step is one section under a lock, one atomic operation
    or one send, as in the code; what Broker.v and BrokerHTTP.v define is each
    of them run alone ([process_alone] and the like).  A worker reads the wall
    clock twice, for the filter and for the waiting room.  Two approximations
    allow more interleavings than the code has: the pending janitor holds its
    lock over a whole round, and a round of a concurrent map visits the keys
    of [order] whenever they are there. *)

From S2P Require Import Prelude Threads GoStd GoHeap Model Lamport Queue Flow Inventory Interfaces Json JsonProps.
From S2P Require Import JsonDecoded Wire Keys LedgerApp Router Buffers HTTPClient Http LedgerClient.
From S2P Require Import Broker BrokerHTTP.
Local Open Scope Z_scope.

(** What leaves the process. *)
Inductive signal : Type :=
| Sends (x : effect)
| Answers (r : http_request) (a : option http_response).

Section threads.
Context {RG : Ring} {ED : Ed25519} {EL : Ed25519Laws} {TC : TxCodec} {TT : TimeText} {TL : TimeTextLaws}.

Local Abbreviation gets f := (b ← get; mret (f b)).

(** ** Workers *)

Definition broadcast_thread (ifs : option (list Addr)) (action : string) (mission : Mission) :
    routine Broker signal () :=
  ips ← atomic (gets (λ b, GetAllMembers (b_router b)));
  let myIP := getLocalIP ifs in
  emits ((λ ip, Sends (Sync_to ip action mission)) <$> filter (λ ip, ip ≠ myIP) ips).

(** From the payment onwards. *)
Definition verdict_thread (ifs : option (list Addr)) (net : nat → attempt) (data : SensorData)
    (mission : Mission) : routine Broker signal () :=
  ok ← atomic (SpendCredit net data);
  if (ok : bool) then
    atomic (on_queue (Enqueue mission)) ;; broadcast_thread ifs "ACK" mission
  else broadcast_thread ifs "NACK" mission.

(** From the clock onwards. *)
Definition process_new_thread (stored : Z) (ifs : option (list Addr)) (net : nat → attempt)
    (data : SensorData) : routine Broker signal () :=
  t ← atomic (on_clock Tick);
  currentClock ← (if 0 <? InternalClock data then atomic (on_clock (Sync (InternalClock data))) else mret t);
  let mission := newMission data currentClock in
  ownerIP ← atomic (gets (λ b, GetOwnerIP (SectorID data) (b_router b)));
  if negb (bool_decide (ownerIP = "")) && negb (isLocalIP ifs ownerIP) then
    atomic (on_unverified (Unverified_Store stored mission)) ;;
    emit (Sends (Forward ownerIP (json_Marshal_sensor (set_clock data currentClock))))
  else
    emit (Sends (Spend data)) ;; verdict_thread ifs net data mission.

Definition process_thread (now stored : Z) (ifs : option (list Addr)) (net : nat → attempt)
    (rawBytes : string) : routine Broker signal () :=
  match json_Unmarshal_sensor rawBytes with
  | None => mret ()
  | Some data =>
    if negb (wellformed data) then mret ()
    else
      new ← atomic (on_filter (CheckAndAdd now (EventID data)));
      if negb new then mret () else process_new_thread stored ifs net data
  end.

(** ** Handlers *)

Definition pop_thread (now : Z) (r : http_request) : routine Broker signal http_response :=
  rs ← match hq_method r with
       | MGet =>
         '(mission, found) ← atomic (on_queue Dequeue);
         if negb found then mret (status 204)
         else
           atomic (checkout now mission) ;;
           atomic (log_id (mission_id mission)) ;;
           mret (mkResponse 200 (Some mission))
       | _ => mret (status 405)
       end;
  mret (plain_answer rs).

Definition resolve_thread (r : http_request) : routine Broker signal http_response :=
  rs ← match hq_method r with
       | MPost =>
         match decode_resolve (hq_body r) with
         | None => mret (status 400)
         | Some (action, mission) =>
           let eventID := mission_id mission in
           exists_ ← atomic (resolve_take eventID);
           if negb exists_ then atomic (log_id eventID) ;; mret (status 200)
           else
             (if bool_decide (action = "REQUEUE") then
                atomic (on_queue (Enqueue mission)) ;; atomic (log_id eventID)
              else if bool_decide (action = "SUCCESS") then atomic (log_id eventID)
              else mret ()) ;;
             mret (status 200)
         end
       | _ => mret (status 405)
       end;
  mret (if rs_status rs =? 400 then bad_request else plain_answer rs).

Definition store_thread (mission : Mission) : routine Broker signal () :=
  atomic (on_shadow (modify <[mission_id mission := mission]>)) ;; atomic (log_id (mission_id mission)).

Definition sync_thread (now : Z) (r : http_request) : routine Broker signal http_response :=
  let body := decode_sync (hq_body r) in
  rs ← match hq_method r with
       | MPost =>
         match body with
         | None => mret (status 400)
         | Some (action, eventID, mission) =>
           if bool_decide (eventID = "") then mret (status 400)
           else
             atomic (on_filter (CheckAndAdd now eventID)) ;;
             (if bool_decide (action = "ACK") then
                atomic (on_unverified (RetrieveAndRemove eventID)) ;;
                store_thread mission ;;
                atomic (log_id eventID)
              else if bool_decide (action = "NACK") then
                '(_, found) ← atomic (on_unverified (RetrieveAndRemove eventID));
                if (found : bool) then atomic (log_id eventID) else mret ()
              else mret ()) ;;
             mret (status 200)
         end
       | _ => mret (status 405)
       end;
  mret (if (rs_status rs =? 400) && bool_decide (body = None) then bad_request else plain_answer rs).

(** The other handlers share nothing. *)
Definition route_threads (now : Z) (reason : string) (net : nat → attempt) :
    list (string * (http_request → routine Broker signal http_response)) :=
  [("/health", λ r, atomic (http_health now r));
   ("/queue/pop", pop_thread now);
   ("/queue/resolve", resolve_thread);
   ("/explorer", λ r, atomic (http_explorer reason net r));
   ("/internal/shadow/sync", sync_thread now);
   ("/internal/topology/sync", λ r, atomic (http_topology reason r))].

Definition request_thread (now : Z) (reason : string) (net : nat → attempt) (r : http_request) :
    routine Broker signal () :=
  a ← ServeMux NotFound (route_threads now reason net) r; emit (Answers r (Some a)).

(** ** Loops *)

Definition pending_thread (now : Z) (order : list string) : routine Broker signal () :=
  routine_for (λ eventID,
    r ← atomic (pending_take now eventID);
    match r with
    | Some mission => atomic (on_queue (Enqueue mission)) ;; atomic (log_id eventID)
    | None => mret ()
    end) order.

(** [Range] hands the function the record it loads; the deletion is another
    step of the map, and does not look again. *)
Definition unverified_expired (now : Z) (key : string) (b : Broker) : bool :=
  match b_unverified b !! key with Some record => uv_ExpiresAt record <? now | None => false end.

Definition unverified_visit_thread (now : Z) (key : string) : routine Broker signal () :=
  expired ← atomic (gets (unverified_expired now key));
  if (expired : bool) then atomic (on_unverified (modify (delete key))) ;; atomic (log_id key)
  else mret ().

Definition unverified_thread (now : Z) (order : list string) : routine Broker signal () :=
  routine_for (unverified_visit_thread now) order.

(** Here the load and the deletion are one step: only this loop deletes an
    entry of the filter, and [LoadOrStore] does not overwrite one. *)

Definition cleanup_thread (now : Z) (order : list string) : routine Broker signal () :=
  routine_for (λ key, atomic (on_filter (cleanup_visit now key))) order.

Definition rescue_visit_thread (ifs : option (list Addr)) (key : string) : routine Broker signal () :=
  entry ← atomic (gets (λ b, b_shadow b !! key));
  match entry with
  | None => mret ()
  | Some mission =>
    currentOwner ← atomic (gets (λ b, GetOwnerIP (SectorID (Payload mission)) (b_router b)));
    if isLocalIP ifs currentOwner then
      atomic (on_queue (Enqueue mission)) ;;
      atomic (on_shadow (modify (delete key))) ;;
      atomic (log_id (mission_id mission))
    else mret ()
  end.
Definition rescue_thread (ifs : option (list Addr)) (order : list string) : routine Broker signal () :=
  routine_for (rescue_visit_thread ifs) order.

(** ** The goroutines of a broker *)

Inductive goroutine : Type :=
| Worker (now stored : Z) (ifs : option (list Addr)) (net : nat → attempt) (raw : string)
| Handler (now : Z) (reason : string) (net : nat → attempt) (r : http_request)
| Pending_janitor (now : Z) (order : list string)
| Unverified_janitor (now : Z) (order : list string)
| Filter_cleanup (now : Z) (order : list string)
| Aging_worker (currentClock : Z)
| Topology_watch (answer : option (list string))
| Rescuer (ifs : option (list Addr)) (order : list string).

(** [net/http] recovers the panics of handlers and closes the connection. *)
Definition launch (g : goroutine) : task Broker signal :=
  match g with
  | Worker now stored ifs net raw => mkTask (process_thread now stored ifs net raw) None
  | Handler now reason net r =>
    mkTask (request_thread now reason net r) (Some (emit (Answers r None)))
  | Pending_janitor now order => mkTask (pending_thread now order) None
  | Unverified_janitor now order => mkTask (unverified_thread now order) None
  | Filter_cleanup now order => mkTask (cleanup_thread now order) None
  | Aging_worker c => mkTask (atomic (on_queue (antiStarvationRound c))) None
  | Topology_watch answer => mkTask (atomic (on_router (watch_round answer)) ;; mret ()) None
  | Rescuer ifs order => mkTask (rescue_thread ifs order) None
  end.

(** Something happens in the process: a goroutine starts, or the schedule
    lets one of those that run take its next step. *)
Inductive moment : Type :=
| Begin (g : goroutine)
| Turn (i : nat).

Definition broker_moment (x : moment) : go (Pool Broker signal) (list signal) :=
  match x with
  | Begin g => pool_do (Spawn (launch g))
  | Turn i => pool_do (Run i)
  end.

(** ** Alone, they are the functions of Broker.v and BrokerHTTP.v *)

Lemma broadcast_alone ifs action m :
  alone (broadcast_thread ifs action m) (broadcastValidationSync ifs action m) (λ effs, (Sends <$> effs, ())).
Proof.
  intros b. unfold broadcast_thread, broadcastValidationSync, atomic. cbn [mbind routine_mbind routine_bind run].
  go_unfold. rewrite run_emits. by rewrite <- list_fmap_compose.
Qed.

Lemma process_alone now ifs net raw :
  alone (process_thread now now ifs net raw) (process now ifs net raw) (λ effs, (Sends <$> effs, ())).
Proof.
  unfold process_thread, process. destruct (json_Unmarshal_sensor raw) as [data|]; [|by apply alone_ret].
  destruct (negb (wellformed data)); [by apply alone_ret|].
  eapply (alone_bind _ _ id); [apply alone_atomic|]. intros new.
  destruct new; [|by apply alone_ret]. unfold process_new_thread, process_new. cbn [negb id].
  eapply (alone_bind _ _ id); [apply alone_atomic|]. intros t.
  eapply (alone_bind _ _ id); [destruct (0 <? InternalClock data); [apply alone_atomic|apply silent_ret]|].
  intros c. eapply alone_gets. intros b0. cbv beta zeta. cbn [id].
  destruct (negb _ && negb _).
  { eapply (alone_bind _ _ id); [apply alone_atomic|]. intros _. by intros b. }
  eapply (alone_post _ (ok ← SpendCredit net data;
    if (ok : bool) then
      on_queue (Enqueue (newMission data c)) ;; broadcastValidationSync ifs "ACK" (newMission data c)
    else broadcastValidationSync ifs "NACK" (newMission data c)) (cons (Spend data))).
  - apply alone_emit. eapply (alone_bind _ _ id); [apply alone_atomic|]. intros ok. destruct ok; cbn [id].
    + eapply (alone_bind _ _ id); [apply alone_atomic|]. intros _. apply broadcast_alone.
    + apply broadcast_alone.
  - intros b. go_unfold. destruct (SpendCredit net data b) as [[[]|?] ?]; [| |done].
    + destruct (on_queue _ _) as [[]]; [|done]. by destruct (broadcastValidationSync _ _ _ _) as [[]].
    + by destruct (broadcastValidationSync _ _ _ _) as [[]].
  - done.
Qed.

(** *** Handlers *)

Lemma pop_alone now r : silent (pop_thread now r) (http_pop now r).
Proof. unfold pop_thread, http_pop, HandleQueuePop. silent. Qed.

Lemma resolve_alone r : silent (resolve_thread r) (http_resolve r).
Proof. unfold resolve_thread, http_resolve, HandleQueueResolve. silent. Qed.

Lemma store_alone m : silent (store_thread m) (on_shadow (Shadow_Store m)).
Proof.
  intros b. unfold store_thread, atomic. cbn [mbind routine_mbind routine_bind run].
  unfold on_shadow, Shadow_Store, log_id. go_unfold. by destruct (slice_to (mission_id m) 8).
Qed.

Lemma sync_alone now r : silent (sync_thread now r) (http_sync now r).
Proof.
  unfold sync_thread, http_sync, HandleShadowSync. silent. apply store_alone.
Qed.



Lemma request_alone now reason net r :
  silent (ServeMux NotFound (route_threads now reason net) r)
    (ServeMux NotFound (SetupRouter now reason net) r).
Proof.
  unfold route_threads, SetupRouter. cbn [ServeMux].
  repeat (case_bool_decide; [first [apply pop_alone|apply resolve_alone|apply sync_alone|apply silent_atomic]|]).
  apply silent_ret.
Qed.

(** *** Loops *)

Lemma pending_alone now order : silent (pending_thread now order) (pending_round now order).
Proof. apply silent_for. intros e. unfold pending_visit, pending_give. silent. Qed.

Lemma unverified_alone now order :
  silent (unverified_thread now order) (on_unverified (unverified_round now order)).
Proof.
  apply silent_zoom; [by intros []|by intros ? []|by intros ? ? []|]. intros k b.
  unfold unverified_visit_thread, unverified_expired, unverified_visit, gets, atomic, zoom.
  cbn [mbind routine_mbind routine_bind run]. go_unfold.
  destruct (b_unverified b !! k) as [r|] eqn:E; [destruct (uv_ExpiresAt r <? now)|]; simpl.
  - unfold on_unverified, zoom, log_id. go_unfold. simpl. by destruct (slice_to k 8).
  - by destruct b.
  - by destruct b.
Qed.

Lemma cleanup_alone now order :
  silent (cleanup_thread now order) (on_filter (cleanup_round now order)).
Proof. by apply silent_zoom; [intros []|intros ? []|intros ? ? []|intros k; apply silent_atomic]. Qed.

(** One visit of the rescue, on the broker. *)
Definition rescue_one (ifs : option (list Addr)) (key : string) : go Broker () :=
  b ← get;
  zoom (λ b, (b_shadow b, b_queue b)) (λ s b, set_queue (snd s) (set_shadow (fst s) b))
    (rescue_visit ifs (b_router b) key) ;;
  mret ().

Lemma rescue_ones ifs order b : go_for (rescue_one ifs) order b = (rescue ifs order ;; mret ()) b.
Proof.
  unfold rescue, RescueOrphanedMissions. revert b. induction order as [|k order IH]; intros b;
    [by destruct b|]. cbn [go_for go_map]. unfold mbind at 1, go_mbind at 1. unfold rescue_one at 1.
  specialize (IH). go_unfold. destruct (rescue_visit ifs (b_router b) k (b_shadow b, b_queue b)) as [[x|p] t];
    [|done]. rewrite IH. go_unfold. destruct b; simpl. destruct t; simpl. by destruct (go_map _ order _) as [[]].
Qed.

Lemma rescue_one_alone ifs k : silent (rescue_visit_thread ifs k) (rescue_one ifs k).
Proof.
  intros b. unfold rescue_visit_thread, rescue_one, rescue_visit, log_id, on_queue, on_shadow.
  cbn [mbind routine_mbind routine_bind run atomic mret routine_mret]. go_unfold. cbn [fst snd].
  destruct (b_shadow b !! k) as [m|]; [|by destruct b].
  cbn [mbind routine_mbind routine_bind run atomic mret routine_mret]. go_unfold.
  destruct (isLocalIP ifs _); [|by destruct b].
  cbn [run]. go_unfold. cbn [fst snd]. destruct (Enqueue m (b_queue b)) as [[[]|p] q]; [|by destruct b].
  simpl. go_unfold. by destruct (slice_to (mission_id m) 8); destruct b.
Qed.

Lemma rescue_alone ifs order : silent (rescue_thread ifs order) (rescue ifs order ;; mret ()).
Proof.
  intros b. unfold rescue_thread. rewrite (silent_for _ _ _ (rescue_one_alone ifs)). go_unfold.
  pose proof (rescue_ones ifs order b) as E. go_unfold_in E. by rewrite E.
Qed.
End threads.
