(* ===== verification/BrokerSafe.v ===== *)
(** * What it takes to kill a broker

    The broker's goroutines panic on identifiers shorter than eight bytes, in
    the log lines, and on nothing else: while every packet and every body that
    comes in has longer ones no schedule of them panics. *)

From S2P Require Import Prelude Threads Credits GoStd GoHeap Model Lamport Queue Flow Inventory Interfaces Json JsonProps.
From S2P Require Import JsonDecoded Wire Keys LedgerApp Router Buffers HTTPClient Http LedgerClient.
From S2P Require Import Broker BrokerMissions BrokerGossip BrokerHTTP BrokerThreads.
Local Open Scope Z_scope.

Definition long (e : string) : Prop := (8 ≤ String.length e)%nat.

Section safe.
Context {RG : Ring} {ED : Ed25519} {EL : Ed25519Laws} {TC : TxCodec} {TT : TimeText} {TL : TimeTextLaws}.

(** What the broker holds has long identifiers, in a heap. *)
Record long_broker (b : Broker) : Prop := mkLong {
  lo_heap : pq_ok (b_queue b);
  lo_queue : Forall (λ m, long (mission_id m)) (mh (b_queue b));
  lo_pending : map_Forall (λ e x, long e ∧ long (mission_id (pd_Mission x))) (b_pending b);
  lo_unverified : map_Forall (λ e _, long e) (b_unverified b);
  lo_shadow : map_Forall (λ _ m, long (mission_id m)) (b_shadow b);
}.

(** What comes in. *)
Definition long_packet (raw : string) : Prop :=
  ∀ d, json_Unmarshal_sensor raw = Some d → wellformed d = true → long (EventID d).

Definition long_body (body : string) : Prop :=
  (∀ a m, decode_resolve body = Some (a, m) → long (mission_id m)) ∧
  (∀ a e m, decode_sync body = Some (a, e, m) → e ≠ "" → long e ∧ (a = "ACK" → long (mission_id m))).

Definition long_goroutine (g : goroutine) : Prop :=
  match g with
  | Worker _ _ _ _ raw => long_packet raw
  | Handler _ _ _ r => long_body (hq_body r)
  | _ => True
  end.

Definition long_moment (x : moment) : Prop :=
  match x with Begin g => long_goroutine g | Turn _ => True end.

(** Every request is answered. *)
Definition answered (x : signal) : Prop := match x with Answers _ None => False | _ => True end.

Local Abbreviation runs := (safe long_broker answered).
Local Abbreviation any := (λ _, True).

(** ** Sections *)

Lemma log_safe e : long e → runs any (atomic (log_id e)).
Proof. intros He. apply safe_atomic. intros b Hb. exists (), b. by rewrite log_id_long. Qed.

Lemma gets_safe {A} (f : Broker → A) (Q : A → Prop) :
  (∀ b, long_broker b → Q (f b)) → runs Q (atomic (b ← get; mret (f b))).
Proof. intros HQ. apply safe_atomic. intros b Hb. exists (f b), b. split_and!; [done|done|by apply HQ]. Qed.

(** A section that changes at most the clock, the filter or the router. *)
Lemma still_safe {A} (m : go Broker A) :
  (∀ b, ∃ a b', m b = (Ret a, b') ∧ b_queue b' = b_queue b ∧ b_pending b' = b_pending b ∧
     b_unverified b' = b_unverified b ∧ b_shadow b' = b_shadow b) → runs any (atomic m).
Proof.
  intros H. apply safe_atomic. intros b [H1 H2 H3 H4 H5]. destruct (H b) as (a & b' & E & E1 & E2 & E3 & E4).
  exists a, b'. split; [done|]. split; [|done]. split; rewrite ?E1, ?E2, ?E3, ?E4; done.
Qed.

Lemma enqueue_safe m : long (mission_id m) → runs any (atomic (on_queue (Enqueue m))).
Proof.
  intros Hm. apply safe_atomic. intros b [H1 H2 H3 H4 H5]. destruct (enqueue_ok b m H1) as (q & E & Hok & Hp).
  eexists _, _. split; [done|]. split; [|done]. split; try done. simpl. rewrite Hp. by constructor.
Qed.

Lemma dequeue_safe : runs (λ r, snd r = true → long (mission_id (fst r))) (atomic (on_queue Dequeue)).
Proof.
  apply safe_atomic. intros b Hb. pose proof Hb as [H1 H2 H3 H4 H5].
  unfold on_queue, zoom. destruct (decide (mh (b_queue b) = [])) as [En|Hne].
  - rewrite (Dequeue_empty _ En). exists (zeroMission, false), b. split; [by destruct b|done].
  - destruct (Dequeue_ok _ H1 Hne) as (m & q & -> & Hok & Hp & _). eexists _, _. split; [done|].
    rewrite Hp in H2. apply Forall_cons in H2 as [Hm H2]. by split.
Qed.

Lemma aging_safe c : runs any (atomic (on_queue (antiStarvationRound c))).
Proof.
  apply safe_atomic. intros b [H1 H2 H3 H4 H5]. destruct (antiStarvationRound_ok _ c H1) as (q & E & Hok & Hp & _).
  eexists _, (set_queue q b). split; [unfold on_queue, zoom; by rewrite E|]. split; [|done].
  split; try done. simpl. rewrite Hp. apply Forall_fmap. eapply Forall_impl; [exact H2|].
  intros m Hm. unfold promote. simpl. by destruct (starved _ _ m).
Qed.

Lemma checkout_safe now m : long (mission_id m) → runs any (atomic (checkout now m)).
Proof.
  intros Hm. apply safe_atomic. intros b [H1 H2 H3 H4 H5]. eexists _, _. split; [done|]. split; [|done].
  split; try done. by apply map_Forall_insert_2.
Qed.

Lemma resolve_take_safe e : runs any (atomic (resolve_take e)).
Proof.
  apply safe_atomic. intros b Hb. rewrite resolve_take_eq. destruct (b_pending b !! e); [|by eexists _, b].
  destruct Hb. eexists _, _. split; [done|]. split; [|done]. split; try done. by apply map_Forall_delete.
Qed.

Lemma pending_take_safe now e :
  runs (λ r, ∀ m, r = Some m → long e ∧ long (mission_id m)) (atomic (pending_take now e)).
Proof.
  apply safe_atomic. intros b Hb. rewrite pending_take_eq.
  destruct (b_pending b !! e) as [x|] eqn:E; [|by eexists _, b].
  destruct (pending_timeout <? now - CheckoutTime x); [|by eexists _, b].
  pose proof (lo_pending _ Hb _ _ E) as Hx. destruct Hb. eexists _, _. split; [done|].
  split; [split; try done; by apply map_Forall_delete|]. by intros m [= <-].
Qed.

Lemma store_unverified_safe now m :
  long (mission_id m) → runs any (atomic (on_unverified (Unverified_Store now m))).
Proof.
  intros Hm. apply safe_atomic. intros b []. eexists _, _. split; [done|]. split; [|done].
  split; try done. by apply map_Forall_insert_2.
Qed.

Lemma retrieve_safe e : runs any (atomic (on_unverified (RetrieveAndRemove e))).
Proof.
  apply safe_atomic. intros b Hb. unfold on_unverified, zoom, RetrieveAndRemove. go_unfold.
  destruct (b_unverified b !! e); eexists _, _; (split; [done|]); (split; [|done]); destruct Hb; split; try done.
  by apply map_Forall_delete.
Qed.

Lemma unverified_visit_safe now k : runs any (unverified_visit_thread now k).
Proof.
  unfold unverified_visit_thread. eapply (safe_bind _ _ _ _ (λ x : bool, x = true → long k)).
  - apply safe_atomic. intros b Hb. eexists _, b. split; [done|]. split; [done|].
    unfold unverified_expired. destruct (b_unverified b !! k) as [r|] eqn:E; [|done].
    intros _. exact (lo_unverified _ Hb _ _ E).
  - intros [] Hk; [|by apply safe_ret]. eapply (safe_bind _ _ _ _ any); [|intros _ _; by apply log_safe, Hk].
    apply safe_atomic. intros b []. eexists _, _. split; [done|]. split; [|done]. split; try done.
    by apply map_Forall_delete.
Qed.

Lemma shadow_safe m :
  long (mission_id m) → runs any (atomic (on_shadow (modify <[mission_id m := m]>))).
Proof.
  intros Hm. apply safe_atomic. intros b []. eexists _, _. split; [done|]. split; [|done].
  split; try done. by apply map_Forall_insert_2.
Qed.

Lemma forget_safe k : runs any (atomic (on_shadow (modify (delete k)))).
Proof.
  apply safe_atomic. intros b []. eexists _, _. split; [done|]. split; [|done].
  split; try done. by apply map_Forall_delete.
Qed.

Lemma filter_safe {A} (m : go IdempotencyFilter A) :
  (∀ f, ∃ a f', m f = (Ret a, f')) → runs any (atomic (on_filter m)).
Proof.
  intros H. apply still_safe. intros b. destruct (H (b_filter b)) as (a & f & E).
  eexists a, _. unfold on_filter, zoom. by rewrite E.
Qed.

Lemma check_safe now e : runs any (atomic (on_filter (CheckAndAdd now e))).
Proof. apply filter_safe. intros f. rewrite CheckAndAdd_eq. destruct (seen f !! e); by eexists _, _. Qed.

Lemma spend_safe net data : runs any (atomic (SpendCredit net data)).
Proof. apply still_safe. intros b. eexists _, b. by rewrite SpendCredit_eq. Qed.

(** ** Goroutines *)

Lemma broadcast_safe ifs action m : runs any (broadcast_thread ifs action m).
Proof.
  unfold broadcast_thread. eapply safe_bind; [by apply (gets_safe _ any)|]. intros ips _.
  apply safe_emits, Forall_fmap, Forall_forall. by intros ip _.
Qed.

Lemma process_safe now stored ifs net raw :
  long_packet raw → runs any (process_thread now stored ifs net raw).
Proof.
  intros Hraw. unfold process_thread. destruct (json_Unmarshal_sensor raw) as [data|] eqn:E; [|by apply safe_ret].
  destruct (wellformed data) eqn:Ew; cbn [negb]; [|by apply safe_ret]. specialize (Hraw data E Ew).
  eapply safe_bind; [apply check_safe|]. intros new _. destruct (negb new); [by apply safe_ret|].
  unfold process_new_thread.
  eapply safe_bind; [apply still_safe; intros b; by eexists _, _|]. intros t _.
  eapply (safe_bind _ _ _ _ any).
  { destruct (0 <? InternalClock data); [|by apply safe_ret]. apply still_safe. intros b. by eexists _, _. }
  intros c _. eapply safe_bind; [by apply (gets_safe _ any)|]. intros owner _. cbv zeta.
  destruct (negb _ && negb _).
  - eapply safe_bind; [by apply store_unverified_safe|]. intros _ _. by apply safe_emit.
  - eapply safe_bind; [by apply safe_emit|]. intros _ _. unfold verdict_thread.
    eapply safe_bind; [apply spend_safe|]. intros [] _; [|apply broadcast_safe].
    eapply safe_bind; [by apply enqueue_safe|]. intros _ _. apply broadcast_safe.
Qed.

Lemma pop_safe now r : runs any (pop_thread now r).
Proof.
  unfold pop_thread. eapply (safe_bind _ _ _ _ any); [|by intros; apply safe_ret].
  destruct (hq_method r); [|by apply safe_ret..].
  eapply safe_bind; [apply dequeue_safe|]. intros [m found] Hm. simpl in Hm.
  destruct found; cbn [negb]; [|by apply safe_ret]. specialize (Hm eq_refl).
  eapply safe_bind; [by apply checkout_safe|]. intros _ _.
  eapply safe_bind; [by apply log_safe|]. intros _ _. by apply safe_ret.
Qed.

Lemma resolve_safe r : long_body (hq_body r) → runs any (resolve_thread r).
Proof.
  intros [Hb _]. unfold resolve_thread. eapply (safe_bind _ _ _ _ any); [|by intros; apply safe_ret].
  destruct (hq_method r); [by apply safe_ret| |by apply safe_ret].
  destruct (decode_resolve (hq_body r)) as [[action m]|]; [|by apply safe_ret]. specialize (Hb _ _ eq_refl).
  eapply safe_bind; [apply resolve_take_safe|]. intros ex _. destruct (negb ex).
  { eapply safe_bind; [by apply log_safe|]. intros _ _. by apply safe_ret. }
  eapply (safe_bind _ _ _ _ any); [|by intros; apply safe_ret].
  case_bool_decide; [eapply safe_bind; [by apply enqueue_safe|]; intros _ _; by apply log_safe|].
  case_bool_decide; [by apply log_safe|by apply safe_ret].
Qed.

Lemma sync_safe now r : long_body (hq_body r) → runs any (sync_thread now r).
Proof.
  intros [_ Hb]. unfold sync_thread. eapply (safe_bind _ _ _ _ any); [|by intros; apply safe_ret].
  destruct (hq_method r); [by apply safe_ret| |by apply safe_ret].
  destruct (decode_sync (hq_body r)) as [[[action e] m]|]; [|by apply safe_ret]. specialize (Hb _ _ _ eq_refl).
  case_bool_decide as He; [by apply safe_ret|]. destruct (Hb He) as [Hl Hm].
  eapply safe_bind; [apply check_safe|]. intros _ _.
  eapply (safe_bind _ _ _ _ any); [|by intros; apply safe_ret].
  case_bool_decide as Ha.
  - eapply safe_bind; [apply retrieve_safe|]. intros _ _.
    eapply (safe_bind _ _ _ _ any); [|by intros; apply log_safe].
    eapply safe_bind; [by apply shadow_safe, Hm|]. intros _ _. by apply log_safe, Hm.
  - case_bool_decide; [|by apply safe_ret]. eapply safe_bind; [apply retrieve_safe|].
    intros [? []] _; [by apply log_safe|by apply safe_ret].
Qed.

Lemma request_safe now reason net r :
  long_body (hq_body r) → runs any (request_thread now reason net r).
Proof.
  intros Hb. unfold request_thread. eapply (safe_bind _ _ _ _ any); [|by intros a _; apply safe_emit].
  unfold route_threads. cbn [ServeMux].
  case_bool_decide; [apply still_safe; intros b; by eexists _, b|].
  case_bool_decide; [apply pop_safe|]. case_bool_decide; [by apply resolve_safe|].
  case_bool_decide.
  { apply still_safe. intros b. unfold http_explorer, handleExplorer. destruct (hq_method r); [|by eexists _, b..].
    destruct (QueryGlobalState net); by eexists _, b. }
  case_bool_decide; [by apply sync_safe|].
  case_bool_decide; [|by apply safe_ret].
  apply still_safe. intros b. unfold http_topology, topologySync. destruct (hq_method r); by eexists _, b.
Qed.

Lemma rescue_safe ifs order : runs any (rescue_thread ifs order).
Proof.
  apply safe_for. intros k. unfold rescue_visit_thread.
  eapply safe_bind; [apply (gets_safe _ (λ o, ∀ m, o = Some m → long (mission_id m)))|].
  { intros b Hb m Hm. exact (lo_shadow _ Hb _ _ Hm). }
  intros [m|] Hm; [|by apply safe_ret]. eapply safe_bind; [by apply (gets_safe _ any)|]. intros owner _.
  destruct (isLocalIP ifs owner); [|by apply safe_ret]. specialize (Hm _ eq_refl).
  eapply safe_bind; [by apply enqueue_safe|]. intros _ _.
  eapply safe_bind; [apply forget_safe|]. intros _ _. by apply log_safe.
Qed.

Lemma launch_safe g : long_goroutine g → runs any (body (launch g)).
Proof.
  intros Hg. destruct g as [now stored ifs net raw|now reason net r|now order|now order|now order|c|answer|ifs order];
    cbn [launch body].
  - by apply process_safe.
  - by apply request_safe.
  - apply safe_for. intros e. eapply safe_bind; [apply pending_take_safe|].
    intros [m|] Hm; [|by apply safe_ret]. destruct (Hm m eq_refl) as [He Hl].
    eapply safe_bind; [by apply enqueue_safe|]. intros _ _. by apply log_safe.
  - apply safe_for. intros k. apply unverified_visit_safe.
  - apply safe_for. intros k. apply filter_safe. intros f. rewrite cleanup_visit_eq. by eexists _, _.
  - apply aging_safe.
  - eapply (safe_bind _ _ _ _ any); [|by intros; apply safe_ret]. apply still_safe. intros b.
    unfold on_router, zoom, watch_round. destruct answer as [[|ip ips]|]; [by eexists _, _| |by eexists _, _].
    go_unfold. case_bool_decide; by eexists _, _.
  - apply rescue_safe.
Qed.

Definition moment_op (x : moment) : pool_op Broker signal :=
  match x with Begin g => Spawn (launch g) | Turn i => Run i end.

Lemma moments_pool moments p :
  go_map broker_moment moments p = go_map pool_do (moment_op <$> moments) p.
Proof.
  revert p. induction moments as [|x moments IH]; intros p; [done|]. rewrite fmap_cons. cbn [go_map].
  assert (broker_moment x = pool_do (moment_op x)) as -> by (by destruct x).
  unfold mbind, go_mbind. destruct (pool_do (moment_op x) p) as [[l|e] p1]; [|done]. by rewrite IH.
Qed.

(** No schedule panics, and every request that ends is answered. *)
Lemma broker_runs moments :
  Forall long_moment moments →
  ∃ outs p, go_map broker_moment moments (mkPool initial_broker []) = (Ret outs, p) ∧ Forall answered (concat outs).
Proof.
  intros Hm. rewrite moments_pool.
  destruct (pool_safe long_broker answered moment_op moments initial_broker) as (outs & p & E & _ & Ho).
  - split; [apply New_ok|constructor|by intros ? ? ?..].
  - intros [g|i] y Hin; [|done]. intros [= <-]. apply launch_safe. rewrite Forall_forall in Hm. by apply (Hm (Begin g)).
  - by exists outs, p.
Qed.
End safe.
