(* ===== verification/BrokerCustody.v ===== *)
(** * A broker keeps its missions

    An event is in the custody of a broker if it is in the queue, is checked
    out, or one of its goroutines is taking it from one to the other.  Every
    goroutine of BrokerThreads.v keeps it there: only a resolution of the event
    that does not give it back takes it out. *)

From S2P Require Import Prelude Threads Custody GoStd GoHeap Model Lamport Queue Flow Inventory Interfaces Json JsonProps.
From S2P Require Import JsonDecoded Wire Keys LedgerApp Router Buffers HTTPClient Http LedgerClient.
From S2P Require Import Broker BrokerMissions BrokerGossip BrokerHTTP BrokerThreads.
Local Open Scope Z_scope.

Section custody.
Context {RG : Ring} {ED : Ed25519} {EL : Ed25519Laws} {TC : TxCodec} {TT : TimeText} {TL : TimeTextLaws}.
Context (e : string).

(** The queue is a heap, and a mission is checked out under its identifier. *)
Record orderly (b : Broker) : Prop := mkOrderly {
  or_heap : pq_ok (b_queue b);
  or_keyed k x : b_pending b !! k = Some x → mission_id (pd_Mission x) = k;
}.

Definition in_broker (b : Broker) : Prop :=
  e ∈ mission_id <$> mh (b_queue b) ∨ is_Some (b_pending b !! e).

Local Abbreviation keeps := (minds (E := signal) orderly in_broker).

(** It has it, or not. *)
Definition has (m : Mission) : bool := bool_decide (mission_id m = e).

(** ** Sections *)

(** A section that touches neither the queue nor the checked-out missions. *)
Lemma still_keeps {A} (m : go Broker A) :
  (∀ b, b_queue (snd (m b)) = b_queue b ∧ b_pending (snd (m b)) = b_pending b) →
  keeps let_go false (atomic m).
Proof.
  intros Hm. eapply minds_weaken; [apply (minds_still _ _ _ (λ _, True))|by intros h a [-> _]].
  - intros b [H1 H2]. split; [|done]. destruct (Hm b) as [E1 E2]. split; [by rewrite E1|by rewrite E2].
  - intros b _. unfold in_broker. by destruct (Hm b) as [-> ->].
Qed.

Lemma log_keeps e' : keeps let_go false (atomic (log_id e')).
Proof.
  apply still_keeps. intros b. unfold log_id. go_unfold. by destruct (slice_to e' 8).
Qed.

Lemma gets_keeps {A} (f : Broker → A) : keeps let_go false (atomic (b ← get; mret (f b))).
Proof. by apply still_keeps. Qed.

Lemma filter_keeps {A} (m : go IdempotencyFilter A) : keeps let_go false (atomic (on_filter m)).
Proof. apply still_keeps. intros b. unfold on_filter, zoom. by destruct (m (b_filter b)). Qed.

Lemma unverified_keeps {A} (m : go Unverified A) : keeps let_go false (atomic (on_unverified m)).
Proof. apply still_keeps. intros b. unfold on_unverified, zoom. by destruct (m (b_unverified b)). Qed.

Lemma shadow_keeps {A} (m : go Shadow A) : keeps let_go false (atomic (on_shadow m)).
Proof. apply still_keeps. intros b. unfold on_shadow, zoom. by destruct (m (b_shadow b)). Qed.

(** A mission enters the queue, from whoever had it. *)
Lemma enqueue_keeps m h :
  (h = true → has m = true) → keeps let_go h (atomic (on_queue (Enqueue m))).
Proof.
  intros Hh. apply minds_atomic. intros b [H1 H2]. destruct (enqueue_ok b m H1) as (q & E & Hok & Hp).
  rewrite E. cbn [fst snd]. split; [by split|]. exists false. split; [|done]. intros Hhad. right.
  unfold in_broker. simpl. rewrite Hp, fmap_cons, elem_of_cons.
  destruct Hhad as [->|[Hin|Hin]]; [|by left; right|by right].
  left. left. symmetry. exact (bool_decide_eq_true_1 _ (Hh eq_refl)).
Qed.

Lemma dequeue_keeps :
  keeps (λ h r, h = true → snd r = true ∧ has (fst r) = true) false (atomic (on_queue Dequeue)).
Proof.
  apply minds_atomic. intros b Hb. pose proof Hb as [H1 H2].
  unfold on_queue, zoom. destruct (decide (mh (b_queue b) = [])) as [En|Hne].
  - rewrite (Dequeue_empty _ En). cbn [fst snd]. split; [by destruct b|].
    exists false. split; [|done]. intros [?|?]; [done|]. right. by destruct b.
  - destruct (Dequeue_ok _ H1 Hne) as (m & q & -> & Hok & Hp & _). cbn [fst snd]. split; [by split|].
    exists (has m). split; [|done]. unfold in_broker. simpl. rewrite Hp, fmap_cons, elem_of_cons.
    intros [?|[[->|Hin]|Hin]]; [done| |by right; left|by right; right]. left. by apply bool_decide_eq_true_2.
Qed.

Lemma aging_keeps c : keeps let_go false (atomic (on_queue (antiStarvationRound c))).
Proof.
  apply minds_atomic. intros b [H1 H2]. destruct (antiStarvationRound_ok _ c H1) as (q & E & Hok & Hp & _).
  unfold on_queue, zoom. rewrite E. cbn [fst snd]. split; [by split|]. exists false. split; [|done].
  intros [?|[Hin|Hin]]; [done| |by right; right]. right. left. simpl. rewrite Hp, <- list_fmap_compose.
  replace (mission_id ∘ promote c (agingLimit (b_queue b)) <$> mh (b_queue b)) with (mission_id <$> mh (b_queue b)); [done|].
  apply list_fmap_ext. intros _ m _. unfold promote. simpl. by destruct (starved _ _ m).
Qed.

Lemma checkout_keeps now m h :
  (h = true → has m = true) → keeps let_go h (atomic (checkout now m)).
Proof.
  intros Hh. apply minds_atomic. intros b [H1 H2]. unfold checkout, modify. cbn [fst snd].
  split; [split; [done|]|].
  - intros k x. simpl. rewrite lookup_insert. case_decide; [by intros [= <-]|apply H2].
  - exists false. split; [|done]. intros Hhad. right. unfold in_broker. simpl.
    rewrite lookup_insert. case_decide as Hm; [right; by eexists|].
    destruct Hhad as [->|?]; [|done]. specialize (Hh eq_refl). by apply bool_decide_eq_true in Hh.
Qed.

(** The resolution of the event is with the goroutine that took it. *)
Lemma resolve_take_keeps e' :
  keeps (λ h r, h = true → r = true ∧ e' = e) false (atomic (resolve_take e')).
Proof.
  apply minds_atomic. intros b [H1 H2]. rewrite resolve_take_eq.
  destruct (b_pending b !! e') as [x|] eqn:Ex; cbn [fst snd].
  2: { split; [done|]. exists false. split; [|done]. intros [?|?]; [done|by right]. }
  split; [split; [done|]; intros k y; simpl; rewrite lookup_delete_Some; intros [_ ?]; by apply H2|].
  exists (bool_decide (e' = e)). split; [|intros ?%bool_decide_eq_true; done].
  unfold in_broker. simpl. intros [?|[?|?]]; [done|by right; left|].
  case_bool_decide; [by left|]. right. right. by rewrite lookup_delete_ne.
Qed.

Lemma pending_take_keeps now e' :
  keeps (λ h r, h = true → ∃ m, r = Some m ∧ has m = true) false (atomic (pending_take now e')).
Proof.
  apply minds_atomic. intros b [H1 H2]. rewrite pending_take_eq.
  assert (orderly b ∧ ∃ h' : bool, (false = true ∨ in_broker b → h' = true ∨ in_broker b) ∧
    (h' = true → ∃ m : Mission, None = Some m ∧ has m = true)) as Hsame.
  { split; [done|]. exists false. split; [intros [?|?]; [done|by right]|done]. }
  destruct (b_pending b !! e') as [x|] eqn:Ex; [|exact Hsame].
  destruct (pending_timeout <? now - CheckoutTime x); [|exact Hsame]. cbn [fst snd].
  split; [split; [done|]; intros k y; simpl; rewrite lookup_delete_Some; intros [_ ?]; by apply H2|].
  exists (has (pd_Mission x)). split; [|intros ?; by eexists].
  unfold in_broker, has. rewrite (H2 _ _ Ex). simpl. intros [?|[?|?]]; [done|by right; left|].
  case_bool_decide; [by left|]. right. right. by rewrite lookup_delete_ne.
Qed.

(** ** Goroutines *)

(** A body that names the event gives it back. *)
Definition gives_back (r : http_request) : Prop :=
  hq_path r = "/queue/resolve" →
  ∀ a m, decode_resolve (hq_body r) = Some (a, m) → mission_id m = e → a = "REQUEUE".

Definition goroutine_gives_back (g : goroutine) : Prop :=
  match g with Handler _ _ _ r => gives_back r | _ => True end.

(** The next section, by a goroutine that does not have it. *)
Local Ltac next lem := eapply minds_bind; [apply lem|]; intros ? ? ->.

Lemma broadcast_keeps ifs action m : keeps let_go false (broadcast_thread ifs action m).
Proof. unfold broadcast_thread. next @gets_keeps. eapply minds_weaken; [apply minds_emits|]. by intros h' [] ->. Qed.

Lemma process_keeps now stored ifs net raw : keeps let_go false (process_thread now stored ifs net raw).
Proof.
  unfold process_thread. destruct (json_Unmarshal_sensor raw) as [data|]; [|done].
  destruct (negb (wellformed data)); [done|]. eapply minds_bind; [apply filter_keeps|]. intros ? new ->. destruct (negb new); [done|].
  unfold process_new_thread. eapply minds_bind; [by apply still_keeps|]. intros ? t ->.
  eapply (minds_bind _ _ _ _ let_go); [destruct (0 <? InternalClock data); [by apply still_keeps|done]|].
  intros ? c ->. next @gets_keeps. cbv zeta. destruct (negb _ && negb _).
  { next @unverified_keeps. done. }
  cbn [emit mbind routine_mbind routine_bind minds]. unfold verdict_thread.
  eapply minds_bind; [apply still_keeps; intros b; by rewrite SpendCredit_eq|]. intros ? ok ->.
  destruct ok; [|apply broadcast_keeps].
  eapply minds_bind; [by apply enqueue_keeps|]. intros ? [] ->. apply broadcast_keeps.
Qed.

Lemma pop_keeps now r : keeps let_go false (pop_thread now r).
Proof.
  unfold pop_thread. eapply (minds_bind _ _ _ _ let_go); [|by intros h a ->].
  destruct (hq_method r); [|done..].
  eapply minds_bind; [apply dequeue_keeps|]. intros h [m found] Hm. cbn [fst snd] in Hm.
  destruct found; cbn [negb].
  - eapply minds_bind; [apply checkout_keeps; intros Hh; by apply Hm|]. intros h' [] ->.
    next log_keeps. done.
  - destruct h; [by destruct (Hm eq_refl)|done].
Qed.

Lemma resolve_keeps r :
  gives_back r → hq_path r = "/queue/resolve" → keeps let_go false (resolve_thread r).
Proof.
  intros Hr Hp. unfold resolve_thread. eapply (minds_bind _ _ _ _ let_go); [|by intros h a ->].
  destruct (hq_method r); [done| |done].
  destruct (decode_resolve (hq_body r)) as [[action m]|] eqn:Ed; [|done]. specialize (Hr Hp _ _ Ed).
  eapply minds_bind; [apply resolve_take_keeps|]. intros h ex Hh. destruct ex; cbn [negb].
  2: { destruct h; [by destruct (Hh eq_refl)|]. next log_keeps. done. }
  eapply (minds_bind _ _ _ _ let_go); [|by intros h' a ->]. case_bool_decide as Ha.
  - eapply minds_bind; [apply enqueue_keeps; intros ->; by apply bool_decide_eq_true_2, Hh|].
    intros h' [] ->. apply log_keeps.
  - destruct h; [by destruct (Ha (Hr (proj2 (Hh eq_refl))))|].
    case_bool_decide; [apply log_keeps|done].
Qed.

Lemma sync_keeps now r : keeps let_go false (sync_thread now r).
Proof.
  unfold sync_thread. eapply (minds_bind _ _ _ _ let_go); [|by intros h a ->].
  destruct (hq_method r); [done| |done].
  destruct (decode_sync (hq_body r)) as [[[action e'] m]|]; [|done]. case_bool_decide; [done|].
  next @filter_keeps. eapply (minds_bind _ _ _ _ let_go); [|by intros h a0 ->]. case_bool_decide.
  - next @unverified_keeps. eapply (minds_bind _ _ _ _ let_go); [next @shadow_keeps; apply log_keeps|].
    intros h [] ->. apply log_keeps.
  - case_bool_decide; [|done]. eapply minds_bind; [apply unverified_keeps|]. intros h [? []] ->; [apply log_keeps|done].
Qed.

Lemma request_keeps now reason net r : gives_back r → keeps let_go false (request_thread now reason net r).
Proof.
  intros Hr. unfold request_thread. eapply (minds_bind _ _ _ _ let_go); [|by intros h a ->].
  unfold route_threads. cbn [ServeMux].
  case_bool_decide; [by apply still_keeps|]. case_bool_decide; [apply pop_keeps|].
  case_bool_decide as Hp; [by apply resolve_keeps|].
  case_bool_decide.
  { apply still_keeps. intros b. unfold http_explorer, handleExplorer. destruct (hq_method r); [|done..].
    by destruct (QueryGlobalState net). }
  case_bool_decide; [apply sync_keeps|]. case_bool_decide; [|done].
  apply still_keeps. intros b. unfold http_topology, topologySync. by destruct (hq_method r).
Qed.

Lemma rescue_keeps ifs order : keeps let_go false (rescue_thread ifs order).
Proof.
  apply minds_for. intros k. unfold rescue_visit_thread. eapply minds_bind; [apply gets_keeps|]. intros ? [m|] ->; [|done].
  eapply minds_bind; [apply gets_keeps|]. intros ? owner ->. destruct (isLocalIP ifs owner); [|done].
  eapply minds_bind; [by apply enqueue_keeps|]. intros ? [] ->. next @shadow_keeps. apply log_keeps.
Qed.

Lemma launch_keeps g : goroutine_gives_back g → task_minds (E := signal) orderly in_broker false (launch g).
Proof.
  intros Hg. split; [|by destruct g; intros t [= <-]].
  destruct g as [now stored ifs net raw|now reason net r|now order|now order|now order|c|answer|ifs order];
    cbn [launch body].
  - apply process_keeps.
  - by apply request_keeps.
  - apply minds_for. intros k. eapply minds_bind; [apply pending_take_keeps|]. intros h [m|] Hm.
    + eapply minds_bind; [apply enqueue_keeps; intros Hh; by destruct (Hm Hh) as (? & [= ->] & ?)|].
      intros h' [] ->. apply log_keeps.
    + destruct h; [by destruct (Hm eq_refl) as (? & [=] & _)|done].
  - apply minds_for. intros k. eapply minds_bind; [apply gets_keeps|]. intros ? [] ->; [|done].
    eapply minds_bind; [apply unverified_keeps|]. intros ? ? ->. apply log_keeps.
  - apply minds_for. intros k. apply filter_keeps.
  - apply aging_keeps.
  - eapply (minds_bind _ _ _ _ let_go); [|by intros h a ->]. apply still_keeps. intros b.
    unfold on_router, zoom. by destruct (watch_round answer (b_router b)).
  - apply rescue_keeps.
Qed.

Lemma initial_orderly : orderly initial_broker.
Proof. split; [apply New_ok|by intros ? ? ?]. Qed.
End custody.
