(* ===== verification/BrokerLive.v ===== *)
(** * The life of a broker

    Everything that can happen in a broker: packets, requests, the ticks of
    its loops and changes of topology, as goroutines whose sections interleave
    ([broker_moment]) or one whole event after another ([broker_live]).
    [Closed] is the interface of an invariant to the sections the goroutines
    are made of: every schedule keeps what the sections keep
    ([launch_behaves]).  Its instances: everything held is well typed, whatever
    arrives; within a window of time the filter forgets no event; without
    changes of topology the router stays. *)

From S2P Require Import Prelude Threads GoStd GoHeap Model Lamport Queue Flow Inventory Interfaces Json JsonProps.
From S2P Require Import JsonDecoded Rfc3339 Wire Keys LedgerApp Router Buffers HTTPClient Http LedgerClient.
From S2P Require Import Broker BrokerMissions BrokerGossip BrokerHTTP BrokerThreads BrokerSafe.
Local Open Scope Z_scope.

Section live.
Context {RG : Ring} {ED : Ed25519} {EL : Ed25519Laws} {TC : TxCodec} {TT : TimeText} {TL : TimeTextLaws}.

(** ** One event after another *)

Inductive broker_event : Type :=
| Arrival (now : Z) (ifs : option (list Addr)) (net : nat → attempt) (raw : string)
| Request (now : Z) (reason : string) (net : nat → attempt) (r : http_request)
| Pending_tick (now : Z) (order : list string)
| Unverified_tick (now : Z) (order : list string)
| Filter_tick (now : Z) (order : list string)
| Aging_tick (currentClock : Z)
| Topology (answer : option (list string))
| Rescue (ifs : option (list Addr)) (order : list string).

Inductive broker_output : Type :=
| Effects (effs : list effect)
| Answer (r : option http_response)
| Nothing.

Definition broker_live (e : broker_event) : go Broker broker_output :=
  match e with
  | Arrival now ifs net raw => effs ← process now ifs net raw; mret (Effects effs)
  | Request now reason net r => a ← broker_serve now reason net r; mret (Answer a)
  | Pending_tick now order => pending_round now order ;; mret Nothing
  | Unverified_tick now order => on_unverified (unverified_round now order) ;; mret Nothing
  | Filter_tick now order => on_filter (cleanup_round now order) ;; mret Nothing
  | Aging_tick c => on_queue (antiStarvationRound c) ;; mret Nothing
  | Topology answer => on_router (watch_round answer) ;; mret Nothing
  | Rescue ifs order => rescue ifs order ;; mret Nothing
  end.

(** ** Invariants and the sections *)

(** What a change of topology brings: a new ring, then a rescue. *)
Inductive change : Type :=
| Watched (answer : option (list string))
| Rescued.

Definition all_changes : change → Prop := λ _, True.

(** A family of one. *)
Definition one (I : Broker → Prop) : () → Broker → Prop := λ _, I.

(** The invariants [I] are kept and the missions held satisfy [P], by the
    sections whose instants are in [T] and the changes of topology in [R]. *)
Class Closed {X} (I : X → Broker → Prop) (P : Mission → Prop) (T : Z → Prop) (R : change → Prop) : Prop := {
  cl_new d c : wf_sensor d → is_uint64 c → P (newMission d c);
  cl_enqueue m : P m → keeps I (on_queue (Enqueue m)) (λ _, True);
  cl_dequeue : keeps I (on_queue Dequeue) (λ r, snd r = true → P (fst r));
  cl_aging c : keeps I (on_queue (antiStarvationRound c)) (λ _, True);
  cl_checkout now m : P m → keeps I (checkout now m) (λ _, True);
  cl_resolve e : keeps I (resolve_take e) (λ _, True);
  cl_expire now e : keeps I (pending_take now e) (λ r, ∀ m, r = Some m → P m);
  cl_store now m : P m → keeps I (on_unverified (Unverified_Store now m)) (λ _, True);
  cl_retrieve e : keeps I (on_unverified (RetrieveAndRemove e)) (λ _, True);
  cl_unverified key : keeps I (on_unverified (modify (delete key))) (λ _, True);
  cl_shadow m : P m → keeps I (on_shadow (modify <[mission_id m := m]>)) (λ _, True);
  cl_shadowed x b key m : I x b → b_shadow b !! key = Some m → P m;
  cl_forget key : R Rescued → keeps I (on_shadow (modify (delete key))) (λ _, True);
  cl_tick : keeps I (on_clock Tick) is_uint64;
  cl_sync r : keeps I (on_clock (Sync r)) is_uint64;
  cl_check now e : T now → keeps I (on_filter (CheckAndAdd now e)) (λ _, True);
  cl_cleanup now key : T now → keeps I (on_filter (cleanup_visit now key)) (λ _, True);
  cl_watch answer : R (Watched answer) → keeps I (on_router (watch_round answer)) (λ _, True);
}.

Section closed.
Context {X : Type} {I : X → Broker → Prop} {P : Mission → Prop} {T : Z → Prop} {R : change → Prop}
  {CL : Closed I P T R}.

(** A mission the broker hands out is in [P], and in the answer. *)
Definition hands_out (r : http_response) : Prop :=
  ∃ m, P m ∧ hs_body r = json_line (json_Marshal_mission m).

Definition good_answer (r : http_request) (a : http_response) : Prop :=
  hq_path r = "/queue/pop" → hs_status a = 200 → hands_out a.

(** What a goroutine may send. *)
Definition may_send (g : goroutine) (x : signal) : Prop :=
  match g, x with
  | Worker _ _ ifs _ raw, Sends (Spend data) =>
    json_Unmarshal_sensor raw = Some data ∧
    ∃ y b, I y b ∧ let owner := GetOwnerIP (SectorID data) (b_router b) in
      owner = "" ∨ isLocalIP ifs owner = true
  | Worker _ _ _ _ raw, Sends (Forward _ payload) =>
    ∃ data c, json_Unmarshal_sensor raw = Some data ∧ is_uint64 c ∧
      payload = json_Marshal_sensor (set_clock data c)
  | Worker _ _ _ _ raw, Sends (Sync_to _ action m) => valid_utf8 action = true ∧ wf_mission m
  | Handler _ _ _ r, Answers r' a => r' = r ∧ ∀ x, a = Some x → good_answer r x
  | _, _ => False
  end.

Section sends.
Context (g : goroutine).
Local Abbreviation good := (behaves I (may_send g)).

Lemma log_id_keeps e : keeps I (log_id e) (λ _, True).
Proof. intros x. unfold log_id. eapply ensures_bind; [apply ensures_or_panic|]. intros. by apply ensures_ret. Qed.

Lemma good_log e : good (λ _, True) (atomic (log_id e)).
Proof. apply behaves_atomic, log_id_keeps. Qed.

Lemma good_gets {A} (f : Broker → A) (Q : A → Prop) :
  (∀ x b, I x b → Q (f b)) → good Q (atomic (b ← get; mret (f b))).
Proof.
  intros HQ. apply behaves_atomic. intros x. eapply ensures_bind; [apply ensures_get|]. intros b Hb.
  by eapply ensures_ret, HQ.
Qed.

Lemma good_ret {A} (a : A) (Q : A → Prop) : Q a → good Q (mret a).
Proof. done. Qed.

(** *** Handlers *)

(** The missions of a body that decodes are in [P]. *)
Definition body_ok (body : string) : Prop :=
  (∀ a m, decode_resolve body = Some (a, m) → P m) ∧ (∀ a e m, decode_sync body = Some (a, e, m) → P m).

Lemma pop_good now r : good (λ a, hs_status a = 200 → hands_out a) (pop_thread now r).
Proof.
  unfold pop_thread. eapply (behaves_bind _ _ _ _
    (λ rs, match rs_mission rs with Some m => rs_status rs = 200 ∧ P m | None => rs_status rs ≠ 200 end)).
  - destruct (hq_method r); [|done..].
    eapply behaves_bind; [apply behaves_atomic, cl_dequeue|]. intros [m found] Hm. simpl in Hm.
    destruct found; cbn [negb]; [|done].
    eapply behaves_bind; [by apply behaves_atomic, cl_checkout, Hm|]. intros _ _.
    eapply behaves_bind; [apply good_log|]. intros _ _. split; [done|by apply Hm].
  - intros rs Hrs. apply good_ret. unfold plain_answer. destruct (rs_mission rs) as [m|].
    + destruct Hrs as [-> Hm]. intros _. by exists m.
    + case_match; [done|]. simpl. done.
Qed.

Lemma resolve_good r : body_ok (hq_body r) → good (λ _, True) (resolve_thread r).
Proof.
  intros [Hbody _]. unfold resolve_thread. eapply (behaves_bind _ _ _ _ (λ _, True)); [|done].
  destruct (hq_method r); [done| |done].
  destruct (decode_resolve (hq_body r)) as [[action m]|]; [|done]. specialize (Hbody _ _ eq_refl).
  eapply behaves_bind; [apply behaves_atomic, cl_resolve|]. intros ex _. destruct (negb ex).
  { eapply behaves_bind; [apply good_log|done]. }
  eapply (behaves_bind _ _ _ _ (λ _, True)); [|done]. case_bool_decide.
  - eapply behaves_bind; [by apply behaves_atomic, cl_enqueue|]. intros _ _. apply good_log.
  - case_bool_decide; [apply good_log|done].
Qed.

Lemma sync_good now r : T now → body_ok (hq_body r) → good (λ _, True) (sync_thread now r).
Proof.
  intros Ht [_ Hbody]. unfold sync_thread. eapply (behaves_bind _ _ _ _ (λ _, True)); [|done].
  destruct (hq_method r); [done| |done].
  destruct (decode_sync (hq_body r)) as [[[action e] m]|]; [|done]. specialize (Hbody _ _ _ eq_refl).
  case_bool_decide; [done|].
  eapply behaves_bind; [by apply behaves_atomic, cl_check|]. intros _ _.
  eapply (behaves_bind _ _ _ _ (λ _, True)); [|done]. case_bool_decide.
  - eapply behaves_bind; [apply behaves_atomic, cl_retrieve|]. intros _ _.
    eapply (behaves_bind _ _ _ _ (λ _, True)); [|intros; apply good_log].
    eapply behaves_bind; [by apply behaves_atomic, cl_shadow|]. intros _ _. apply good_log.
  - case_bool_decide; [|done].
    eapply behaves_bind; [apply behaves_atomic, cl_retrieve|]. intros [? found] _.
    destruct found; [apply good_log|done].
Qed.

(** A handler that leaves the memory alone. *)
Lemma still_good {A} (m : go Broker A) : (∀ b, snd (m b) = b) → good (λ _, True) (atomic m).
Proof. intros Hm. apply behaves_atomic. intros x b Hb. by rewrite Hm. Qed.

Lemma route_good now reason net r :
  T now → body_ok (hq_body r) → good (good_answer r) (ServeMux NotFound (route_threads now reason net) r).
Proof.
  intros Ht Hb. unfold route_threads, good_answer. cbn [ServeMux].
  assert (∀ (t : routine Broker signal http_response) p, p = hq_path r → p ≠ "/queue/pop" →
    good (λ _, True) t → good (λ a, hq_path r = "/queue/pop" → hs_status a = 200 → hands_out a) t) as K.
  { intros t p Hp Hne Hgood. eapply behaves_weaken; [done|]. intros a _ Hr. by rewrite <- Hr in Hne. }
  case_bool_decide as E1; [by eapply K; [done|done|apply still_good]|].
  case_bool_decide as E2; [eapply behaves_weaken; [apply pop_good|]; intros a Ha _; exact Ha|].
  case_bool_decide as E3; [by eapply K; [done|done|apply resolve_good]|].
  case_bool_decide as E4.
  { eapply K; [done|done|]. apply still_good. intros b. unfold http_explorer, handleExplorer.
    destruct (hq_method r); [|done..]. by destruct (QueryGlobalState net). }
  case_bool_decide as E5; [by eapply K; [done|done|apply sync_good]|].
  case_bool_decide as E6.
  { eapply K; [done|done|]. apply still_good. intros b. unfold http_topology, topologySync.
    by destruct (hq_method r). }
  apply good_ret. done.
Qed.

(** *** Loops *)

Lemma pending_good now order : good (λ _, True) (pending_thread now order).
Proof.
  apply behaves_for. intros e. eapply behaves_bind; [apply behaves_atomic, cl_expire|].
  intros [m|] Hm; [|done]. eapply behaves_bind; [by apply behaves_atomic, cl_enqueue, Hm|].
  intros. apply good_log.
Qed.

Lemma unverified_good now order : good (λ _, True) (unverified_thread now order).
Proof.
  apply behaves_for. intros k. eapply (behaves_bind _ _ _ _ (λ _, True)); [by apply good_gets|].
  intros [] _; [|done]. eapply behaves_bind; [apply behaves_atomic, cl_unverified|]. intros. apply good_log.
Qed.

Lemma cleanup_good now order : T now → good (λ _, True) (cleanup_thread now order).
Proof. intros Ht. apply behaves_for. intros k. by apply behaves_atomic, cl_cleanup. Qed.

Lemma rescue_good ifs order : R Rescued → good (λ _, True) (rescue_thread ifs order).
Proof.
  intros HR. apply behaves_for. intros k. unfold rescue_visit_thread.
  eapply behaves_bind; [apply (good_gets _ (λ o, ∀ m, o = Some m → P m))|].
  { intros x b Hb m Hm. by eapply cl_shadowed. }
  intros [m|] Hm; [|done]. eapply behaves_bind; [by apply (good_gets _ (λ _, True))|]. intros owner _.
  destruct (isLocalIP ifs owner); [|done].
  eapply behaves_bind; [by apply behaves_atomic, cl_enqueue, Hm|]. intros _ _.
  eapply behaves_bind; [by apply behaves_atomic, cl_forget|]. intros _ _. apply good_log.
Qed.
End sends.

(** *** Workers *)

Section worker.
Context (now stored : Z) (ifs : option (list Addr)) (net : nat → attempt) (raw : string).
Local Abbreviation good := (behaves I (may_send (Worker now stored ifs net raw))).

(** A verdict that reads back. *)
Definition is_verdict (x : signal) : Prop :=
  match x with Sends (Sync_to _ action m) => valid_utf8 action = true ∧ wf_mission m | _ => False end.

Lemma broadcast_good action m :
  valid_utf8 action = true → wf_mission m →
  behaves I is_verdict (λ _, True) (broadcast_thread ifs action m).
Proof.
  intros Ha Hm. unfold broadcast_thread. eapply (behaves_bind _ _ _ _ (λ _, True)).
  { apply behaves_atomic. by intros x b Hb. }
  intros ips _. apply behaves_emits, Forall_fmap, Forall_forall. by intros ip _.
Qed.

Lemma SpendCredit_keeps data : keeps I (SpendCredit net data) (λ _, True).
Proof. intros x b Hb. by rewrite SpendCredit_eq. Qed.

Lemma verdict_good data m :
  P m → wf_mission m → behaves I is_verdict (λ _, True) (verdict_thread ifs net data m).
Proof.
  intros HP Hm. unfold verdict_thread. eapply behaves_bind; [apply behaves_atomic, SpendCredit_keeps|].
  intros ok _. destruct ok; [|by apply broadcast_good].
  eapply behaves_bind; [by apply behaves_atomic, cl_enqueue|]. intros _ _. by apply broadcast_good.
Qed.

Lemma process_new_good data :
  json_Unmarshal_sensor raw = Some data → good (λ _, True) (process_new_thread stored ifs net data).
Proof.
  intros E. pose proof (decoded_wf _ _ E) as Hd. unfold process_new_thread.
  eapply behaves_bind; [apply behaves_atomic, cl_tick|]. intros t Ht.
  eapply (behaves_bind _ _ _ _ is_uint64).
  { destruct (0 <? InternalClock data); [apply behaves_atomic, cl_sync|done]. }
  intros c Hc. pose proof (newMission_wf data c Hd Hc) as Hm. pose proof (cl_new data c Hd Hc) as HP.
  eapply behaves_bind; [apply (good_gets _ _ (λ owner, ∃ y b, I y b ∧ owner = GetOwnerIP (SectorID data) (b_router b)))|].
  { intros y b Hb. by exists y, b. }
  intros owner (y & b & Hb & Ho). cbv zeta. destruct (negb _ && negb _) eqn:Ef.
  - eapply behaves_bind; [by apply behaves_atomic, cl_store|]. intros _ _. apply behaves_emit.
    by exists data, c.
  - eapply behaves_bind; [apply behaves_emit|].
    { split; [done|]. exists y, b. split; [done|]. rewrite <- Ho.
      apply andb_false_iff in Ef as [Ef|Ef]; apply negb_false_iff in Ef; [left|by right].
      by apply bool_decide_eq_true in Ef. }
    intros _ _. eapply behaves_sends; [|by apply verdict_good]. by intros [[]|].
Qed.

Lemma process_good : T now → good (λ _, True) (process_thread now stored ifs net raw).
Proof.
  intros Htime. unfold process_thread. destruct (json_Unmarshal_sensor raw) as [data|] eqn:E; [|done].
  destruct (negb (wellformed data)); [done|].
  eapply behaves_bind; [by apply behaves_atomic, cl_check|]. intros new _. destruct (negb new); [done|].
  by apply process_new_good.
Qed.
End worker.

(** *** Every schedule *)

(** What a goroutine brings in. *)
Definition brings (g : goroutine) : Prop :=
  match g with
  | Worker now _ _ _ _ => T now
  | Handler now _ _ r => T now ∧ body_ok (hq_body r)
  | Filter_cleanup now _ => T now
  | Topology_watch answer => R (Watched answer)
  | Rescuer _ _ => R Rescued
  | _ => True
  end.

Lemma launch_behaves g : brings g → task_behaves I (may_send g) (launch g).
Proof.
  intros Hg. split; [|by destruct g; intros t [= <-]].
  destruct g as [now stored ifs net raw|now reason net r|now order|now order|now order|c|answer|ifs order];
    cbn [launch body].
  - by apply process_good.
  - destruct Hg. eapply behaves_bind; [by apply route_good|]. intros a Ha. apply behaves_emit.
    split; [done|]. by intros x [= <-].
  - apply pending_good.
  - apply unverified_good.
  - by apply cleanup_good.
  - apply behaves_atomic, cl_aging.
  - eapply behaves_bind; [by apply behaves_atomic, cl_watch|done].
  - by apply rescue_good.
Qed.

(** What leaves a broker reads as it was meant. *)
Definition good_signal (x : signal) : Prop :=
  match x with
  | Sends (Spend data) => wf_sensor data
  | Sends (Forward _ payload) => ∃ data, json_Unmarshal_sensor payload = Some data ∧ wf_sensor data
  | Sends (Sync_to _ action m) =>
    ∀ rest, decode_sync (encode_sync action m +:+ rest) = Some (action, mission_id m, m)
  | Answers r a => ∀ x, a = Some x → good_answer r x
  end.

Lemma sent_good g x : may_send g x → good_signal x.
Proof.
  destruct g as [? ? ? ? raw|? ? ? r| | | | | |], x as [[data|ip payload|ip action m]|r' a]; simpl; try done.
  - intros [E _]. by eapply decoded_wf.
  - intros (data & c & E & Hc & ->). exists (set_clock data c). split; [by eapply forwarded_reads|].
    eapply decoded_wf. by eapply forwarded_reads.
  - intros [Ha Hm] rest. by apply decode_sync_round.
  - by intros [-> H].
Qed.

Definition moment_in (x : moment) : Prop := match x with Begin g => brings g | Turn _ => True end.

Lemma moment_keeps y x :
  moment_in x → ensures (pool_ok I good_signal y) (broker_moment x) (Forall good_signal).
Proof.
  intros Hx. destruct x as [g|i]; apply pool_do_keeps; [|done].
  eapply task_sends; [apply sent_good|by apply launch_behaves].
Qed.

(** *** Whole events *)

Lemma alone_keeps {A B} (t : routine Broker signal A) (m : go Broker B) f Pr Q :
  alone t m f → behaves I Pr Q t → keeps I m (λ x, Q (snd (f x))).
Proof.
  intros Hm Ht y b Hb. destruct (run_behaves _ _ _ _ Ht y b Hb) as [H1 H2]. rewrite Hm in H1, H2.
  revert H1 H2. go_unfold. destruct (m b) as [[x|p] b1]; simpl; intros H1 H2; (split; [done|]); [|done].
  intros ? [= <-]. by apply H2.
Qed.

Definition event_in (e : broker_event) : Prop :=
  match e with
  | Arrival now _ _ _ => T now
  | Request now _ _ r => T now ∧ body_ok (hq_body r)
  | Filter_tick now _ => T now
  | Topology answer => R (Watched answer)
  | Rescue _ _ => R Rescued
  | _ => True
  end.

Lemma broker_live_keeps e : event_in e → keeps I (broker_live e) (λ _, True).
Proof.
  intros He y. destruct e as [now ifs net raw|now reason net r|now order|now order|now order|c|answer|ifs order];
    unfold broker_live; (eapply (ensures_bind _ _ _ (λ _, True)); [|by intros; apply ensures_ret]).
  - exact (alone_keeps _ _ _ _ _ (process_alone now ifs net raw) (process_good now now ifs net raw He) y).
  - destruct He as [H1 H2]. intros b Hb. split; [|done]. unfold broker_serve, serve.
    destruct (alone_keeps _ _ _ _ _ (request_alone now reason net r)
      (route_good (Aging_worker 0) now reason net r H1 H2) y b Hb) as [H3 _].
    revert H3. by destruct (ServeMux NotFound (SetupRouter now reason net) r b) as [[]].
  - exact (alone_keeps _ _ _ _ _ (pending_alone now order) (pending_good (Aging_worker 0) now order) y).
  - exact (alone_keeps _ _ _ _ _ (unverified_alone now order) (unverified_good (Aging_worker 0) now order) y).
  - exact (alone_keeps _ _ _ _ _ (cleanup_alone now order) (cleanup_good (Aging_worker 0) now order He) y).
  - apply cl_aging.
  - eapply ensures_weaken; [by apply cl_watch|done].
  - pose proof (alone_keeps _ _ _ _ _ (rescue_alone ifs order) (rescue_good (Aging_worker 0) ifs order He) y) as K.
    intros b Hb. split; [|done]. destruct (K b Hb) as [H1 _]. revert H1. go_unfold.
    by destruct (rescue ifs order b) as [[]].
Qed.
End closed.

(** ** Everything the broker holds is well typed *)

Definition typed_queue (q : PriorityQueue) : Prop := pq_ok q ∧ Forall typed_mission (mh q).
Definition typed_shadow (x : Shadow) : Prop := map_Forall (λ _ m, typed_mission m) x.
Definition typed_unverified (x : Unverified) : Prop := map_Forall (λ _ r, typed_mission (uv_Mission r)) x.

Record typed_broker (b : Broker) : Prop := mkTyped {
  tb_queue : typed_queue (b_queue b);
  tb_shadow : typed_shadow (b_shadow b);
  tb_unverified : typed_unverified (b_unverified b);
  tb_pending : map_Forall (λ _ x, typed_mission (pd_Mission x)) (b_pending b);
  tb_clock : is_uint64 (b_clock b);
}.

Lemma promote_typed c l m : typed_mission m → typed_mission (promote c l m).
Proof. unfold promote. by destruct (starved c l m). Qed.

Lemma Enqueue_typed m : typed_mission m → ensures typed_queue (Enqueue m) (λ _, True).
Proof.
  intros Hm q [Hq Hall]. destruct (Enqueue_ok q m Hq) as (q' & -> & Hok & Hp & _).
  split; [|done]. split; [done|]. rewrite Hp. by constructor.
Qed.

Lemma Dequeue_typed : ensures typed_queue Dequeue (λ r, typed_mission (fst r)).
Proof.
  intros q [Hq Hall]. destruct (decide (mh q = [])) as [E|E].
  - rewrite (Dequeue_empty q E). split; [done|]. intros ? [= <-]. apply zeroMission_typed.
  - destruct (Dequeue_ok q Hq E) as (m & q' & -> & Hok & Hp & _). rewrite Hp in Hall.
    apply Forall_cons in Hall as [Hm Hall]. split; [done|]. by intros ? [= <-].
Qed.

Lemma aging_typed c : ensures typed_queue (antiStarvationRound c) (λ _, True).
Proof.
  intros q [Hq Hall]. destruct (antiStarvationRound_ok q c Hq) as (q' & -> & Hok & Hp & _).
  split; [|done]. split; [done|]. rewrite Hp. apply Forall_fmap.
  eapply Forall_impl; [exact Hall|]. intros m. apply promote_typed.
Qed.

(** A call on a component keeps the broker well typed if it keeps the
    component so. *)
Section lift.
Context {A : Type} (Q : A → Prop).

Lemma on_queue_typed m : ensures typed_queue m Q → ensures typed_broker (on_queue m) Q.
Proof. intros H. apply (ensures_zoom _ _ _ typed_queue); [done|by intros ? []|by intros ?? [] ?]. Qed.

Lemma on_shadow_typed m : ensures typed_shadow m Q → ensures typed_broker (on_shadow m) Q.
Proof. intros H. apply (ensures_zoom _ _ _ typed_shadow); [done|by intros ? []|by intros ?? [] ?]. Qed.

Lemma on_unverified_typed m : ensures typed_unverified m Q → ensures typed_broker (on_unverified m) Q.
Proof. intros H. apply (ensures_zoom _ _ _ typed_unverified); [done|by intros ? []|by intros ?? [] ?]. Qed.

Lemma on_clock_typed m : ensures is_uint64 m Q → ensures typed_broker (on_clock m) Q.
Proof. intros H. apply (ensures_zoom _ _ _ is_uint64); [done|by intros ? []|by intros ?? [] ?]. Qed.
End lift.

(** A component without missions needs nothing. *)
Lemma on_filter_typed {A} (m : go IdempotencyFilter A) : ensures typed_broker (on_filter m) (λ _, True).
Proof. apply (ensures_zoom _ _ _ (λ _, True)); [apply any_ensures|done|by intros ?? [] ?]. Qed.

Lemma on_router_typed {A} (m : go SectorRouter A) : ensures typed_broker (on_router m) (λ _, True).
Proof. apply (ensures_zoom _ _ _ (λ _, True)); [apply any_ensures|done|by intros ?? [] ?]. Qed.

Lemma Unverified_Store_typed now m :
  typed_mission m → ensures typed_unverified (Unverified_Store now m) (λ _, True).
Proof. intros Hm. apply ensures_modify. intros x Hx. by apply map_Forall_insert_2. Qed.

Lemma RetrieveAndRemove_typed e : ensures typed_unverified (RetrieveAndRemove e) (λ r, typed_mission (fst r)).
Proof.
  intros x Hx. unfold RetrieveAndRemove. go_unfold. destruct (x !! e) as [r|] eqn:E; simpl.
  - split; [by apply map_Forall_delete|]. intros ? [= <-]. exact (Hx _ _ E).
  - split; [done|]. intros ? [= <-]. apply zeroMission_typed.
Qed.

Lemma unverified_delete_typed k : ensures typed_unverified (modify (delete k)) (λ _, True).
Proof. apply ensures_modify. intros x Hx. by apply map_Forall_delete. Qed.

Lemma pending_insert_typed e m now b :
  typed_mission m → typed_broker b → typed_broker (set_pending (<[e := mkPending m now]> (b_pending b)) b).
Proof. intros Hm []. split; try done. by apply map_Forall_insert_2. Qed.

Lemma pending_delete_typed e b :
  typed_broker b → typed_broker (set_pending (delete e (b_pending b)) b).
Proof. intros []. split; try done. by apply map_Forall_delete. Qed.

Lemma resolve_take_typed e : ensures typed_broker (resolve_take e) (λ _, True).
Proof.
  intros b Hb. split; [|done]. rewrite resolve_take_eq. destruct (b_pending b !! e); [|done].
  by apply pending_delete_typed.
Qed.

Lemma pending_take_typed now e :
  ensures typed_broker (pending_take now e) (λ r, ∀ m, r = Some m → typed_mission m).
Proof.
  intros b Hb. rewrite pending_take_eq. destruct (b_pending b !! e) as [x|] eqn:E;
    [|split; [done|by intros ? [= <-] ? [=]]].
  destruct (pending_timeout <? now - CheckoutTime x); [|split; [done|by intros ? [= <-] ? [=]]].
  split; [by apply pending_delete_typed|]. intros ? [= <-] m [= <-]. exact (tb_pending _ Hb _ _ E).
Qed.

Lemma clock_typed (f : Z → Z) :
  (∀ c, is_uint64 (f c)) → ensures is_uint64 (λ c, (Ret (f c), f c)) is_uint64.
Proof. intros Hf c _. split; [apply Hf|]. intros ? [= <-]. apply Hf. Qed.

#[export] Instance typed_closed : Closed (one typed_broker) typed_mission (λ _, True) all_changes.
Proof.
  split; intros; try intros [].
  - destruct (newMission_wf d c) as (?&?&?&?&?); [done|done|]. by split_and!.
  - by apply on_queue_typed, Enqueue_typed.
  - apply on_queue_typed. eapply ensures_weaken; [apply Dequeue_typed|]. done.
  - apply on_queue_typed, aging_typed.
  - apply ensures_modify. intros b Hb. by apply pending_insert_typed.
  - apply resolve_take_typed.
  - apply pending_take_typed.
  - by apply on_unverified_typed, Unverified_Store_typed.
  - apply on_unverified_typed. eapply ensures_weaken; [apply RetrieveAndRemove_typed|]. done.
  - apply on_unverified_typed, unverified_delete_typed.
  - apply on_shadow_typed, ensures_modify. intros x Hx. by apply map_Forall_insert_2.
  - by eapply (tb_shadow b).
  - apply on_shadow_typed, ensures_modify. intros x Hx. by apply map_Forall_delete.
  - apply on_clock_typed, (clock_typed tick_val). intros. apply wrapu64_range.
  - apply on_clock_typed, (clock_typed (sync_val r)). intros. apply wrapu64_range.
  - apply on_filter_typed.
  - apply on_filter_typed.
  - apply on_router_typed.
Qed.

(** Every body is typed: what decodes is. *)
Lemma typed_body body : body_ok (P := typed_mission) body.
Proof.
  split.
  - intros a m H. by apply decode_resolve_typed in H as [_ ?].
  - intros a e m H. by apply decode_sync_typed in H as [_ ?].
Qed.

Lemma broker_live_typed e : ensures typed_broker (broker_live e) (λ _, True).
Proof.
  refine (broker_live_keeps (I := one typed_broker) (P := typed_mission) (T := λ _, True)
    (R := all_changes) e _ ()). destruct e; simpl; try done. split; [done|apply typed_body].
Qed.

Lemma typed_moment x : moment_in (P := typed_mission) (T := λ _, True) (R := all_changes) x.
Proof. destruct x as [[]|]; simpl; try done. split; [done|apply typed_body]. Qed.

Lemma initial_typed : typed_broker initial_broker.
Proof. split; [split; [apply New_ok|constructor]|by intros ? ? ?..|done]. Qed.

(** ** Invariants of one component *)

(** Two invariants shown together. *)
Lemma keeps_both {A} (I0 I1 : Broker → Prop) (m : go Broker A) Q :
  keeps (one I0) m Q → keeps (one I1) m Q → keeps (λ b : bool, if b then I1 else I0) m Q.
Proof. intros H0 H1 [|]; [exact (H1 ())|exact (H0 ())]. Qed.

Lemma closed_both I0 I1 P T R :
  Closed (one I0) P T R → Closed (one I1) P T R → Closed (λ b : bool, if b then I1 else I0) P T R.
Proof.
  intros [] []. split; intros; try (apply keeps_both); auto.
  match goal with y : bool |- _ => destruct y end; [eapply (cl_shadowed1 ())|eapply (cl_shadowed0 ())]; eauto.
Qed.

(** An invariant of the filter is kept if the filter's operations keep it. *)
Lemma closed_filter (J : IdempotencyFilter → Prop) (T : Z → Prop) :
  (∀ now e, T now → ensures J (CheckAndAdd now e) (λ _, True)) →
  (∀ now key, T now → ensures J (cleanup_visit now key) (λ _, True)) →
  Closed (one (λ b, J (b_filter b))) (λ _, True) T all_changes.
Proof.
  intros Hc Hr. split; intros; try (by intros [] b Hb);
    try (by unfold on_queue, on_unverified, on_shadow, on_router; intros [] b Hb; unfold zoom; split; [case_match|]).
  - done.
  - intros [] b Hb. split; [|done]. unfold resolve_take. go_unfold. by destruct (b_pending b !! e).
  - intros [] b Hb. split; [|done]. rewrite pending_take_eq. repeat case_match; done.
  - done.
  - intros [] b Hb. split; [done|]. intros ? [= <-]. apply wrapu64_range.
  - intros [] b Hb. split; [done|]. intros ? [= <-]. apply wrapu64_range.
  - intros []. apply (ensures_zoom _ _ _ J); [by apply Hc|done|done].
  - intros []. apply (ensures_zoom _ _ _ J); [by apply Hr|done|done].
Qed.

(** So is one of the router, which the watch alone changes. *)
Definition not_watched (c : change) : Prop := match c with Watched _ => False | _ => True end.

#[export] Instance closed_router (J : SectorRouter → Prop) :
  Closed (one (λ b, J (b_router b))) (λ _, True) (λ _, True) not_watched.
Proof.
  split; intros; try (by intros [] b Hb);
    try (by unfold on_queue, on_unverified, on_shadow, on_filter; intros [] b Hb; unfold zoom; split; [case_match|]).
  - done.
  - intros [] b Hb. split; [|done]. unfold resolve_take. go_unfold. by destruct (b_pending b !! e).
  - intros [] b Hb. split; [|done]. rewrite pending_take_eq. repeat case_match; done.
  - done.
  - intros [] b Hb. split; [done|]. intros ? [= <-]. apply wrapu64_range.
  - intros [] b Hb. split; [done|]. intros ? [= <-]. apply wrapu64_range.
Qed.

(** And one of the shadow, if storing keeps it and there is no rescue. *)
Definition not_rescued (c : change) : Prop := match c with Rescued => False | _ => True end.

Lemma closed_shadow (J : Shadow → Prop) :
  (∀ m x, J x → J (<[mission_id m := m]> x)) →
  Closed (one (λ b, J (b_shadow b))) (λ _, True) (λ _, True) not_rescued.
Proof.
  intros Hs. split; intros; try (by intros [] b Hb);
    try (by unfold on_queue, on_unverified, on_router, on_filter; intros [] b Hb; unfold zoom; split; [case_match|]).
  - done.
  - intros [] b Hb. split; [|done]. unfold resolve_take. go_unfold. by destruct (b_pending b !! e).
  - intros [] b Hb. split; [|done]. rewrite pending_take_eq. repeat case_match; done.
  - intros []. apply (ensures_zoom _ _ _ J); [apply ensures_modify, Hs|done|done].
  - done.
  - intros [] b Hb. split; [done|]. intros ? [= <-]. apply wrapu64_range.
  - intros [] b Hb. split; [done|]. intros ? [= <-]. apply wrapu64_range.
Qed.

(** *** The filter within a window *)

Section window.
Context (e : string) (t0 span : Z).

(** The instants of the window. *)
Definition in_window (now : Z) : Prop := t0 ≤ now ≤ t0 + span.

(** If the filter knows the event, it does so until the window's end. *)
Definition unforgetting (f : IdempotencyFilter) : Prop :=
  ttl f = span ∧ ∀ x, seen f !! e = Some x → t0 + span ≤ x.

Definition remembering (f : IdempotencyFilter) : Prop :=
  ttl f = span ∧ ∃ x, seen f !! e = Some x ∧ t0 + span ≤ x.

Lemma remembering_unforgetting f : remembering f → unforgetting f.
Proof. intros (Ht & x & Hx & Hl). split; [done|]. intros y Hy. congruence. Qed.

Lemma CheckAndAdd_unforgetting now e' :
  in_window now → ensures unforgetting (CheckAndAdd now e') (λ _, True).
Proof.
  intros Hn f [Ht Hf]. split; [|done]. unfold in_window in Hn. rewrite CheckAndAdd_eq.
  destruct (seen f !! e') as [y|] eqn:E; simpl; [done|]. split; [done|]. intros x. simpl.
  rewrite lookup_insert. case_decide; [intros [= <-]; lia|apply Hf].
Qed.

Lemma CheckAndAdd_remembering now e' : ensures remembering (CheckAndAdd now e') (λ _, True).
Proof.
  intros f (Ht & x & Hx & Hl). split; [|done]. rewrite CheckAndAdd_eq.
  destruct (seen f !! e') as [y|] eqn:E; simpl; (split; [done|]); exists x; (split; [|done]); [done|].
  simpl. by rewrite lookup_insert_ne by congruence.
Qed.

(** The first to ask is told that the event is new, and whoever asks later is
    not. *)
Lemma CheckAndAdd_first now f new :
  in_window now → unforgetting f → fst (CheckAndAdd now e f) = Ret new →
  if new : bool then remembering (snd (CheckAndAdd now e f)) else True.
Proof.
  intros Hn [Ht Hf]. rewrite CheckAndAdd_eq. destruct (seen f !! e) as [y|] eqn:E; intros [= <-]; [done|].
  split; [done|]. simpl. exists (now + ttl f). rewrite lookup_insert_eq. split; [done|].
  unfold in_window in Hn. lia.
Qed.

Lemma CheckAndAdd_again now : ensures remembering (CheckAndAdd now e) (λ new, new = false).
Proof.
  intros f Hf. split; [by apply CheckAndAdd_remembering|]. destruct Hf as (_ & x & Hx & _).
  rewrite CheckAndAdd_eq, Hx. by intros ? [= <-].
Qed.

Lemma cleanup_unforgetting now k : in_window now → ensures unforgetting (cleanup_visit now k) (λ _, True).
Proof.
  intros Hn f [Ht Hf]. split; [|done]. rewrite cleanup_visit_eq. split; [done|].
  intros x Hx. simpl in Hx. apply Hf. by apply take_one_left in Hx as [? _].
Qed.

Lemma cleanup_remembering now k : in_window now → ensures remembering (cleanup_visit now k) (λ _, True).
Proof.
  intros Hn f (Ht & x & Hx & Hl). split; [|done]. rewrite cleanup_visit_eq.
  split; [done|]. exists x. split; [|done]. simpl. apply take_one_left. split; [done|].
  unfold stale, in_window in *. intros ?. lia.
Qed.

Definition forgets_not (b : Broker) : Prop := unforgetting (b_filter b).
Definition remembers (b : Broker) : Prop := remembering (b_filter b).

#[export] Instance window_closed :
  Closed (λ b : bool, if b then remembers else forgets_not) (λ _, True) in_window all_changes.
Proof.
  apply closed_both; apply closed_filter.
  - apply CheckAndAdd_unforgetting.
  - apply cleanup_unforgetting.
  - intros. apply CheckAndAdd_remembering.
  - apply cleanup_remembering.
Qed.

(** *** One payment for the event *)

Definition charge (x : signal) : bool :=
  match x with Sends (Spend data) => bool_decide (EventID data = e) | _ => false end.

Local Abbreviation never := (never forgets_not remembers charge).
Local Abbreviation owes := (owes remembers charge).
Local Abbreviation pristine := (pristine forgets_not remembers charge).
Local Abbreviation quiet := (quiet remembers charge).

(** Everything but a worker on the event's packet sends no payment for it. *)
Lemma other_never g :
  match g with
  | Worker _ _ _ _ raw => ∀ data, json_Unmarshal_sensor raw = Some data → EventID data ≠ e
  | _ => True
  end →
  ∀ x, may_send (I := λ b : bool, if b then remembers else forgets_not) (P := λ _, True) g x → charge x = false.
Proof.
  intros Hg x. destruct g as [? ? ? ? raw|? ? ? r| | | | | |], x as [[data|ip payload|ip action m]|r' a]; simpl; try done.
  intros [E _]. apply bool_decide_eq_false. by apply Hg.
Qed.

Section worker_once.
Context (now stored : Z) (ifs : option (list Addr)) (net : nat → attempt) (raw : string).

Lemma verdict_never data m : wf_mission m → never (λ _, True) (verdict_thread ifs net data m).
Proof.
  intros Hm. eapply behaves_sends; [|by apply (verdict_good (P := λ _, True))]. by intros [[]|].
Qed.

(** The worker that is told the event is new owes one payment. *)
Lemma process_new_owes data :
  json_Unmarshal_sensor raw = Some data → EventID data = e → owes (process_new_thread stored ifs net data).
Proof.
  intros E He. pose proof (decoded_wf _ _ E) as Hd. unfold process_new_thread.
  eapply owes_bind; [apply behaves_atomic, cl_tick|]. intros t Ht. eapply (owes_bind _ _ _ _ _ is_uint64).
  { destruct (0 <? InternalClock data); [apply behaves_atomic, cl_sync|done]. }
  intros c Hc. pose proof (newMission_wf data c Hd Hc) as Hm.
  eapply (owes_bind forgets_not _ _ _ _ (λ _, True)); [apply behaves_atomic; by intros [|] b Hb|].
  intros owner _. cbv zeta. destruct (negb _ && negb _).
  - eapply (never_owes forgets_not _ _ _ (λ _, True)). eapply behaves_bind; [by apply behaves_atomic, cl_store|].
    intros _ _. by apply behaves_emit.
  - cbn [emit mbind routine_mbind routine_bind]. simpl.
    rewrite bool_decide_eq_true_2 by done. by eapply never_quiet, verdict_never.
Qed.

Lemma process_pristine : in_window now → pristine (process_thread now stored ifs net raw).
Proof.
  intros Hn. destruct (json_Unmarshal_sensor raw) as [data|] eqn:E.
  2: { unfold process_thread. by rewrite E. }
  destruct (decide (EventID data = e)) as [He|He].
  2: { eapply never_pristine, behaves_sends;
         [|by apply (process_good (P := λ _, True) (T := in_window) (R := all_changes))].
       apply (other_never (Worker now stored ifs net raw)). intros data' E'. by simplify_eq. }
  unfold process_thread. rewrite E. destruct (negb (wellformed data)); [done|]. rewrite He. split.
  - exists (λ new, new = false). split; [|by intros ? ->].
    intros []. apply (ensures_zoom _ _ _ remembering); [apply CheckAndAdd_again|done|done].
  - intros b Hb. split.
    { exact (proj1 (cl_check (Closed := window_closed) now e Hn false b Hb)). }
    intros new. unfold on_filter, zoom. pose proof (CheckAndAdd_first now (b_filter b) new Hn Hb) as K.
    destruct (CheckAndAdd now e (b_filter b)) as [o f]. simpl in *. intros ->. specialize (K eq_refl).
    destruct new; [right|by left]. split; [done|]. by apply process_new_owes.
Qed.
End worker_once.

Lemma launch_pristine g :
  brings (P := λ _, True) (T := in_window) (R := all_changes) g →
  every pristine (launch g).
Proof.
  intros Hg. destruct g as [now stored ifs net raw|now reason net r|now order|now order|now order|c|answer|ifs order].
  1: { split; [by apply process_pristine|done]. }
  all: match goal with |- every _ (launch ?g) => pose proof (other_never g I) as Hs end;
    destruct (task_sends _ _ _ _ Hs (launch_behaves (P := λ _, True) _ Hg)) as [H1 H2];
    split; [by eapply never_pristine|]; intros t Ht; by eapply never_pristine, H2.
Qed.
End window.

(** C9: whatever reaches a broker, packets and request bodies of any bytes, in
    any interleaving of the sections of its workers, handlers and loops, and
    whoever panics, it holds between them only well-typed missions (UTF-8
    strings, integers in range) in a heap and a clock in [uint64], and what it
    sends reads back as it was meant: the synchronizations decode to the
    mission charged, a forwarded packet decodes, and the body of a mission
    handed out is the text of a well-typed one.  Nothing but an identifier
    shorter than eight bytes makes it panic: while none comes in, it does not
    die and leaves no request without an answer. *)
Theorem broker_well_typed (moments : list moment) :
  let '(r, p) := go_map broker_moment moments (mkPool initial_broker []) in
  typed_broker (memory p) ∧
  (∀ outs, r = Ret outs → Forall (Forall (good_signal (P := typed_mission))) outs) ∧
  (Forall long_moment moments → ∃ outs, r = Ret outs ∧ ∀ rq, Answers rq None ∉ concat outs).
Proof.
  assert (pool_ok (one typed_broker) (good_signal (P := typed_mission)) () (mkPool initial_broker [])) as Hinit
    by (split; [apply initial_typed|constructor]).
  destruct (ensures_map _ broker_moment (λ _, Forall (good_signal (P := typed_mission))) moments
    (λ x, moment_keeps () x (typed_moment x)) _ Hinit) as [[Hp _] Ho].
  pose proof (broker_runs moments) as Hlong.
  destruct (go_map broker_moment moments _) as [r p]. split; [done|]. split.
  - intros outs Hr. specialize (Ho outs Hr). clear -Ho. by induction Ho; constructor.
  - intros (outs & p' & [= -> _] & Ha)%Hlong. exists outs. split; [done|]. intros rq Hrq.
    rewrite Forall_forall in Ha. by apply (Ha _ Hrq).
Qed.
End live.

(** ** Witnesses *)

(** A sensor's packet arrives, is charged and handed out. *)
Definition sample_packet : string :=
  json_Marshal_sensor (mkSensorData "event-001" "sensor-sec-03" 3 true true 0 "BR" "ab").

Definition paid : nat → attempt :=
  λ _, Resp 200 (encode_object [("result", encode_object [("code", "0"); ("log", encode_string "")])]).

Definition get_pop : http_request := mkRequest MGet "/queue/pop" "" "".

Lemma broker_well_typed_witness :
  let moments := [Begin (Worker 0 0 None paid sample_packet); Begin (Handler 1 "" paid get_pop);
    Begin (Aging_worker 5); Turn 0; Turn 1; Turn 0; Turn 0; Turn 2; Turn 0; Turn 0; Turn 0; Turn 0;
    Begin (Handler 2 "" paid get_pop); Turn 3; Turn 3; Turn 3; Turn 3] in
  ∃ outs p, go_map (broker_moment (RG := ToyRing) (TC := JsonTx)) moments (mkPool initial_broker []) = (Ret outs, p) ∧
    typed_broker (memory p) ∧ Forall (Forall (good_signal (P := typed_mission))) outs ∧
    ∀ rq, Answers rq None ∉ concat outs.
Proof.
  intros moments. pose proof (broker_well_typed (RG := ToyRing) (TC := JsonTx) moments) as H.
  assert (∀ r, hq_body r = "" → long_body (hq_body r)) as Hempty.
  { intros r ->. split; [intros a m E|intros a e m E]; vm_compute in E; done. }
  assert (Forall long_moment moments) as Hlong.
  { repeat (apply Forall_cons; split); try exact I; try (by apply Hempty); [|constructor].
    intros d E _. vm_compute in E. injection E as <-. apply Nat.leb_le. by vm_compute. }
  destruct (go_map _ moments _) as [r p]. destruct H as (Hb & Ho & Ha).
  destruct (Ha Hlong) as (outs & -> & Hans). exists outs, p. split; [reflexivity|]. split; [exact Hb|].
  split; [exact (Ho outs eq_refl)|exact Hans].
Defined.
