(* ===== verification/Station.v ===== *)
(** * The station (cmd/station/http_server.go, cmd/station/main.go)

    The C2 server between the drones and the broker: registration, pull,
    renewal, acknowledgement, and the loop that hands missions with a dead
    lease back to the broker.  The broker is behind the network oracle; what
    the station posts to [/queue/resolve] is recorded.  The decoding of a
    [Mission] body is an argument. *)

From S2P Require Import Prelude GoStd GoHeap Model Queue Flow.
From S2P Require Import Radar Buffers HTTPClient Http Router Broker BrokerMissions.
Local Open Scope Z_scope.

Record StationServer : Type := mkStation {
  st_Radar : InFlightManager;
  RegisteredDrones : gmap string Z;
}.

Definition set_st_radar (r : InFlightManager) (s : StationServer) : StationServer :=
  mkStation r (RegisteredDrones s).
Definition on_radar {A} (m : go InFlightManager A) : go StationServer A :=
  zoom st_Radar set_st_radar m.

(** The constructor; [main] hands it a radar over a queue of its own. *)
Definition NewStationServer (flightRadar : InFlightManager) : StationServer := mkStation flightRadar ∅.
Definition initial_station : StationServer := NewStationServer (NewInFlightManager (New 10)).

Definition getEnv (env : gmap string string) (key fallback : string) : string :=
  match LookupEnv env key with Some val => val | None => fallback end.

(** The port and the broker's URL. *)
Definition station_config (env : gmap string string) : string * string :=
  (getEnv env "PORT" "8081", getEnv env "BROKER_URL" "http://tasks.broker:8080").

(** The lease of a pulled or renewed mission. *)
Definition lease : Z := 10 * second.

(** A request to the broker's [/queue/resolve]. *)
Record resolve_request : Type := mkResolve { rq_action : string; rq_mission : Mission }.

(** An answer to a drone, and the requests made on the way. *)
Record station_response : Type := mkSResponse {
  sr_status : Z;
  sr_mission : option Mission;
  sr_url : string;
}.

Definition sstatus (code : Z) : station_response := mkSResponse code None "".

(** [body]: the identifier, [None] when the body does not decode. *)
Definition handleRegister (now : Z) (hostname : string) (body : option string) :
    go StationServer station_response :=
  match body with
  | None => mret (sstatus 400)
  | Some droneID =>
    modify (λ s, mkStation (st_Radar s) (<[droneID := now]> (RegisteredDrones s))) ;;
    mret (mkSResponse 200 None ("http://" +:+ hostname +:+ ":8081"))
  end.

Section pull.
Context (decode_mission : string → option Mission).

Definition handleMissionPull (now : Z) (net : nat → attempt) (droneID : string) :
    go StationServer station_response :=
  s ← get;
  match RegisteredDrones s !! droneID with
  | None => mret (sstatus 401)
  | Some _ =>
    match result (GetJSON (NewHTTPClient (2 * second)) decode_mission net) with
    | inr _ => mret (sstatus 204)
    | inl mission =>
      if bool_decide (mission_id mission = "") then mret (sstatus 204)
      else
        on_radar (MarkInFlight now mission lease) ;;
        log_id (mission_id mission) ;;
        mret (mkSResponse 200 (Some mission) "")
    end
  end.
End pull.

Definition handleMissionRenew (now : Z) (eventID : string) : go StationServer station_response :=
  b ← on_radar (RenewLease now eventID lease);
  mret (sstatus (if (b : bool) then 200 else 410)).

(** [model.Mission{Payload: model.SensorData{EventID: e}}]. *)
Definition bare_mission (eventID : string) : Mission :=
  newMission (mkSensorData eventID "" 0 false false 0 "" "") 0.

(** The request goes out, its result dropped, before the log line that may
    panic and lose the answer. *)
Definition handleMissionAck (eventID : string) :
    go StationServer (list resolve_request * option station_response) :=
  on_radar (Acknowledge eventID) ;;
  answer ← serve (log_id eventID ;; mret (sstatus 200));
  mret ([mkResolve "SUCCESS" (bare_mission eventID)], answer).

(** One tick of the fallback loop. *)
Definition fallback_tick : go StationServer (list resolve_request) :=
  '(mission, found) ← on_radar (zoom pq set_pq Dequeue);
  if (found : bool) then
    log_id (mission_id mission) ;;
    mret [mkResolve "REQUEUE" mission]
  else mret [].

(** ** Lemmas *)

Lemma on_radar_run {A} (m : go InFlightManager A) s a r :
  m (st_Radar s) = (Ret a, r) → on_radar m s = (Ret a, set_st_radar r s).
Proof. intros E. unfold on_radar, zoom. by rewrite E. Qed.

(** The loop empties the queue, in order. *)
Lemma fallback_drains n s :
  pq_ok (pq (st_Radar s)) → length (mh (pq (st_Radar s))) = n →
  (∀ m, m ∈ mh (pq (st_Radar s)) → (8 ≤ String.length (mission_id m))%nat) →
  ∃ reqs s' ms, go_map (λ _ : (), fallback_tick) (replicate n ()) s = (Ret reqs, s') ∧
    concat reqs = mkResolve "REQUEUE" <$> ms ∧ ms ≡ₚ mh (pq (st_Radar s)) ∧
    mh (pq (st_Radar s')) = [] ∧ records (st_Radar s') = records (st_Radar s).
Proof.
  revert s. induction n as [|n IH]; intros s Hq Hn Hl.
  { apply nil_length_inv in Hn. exists [], s, []. by rewrite Hn. }
  destruct (Dequeue_ok (pq (st_Radar s)) Hq) as (m & q & E & Hok & Hp & _);
    [by intros En; rewrite En in Hn|].
  assert (on_radar (zoom pq set_pq Dequeue) s = (Ret (m, true), set_st_radar (set_pq q (st_Radar s)) s)) as E1.
  { apply on_radar_run. unfold zoom. by rewrite E. }
  assert (fallback_tick s = (Ret [mkResolve "REQUEUE" m], set_st_radar (set_pq q (st_Radar s)) s)) as E2.
  { unfold fallback_tick. rewrite (go_bind_run _ _ _ _ _ E1).
    assert (log_id (mission_id m) (set_st_radar (set_pq q (st_Radar s)) s) =
      (Ret (), set_st_radar (set_pq q (st_Radar s)) s)) as E3.
    { apply log_id_long, Hl. rewrite Hp. by left. }
    by rewrite (go_bind_run _ _ _ _ _ E3). }
  destruct (IH (set_st_radar (set_pq q (st_Radar s)) s)) as (reqs & s' & ms & E3 & Hr & Hms & He & Hrec).
  { done. }
  { simpl. apply Permutation_length in Hp. simpl in Hp. lia. }
  { intros m' Hm'. apply Hl. rewrite Hp. by right. }
  exists ([mkResolve "REQUEUE" m] :: reqs), s', (m :: ms). split_and!; [|by simpl; rewrite Hr|by rewrite Hms, Hp|done|done].
  simpl. by apply (go_map_cons (λ _ : (), fallback_tick) () (replicate n ()) _ _ _ _ _ E2).
Qed.

(** ** The properties *)

(** The station hands over missions only to drones it knows: an unknown
    drone gets 401 and the broker is not asked; a pull that yields a mission
    puts it under a lease of ten seconds before the answer leaves; an empty
    or failed answer of the broker changes nothing. *)
Lemma pull_leases decode now net droneID s :
  (RegisteredDrones s !! droneID = None →
     handleMissionPull decode now net droneID s = (Ret (sstatus 401), s)) ∧
  (∀ m, is_Some (RegisteredDrones s !! droneID) →
     result (GetJSON (NewHTTPClient (2 * second)) decode net) = inl m →
     (8 ≤ String.length (mission_id m))%nat →
     ∃ s', handleMissionPull decode now net droneID s = (Ret (mkSResponse 200 (Some m) ""), s') ∧
       (∀ now', go_val (handleMissionRenew now' (mission_id m)) s' =
          Ret (sstatus (if now' <=? now + lease then 200 else 410)))) ∧
  (∀ e, result (GetJSON (NewHTTPClient (2 * second)) decode net) = inr e →
     go_run (handleMissionPull decode now net droneID) s = s).
Proof.
  split_and!.
  - intros Hn. unfold handleMissionPull, mbind, go_mbind, get. by rewrite Hn.
  - intros m [t Ht] Hres Hl.
    exists (set_st_radar (set_records (<[mission_id m := mkRecord m (now + lease)]>
      (records (st_Radar s))) (st_Radar s)) s). split.
    + unfold handleMissionPull, mbind, go_mbind, get. rewrite Ht, Hres.
      rewrite bool_decide_eq_false_2 by (intros E; rewrite E in Hl; simpl in Hl; lia).
      unfold on_radar, zoom. rewrite MarkInFlight_eq. by rewrite log_id_long.
    + intros now'. unfold go_val, handleMissionRenew, mbind, go_mbind, on_radar, zoom.
      rewrite RenewLease_eq. simpl. rewrite lookup_insert_eq. simpl. unfold after.
      destruct (Z.ltb_spec (now + lease) now'), (Z.leb_spec now' (now + lease)); done || lia.
  - intros e Hres. unfold go_run, handleMissionPull, mbind, go_mbind, get.
    destruct (RegisteredDrones s !! droneID); [|done]. by rewrite Hres.
Qed.

(** C18: a lost drone costs its mission only time: once its lease has run out, a
    sweep of the radar followed by as many ticks of the fallback loop as the
    station's queue is long posts exactly the missions with dead leases back
    to the broker as REQUEUE, unchanged, and the broker, if the mission is
    still pending there, puts it back into its queue. *)
Theorem lost_drone_recovered {RG : Ring} now order s m b :
  keyed (records (st_Radar s)) → mh (pq (st_Radar s)) = [] → pq_ok (pq (st_Radar s)) →
  (∀ e, is_Some (records (st_Radar s) !! e) → (8 ≤ String.length e)%nat ∧ e ∈ order) →
  expired now (records (st_Radar s)) m →
  pq_ok (b_queue b) → is_Some (b_pending b !! mission_id m) →
  ∃ s1 n reqs s2 b',
    on_radar (sweep now order) s = (Ret (), s1) ∧
    go_map (λ _ : (), fallback_tick) (replicate n ()) s1 = (Ret reqs, s2) ∧
    mh (pq (st_Radar s2)) = [] ∧
    (∀ x, mkResolve "REQUEUE" x ∈ concat reqs ↔ expired now (records (st_Radar s)) x) ∧
    HandleQueueResolve MPost (Some ("REQUEUE", m)) b = (Ret (status 200), b') ∧
    mh (b_queue b') ≡ₚ m :: mh (b_queue b) ∧ b_pending b' !! mission_id m = None.
Proof.
  intros Hk Hempty Hq Hall Hexp Hbq [x Hpend].
  assert (∃ r1 l, sweep now order (st_Radar s) = (Ret (), r1) ∧ pq_ok (pq r1) ∧
    mh (pq r1) ≡ₚ l ∧ (∀ y, y ∈ l ↔ expired now (records (st_Radar s)) y)) as (r1 & l & Es & Hq1 & Hp1 & Hl1).
  { destruct (sweep_spec now order (st_Radar s) Hk Hq) as (r1 & l & Es & Hq1 & Hp1 & Hl & _);
      [by intros e He; apply Hall|by intros e He; apply Hall|].
    exists r1, l. split_and!; [done|done|by rewrite Hp1, Hempty, app_nil_r|done]. }
  assert (∀ y, y ∈ mh (pq r1) → (8 ≤ String.length (mission_id y))%nat) as Hlong.
  { intros y Hy. rewrite Hp1 in Hy. apply Hl1 in Hy as (z & Hz & _). apply Hall. by rewrite Hz. }
  destruct (fallback_drains (length (mh (pq r1))) (set_st_radar r1 s)) as (reqs & s2 & ms & Ef & Hr & Hms & He & _);
    [done|done|done|].
  assert (8 ≤ String.length (mission_id m))%nat as Hml.
  { destruct Hexp as (z & Hz & _). apply Hall. by rewrite Hz. }
  pose proof (resolve_take_eq (mission_id m) b) as Er. rewrite Hpend in Er.
  destruct (enqueue_ok (set_pending (delete (mission_id m) (b_pending b)) b) m Hbq) as (q & Eq & _ & Hpq).
  exists (set_st_radar r1 s), (length (mh (pq r1))), reqs, s2,
    (set_queue q (set_pending (delete (mission_id m) (b_pending b)) b)).
  split_and!; [by apply on_radar_run|done|done| | |done|by apply lookup_delete_eq].
  - intros y. rewrite Hr, list_elem_of_fmap, <- Hl1, <- Hp1. simpl in Hms. rewrite <- Hms. split.
    + by intros (z & [= <-] & Hz).
    + intros Hy. by exists y.
  - unfold HandleQueueResolve. rewrite (go_bind_run _ _ _ _ _ Er). cbn [negb].
    rewrite bool_decide_eq_true_2 by done. unfold mbind, go_mbind. rewrite Eq.
    by rewrite log_id_long.
Qed.

(** A checkout is resolved once: after the broker has processed a
    resolution of an event, every further one for it, whatever its action and
    whatever mission it carries, is answered 200 and changes nothing until
    the event is checked out again, so a completion and a hand-back that
    cross cannot both take effect. *)
Lemma resolved_once {RG : Ring} action1 action2 m1 m2 b :
  pq_ok (b_queue b) → mission_id m2 = mission_id m1 → (8 ≤ String.length (mission_id m1))%nat →
  ∃ b1, HandleQueueResolve MPost (Some (action1, m1)) b = (Ret (status 200), b1) ∧
    HandleQueueResolve MPost (Some (action2, m2)) b1 = (Ret (status 200), b1).
Proof.
  intros Hq Hid Hl.
  assert (∀ (b : Broker) a m, mission_id m = mission_id m1 → b_pending b !! mission_id m1 = None →
    HandleQueueResolve MPost (Some (a, m)) b = (Ret (status 200), b)) as Hnone.
  { intros b' a m Hm Hn. unfold HandleQueueResolve. pose proof (resolve_take_eq (mission_id m) b') as Er.
    rewrite Hm, Hn in Er. rewrite Hm, (go_bind_run _ _ _ _ _ Er). cbn [negb].
    unfold mbind, go_mbind. by rewrite log_id_long. }
  destruct (b_pending b !! mission_id m1) as [x|] eqn:E.
  2: { exists b. split; by apply Hnone. }
  pose proof (resolve_take_eq (mission_id m1) b) as Er. rewrite E in Er.
  set (b0 := set_pending (delete (mission_id m1) (b_pending b)) b) in *.
  assert (b_pending b0 !! mission_id m1 = None) as Hb0 by apply lookup_delete_eq.
  assert (∃ b1, HandleQueueResolve MPost (Some (action1, m1)) b = (Ret (status 200), b1) ∧
    b_pending b1 = b_pending b0) as (b1 & E1 & Hp1).
  { unfold HandleQueueResolve. rewrite (go_bind_run _ _ _ _ _ Er). cbn [negb].
    unfold mbind, go_mbind. case_bool_decide.
    - destruct (enqueue_ok b0 m1 Hq) as (q & Eq & _ & _). rewrite Eq, log_id_long by done.
      by eexists.
    - case_bool_decide; [rewrite log_id_long by done|]; by eexists. }
  exists b1. split; [done|]. apply Hnone; [done|]. by rewrite Hp1.
Qed.

(** ** Witnesses *)

Definition flying : Mission := sample "event-001" false 3.

Lemma pull_leases_witness :
  let s := mkStation (NewInFlightManager (New 10)) {[ "UAV-1" := 0 ]} in
  let net := λ _, Resp 200 "mission" in
  let decode := λ _, Some flying in
  ∃ s', handleMissionPull decode 0 net "UAV-1" s = (Ret (mkSResponse 200 (Some flying) ""), s') ∧
    ∀ now', go_val (handleMissionRenew now' "event-001") s' =
      Ret (sstatus (if now' <=? 0 + lease then 200 else 410)).
Proof.
  intros s net decode. destruct (pull_leases decode 0 net "UAV-1" s) as (_ & H & _).
  apply (H flying).
  - by eexists.
  - done.
  - simpl. lia.
Defined.

Lemma lost_drone_recovered_witness :
  let s := mkStation (set_records {[ "event-001" := mkRecord flying 10 ]} (NewInFlightManager (New 10))) ∅ in
  let b := set_pending {[ "event-001" := mkPending flying 0 ]} (initial_broker (RG := ToyRing)) in
  ∃ s1 n reqs s2 b',
    on_radar (sweep 11 ["event-001"]) s = (Ret (), s1) ∧
    go_map (λ _ : (), fallback_tick) (replicate n ()) s1 = (Ret reqs, s2) ∧
    mkResolve "REQUEUE" flying ∈ concat reqs ∧
    HandleQueueResolve MPost (Some ("REQUEUE", flying)) b = (Ret (status 200), b') ∧
    mh (b_queue b') ≡ₚ [flying].
Proof.
  intros s b.
  assert (∀ e x, records (st_Radar s) !! e = Some x → e = "event-001" ∧ x = mkRecord flying 10) as Hs.
  { intros e x. simpl. rewrite lookup_singleton. case_decide; [by intros [= <-]|done]. }
  destruct (lost_drone_recovered 11 ["event-001"] s flying b)
    as (s1 & n & reqs & s2 & b' & E1 & E2 & _ & Hin & E3 & Hp & _).
  - by intros e x [-> ->]%Hs.
  - done.
  - apply New_ok.
  - intros e [x [-> _]%Hs]. split; [simpl; lia|by left].
  - by exists (mkRecord flying 10).
  - apply New_ok.
  - by exists (mkPending flying 0).
  - exists s1, n, reqs, s2, b'. split_and!; [exact E1|exact E2| |exact E3|exact Hp].
    apply Hin. by exists (mkRecord flying 10).
Defined.

Lemma resolved_once_witness :
  let b := set_pending {[ "event-001" := mkPending flying 0 ]} (initial_broker (RG := ToyRing)) in
  ∃ b1, HandleQueueResolve MPost (Some ("SUCCESS", flying)) b = (Ret (status 200), b1) ∧
    HandleQueueResolve MPost (Some ("REQUEUE", flying)) b1 = (Ret (status 200), b1).
Proof.
  intros b. apply (resolved_once "SUCCESS" "REQUEUE" flying flying b).
  - apply New_ok.
  - done.
  - simpl. lia.
Defined.
