(* ===== verification/StationHTTP.v ===== *)
(** * The station's HTTP server on bytes (cmd/station/http_server.go)

    The handlers of Station.v behind [SetupRouter]: identifiers come from the
    query string or from JSON bodies, missions leave as JSON, and the requests
    the station posts to the broker's [/queue/resolve] are bytes.  No handler
    looks at the method. *)

From S2P Require Import Prelude GoStd GoHeap Model Interfaces Queue Flow Json JsonProps JsonDecoded Rfc3339 Wire.
From S2P Require Import Radar Buffers HTTPClient Http Router Broker BrokerMissions Station.
Local Open Scope Z_scope.

Section http.
Context {TT : TimeText}.

(** The requests made on the way, and the answer: [None] when the handler
    panicked. *)
Definition station_answer : Type := list resolve_request * option http_response.

(** A handler that posts nothing. *)
Definition quiet (h : go StationServer http_response) : go StationServer station_answer :=
  a ← serve h; mret ([], a).

Definition http_register (now : Z) (hostname : string) (r : http_request) :
    go StationServer http_response :=
  rs ← handleRegister now hostname (decode_register (hq_body r));
  mret (if sr_status rs =? 400 then http_Error "Bad request" 400
        else mkHttp (sr_status rs) (json_line (encode_direct (sr_url rs)))).

Definition http_pull (now : Z) (net : nat → attempt) (r : http_request) :
    go StationServer http_response :=
  let droneID := Query_Get "drone_id" (hq_query r) in
  rs ← handleMissionPull decode_mission now net droneID;
  mret (if sr_status rs =? 401 then http_Error "Drone não registado" 401
        else match sr_mission rs with
             | Some m => mkHttp (sr_status rs) (json_line (json_Marshal_mission m))
             | None => WriteHeader (sr_status rs)
             end).

Definition http_renew (now : Z) (r : http_request) : go StationServer http_response :=
  rs ← handleMissionRenew now (Query_Get "event_id" (hq_query r)); mret (WriteHeader (sr_status rs)).

Definition http_ack (r : http_request) : go StationServer station_answer :=
  let '(eventID, _) := decode_ack (hq_body r) in
  '(posts, a) ← handleMissionAck eventID;
  mret (posts, (λ rs, WriteHeader (sr_status rs)) <$> a).

Definition station_routes (now : Z) (hostname : string) (net : nat → attempt) :
    list (string * (http_request → go StationServer station_answer)) :=
  [("/health", λ _, quiet (mret (WriteHeader 200)));
   ("/api/drone/register", λ r, quiet (http_register now hostname r));
   ("/api/mission/pull", λ r, quiet (http_pull now net r));
   ("/api/mission/renew", λ r, quiet (http_renew now r));
   ("/api/mission/ack", http_ack)].

Definition station_serve (now : Z) (hostname : string) (net : nat → attempt) (r : http_request) :
    go StationServer station_answer :=
  ServeMux ([], Some NotFound) (station_routes now hostname net) r.

(** The request a post becomes. *)
Definition resolve_post (q : resolve_request) : http_request :=
  mkRequest MPost "/queue/resolve" "" (encode_resolve (rq_action q) (rq_mission q)).

(** The request a URL with one value in its query becomes, if it is built and
    understood. *)
Definition ask (path name value : string) : option http_request :=
  match send_query (name +:+ String "=" value) with
  | Asked q => Some (mkRequest MGet path q "")
  | _ => None
  end.

(** ** Lemmas *)

Lemma ask_safe path name value :
  safe_text name = true → contains_byte "=" name = false → name ≠ "" → safe_text value = true →
  ∃ q, ask path name value = Some (mkRequest MGet path q "") ∧ Query_Get name q = value.
Proof.
  intros H1 H2 H3 Hv. apply (received_exact name H1 H2 H3) in Hv. unfold received, ask in *.
  destruct (send_query _) as [| |q]; [done|done|]. exists q. split; [done|]. by injection Hv.
Qed.

Lemma serve_run {S A} (h : go S A) s a s' : h s = (Ret a, s') → serve h s = (Ret (Some a), s').
Proof. intros E. unfold serve. by rewrite E. Qed.

Lemma quiet_run h s a s' : h s = (Ret a, s') → quiet h s = (Ret ([], Some a), s').
Proof. intros E. unfold quiet. by rewrite (go_bind_run _ _ _ _ _ (serve_run _ _ _ _ E)). Qed.

(** pkg/server/api_types.go means one [ActionRequest] for acknowledgement,
    refusal and renewal.  The station reads it at one address only, as an
    acknowledgement whatever its reason, so a refusal completes the mission at
    the broker; a renewal by body is answered 410 and leaves the lease. *)
Lemma action_request_read now hostname net a s :
  valid_utf8 (ar_EventID a) = true → valid_utf8 (ar_DroneID a) = true → valid_utf8 (ar_Reason a) = true →
  is_Some (slice_to (ar_EventID a) 8) → records (st_Radar s) !! "" = None →
  let sent path := mkRequest MPost path "" (encode_ActionRequest a) in
  station_serve now hostname net (sent "/api/mission/renew") s = (Ret ([], Some (WriteHeader 410)), s) ∧
  ∃ s', station_serve now hostname net (sent "/api/mission/ack") s =
      (Ret ([mkResolve "SUCCESS" (bare_mission (ar_EventID a))], Some (WriteHeader 200)), s') ∧
    records (st_Radar s') !! ar_EventID a = None.
Proof.
  intros He Hd Hw [x Hx] Hno sent. unfold sent, station_serve, station_routes. split.
  - cbn [ServeMux hq_path].
    rewrite (bool_decide_eq_false_2 ("/health" = _)), (bool_decide_eq_false_2 ("/api/drone/register" = _)),
      (bool_decide_eq_false_2 ("/api/mission/pull" = _)), (bool_decide_eq_true_2 ("/api/mission/renew" = _)) by done.
    apply quiet_run. unfold http_renew, handleMissionRenew. change (Query_Get "event_id" _) with "".
    unfold on_radar. go_unfold. rewrite RenewLease_eq, Hno. by destruct s.
  - cbn [ServeMux hq_path].
    rewrite (bool_decide_eq_false_2 ("/health" = _)), (bool_decide_eq_false_2 ("/api/drone/register" = _)),
      (bool_decide_eq_false_2 ("/api/mission/pull" = _)), (bool_decide_eq_false_2 ("/api/mission/renew" = _)),
      (bool_decide_eq_true_2 ("/api/mission/ack" = _)) by done.
    unfold http_ack. cbn [hq_body]. rewrite <- (str_app_nil_r (encode_ActionRequest a)), action_contract by done.
    unfold handleMissionAck, on_radar, serve, log_id. go_unfold. rewrite Acknowledge_eq.
    destruct (records (st_Radar s) !! ar_EventID a) eqn:Er; cbn; rewrite Hx; (eexists; split; [reflexivity|]); simpl;
      [apply lookup_delete_eq|done].
Qed.

(** C39: a drone that registered is known to the pull handler exactly when no byte
    of its identifier means something in a query: one with an ampersand, a
    number sign, a semicolon, a percent or plus sign, a space or a control
    byte registers, and then every pull that is built and understood is
    refused with 401. *)
Theorem pull_needs_safe_id (since now : Z) (hostname droneID : string) (net : nat → attempt) :
  let s := go_run (handleRegister since hostname (Some droneID)) initial_station in
  RegisteredDrones s !! droneID = Some since ∧
  (safe_text droneID = true ↔
     ∃ r, ask "/api/mission/pull" "drone_id" droneID = Some r ∧
       RegisteredDrones s !! Query_Get "drone_id" (hq_query r) = Some since) ∧
  (∀ r, safe_text droneID = false → ask "/api/mission/pull" "drone_id" droneID = Some r →
     station_serve now hostname net r s =
       (Ret ([], Some (http_Error "Drone não registado" 401)), s)).
Proof.
  intros s. unfold s, go_run, handleRegister. go_unfold. simpl.
  assert (∀ x, (<[droneID := since]> (∅ : gmap string Z)) !! x = Some since ↔ x = droneID) as Hl.
  { intros x. rewrite lookup_insert. case_decide; [by subst|]. rewrite lookup_empty. by split. }
  assert (safe_text "drone_id" = true ∧ contains_byte "=" "drone_id" = false) as [Hs He] by done.
  pose proof (received_exact "drone_id" Hs He ltac:(done) droneID) as Hex.
  unfold received in Hex. unfold ask.
  split_and!.
  - by apply Hl.
  - rewrite <- Hex. destruct (send_query _) as [| |q].
    + split; [done|]. by intros (? & [=] & _).
    + split; [done|]. by intros (? & [=] & _).
    + split.
      * intros [= E]. eexists. split; [done|]. by apply Hl.
      * intros (r & [= <-] & Hr). simpl in Hr. apply Hl in Hr. by f_equal.
  - intros r Hu. destruct (send_query _) as [| |q]; [done|done|]. intros [= <-].
    assert (Query_Get "drone_id" q ≠ droneID) as Hne.
    { intros E. rewrite E in Hex. by rewrite (proj1 Hex eq_refl) in Hu. }
    unfold station_serve, station_routes. cbn [ServeMux hq_path].
    rewrite (bool_decide_eq_false_2 ("/health" = _)) by done.
    rewrite (bool_decide_eq_false_2 ("/api/drone/register" = _)) by done.
    rewrite (bool_decide_eq_true_2 ("/api/mission/pull" = _)) by done.
    apply quiet_run. unfold http_pull, handleMissionPull. go_unfold. simpl.
    rewrite lookup_insert_ne by done. by rewrite lookup_empty.
Qed.

End http.

Lemma pull_needs_safe_id_witness :
  let s := go_run (handleRegister 0 "c2" (Some "UAV+1")) initial_station in
  ∃ r, ask "/api/mission/pull" "drone_id" "UAV+1" = Some r ∧
    station_serve 1 "c2" (λ _, ConnErr) r s = (Ret ([], Some (http_Error "Drone não registado" 401)), s).
Proof.
  intros s. destruct (pull_needs_safe_id 0 1 "c2" "UAV+1" (λ _, ConnErr)) as (_ & _ & H).
  eexists. split; [by vm_compute|]. refine (H _ _ _); by vm_compute.
Defined.
