(* ===== verification/StationThreads.v ===== *)
(** * The station process, goroutine by goroutine (cmd/station)

    The handlers, the radar's janitor, the fallback loop and the queue's aging
    worker as goroutines of Threads.v: a step is one section under a lock or
    one post to the broker.  Alone, they are the functions of Station.v and
    StationHTTP.v ([pull_alone] and the like). *)

From S2P Require Import Prelude Threads Credits GoStd GoHeap Model Interfaces Queue Flow Json JsonProps JsonDecoded Rfc3339 Wire.
From S2P Require Import Radar Buffers HTTPClient Http Router Broker Station StationHTTP.
Local Open Scope Z_scope.

(** What leaves the process: requests to the broker's [/queue/resolve], and
    answers, [None] after a panic. *)
Inductive station_signal : Type :=
| Posts (q : resolve_request)
| Replies (r : http_request) (a : option http_response).

Section threads.
Context {TT : TimeText} {TL : TimeTextLaws}.

(** ** Handlers *)

Definition pull_thread (now : Z) (net : nat → attempt) (r : http_request) :
    routine StationServer station_signal http_response :=
  let droneID := Query_Get "drone_id" (hq_query r) in
  isRegistered ← atomic (s ← get; mret (RegisteredDrones s !! droneID));
  match isRegistered with
  | None => mret (http_Error "Drone não registado" 401)
  | Some _ =>
    match result (GetJSON (NewHTTPClient (2 * second)) decode_mission net) with
    | inr _ => mret (WriteHeader 204)
    | inl mission =>
      if bool_decide (mission_id mission = "") then mret (WriteHeader 204)
      else
        atomic (on_radar (MarkInFlight now mission lease)) ;;
        atomic (log_id (mission_id mission)) ;;
        mret (mkHttp 200 (json_line (json_Marshal_mission mission)))
    end
  end.

Definition ack_thread (r : http_request) : routine StationServer station_signal http_response :=
  let '(eventID, _) := decode_ack (hq_body r) in
  atomic (on_radar (Acknowledge eventID)) ;;
  emit (Posts (mkResolve "SUCCESS" (bare_mission eventID))) ;;
  atomic (log_id eventID) ;;
  mret (WriteHeader 200).

(** The other handlers are one section. *)
Definition station_threads (now : Z) (hostname : string) (net : nat → attempt) :
    list (string * (http_request → routine StationServer station_signal http_response)) :=
  [("/health", λ _, mret (WriteHeader 200));
   ("/api/drone/register", λ r, atomic (http_register now hostname r));
   ("/api/mission/pull", pull_thread now net);
   ("/api/mission/renew", λ r, atomic (http_renew now r));
   ("/api/mission/ack", ack_thread)].

Definition station_request_thread (now : Z) (hostname : string) (net : nat → attempt)
    (r : http_request) : routine StationServer station_signal () :=
  a ← ServeMux NotFound (station_threads now hostname net) r; emit (Replies r (Some a)).

(** ** Loops *)

Definition give_thread (miss : Mission) : routine StationServer station_signal () :=
  atomic (log_id (mission_id miss)) ;; atomic (on_radar (requeue miss)).
Definition sweep_thread (now : Z) (order : list string) : routine StationServer station_signal () :=
  expired ← atomic (on_radar (sweep_collect now order));
  routine_for give_thread expired.

Definition fallback_thread : routine StationServer station_signal () :=
  '(mission, found) ← atomic (on_radar (zoom pq set_pq Dequeue));
  if (found : bool) then
    atomic (log_id (mission_id mission)) ;;
    emit (Posts (mkResolve "REQUEUE" mission))
  else mret ().

Definition aging_thread (currentClock : Z) : routine StationServer station_signal () :=
  atomic (on_radar (zoom pq set_pq (antiStarvationRound currentClock))).

(** ** The goroutines of a station *)

Inductive station_goroutine : Type :=
| Serves (now : Z) (hostname : string) (net : nat → attempt) (r : http_request)
| Sweeps (now : Z) (order : list string)
| Falls_back
| Ages (currentClock : Z).

Definition station_launch (g : station_goroutine) : task StationServer station_signal :=
  match g with
  | Serves now hostname net r =>
    mkTask (station_request_thread now hostname net r) (Some (emit (Replies r None)))
  | Sweeps now order => mkTask (sweep_thread now order) None
  | Falls_back => mkTask fallback_thread None
  | Ages currentClock => mkTask (aging_thread currentClock) None
  end.

Inductive station_moment : Type :=
| Launch (g : station_goroutine)
| Go_on (i : nat).

Definition station_moment_op (x : station_moment) : pool_op StationServer station_signal :=
  match x with Launch g => Spawn (station_launch g) | Go_on i => Run i end.

Definition station_boot : Pool StationServer station_signal := mkPool initial_station [].

(** ** Alone, they are the functions of Station.v and StationHTTP.v *)

Lemma pull_alone now net r : silent (pull_thread now net r) (http_pull now net r).
Proof.
  unfold pull_thread, http_pull, handleMissionPull. intros s. cbn [mbind routine_mbind routine_bind run atomic].
  go_unfold. destruct (RegisteredDrones s !! _); [|done].
  destruct (result _) as [mission|]; [|done]. case_bool_decide; [done|].
  cbn [mbind routine_mbind routine_bind run atomic]. go_unfold. unfold on_radar, zoom. rewrite MarkInFlight_eq.
  go_unfold. unfold log_id. go_unfold. by destruct (slice_to _ 8).
Qed.

(** Where the handler answers; where it panics, it has posted already. *)
Lemma ack_alone r s posts a s' :
  http_ack r s = (Ret (posts, Some a), s') → run (ack_thread r) s = (Ret (Posts <$> posts, a), s').
Proof.
  unfold http_ack, ack_thread, handleMissionAck. destruct (decode_ack (hq_body r)) as [e d].
  unfold serve, on_radar, zoom, log_id. go_unfold. rewrite Acknowledge_eq.
  cbn [mbind routine_mbind routine_bind run atomic emit]. go_unfold. unfold on_radar, zoom. rewrite Acknowledge_eq.
  destruct (records _ !! e); (cbn [run mret routine_mret]; go_unfold; unfold log_id; go_unfold;
    destruct (slice_to e 8); simpl; by intros [= <- <- <-]).
Qed.

Lemma give_alone m : silent (give_thread m) (on_radar (give_expired m)).
Proof.
  intros s. unfold give_thread, atomic. cbn [mbind routine_mbind routine_bind run].
  unfold on_radar, zoom, give_expired, log_id. go_unfold.
  destruct (slice_to (mission_id m) 8); [|by destruct s]. by destruct (requeue m (st_Radar s)) as [[]].
Qed.

Lemma sweep_alone now order : silent (sweep_thread now order) (on_radar (sweep now order)).
Proof.
  intros s. unfold sweep_thread, sweep. rewrite run_bind. unfold atomic. cbn [run].
  pose proof (silent_zoom st_Radar set_st_radar give_thread give_expired) as Hloop.
  unfold on_radar, zoom in *. go_unfold. rewrite sweep_collect_eq. cbn [run mret routine_mret]. go_unfold.
  rewrite Hloop; [|by intros []|done|done|exact give_alone]. go_unfold. cbn [st_Radar set_st_radar].
  by destruct (go_for _ _ _) as [[]].
Qed.

Lemma fallback_alone : alone fallback_thread fallback_tick (λ reqs, (Posts <$> reqs, ())).
Proof.
  intros s. unfold fallback_thread, fallback_tick, atomic. cbn [mbind routine_mbind routine_bind run].
  go_unfold. destruct (on_radar _ s) as [[[m found]|p] s1]; [|done]. destruct found; [|done].
  cbn [mbind routine_mbind routine_bind run emit]. go_unfold. unfold log_id. go_unfold. by destruct (slice_to _ 8).
Qed.
End threads.

(** ** What a section does to what the station holds

    [good]: what the station knows of its missions. *)

(** How often an identifier is in a list. *)
Definition times (e : string) (l : list string) : nat := length (filter (λ x, x = e) l).

#[global] Instance times_perm e : Proper ((≡ₚ) ==> (=)) (times e).
Proof. intros l l' H. unfold times. by rewrite H. Qed.

Lemma times_cons e x l : times e (x :: l) = ((if decide (x = e) then 1 else 0) + times e l)%nat.
Proof. unfold times. rewrite filter_cons. by case_decide. Qed.

Lemma times_app e l l' : times e (l ++ l') = (times e l + times e l')%nat.
Proof. unfold times. by rewrite filter_app, length_app. Qed.

(** The identifiers under a lease or in the queue. *)
Definition held_ids (s : StationServer) : list string :=
  keys (records (st_Radar s)) ++ (mission_id <$> mh (pq (st_Radar s))).

Section station.
Context {TT : TimeText} {TL : TimeTextLaws}.
Context (good : Mission → Prop) (good_long : ∀ m, good m → (8 ≤ String.length (mission_id m))%nat).
Context (good_critical : ∀ m, good m → good (set_critical m)).

Record station_ok (s : StationServer) : Prop := mkStationOk {
  so_keyed : keyed (records (st_Radar s));
  so_heap : pq_ok (pq (st_Radar s));
  so_records : map_Forall (λ _ x, good (rec_Mission x)) (records (st_Radar s));
  so_queue : Forall good (mh (pq (st_Radar s)));
}.

Context (e : string).
Local Abbreviation waiting s := (times e (held_ids s)).
Local Abbreviation one e' := (if decide (e' = e) then 1%nat else 0%nat).

(** From a good state the section returns, to a good state; [d] credits enter
    the memory at most, or [u] leave it. *)
Definition sound {A} (m : go StationServer A) (Q : StationServer → A → StationServer → Prop) : Prop :=
  ∀ s, station_ok s → ∃ a s', m s = (Ret a, s') ∧ station_ok s' ∧ Q s a s'.

Lemma mark_sound now mission :
  good mission →
  sound (on_radar (MarkInFlight now mission lease)) (λ s _ s', (waiting s' ≤ one (mission_id mission) + waiting s)%nat).
Proof.
  intros Hg s [Hk Hh Hr Hq]. eexists _, _. split; [by apply on_radar_run, MarkInFlight_eq|]. split.
  - split; [by apply keyed_insert|done|by apply map_Forall_insert_2|done].
  - unfold held_ids. simpl. rewrite !times_app. destruct (records (st_Radar s) !! mission_id mission) eqn:El.
    + rewrite (keys_insert_old _ _ _ _ El). lia.
    + rewrite (keys_insert_new _ _ _ El), times_cons. lia.
Qed.

Lemma renew_sound now e' :
  sound (on_radar (RenewLease now e' lease)) (λ s _ s', waiting s' = waiting s).
Proof.
  intros s Hst. pose proof Hst as [Hk Hh Hr Hq]. pose proof (RenewLease_eq now e' lease (st_Radar s)) as E.
  assert (set_st_radar (st_Radar s) s = s) as Hs by (by destruct s).
  destruct (records (st_Radar s) !! e') as [x|] eqn:El; [destruct (after now (ExpiresAt x))|];
    eexists _, _; (split; [by apply on_radar_run|]); [by rewrite Hs| |by rewrite Hs].
  split; [split; [apply keyed_insert; [done|exact (Hk _ _ El)]|done|apply map_Forall_insert_2; [exact (Hr _ _ El)|done]|done]|].
  unfold held_ids. simpl. by rewrite !times_app, (keys_insert_old _ _ _ _ El).
Qed.

Lemma acknowledge_sound e' :
  sound (on_radar (Acknowledge e')) (λ s _ s', (waiting s' ≤ waiting s)%nat).
Proof.
  intros s Hst. pose proof Hst as [Hk Hh Hr Hq]. pose proof (Acknowledge_eq e' (st_Radar s)) as E.
  destruct (records (st_Radar s) !! e') as [x|] eqn:El; eexists _, _; (split; [by apply on_radar_run|]).
  - split; [split; [by apply keyed_delete|done|by apply map_Forall_delete|done]|].
    unfold held_ids. simpl. rewrite !times_app, (keys_delete _ _ _ El), times_cons. lia.
  - replace (set_st_radar (st_Radar s) s) with s by (by destruct s). split; [done|lia].
Qed.

Lemma collect_sound now order :
  sound (on_radar (sweep_collect now order)) (λ s l s', Forall good l ∧
    (times e (mission_id <$> l) + waiting s' = waiting s)%nat).
Proof.
  intros s [Hk Hh Hr Hq].
  destruct (sweep_collect_ok now order (st_Radar s) Hk) as (l & r & E & Hk' & Epq & Hkeys & Hrec & Hl).
  exists l, (set_st_radar r s). split; [by apply on_radar_run|]. split; [split; simpl|split].
  - done.
  - by rewrite Epq.
  - intros e' x [Hx _]%Hrec. by eapply Hr.
  - by rewrite Epq.
  - apply Forall_forall. intros m [(x & Hx & <- & _) _]%Hl. by eapply Hr.
  - unfold held_ids. simpl. rewrite Epq, Hkeys, !times_app. lia.
Qed.

Lemma requeue_sound m :
  good m → sound (on_radar (requeue m)) (λ s _ s', waiting s' = (one (mission_id m) + waiting s)%nat).
Proof.
  intros Hg s [Hk Hh Hr Hq]. destruct (requeue_ok (st_Radar s) m Hh) as (q & E & Hok & Hp).
  eexists _, _. split; [by apply on_radar_run|]. split; [split; simpl; try done|].
  - rewrite Hp. by constructor.
  - unfold held_ids. simpl. rewrite Hp, fmap_cons, !times_app, times_cons. simpl. lia.
Qed.

Lemma dequeue_sound :
  sound (on_radar (zoom pq set_pq Dequeue)) (λ s r s', (snd r = true → good (fst r)) ∧
    ((if (snd r : bool) then one (mission_id (fst r)) else 0) + waiting s' = waiting s)%nat).
Proof.
  intros s Hst. pose proof Hst as [Hk Hh Hr Hq]. unfold on_radar, zoom. destruct (decide (mh (pq (st_Radar s)) = [])) as [En|Hne].
  - rewrite (Dequeue_empty _ En). exists (zeroMission, false), s. split; [by destruct s as [[]]|done].
  - destruct (Dequeue_ok (pq (st_Radar s)) Hh Hne) as (m & q & -> & Hok & Hp & _).
    eexists _, _. split; [done|]. rewrite Hp in Hq. apply Forall_cons in Hq as [Hm Hq].
    split; [done|]. split; [done|]. unfold held_ids. simpl. rewrite Hp, fmap_cons, !times_app, times_cons. simpl. lia.
Qed.

Lemma aging_sound c :
  sound (on_radar (zoom pq set_pq (antiStarvationRound c))) (λ s _ s', waiting s' = waiting s).
Proof.
  intros s [Hk Hh Hr Hq]. destruct (antiStarvationRound_ok (pq (st_Radar s)) c Hh) as (q & E & Hok & Hp & _).
  exists (), (set_st_radar (set_pq q (st_Radar s)) s). split; [unfold on_radar, zoom; by rewrite E|].
  split; [split; simpl; try done|].
  - rewrite Hp. apply Forall_fmap. eapply Forall_impl; [exact Hq|]. intros m Hm. unfold promote. simpl.
    destruct (starved _ _ m); [by apply good_critical|done].
  - unfold held_ids. simpl. rewrite Hp, <- list_fmap_compose, !times_app. do 2 f_equal. apply list_fmap_ext.
    intros _ m _. unfold promote. simpl. by destruct (starved _ _ m).
Qed.
(** ** What the goroutines do with it *)

(** An acknowledgement whose log line panics. *)
Definition short_ack (r : http_request) : Prop :=
  hq_path r = "/api/mission/ack" ∧ (String.length (fst (decode_ack (hq_body r))) < 8)%nat.

Definition good_signal (x : station_signal) : Prop :=
  match x with
  | Posts q =>
    (rq_action q = "SUCCESS" ∧ ∃ e', valid_utf8 e' = true ∧ rq_mission q = bare_mission e') ∨
    (rq_action q = "REQUEUE" ∧ good (rq_mission q))
  | Replies r None => short_ack r
  | Replies _ (Some _) => True
  end.

(** The hand-backs of the event. *)
Definition hands_back (x : station_signal) : bool :=
  match x with
  | Posts q => bool_decide (rq_action q = "REQUEUE" ∧ mission_id (rq_mission q) = e)
  | Replies _ _ => false
  end.

Local Abbreviation runs := (affords station_ok good_signal (λ s, waiting s) hands_back).
Local Abbreviation any := (λ _ _, True).

Lemma sound_runs {A} rec (m : go StationServer A) Q (R : nat → A → Prop) n :
  sound m Q →
  (∀ s a s', Q s a s' → ∃ n', (n' + waiting s' ≤ n + waiting s)%nat ∧ R n' a) →
  runs rec R n (atomic m).
Proof.
  intros Hm HR. apply affords_atomic. intros s Hs. destruct (Hm s Hs) as (a & s' & E & Hs' & Hq).
  destruct (HR s a s' Hq) as (n' & Hn & Hr). by exists a, s', n'.
Qed.

Lemma log_runs rec e' n :
  (8 ≤ String.length e')%nat ∨ rec → runs rec (λ n' _, n' = n) n (atomic (log_id e')).
Proof.
  intros H s Hs. destruct (decide (8 ≤ String.length e')%nat) as [Hl|Hl].
  - rewrite log_id_long by done. simpl. split; [done|]. by exists n.
  - rewrite log_id_short by lia. simpl. split; [done|]. exists n. split; [done|]. by destruct H.
Qed.

(** [mission_id m] credits: one if it is the event's. *)
Local Abbreviation price m := (one (mission_id m)).

Lemma fallback_thread_runs rec : runs rec any 0 fallback_thread.
Proof using All.
  unfold fallback_thread. eapply affords_bind; [eapply (sound_runs _ _ _
    (λ n r, snd r = true → good (fst r) ∧ n = price (fst r))); [apply dequeue_sound|]|].
  { intros s [m found] s' [Hg Hn]. simpl in *. exists (if found then price m else 0%nat). split; [lia|].
    intros ->. by split; [apply Hg|]. }
  intros n [m []] H; [|done]. destruct (H eq_refl) as [Hg ->]. cbn [fst snd] in *.
  eapply affords_bind; [apply log_runs; left; by apply good_long|]. intros n [] ->.
  eapply affords_more; [|apply (affords_emit _ _ _ _ _ (Posts (mkResolve "REQUEUE" m)) 0); right; by split|done].
  cbn [hands_back rq_action rq_mission]. case_decide.
  - rewrite bool_decide_eq_true_2 by done. lia.
  - rewrite bool_decide_eq_false_2; [lia|]. by intros [_ ?].
Qed.

Lemma sweep_runs rec now order : runs rec any 0 (sweep_thread now order).
Proof using All.
  unfold sweep_thread. eapply affords_bind; [eapply (sound_runs _ _ _
    (λ n l, Forall good l ∧ n = times e (mission_id <$> l))); [apply collect_sound|]|].
  { intros s l s' [Hg Hn]. exists (times e (mission_id <$> l)). split; [lia|done]. }
  intros n l [Hg ->]. assert (times e (mission_id <$> l) = sum_list_with (λ m, price m) l) as ->.
  { clear Hg. induction l as [|m l IH]; [done|]. rewrite fmap_cons, times_cons, IH. done. }
  apply affords_for. intros m n Hm. rewrite Forall_forall in Hg.
  eapply affords_bind; [apply log_runs; left; by apply good_long, Hg|]. intros n' [] ->.
  eapply sound_runs; [by apply requeue_sound, Hg|]. intros s [] s' ->. exists n. split; [lia|done].
Qed.

Lemma aging_runs rec c : runs rec any 0 (aging_thread c).
Proof using All.
  eapply sound_runs; [apply aging_sound|]. intros s [] s' ->. exists 0%nat. split; [lia|done].
Qed.

(** A handler's section that only answers. *)
Lemma answer_runs {A} rec (m : go StationServer A) (h : A → http_response) :
  sound m (λ s _ s', waiting s' = waiting s) → runs rec any 0 (atomic (x ← m; mret (h x))).
Proof.
  intros Hm. eapply (sound_runs _ _ (λ s _ s', waiting s' = waiting s)).
  - intros s Hs. destruct (Hm s Hs) as (a & s' & E & Hs' & Hw). exists (h a), s'. split; [|done].
    by rewrite (go_bind_run _ _ _ _ _ E).
  - intros s a s' ->. exists 0%nat. split; [lia|done].
Qed.

Lemma register_sound now hostname body :
  sound (handleRegister now hostname body) (λ s _ s', waiting s' = waiting s).
Proof. intros s [Hk Hh Hr Hq]. destruct body as [d|]; by eexists _, _. Qed.

Lemma renew_request_runs rec now r : runs rec any 0 (atomic (http_renew now r)).
Proof.
  unfold http_renew, handleMissionRenew. apply answer_runs. intros s Hs.
  destruct (renew_sound now (Query_Get "event_id" (hq_query r)) s Hs) as (b & s' & E & Hs' & Hw).
  eexists _, s'. split; [by rewrite (go_bind_run _ _ _ _ _ E)|done].
Qed.

Lemma pull_thread_runs rec now net r :
  (∀ m, result (GetJSON (NewHTTPClient (2 * second)) decode_mission net) = inl m →
     mission_id m ≠ "" → good m) →
  runs rec any (match result (GetJSON (NewHTTPClient (2 * second)) decode_mission net) with
    | inl m => if bool_decide (mission_id m = "") then 0 else price m | inr _ => 0 end) (pull_thread now net r).
Proof using All.
  intros Hg. unfold pull_thread. destruct (result _) as [m|] eqn:En; [case_bool_decide as Hm|].
  - eapply affords_bind; [apply (affords_read _ _ _ _ _ _ any); intros s _; by eexists|].
    intros n [x|] _; [|done]. done.
  - eapply affords_bind; [apply (affords_read _ _ _ _ _ _ (λ n' _, n' = price m)); intros s _; by eexists|].
    intros n [x|] ->; [|done]. specialize (Hg m eq_refl Hm).
    eapply affords_bind; [eapply (sound_runs _ _ _ (λ n' _, n' = 0%nat)); [by apply mark_sound|]|].
    { intros s [] s' Hw. exists 0%nat. split; [lia|done]. }
    intros n [] ->. eapply affords_bind; [apply log_runs; left; by apply good_long|]. done.
  - eapply affords_bind; [apply (affords_read _ _ _ _ _ _ any); intros s _; by eexists|]. by intros n [x|] _.
Qed.

Lemma decode_ack_valid body : valid_utf8 (fst (decode_ack body)) = true.
Proof.
  apply (decode_lax_inv (λ p, valid_utf8 (fst p) = true)); [|done].
  intros k v [e1 d1] p' He Hv. cbn [fst] in *. unfold ack_field.
  repeat case_bool_decide; [| |by intros [= <-]]; intros (x & Hx & [= <-])%bind_Some; simpl; [|done].
  by eapply into_string_valid.
Qed.

Lemma ack_thread_runs rec r :
  (8 ≤ String.length (fst (decode_ack (hq_body r))))%nat ∨ rec → runs rec any 0 (ack_thread r).
Proof using All.
  intros Hl. unfold ack_thread. pose proof (decode_ack_valid (hq_body r)) as Hv.
  destruct (decode_ack (hq_body r)) as [e' d]. cbn [fst] in *.
  eapply affords_bind; [eapply (sound_runs _ _ _ (λ n' _, n' = 0%nat)); [apply acknowledge_sound|]|].
  { intros s [] s' Hw; exists 0%nat; (split; [lia|done]). }
  intros n _ ->. split; [left; split; [done|by exists e']|].
  exists 0%nat. split; [done|]. eapply affords_bind; [by apply log_runs|]. done.
Qed.
(** What a goroutine may hand back: the mission it pulls. *)
Definition pulled_by (g : station_goroutine) : option Mission :=
  match g with
  | Serves now hostname net r =>
    if bool_decide ("/api/mission/pull" = hq_path r) then
      match result (GetJSON (NewHTTPClient (2 * second)) decode_mission net) with
      | inl m => if bool_decide (mission_id m = "") then None else Some m
      | inr _ => None
      end
    else None
  | _ => None
  end.

Definition budget (g : station_goroutine) : nat :=
  match pulled_by g with Some m => price m | None => 0 end.

Lemma request_runs rec now hostname net r :
  (∀ m, pulled_by (Serves now hostname net r) = Some m → good m) → (short_ack r → rec) →
  runs rec any (budget (Serves now hostname net r)) (station_request_thread now hostname net r).
Proof using All.
  intros Hg Hs. unfold station_request_thread, budget. cbn [pulled_by] in *. unfold station_threads.
  eapply (affords_bind _ _ _ _ _ _ _ any); [|intros n a _; split; [done|]; exists n; split; [simpl; lia|done]].
  cbn [ServeMux]. case_bool_decide as Hp.
  { rewrite <- Hp. eapply affords_more; [|apply pull_thread_runs|done].
    - destruct (result _) as [m|]; [|done]. by case_bool_decide.
    - intros m En Hm. apply Hg. rewrite En. by rewrite bool_decide_eq_false_2. }
  case_bool_decide; [exact I|]. case_bool_decide; [apply answer_runs, register_sound|].
  case_bool_decide; [apply renew_request_runs|].
  case_bool_decide as H5; [|exact I]. apply ack_thread_runs.
  destruct (decide (8 ≤ String.length (fst (decode_ack (hq_body r))))%nat); [by left|right].
  apply Hs. split; [done|lia].
Qed.

Lemma launch_affords g :
  (∀ m, pulled_by g = Some m → good m) →
  task_affords station_ok good_signal (λ s, waiting s) hands_back (budget g) (station_launch g).
Proof using All.
  intros Hg. destruct g as [now hostname net r|now order| |c]; simpl.
  - destruct (decide (short_ack r)) as [Hs|Hs].
    + right. split; [by apply request_runs|]. eexists. split; [done|]. split; [done|]. by exists 0%nat.
    + left. by apply request_runs.
  - left. apply sweep_runs.
  - left. apply fallback_thread_runs.
  - left. apply aging_runs.
Qed.
End station.

(** ** The property *)

Section property.
Context {TT : TimeText} {TL : TimeTextLaws}.

(** The missions the drones of a run pull. *)
Definition pulled (ops : list station_moment) : list Mission :=
  omap (λ x, match x with Launch g => pulled_by g | Go_on _ => None end) ops.

Definition hand_backs (e : string) (l : list station_signal) : nat := counted (hands_back e) l.

Lemma wf_critical m : wf_mission m → wf_mission (set_critical m).
Proof. intros ((H1 & H2 & H3) & H4). by split. Qed.

Lemma wf_bare e : valid_utf8 e = true → wf_mission (bare_mission e).
Proof. intros He. by repeat split; try done; vm_compute. Qed.

Lemma budgets e ops :
  sum_list_with (λ x, match x with Launch g => budget e g | Go_on _ => 0 end)%nat ops =
  times e (mission_id <$> pulled ops).
Proof.
  induction ops as [|[g|i] ops IH]; [done| |exact IH]. simpl. rewrite IH. unfold budget.
  destruct (pulled_by g); [|done]. by rewrite fmap_cons, times_cons.
Qed.

(** What the station knows of its missions in a run. *)
Definition from_broker (ops : list station_moment) (m : Mission) : Prop :=
  wf_mission m ∧ (8 ≤ String.length (mission_id m))%nat ∧
  ∃ m0, m0 ∈ pulled ops ∧ (m = m0 ∨ m = set_critical m0).

Lemma from_broker_critical ops m : from_broker ops m → from_broker ops (set_critical m).
Proof.
  intros (Hw & Hl & m0 & Hm0 & Hm). split; [by apply wf_critical|]. split; [by rewrite set_critical_id|].
  exists m0. split; [done|right]. by destruct Hm as [->| ->].
Qed.

Lemma station_runs ops e :
  Forall (λ m, wf_mission m ∧ (8 ≤ String.length (mission_id m))%nat) (pulled ops) →
  ∃ sent p, go_map pool_do (station_moment_op <$> ops) station_boot = (Ret sent, p) ∧
    station_ok (from_broker ops) (memory p) ∧ Forall (good_signal (from_broker ops)) (concat sent) ∧
    (hand_backs e (concat sent) + times e (held_ids (memory p)) ≤ times e (mission_id <$> pulled ops))%nat.
Proof.
  intros Hgood. rewrite Forall_forall in Hgood.
  destruct (pool_affords (station_ok (from_broker ops)) (good_signal (from_broker ops)) (λ s, times e (held_ids s))
    (hands_back e) station_moment_op (λ x, match x with Launch g => budget e g | Go_on _ => 0 end)%nat
    ops 0 station_boot) as (sent & p & k & E & Hs & (Hp & ns & _ & Hk) & Hc).
  - apply (covers_start (station_ok (from_broker ops)) _ (λ s, times e (held_ids s)) _ initial_station).
    split; simpl; [done|apply New_ok|apply map_Forall_empty|done].
  - apply Forall_forall. intros [g|i] Hin; [|done]. apply launch_affords.
    + by intros m (_ & Hl & _).
    + apply from_broker_critical.
    + intros m Hm. assert (m ∈ pulled ops) as Hpm by (apply list_elem_of_omap; exists (Launch g); split; [exact Hin|exact Hm]).
      destruct (Hgood m Hpm) as [Hw Hl]. split; [done|]. split; [done|]. exists m. split; [done|by left].
  - exists sent, p. split_and!; [done..|]. rewrite <- budgets. unfold hand_backs. lia.
Qed.

(** C27: the station never loses its way between its drones and the broker:
    however its handlers, the janitor, the fallback loop and the aging worker
    interleave, while the missions pulled from the broker have identifiers of
    at least eight bytes the process never dies, and the only request that
    gets no answer is an acknowledgement with a shorter one; every post is
    read by the broker as the station means it, and is either the completion
    of an event or hands back a mission that was pulled, urgent at most; no
    event is handed back, or still held, more often than it was pulled. *)
Theorem station_process_hands_back (ops : list station_moment) :
  Forall (λ m, wf_mission m ∧ (8 ≤ String.length (mission_id m))%nat) (pulled ops) →
  ∃ sent p, go_map pool_do (station_moment_op <$> ops) station_boot = (Ret sent, p) ∧
    (∀ r, Replies r None ∈ concat sent → short_ack r) ∧
    (∀ q, Posts q ∈ concat sent →
      decode_resolve (hq_body (resolve_post q)) = Some (rq_action q, rq_mission q) ∧
      ((rq_action q = "SUCCESS" ∧ ∃ e, rq_mission q = bare_mission e) ∨
       (rq_action q = "REQUEUE" ∧ ∃ m, m ∈ pulled ops ∧ (rq_mission q = m ∨ rq_mission q = set_critical m)))) ∧
    (∀ e, hand_backs e (concat sent) + times e (held_ids (memory p)) ≤ times e (mission_id <$> pulled ops))%nat.
Proof.
  intros Hgood. destruct (station_runs ops "" Hgood) as (sent & p & E & Hp & Hs & _).
  rewrite Forall_forall in Hs. exists sent, p. split_and!; [done| | |].
  - intros r Hr. apply (Hs _ Hr).
  - intros q Hq. specialize (Hs _ Hq). unfold resolve_post. cbn [hq_body].
    rewrite <- (str_app_nil_r (encode_resolve _ _)).
    destruct Hs as [(Ha & e & Hv & Hm)|(Ha & Hw & _ & Hm)]; rewrite Ha.
    + split; [apply decode_resolve_round; [done|rewrite Hm; by apply wf_bare]|left]. split; [done|by exists e].
    + split; [by apply decode_resolve_round|by right].
  - intros e. destruct (station_runs ops e Hgood) as (sent' & p' & E' & _ & _ & Hc).
    rewrite E in E'. by injection E' as <- <-.
Qed.
End property.

(** A drone takes a mission and is lost; its lease of ten seconds runs out, the
    sweep takes it and the fallback loop hands it back. *)
Lemma station_process_hands_back_witness :
  let m := flying in
  let net := λ _, Resp 200 (json_Marshal_mission (TT := Rfc3339) m) in
  let request := λ path q body, mkRequest MPost path q body in
  let ops := [Launch (Serves 0 "c2" net (request "/api/drone/register" "" (encode_register "UAV-1")));
    Launch (Serves 0 "c2" net (request "/api/mission/pull" "drone_id=UAV-1" ""));
    Launch (Sweeps (11 * second) ["event-001"]); Launch Falls_back] ++
    (Go_on <$> [0; 0; 1; 1; 1; 1; 2; 2; 2; 3; 3; 3])%nat in
  ∃ sent p, go_map pool_do (station_moment_op (TT := Rfc3339) <$> ops) station_boot = (Ret sent, p) ∧
    Posts (mkResolve "REQUEUE" m) ∈ concat sent ∧ hand_backs "event-001" (concat sent) = 1%nat.
Proof.
  intros m net request ops.
  destruct (station_process_hands_back ops) as (sent & p & E & _).
  - assert (pulled ops = [m]) as -> by (vm_compute; reflexivity).
    constructor; [|constructor]. split; [repeat split; try done; by vm_compute|apply Nat.leb_le; by vm_compute].
  - assert (concat sent = [Replies (request "/api/drone/register" "" (encode_register "UAV-1"))
        (Some (mkHttp 200 (json_line (encode_direct "http://c2:8081"))));
      Replies (request "/api/mission/pull" "drone_id=UAV-1" "")
        (Some (mkHttp 200 (json_line (json_Marshal_mission m)))); Posts (mkResolve "REQUEUE" m)]) as Hs.
    { vm_compute in E. injection E as <- _. vm_compute. reflexivity. }
    exists sent, p. rewrite Hs. split; [exact E|]. split; [by right; right; left|]. vm_compute. reflexivity.
Defined.
