(* ===== verification/System.v ===== *)
(** * The system: brokers, stations and drones over an unreliable network

    The brokers of BrokerMissions.v and the stations of Station.v with their
    radars, composed over a network that may lose, delay, reorder and duplicate
    what it carries: a message once sent stays available, and a step may
    receive any sent message any number of times.  Missions travel in the
    answers to [/queue/pop], results in the requests to [/queue/resolve].
    Brokers and stations stand behind one name each, as in docker-compose.yml:
    a pull may reach any broker, a resolution another broker than the one that
    gave the mission out, a drone another station than before.  A station may
    die at any time and start again with nothing.

    Every goroutine interleaves by locked sections as in the files composed.
    A pull, an acknowledgement and a tick of the fallback loop change the
    station's memory in one section; that the network delays what they send
    stands for the steps between this section and the sending. *)

From S2P Require Import Prelude GoStd GoHeap Model Queue Flow Router Radar.
From S2P Require Import Buffers HTTPClient Http Broker BrokerMissions Station.
Local Open Scope Z_scope.

(** One element of a list of processes. *)
Definition at_nth {S X A} (get : S → list X) (put : list X → S → S) (i : nat) (m : go X A) :
    go S (option A) := λ s,
  match get s !! i with
  | None => (Ret None, s)
  | Some x =>
    match m x with
    | (Ret a, x') => (Ret (Some a), put (<[i := x']> (get s)) s)
    | (Panic p, x') => (Panic p, put (<[i := x']> (get s)) s)
    end
  end.

(** A station with the missions its [sweep]s hold between their sections. *)
Record StationSys : Type := mkStationSys {
  ss_station : StationServer;
  ss_hand : list (bool * Mission);
}.

Definition put_server (st : StationServer) (y : StationSys) : StationSys := mkStationSys st (ss_hand y).
Definition view_radar (y : StationSys) : RadarSys := mkSys (st_Radar (ss_station y)) (ss_hand y).
Definition put_radar (r : RadarSys) (y : StationSys) : StationSys :=
  mkStationSys (set_st_radar (rs_radar r) (ss_station y)) (hand r).
Definition server {A} (m : go StationServer A) : go StationSys A := zoom ss_station put_server m.
Definition radar_of {A} (m : go RadarSys A) : go StationSys A := zoom view_radar put_radar m.

(** What a station starts with. *)
Definition new_station : StationSys := mkStationSys initial_station [].

Section system.
Context {RG : Ring} (decode_mission : string → option Mission).

(** [popped]: the missions the brokers have sent in an answer.  [posts]: the
    requests the stations have sent.  [flown]: the events handed to drones;
    [acked]: those a drone has reported complete. *)
Record System : Type := mkSystem {
  y_brokers : list BrokerSys;
  y_stations : list StationSys;
  popped : list Mission;
  posts : list resolve_request;
  flown : list string;
  acked : list string;
}.

Definition put_brokers (l : list BrokerSys) (s : System) : System :=
  mkSystem l (y_stations s) (popped s) (posts s) (flown s) (acked s).
Definition put_stations (l : list StationSys) (s : System) : System :=
  mkSystem (y_brokers s) l (popped s) (posts s) (flown s) (acked s).
Definition send_answer (m : Mission) (s : System) : System :=
  mkSystem (y_brokers s) (y_stations s) (m :: popped s) (posts s) (flown s) (acked s).
Definition send_posts (l : list resolve_request) (s : System) : System :=
  mkSystem (y_brokers s) (y_stations s) (popped s) (l ++ posts s) (flown s) (acked s).
Definition hand_over (e : string) (s : System) : System :=
  mkSystem (y_brokers s) (y_stations s) (popped s) (posts s) (e :: flown s) (acked s).
Definition complete (e : string) (s : System) : System :=
  mkSystem (y_brokers s) (y_stations s) (popped s) (posts s) (flown s) (e :: acked s).

Definition at_broker {A} (b : nat) (m : go BrokerSys A) : go System (option A) :=
  at_nth y_brokers put_brokers b m.
Definition at_station {A} (k : nat) (m : go StationSys A) : go System (option A) :=
  at_nth y_stations put_stations k m.

Inductive sys_op : Type :=
| SBroker (b : nat) (o : broker_op)                      (* a section of a broker's own *)
| SCheckout (b i : nat) (now : Z)                        (* a checkout, and the answer *)
| SDeliver (b j : nat)                                   (* a broker gets the [j]-th post *)
| SStation (k : nat) (o : radar_op)                      (* a section of a radar's own *)
| SRegister (k : nat) (now : Z) (host : string) (body : option string)
| SPull (k : nat) (now : Z) (net : nat → attempt) (droneID : string)
| SAck (k : nat) (eventID : string)
| SFallback (k : nat)
| SCrash (k : nat).                                      (* a station starts anew *)

(** The sections that run without a message: arrivals, pops and janitors of
    the brokers; renewals, sweeps and the queue's worker of the stations. *)
Definition own_section (o : sys_op) : bool :=
  match o with
  | SBroker _ (BCheckout _ _) | SBroker _ (BResolve _ _) => false
  | SStation _ (RMark _ _ _) | SStation _ (RAck _) | SStation _ RTake => false
  | _ => true
  end.

Definition checkout_answer (i : nat) (now : Z) : go BrokerSys (option Mission) :=
  x ← get;
  broker_step (BCheckout i now) ;;
  mret (match bs_hand x !! i with Some (Popped, m) => Some m | _ => None end).

(** A pull receives an answer a broker has sent, or none; a drone reports
    only an event it was given. *)
Definition sys_step (o : sys_op) : go System () :=
  s ← get;
  if negb (own_section o) then mret ()
  else match o with
  | SBroker b o => at_broker b (broker_step o) ;; mret ()
  | SCheckout b i now =>
    r ← at_broker b (checkout_answer i now);
    match r with
    | Some (Some m) => modify (send_answer m)
    | _ => mret ()
    end
  | SDeliver b j =>
    match posts s !! j with
    | Some r => at_broker b (broker_step (BResolve (rq_action r) (rq_mission r))) ;; mret ()
    | None => mret ()
    end
  | SStation k o => at_station k (radar_of (radar_step o)) ;; mret ()
  | SRegister k now host body => at_station k (server (handleRegister now host body)) ;; mret ()
  | SPull k now net droneID =>
    match result (GetJSON (NewHTTPClient (2 * second)) decode_mission net) with
    | inl m =>
      if bool_decide (m ∈ popped s) then
        r ← at_station k (server (handleMissionPull decode_mission now net droneID));
        match r ≫= sr_mission with
        | Some m => modify (hand_over (mission_id m))
        | None => mret ()
        end
      else mret ()
    | inr _ => at_station k (server (handleMissionPull decode_mission now net droneID)) ;; mret ()
    end
  | SAck k eventID =>
    if bool_decide (eventID ∈ flown s) then
      r ← at_station k (server (handleMissionAck eventID));
      match r with
      | Some r => modify (λ s, complete eventID (send_posts (fst r) s))
      | None => mret ()
      end
    else mret ()
  | SFallback k => reqs ← at_station k (server fallback_tick); modify (send_posts (default [] reqs))
  | SCrash k => at_station k (modify (λ _, new_station)) ;; mret ()
  end.

(** [n] brokers and [k] stations at their start. *)
Definition initial_system (n k : nat) : System :=
  mkSystem (replicate n initial_sys) (replicate k new_station) [] [] [] [].

(** The missions that come in, at a broker and at all. *)
Definition arrivals_at (b : nat) (ops : list sys_op) : list Mission :=
  omap (λ o, match o with
             | SBroker b' (BArrive m) => if bool_decide (b' = b) then Some m else None
             | _ => None
             end) ops.
Definition arrivals (ops : list sys_op) : list Mission :=
  omap (λ o, match o with SBroker _ (BArrive m) => Some m | _ => None end) ops.

(** What a broker holds. *)
Definition held (b : nat) (s : System) : list string :=
  match y_brokers s !! b with Some x => bplaces x | None => [] end.

(** ** Everything in the system came in *)

(** An arrived mission, perhaps promoted while it waited. *)
Definition genuine (A : list Mission) (m : Mission) : Prop :=
  ∃ m0, m0 ∈ A ∧ (m = m0 ∨ m = set_critical m0).

Lemma genuine_promote A c l m : genuine A m → genuine A (promote c l m).
Proof.
  intros (m0 & H0 & Hm). unfold promote. destruct (starved c l m); [|by exists m0].
  exists m0. split; [done|]. right. by destruct Hm as [->| ->].
Qed.

Definition broker_all (P : Mission → Prop) (s : BrokerSys) : Prop :=
  Forall P (mh (b_queue (bs_broker s))) ∧
  map_Forall (λ _ x, P (pd_Mission x)) (b_pending (bs_broker s)) ∧
  Forall (λ h, P (snd h)) (bs_hand s).

Definition radar_all (P : Mission → Prop) (s : RadarSys) : Prop :=
  Forall P (mh (pq (rs_radar s))) ∧
  map_Forall (λ _ x, P (rec_Mission x)) (records (rs_radar s)) ∧
  Forall (λ h, P (snd h)) (hand s).

Section all.
Context (P : Mission → Prop) (HP : ∀ c l m, P m → P (promote c l m)).

Lemma queue_aged q c :
  pq_ok q → Forall P (mh q) →
  ∃ q', antiStarvationRound c q = (Ret (), q') ∧ Forall P (mh q').
Proof.
  intros Hq Hall. destruct (antiStarvationRound_ok q c Hq) as (q' & E & _ & Hp & _).
  exists q'. split; [done|]. rewrite Hp. apply Forall_fmap.
  eapply Forall_impl; [exact Hall|]. intros m. apply HP.
Qed.

(** What a section of the broker brings in from outside. *)
Definition bop_in (o : broker_op) : Prop :=
  match o with
  | BArrive m => P m
  | BResolve action m => action = "REQUEUE" → P m
  | _ => True
  end.

Lemma hand_elem {K} (h : list (K * Mission)) i k m :
  Forall (λ h, P (snd h)) h → h !! i = Some (k, m) → P m.
Proof. intros H Hi. exact (Forall_lookup_1 _ _ _ _ H Hi). Qed.

Lemma broker_step_all o s :
  pq_ok (b_queue (bs_broker s)) → broker_all P s → bop_in o → broker_all P (snd (broker_step o s)).
Proof.
  intros Hq (HQ & HT & HH) Ho.
  assert (∀ m b, pq_ok (b_queue b) → Forall P (mh (b_queue b)) → P m →
    ∃ q, on_queue (Enqueue m) b = (Ret (), set_queue q b) ∧ Forall P (mh q)) as Kenq.
  { intros m b Hb Hall Hm. destruct (enqueue_ok b m Hb) as (q & E & _ & Hp). exists q.
    split; [done|]. rewrite Hp. by constructor. }
  destruct o as [m| |i now|a m|now e|i|c]; unfold broker_step.
  - destruct (Kenq m (bs_broker s) Hq HQ Ho) as (q & E & Hall).
    by rewrite (go_bind_run _ _ _ _ _ (broker_run _ _ _ _ E)).
  - destruct (decide (mh (b_queue (bs_broker s)) = [])) as [En|Hne].
    + pose proof (on_queue_run _ _ _ _ (Dequeue_empty _ En)) as E.
      by rewrite (go_bind_run _ _ _ _ _ (broker_run _ _ _ _ E)).
    + destruct (Dequeue_ok _ Hq Hne) as (m & q & E & _ & Hp & _). apply on_queue_run in E.
      rewrite Hp in HQ. apply Forall_cons in HQ as [Hm HQ].
      rewrite (go_bind_run _ _ _ _ _ (broker_run _ _ _ _ E)). simpl.
      split_and!; [done|done|by constructor].
  - unfold mbind, go_mbind, get. destruct (bs_hand s !! i) as [[[] m]|] eqn:Eh; try done.
    simpl. pose proof (hand_elem _ _ _ _ HH Eh) as Hm.
    split_and!; [done|by apply map_Forall_insert_2|by apply Forall_delete].
  - pose proof (resolve_take_eq (mission_id m) (bs_broker s)) as E.
    destruct (b_pending (bs_broker s) !! mission_id m) as [x|]; apply broker_run in E;
      rewrite (go_bind_run _ _ _ _ _ E); [|done].
    case_bool_decide as Ha; simpl; (split_and!; [done|by apply map_Forall_delete|]); [|done].
    constructor; [by apply Ho|done].
  - pose proof (pending_take_eq now e (bs_broker s)) as E.
    destruct (b_pending (bs_broker s) !! e) as [x|] eqn:Ep;
      [destruct (pending_timeout <? now - CheckoutTime x)|]; apply broker_run in E;
      rewrite (go_bind_run _ _ _ _ _ E); [|done..]. simpl.
    split_and!; [done|by apply map_Forall_delete|]. constructor; [exact (HT _ _ Ep)|done].
  - unfold mbind at 1, go_mbind at 1, get. destruct (bs_hand s !! i) as [[[] m]|] eqn:Eh; try done;
      pose proof (hand_elem _ _ _ _ HH Eh) as Hm;
      destruct (Kenq m (bs_broker s) Hq HQ Hm) as (q & E & Hall).
    + rewrite (go_bind_run _ _ _ _ _ (broker_run _ _ _ _ E)). simpl.
      split_and!; [done|done|by apply Forall_delete].
    + unfold mbind, go_mbind, broker, zoom, pending_give. unfold mbind, go_mbind. rewrite E.
      unfold log_id. destruct (slice_to (mission_id m) 8); simpl;
        (split_and!; [done|done|]); [by apply Forall_delete|done].
  - destruct (queue_aged _ c Hq HQ) as (q & E & Hall). apply on_queue_run in E.
    by rewrite (go_bind_run _ _ _ _ _ (broker_run _ _ _ _ E)).
Qed.

(** What a section of the radar brings in from outside. *)
Definition rop_in (o : radar_op) : Prop := match o with RMark _ m _ => P m | _ => True end.

Lemma radar_step_all o s :
  pq_ok (pq (rs_radar s)) → radar_all P s → rop_in o → radar_all P (snd (radar_step o s)).
Proof.
  intros Hq (HQ & HT & HH) Ho.
  assert (∀ r x e, records r !! e = Some x → map_Forall (λ _ x, P (rec_Mission x)) (records r) →
    P (rec_Mission x)) as Krec by (intros r x e Hx H; exact (H e x Hx)).
  destruct o as [now m d|now e d|e|e|now order|i| |c]; unfold radar_step.
  - unfold mbind, go_mbind, get, radar, zoom. rewrite MarkInFlight_eq. simpl.
    split_and!; [done|by apply map_Forall_insert_2|done].
  - unfold mbind, go_mbind, radar, zoom. rewrite RenewLease_eq.
    destruct (records (rs_radar s) !! e) as [x|] eqn:Ex; [destruct (after _ _)|]; try done. simpl.
    split_and!; [done| |done]. apply map_Forall_insert_2; [exact (Krec _ _ _ Ex HT)|done].
  - unfold mbind, go_mbind, radar, zoom. rewrite Acknowledge_eq.
    destruct (records (rs_radar s) !! e) as [x|] eqn:Ex; [|done]. simpl.
    split_and!; [done|by apply map_Forall_delete|done].
  - unfold mbind, go_mbind, radar, zoom. rewrite nack_take_eq.
    destruct (records (rs_radar s) !! e) as [x|] eqn:Ex; [|done]. simpl.
    split_and!; [done|by apply map_Forall_delete|]. constructor; [exact (Krec _ _ _ Ex HT)|done].
  - unfold mbind, go_mbind, radar, zoom. rewrite sweep_collect_eq. simpl. split_and!; [done| |].
    + intros e x [Hx _]%take_all_left. exact (Krec _ _ _ Hx HT).
    + apply Forall_app. split; [|done]. rewrite !Forall_fmap. apply Forall_forall.
      intros x (e & _ & Hx & _)%take_all_taken. exact (Krec _ _ _ Hx HT).
  - unfold mbind at 1, go_mbind at 1, get. destruct (hand s !! i) as [[b m]|] eqn:Eh; [|done].
    pose proof (hand_elem _ _ _ _ HH Eh) as Hm.
    destruct (requeue_ok (rs_radar s) m Hq) as (q & E & _ & Hp).
    assert (Forall P (mh q)) as Hall by (rewrite Hp; by constructor).
    assert (radar (if b then give_expired m else requeue m) s =
        (Ret (), set_radar (set_pq q (rs_radar s)) s) ∨
      ∃ p, radar (if b then give_expired m else requeue m) s = (Panic p, s)) as [E1|[p E1]].
    { destruct b; [|left; by apply radar_run].
      unfold radar, zoom, give_expired, mbind, go_mbind, or_panic.
      destruct (slice_to (mission_id m) 8); [left; unfold mret, go_mret; by rewrite E|].
      right. exists SliceBounds. by destruct s as [[] ?]. }
    + rewrite (go_bind_run _ _ _ _ _ E1). simpl. split_and!; [done|done|by apply Forall_delete].
    + unfold mbind, go_mbind. by rewrite E1.
  - destruct (decide (mh (pq (rs_radar s)) = [])) as [En|Hne].
    + unfold mbind, go_mbind, radar, zoom. rewrite (Dequeue_empty _ En). done.
    + destruct (Dequeue_ok _ Hq Hne) as (m & q & E & _ & Hp & _).
      rewrite Hp in HQ. apply Forall_cons in HQ as [_ HQ].
      unfold mbind, go_mbind, radar, zoom. by rewrite E.
  - destruct (queue_aged _ c Hq HQ) as (q & E & Hall).
    unfold mbind, go_mbind, radar, zoom. by rewrite E.
Qed.
End all.

(** ** What leaves the broker *)

(** An event that a section lets out is still pending, or was resolved
    without being given back. *)
Lemma broker_left o s fl s' e :
  broker_step o s = (Ret fl, s') → e ∈ left_ids fl →
  e ∈ bplaces s' ∨ ∃ action m, o = BResolve action m ∧ action ≠ "REQUEUE" ∧ e = mission_id m.
Proof.
  intros E He. destruct o as [m| |i now|a m|now e'|i|c]; unfold broker_step in E.
  3: { unfold mbind, go_mbind, get in E. destruct (bs_hand s !! i) as [[[] m]|];
         simpl in E; injection E as <- <-; try (by apply not_elem_of_nil in He).
       destruct (b_pending (bs_broker s) !! mission_id m); [|by apply not_elem_of_nil in He].
       apply list_elem_of_singleton in He as ->. left. unfold bplaces. apply elem_of_app. left.
       apply elem_of_keys. simpl. by rewrite lookup_insert_eq. }
  all: go_unfold_in E; repeat (case_match; try discriminate; simplify_eq); simpl in He;
    try (by apply not_elem_of_nil in He); apply list_elem_of_singleton in He; subst e.
  right. exists a, m. split_and!; [done| |done]. intros ->. by case_bool_decide.
Qed.

(** ** Invariant *)

(** A post in the network is a mission given back or the completion of an
    event a drone has reported. *)
Definition post_ok (A : list Mission) (done : list string) (r : resolve_request) : Prop :=
  rq_action r = "REQUEUE" ∧ genuine A (rq_mission r) ∨
  rq_action r = "SUCCESS" ∧ mission_id (rq_mission r) ∈ done.

Definition broker_good (A : list Mission) (x : BrokerSys) : Prop :=
  broker_ok x ∧ broker_all (genuine A) x.
Definition station_good (A : list Mission) (y : StationSys) : Prop :=
  radar_ok (view_radar y) ∧ radar_all (genuine A) (view_radar y).

Record sys_ok (A : list Mission) (s : System) : Prop := mkSysOk {
  so_brokers : Forall (broker_good A) (y_brokers s);
  so_stations : Forall (station_good A) (y_stations s);
  so_popped : Forall (genuine A) (popped s);
  so_posts : Forall (post_ok A (acked s)) (posts s);
  so_flown e : e ∈ flown s → ∃ m, m ∈ A ∧ mission_id m = e;
  so_acked e : e ∈ acked s → e ∈ flown s;
}.

(** A step keeps the invariant, and what a broker held it still holds or a
    drone has reported it. *)
Definition step_good (A : list Mission) (s s' : System) : Prop :=
  sys_ok A s' ∧ (∀ e, e ∈ acked s → e ∈ acked s') ∧
  (∀ b e, e ∈ held b s → e ∈ held b s' ∨ e ∈ acked s').

Lemma step_good_refl A s : sys_ok A s → step_good A s s.
Proof. intros H. split_and!; [done|done|auto]. Qed.

Lemma step_good_trans A s1 s2 s3 : step_good A s1 s2 → step_good A s2 s3 → step_good A s1 s3.
Proof.
  intros (_ & Ha1 & Hh1) (H & Ha2 & Hh2). split_and!; [done|auto|].
  intros b e [He|He]%Hh1; [auto|right; auto].
Qed.

Lemma new_station_good A : station_good A new_station.
Proof.
  split; [|done]. split; [done|apply New_ok|]. intros e He. by apply not_elem_of_nil in He.
Qed.

Lemma initial_ok A n k : sys_ok A (initial_system n k).
Proof.
  split; simpl; try done; try (intros e He; by apply not_elem_of_nil in He).
  - apply Forall_replicate. split; [apply initial_sys_ok|done].
  - apply Forall_replicate, new_station_good.
Qed.

Lemma genuine_id A m : genuine A m → ∃ m0, m0 ∈ A ∧ mission_id m0 = mission_id m.
Proof. intros (m0 & H & [->| ->]); by exists m0. Qed.

(** A process that is there, and its new state. *)
Lemma at_nth_run {S X B} (get : S → list X) put i (m : go X B) s x a x' :
  get s !! i = Some x → m x = (Ret a, x') →
  at_nth get put i m s = (Ret (Some a), put (<[i := x']> (get s)) s).
Proof. intros Hx E. unfold at_nth. by rewrite Hx, E. Qed.

Lemma at_nth_absent {S X B} (get : S → list X) put i (m : go X B) s :
  get s !! i = None → at_nth get put i m s = (Ret None, s).
Proof. intros Hx. unfold at_nth. by rewrite Hx. Qed.

Section steps.
Context (A : list Mission) (HA : Forall (λ m, (8 ≤ String.length (mission_id m))%nat) A).

Lemma genuine_long m : genuine A m → (8 ≤ String.length (mission_id m))%nat.
Proof. intros (m0 & H & <-)%genuine_id. rewrite Forall_forall in HA. by apply HA. Qed.

Lemma broker_there b s x : sys_ok A s → y_brokers s !! b = Some x → broker_good A x.
Proof. intros Hs Hx. exact (Forall_lookup_1 _ _ _ _ (so_brokers _ _ Hs) Hx). Qed.

Lemma station_there k s y : sys_ok A s → y_stations s !! k = Some y → station_good A y.
Proof. intros Hs Hy. exact (Forall_lookup_1 _ _ _ _ (so_stations _ _ Hs) Hy). Qed.

Lemma broker_part b o s x :
  sys_ok A s → y_brokers s !! b = Some x → bop_in (genuine A) o →
  (∀ action m, o = BResolve action m → action = "REQUEUE" ∨ mission_id m ∈ acked s) →
  ∃ fl x', broker_step o x = (Ret fl, x') ∧
    step_good A s (put_brokers (<[b := x']> (y_brokers s)) s) ∧
    (∀ m, o = BArrive m → mission_id m ∈ bplaces x' ∨ mission_id m ∈ acked s).
Proof.
  intros Hs Hx Hin Hres. destruct (broker_there b s x Hs Hx) as [Hb Hba].
  assert (bop_long o) as Hlong by (destruct o; try done; by apply genuine_long).
  destruct (broker_step_ok o x Hb Hlong) as (fl & x' & E & Hok & Hbal).
  pose proof (broker_step_all (genuine A) (genuine_promote A) o x (bok_queue _ Hb) Hba Hin) as Hall.
  rewrite E in Hall. simpl in Hall.
  assert (∀ e, e ∈ left_ids fl → e ∈ bplaces x' ∨ e ∈ acked s) as Hleft.
  { intros e He. destruct (broker_left _ _ _ _ _ E He) as [?|(a & m & -> & Ha & ->)]; [by left|].
    right. by destruct (Hres a m eq_refl). }
  assert (∀ e, e ∈ bplaces x ++ entered fl → e ∈ bplaces x' ∨ e ∈ acked s) as Hkeep.
  { intros e He. unfold balanced in Hbal. rewrite <- Hbal in He.
    apply elem_of_app in He as [?|?]; [by left|by apply Hleft]. }
  exists fl, x'. split; [done|]. split.
  - destruct Hs as [Hbs Hst Hpop Hposts Hfl Hack]. split_and!; [|done|].
    + split; simpl; try done. by apply Forall_insert.
    + intros b' e He. unfold held in *. simpl. destruct (decide (b = b')) as [<-|Hne].
      * rewrite list_lookup_insert_eq by (by eapply lookup_lt_Some).
        rewrite Hx in He. apply Hkeep, elem_of_app. by left.
      * rewrite list_lookup_insert_ne by done. by left.
  - intros m ->. apply Hkeep, elem_of_app. right. unfold broker_step in E.
    apply go_bind_Ret in E as (u & b1 & _ & [= <- _]). by left.
Qed.

Lemma station_part k s y :
  sys_ok A s → station_good A y → step_good A s (put_stations (<[k := y]> (y_stations s)) s).
Proof.
  intros [Hbs Hst Hpop Hposts Hfl Hack] Hy. split_and!; [|done|by left].
  split; simpl; try done. by apply Forall_insert.
Qed.

Lemma radar_part o y fl r :
  station_good A y → rop_in (genuine A) o → radar_step o (view_radar y) = (Ret fl, r) →
  station_good A (put_radar r y).
Proof.
  intros [Hr Hra] Hin E.
  assert (op_long o) as Hlong by (destruct o; try done; by apply genuine_long).
  destruct (radar_step_ok o (view_radar y) Hr Hlong) as (fl' & r' & E' & Hok & _).
  rewrite E in E'. injection E' as <- <-.
  pose proof (radar_step_all (genuine A) (genuine_promote A) o (view_radar y) (ok_queue _ Hr) Hra Hin) as Hall.
  rewrite E in Hall. simpl in Hall.
  assert (view_radar (put_radar r y) = r) as Ev by (by destruct r). unfold station_good. by rewrite Ev.
Qed.

Lemma radar_runs o y :
  station_good A y → rop_in (genuine A) o → ∃ fl r, radar_step o (view_radar y) = (Ret fl, r).
Proof.
  intros [Hr _] Hin. assert (op_long o) as Hlong by (destruct o; try done; by apply genuine_long).
  destruct (radar_step_ok o (view_radar y) Hr Hlong) as (fl & r & E & _). by exists fl, r.
Qed.

(** *** The handlers of the station *)

Lemma ack_eq e st :
  ∃ answer, handleMissionAck e st =
    (Ret ([mkResolve "SUCCESS" (bare_mission e)], answer),
     set_st_radar (snd (Acknowledge e (st_Radar st))) st).
Proof.
  unfold handleMissionAck, mbind, go_mbind, on_radar, zoom, serve, log_id, or_panic.
  rewrite Acknowledge_eq.
  destruct (records (st_Radar st) !! e), (slice_to e 8); simpl; by eexists.
Qed.

Lemma fallback_eq st :
  pq_ok (pq (st_Radar st)) → Forall (genuine A) (mh (pq (st_Radar st))) →
  fallback_tick st = (Ret [], st) ∨
  ∃ m q, genuine A m ∧ Dequeue (pq (st_Radar st)) = (Ret (m, true), q) ∧
    fallback_tick st = (Ret [mkResolve "REQUEUE" m], set_st_radar (set_pq q (st_Radar st)) st).
Proof.
  intros Hq Hall. unfold fallback_tick, mbind, go_mbind, on_radar, zoom.
  destruct (decide (mh (pq (st_Radar st)) = [])) as [En|Hne].
  - left. rewrite (Dequeue_empty _ En). by destruct st as [[] ?].
  - destruct (Dequeue_ok _ Hq Hne) as (m & q & E & _ & Hp & _). right. exists m, q.
    rewrite Hp in Hall. apply Forall_cons in Hall as [Hm _]. split; [done|]. rewrite E.
    split; [done|]. by rewrite log_id_long by (by apply genuine_long).
Qed.

Lemma pull_eq now net droneID st :
  match result (GetJSON (NewHTTPClient (2 * second)) decode_mission net) with
  | inl m => genuine A m
  | inr _ => True
  end →
  (∃ r, handleMissionPull decode_mission now net droneID st = (Ret r, st) ∧ sr_mission r = None) ∨
  ∃ m, result (GetJSON (NewHTTPClient (2 * second)) decode_mission net) = inl m ∧
    handleMissionPull decode_mission now net droneID st =
      (Ret (mkSResponse 200 (Some m) ""),
       set_st_radar (snd (MarkInFlight now m lease (st_Radar st))) st).
Proof.
  intros Hg. unfold handleMissionPull, mbind, go_mbind, get.
  destruct (RegisteredDrones st !! droneID); [|left; by eexists].
  destruct (result _) as [m|e]; [|left; by eexists].
  apply genuine_long in Hg. right. exists m. split; [done|].
  rewrite bool_decide_eq_false_2 by (intros E; rewrite E in Hg; simpl in Hg; lia).
  unfold on_radar, zoom. rewrite MarkInFlight_eq. by rewrite log_id_long.
Qed.

(** What a message in flight allows. *)
Lemma send_posts_good l s :
  sys_ok A s → Forall (post_ok A (acked s)) l → step_good A s (send_posts l s).
Proof.
  intros [Hb Hst Hpop Hposts Hfl Hack] Hl. split_and!; [|done|by left].
  split; try done. simpl. by apply Forall_app.
Qed.

Lemma complete_good e s : sys_ok A s → e ∈ flown s → step_good A s (complete e s).
Proof.
  intros [Hb Hst Hpop Hposts Hfl Hack] He.
  split_and!; [|by right|by left]. split; try done.
  - simpl. eapply Forall_impl; [exact Hposts|]. intros r [?|[? ?]]; [by left|].
    right. split; [done|]. by right.
  - simpl. intros e'. rewrite elem_of_cons. intros [->|?]; [done|by apply Hack].
Qed.

Lemma hand_over_good e s :
  sys_ok A s → (∃ m, m ∈ A ∧ mission_id m = e) → step_good A s (hand_over e s).
Proof.
  intros [Hb Hst Hpop Hposts Hfl Hack] He.
  split_and!; [|done|by left]. split; try done; simpl.
  - intros e'. rewrite elem_of_cons. intros [->|?]; [done|by apply Hfl].
  - intros e' He'. right. by apply Hack.
Qed.

Lemma send_answer_good m s : sys_ok A s → genuine A m → step_good A s (send_answer m s).
Proof.
  intros [Hb Hst Hpop Hposts Hfl Hack] Hm. split_and!; [|done|by left].
  split; try done. by constructor.
Qed.

(** *** One step *)

Definition runs_good (o : sys_op) (s : System) : Prop :=
  ∃ s', sys_step o s = (Ret (), s') ∧ step_good A s s'.

Lemma runs_same o s : sys_ok A s → sys_step o s = (Ret (), s) → runs_good o s.
Proof. intros Hs E. exists s. split; [done|by apply step_good_refl]. Qed.

(** Start of a step whose messages are there. *)
Local Ltac begin_step :=
  unfold sys_step, mbind, go_mbind, get; cbn [own_section negb].

Lemma own_broker_good b o s :
  sys_ok A s → own_section (SBroker b o) = true → (∀ m, o = BArrive m → m ∈ A) →
  ∃ s', sys_step (SBroker b o) s = (Ret (), s') ∧ step_good A s s' ∧
    ∀ m, o = BArrive m → is_Some (y_brokers s !! b) → mission_id m ∈ held b s' ∨ mission_id m ∈ acked s'.
Proof.
  intros Hs Hown Harr. destruct (y_brokers s !! b) as [x|] eqn:Hx.
  2: { exists s. split_and!; [|by apply step_good_refl|by intros m _ []].
       unfold sys_step, mbind, go_mbind, get. rewrite Hown. cbn [negb].
       unfold at_broker. by rewrite at_nth_absent. }
  destruct (broker_part b o s x Hs Hx) as (fl & x' & E & Hg & Hin).
  - destruct o; try done. exists mission. split; [by apply Harr|by left].
  - by intros a m ->.
  - exists (put_brokers (<[b := x']> (y_brokers s)) s). split_and!; [|done|].
    + unfold sys_step, mbind, go_mbind, get. rewrite Hown. cbn [negb].
      unfold at_broker. by rewrite (at_nth_run _ _ _ _ _ _ _ _ Hx E).
    + intros m Hm _. unfold held. simpl. rewrite list_lookup_insert_eq by (by eapply lookup_lt_Some).
      by apply Hin.
Qed.

Lemma checkout_good b i now s : sys_ok A s → runs_good (SCheckout b i now) s.
Proof.
  intros Hs. unfold runs_good. begin_step. unfold at_broker. destruct (y_brokers s !! b) as [x|] eqn:Hx.
  2: { rewrite at_nth_absent by done. exists s. split; [done|by apply step_good_refl]. }
  destruct (broker_part b (BCheckout i now) s x Hs Hx) as (fl & x' & E & Hg & _); [done..|].
  assert (checkout_answer i now x =
    (Ret match bs_hand x !! i with Some (Popped, m) => Some m | _ => None end, x')) as Ec.
  { unfold checkout_answer, mbind, go_mbind, get. by rewrite E. }
  rewrite (at_nth_run _ _ _ _ _ _ _ _ Hx Ec).
  destruct (bs_hand x !! i) as [[[] m]|] eqn:Eh; try (by eexists).
  eexists. split; [done|]. eapply step_good_trans; [exact Hg|]. apply send_answer_good; [apply Hg|].
  destruct (broker_there b s x Hs Hx) as [_ (_ & _ & HH)]. exact (hand_elem _ _ _ _ _ HH Eh).
Qed.

Lemma deliver_good b j s : sys_ok A s → runs_good (SDeliver b j) s.
Proof.
  intros Hs. unfold runs_good. begin_step.
  destruct (posts s !! j) as [r|] eqn:Ej; [|exists s; split; [done|by apply step_good_refl]].
  unfold at_broker. destruct (y_brokers s !! b) as [x|] eqn:Hx.
  2: { rewrite at_nth_absent by done. exists s. split; [done|by apply step_good_refl]. }
  pose proof (Forall_lookup_1 _ _ _ _ (so_posts _ _ Hs) Ej) as Hp.
  destruct (broker_part b (BResolve (rq_action r) (rq_mission r)) s x Hs Hx) as (fl & x' & E & Hg & _).
  - intros Ha. destruct Hp as [[_ ?]|[Hn _]]; [done|by rewrite Hn in Ha].
  - intros a m [= <- <-]. destruct Hp as [[? _]|[_ ?]]; [by left|by right].
  - rewrite (at_nth_run _ _ _ _ _ _ _ _ Hx E). by eexists.
Qed.

(** What happens at a station that keeps its invariant. *)
Lemma at_station_good {B} k (m : go StationSys B) s :
  sys_ok A s →
  (∀ y, station_good A y → ∃ a y', m y = (Ret a, y') ∧ station_good A y') →
  ∃ a s', at_station k m s = (Ret a, s') ∧ step_good A s s' ∧
    match y_stations s !! k with
    | Some y => ∃ v, a = Some v ∧ m y = (Ret v, snd (m y))
    | None => a = None
    end.
Proof.
  intros Hs Hm. unfold at_station. destruct (y_stations s !! k) as [y|] eqn:Hy.
  - destruct (Hm y (station_there k s y Hs Hy)) as (a & y' & E & Hy').
    eexists (Some a), _. split; [by apply (at_nth_run _ _ _ _ _ _ _ _ Hy E)|].
    split; [by apply station_part|]. exists a. by rewrite E.
  - exists None, s. split; [by apply at_nth_absent|]. split; [by apply step_good_refl|done].
Qed.

Lemma own_radar_good k o s : sys_ok A s → own_section (SStation k o) = true → runs_good (SStation k o) s.
Proof.
  intros Hs Hown. assert (rop_in (genuine A) o) as Hin by (by destruct o).
  destruct (at_station_good k (radar_of (radar_step o)) s Hs) as (a & s' & E & Hg & _).
  { intros y Hy. destruct (radar_runs o y Hy Hin) as (fl & r & E). exists fl, (put_radar r y).
    split; [unfold radar_of, zoom; by rewrite E|by eapply radar_part]. }
  exists s'. split; [|done]. unfold sys_step, mbind, go_mbind, get. rewrite Hown. cbn [negb]. by rewrite E.
Qed.

(** The pull of a mission a broker has sent, or of none. *)
Lemma pull_runs now net droneID y :
  station_good A y →
  match result (GetJSON (NewHTTPClient (2 * second)) decode_mission net) with
  | inl m => genuine A m
  | inr _ => True
  end →
  ∃ r y', server (handleMissionPull decode_mission now net droneID) y = (Ret r, y') ∧ station_good A y' ∧
    match sr_mission r with
    | Some m => result (GetJSON (NewHTTPClient (2 * second)) decode_mission net) = inl m
    | None => True
    end.
Proof.
  intros Hy Hres. unfold server, zoom.
  destruct (pull_eq now net droneID (ss_station y) Hres) as [(r & E & Hn)|(m & Er & E)]; rewrite E.
  - exists r, y. rewrite Hn. split; [by destruct y|done].
  - eexists _, _. split; [done|]. split; [|done]. rewrite Er in Hres.
    eapply (radar_part (RMark now m lease) y _
      (set_radar (snd (MarkInFlight now m lease (st_Radar (ss_station y)))) (view_radar y)));
      [done|exact Hres|reflexivity].
Qed.

Lemma pull_good k now net droneID s : sys_ok A s → runs_good (SPull k now net droneID) s.
Proof.
  intros Hs. unfold runs_good. begin_step.
  pose proof (λ y Hy, pull_runs now net droneID y Hy) as Hpull.
  destruct (result (GetJSON (NewHTTPClient (2 * second)) decode_mission net)) as [m|err].
  - case_bool_decide as Hm; [|exists s; split; [done|by apply step_good_refl]].
    assert (genuine A m) as Hg.
    { pose proof (so_popped _ _ Hs) as H. rewrite Forall_forall in H. by apply H. }
    destruct (at_station_good k (server (handleMissionPull decode_mission now net droneID)) s Hs)
      as (a & s1 & E & H1 & Ha).
    { intros y Hy. destruct (Hpull y Hy Hg) as (r & y' & E & Hy' & _). by exists r, y'. }
    rewrite E. destruct a as [r0|]; [|by exists s1]. simpl.
    destruct (sr_mission r0) as [m'|] eqn:Em; [|by exists s1].
    eexists. split; [done|]. eapply step_good_trans; [exact H1|]. apply hand_over_good; [apply H1|].
    apply genuine_id. destruct (y_stations s !! k) as [y|] eqn:Hy; [|done].
    destruct Ha as (v & [= <-] & Ev). destruct (Hpull y (station_there k s y Hs Hy) Hg) as (r & y' & Er & _ & Hr).
    rewrite Er in Ev. injection Ev as <-. rewrite Em in Hr. by injection Hr as <-.
  - destruct (at_station_good k (server (handleMissionPull decode_mission now net droneID)) s Hs)
      as (a & s1 & E & H1 & _).
    { intros y Hy. destruct (Hpull y Hy I) as (r & y' & E & Hy' & _). by exists r, y'. }
    rewrite E. by exists s1.
Qed.

(** The acknowledgement ends the lease, whatever the log line does. *)
Lemma ack_runs e y :
  station_good A y →
  ∃ answer y', server (handleMissionAck e) y = (Ret ([mkResolve "SUCCESS" (bare_mission e)], answer), y') ∧
    station_good A y'.
Proof.
  intros Hy. destruct (ack_eq e (ss_station y)) as (answer & E). unfold server, zoom. rewrite E.
  eexists answer, _. split; [done|].
  assert (∃ fl, radar_step (RAck e) (view_radar y) =
    (Ret fl, set_radar (snd (Acknowledge e (st_Radar (ss_station y)))) (view_radar y))) as (fl & Er).
  { unfold radar_step, mbind, go_mbind, radar, zoom. cbn [view_radar rs_radar].
    rewrite Acknowledge_eq. destruct (records (st_Radar (ss_station y)) !! e); by eexists. }
  exact (radar_part (RAck e) y fl _ Hy I Er).
Qed.

Lemma ack_good k e s : sys_ok A s → runs_good (SAck k e) s.
Proof.
  intros Hs. unfold runs_good. begin_step.
  case_bool_decide as He; [|exists s; split; [done|by apply step_good_refl]].
  destruct (at_station_good k (server (handleMissionAck e)) s Hs) as (a & s1 & E & H1 & Ha).
  { intros y Hy. destruct (ack_runs e y Hy) as (answer & y' & E & Hy'). by eexists _, y'. }
  rewrite E. destruct a as [r|]; [|by exists s1]. eexists. split; [done|].
  destruct (y_stations s !! k) as [y|] eqn:Hy; [|done]. destruct Ha as (v & [= <-] & Ev).
  destruct (ack_runs e y (station_there k s y Hs Hy)) as (answer & y' & Er & _). rewrite Er in Ev.
  injection Ev as <-.
  assert (e ∈ flown s1) as He1.
  { revert E. unfold at_station. rewrite (at_nth_run _ _ _ _ _ _ _ _ Hy Er). by intros [= <-]. }
  assert (step_good A s1 (complete e s1)) as H2 by (apply complete_good; [apply H1|exact He1]).
  eapply step_good_trans; [exact H1|]. eapply step_good_trans; [exact H2|].
  apply (send_posts_good _ (complete e s1)); [apply H2|]. constructor; [|done].
  right. split; [done|]. by left.
Qed.

(** A tick of the fallback loop. *)
Lemma fallback_runs y :
  station_good A y →
  ∃ reqs y', server fallback_tick y = (Ret reqs, y') ∧ station_good A y' ∧
    Forall (λ r, rq_action r = "REQUEUE" ∧ genuine A (rq_mission r)) reqs.
Proof.
  intros Hy. pose proof (ok_queue _ (proj1 Hy)) as Hq. destruct Hy as [Hr Hra].
  pose proof (proj1 Hra) as Hall. unfold server, zoom.
  destruct (fallback_eq (ss_station y) Hq Hall) as [E|(m & q & Hm & Ed & E)]; rewrite E.
  - exists [], y. split; [by destruct y|done].
  - eexists _, _. split; [done|]. split; [|by constructor].
    eapply (radar_part RTake y [Left (mission_id m)]
      (set_radar (set_pq q (st_Radar (ss_station y))) (view_radar y))); [done|done|].
    unfold radar_step, mbind, go_mbind, radar, zoom. simpl. by rewrite Ed.
Qed.

Lemma fallback_good k s : sys_ok A s → runs_good (SFallback k) s.
Proof.
  intros Hs. unfold runs_good. begin_step.
  destruct (at_station_good k (server fallback_tick) s Hs) as (a & s1 & E & H1 & Ha).
  { intros y Hy. destruct (fallback_runs y Hy) as (reqs & y' & E & Hy' & _). by eexists _, y'. }
  rewrite E. eexists. split; [done|]. eapply step_good_trans; [exact H1|].
  apply send_posts_good; [apply H1|]. destruct (y_stations s !! k) as [y|] eqn:Hy; [|by subst a].
  destruct Ha as (v & -> & Ev). destruct (fallback_runs y (station_there k s y Hs Hy)) as (reqs & y' & Er & _ & Hf).
  rewrite Er in Ev. injection Ev as <-. eapply Forall_impl; [exact Hf|]. by left.
Qed.

Lemma register_good k now host body s : sys_ok A s → runs_good (SRegister k now host body) s.
Proof.
  intros Hs. unfold runs_good. begin_step.
  destruct (at_station_good k (server (handleRegister now host body)) s Hs) as (a & s1 & E & H1 & _).
  { intros y Hy. unfold server, zoom, handleRegister. destruct body; by eexists _, _. }
  rewrite E. by exists s1.
Qed.

Lemma crash_good k s : sys_ok A s → runs_good (SCrash k) s.
Proof.
  intros Hs. unfold runs_good. begin_step.
  destruct (at_station_good k (modify (λ _, new_station)) s Hs) as (a & s1 & E & H1 & _).
  { intros y _. eexists _, _. split; [done|apply new_station_good]. }
  rewrite E. by exists s1.
Qed.

Lemma foreign_section o s : own_section o = false → sys_step o s = (Ret (), s).
Proof. intros E. unfold sys_step, mbind, go_mbind, get. by rewrite E. Qed.

(** The step brings in a mission at a broker. *)
Definition brings (o : sys_op) (b : nat) (m : Mission) : Prop := o = SBroker b (BArrive m).

Lemma sys_step_good o s :
  sys_ok A s → (∀ b m, brings o b m → m ∈ A) →
  ∃ s', sys_step o s = (Ret (), s') ∧ step_good A s s' ∧
    ∀ b m, brings o b m → is_Some (y_brokers s !! b) → mission_id m ∈ held b s' ∨ mission_id m ∈ acked s'.
Proof.
  intros Hs Harr. assert (∀ o', runs_good o' s → (∀ b m, ¬ brings o' b m) →
    ∃ s', sys_step o' s = (Ret (), s') ∧ step_good A s s' ∧
      ∀ b m, brings o' b m → is_Some (y_brokers s !! b) → mission_id m ∈ held b s' ∨ mission_id m ∈ acked s') as K.
  { intros o' (s' & E & Hg) Hne. exists s'. split_and!; [done|done|]. intros b m H. by destruct (Hne b m). }
  destruct (own_section o) eqn:Eo.
  2: { apply K; [|by intros b m ->]. apply runs_same; [done|by apply foreign_section]. }
  destruct o as [b o|b i now|b j|k o|k now h bd|k now net d|k e|k|k].
  - destruct (own_broker_good b o s Hs Eo) as (s' & E & Hg & Hin); [intros m ->; by apply (Harr b)|].
    exists s'. split_and!; [done|done|]. intros b' m [= <- ->]. by apply Hin.
  - apply K; [by apply checkout_good|done].
  - apply K; [by apply deliver_good|done].
  - apply K; [by apply own_radar_good|done].
  - apply K; [by apply register_good|done].
  - apply K; [by apply pull_good|done].
  - apply K; [by apply ack_good|done].
  - apply K; [by apply fallback_good|done].
  - apply K; [by apply crash_good|done].
Qed.

Lemma elem_of_arrivals o ops m :
  m ∈ arrivals (o :: ops) ↔ (∃ b, brings o b m) ∨ m ∈ arrivals ops.
Proof.
  destruct o as [b []| | | | | | | |]; simpl;
    try (split; [by right|intros [[? [=]]|?]; done]).
  rewrite elem_of_cons. split; (intros [H|?]; [left|by right]).
  - subst. by exists b.
  - destruct H as [? [= _ ->]]. done.
Qed.

Lemma elem_of_arrivals_at o ops b m :
  m ∈ arrivals_at b (o :: ops) ↔ brings o b m ∨ m ∈ arrivals_at b ops.
Proof.
  unfold brings. destruct o as [b' []| | | | | | | |]; simpl;
    try (split; [by right|intros [[=]|?]; done]).
  case_bool_decide as Hb; [subst|].
  - rewrite elem_of_cons. split; (intros [H|?]; [left; congruence|by right]).
  - split; [by right|]. by intros [[= ? ?]|?].
Qed.

(** Nobody joins or leaves. *)
Lemma step_lengths o s :
  length (y_brokers (snd (sys_step o s))) = length (y_brokers s) ∧
  length (y_stations (snd (sys_step o s))) = length (y_stations s).
Proof.
  set (same := λ s', length (y_brokers s') = length (y_brokers s) ∧ length (y_stations s') = length (y_stations s)).
  assert (∀ B b (m : go BrokerSys B), same (snd (at_broker b m s))) as Kb.
  { intros B b m. unfold at_broker, at_nth. destruct (y_brokers s !! b) as [x|]; [|done].
    destruct (m x) as [[] x']; (split; [apply length_insert|done]). }
  assert (∀ B k (m : go StationSys B), same (snd (at_station k m s))) as Ks.
  { intros B k m. unfold at_station, at_nth. destruct (y_stations s !! k) as [y|]; [|done].
    destruct (m y) as [[] y']; (split; [done|apply length_insert]). }
  assert (∀ B C (m : go System B) (f : B → go System C), same (snd (m s)) →
    (∀ a t, same t → same (snd (f a t))) → same (snd ((m ≫= f) s))) as Kbind.
  { intros B C m f Hm Hf. unfold mbind, go_mbind. destruct (m s) as [[a|p] t]; [by apply Hf|done]. }
  change (same (snd (sys_step o s))). unfold sys_step. unfold mbind at 1, go_mbind at 1, get.
  destruct (negb (own_section o)); [done|].
  destruct o; repeat case_match; try done; (apply Kbind; [auto|]);
    intros a t Ht; repeat case_match; exact Ht.
Qed.

Lemma sys_run_good ops s :
  sys_ok A s → (∀ m, m ∈ arrivals ops → m ∈ A) →
  ∃ us s', go_map sys_step ops s = (Ret us, s') ∧ step_good A s s' ∧
    length (y_brokers s') = length (y_brokers s) ∧ length (y_stations s') = length (y_stations s) ∧
    ∀ b m, m ∈ arrivals_at b ops → (b < length (y_brokers s))%nat →
      mission_id m ∈ held b s' ∨ mission_id m ∈ acked s'.
Proof.
  revert s. induction ops as [|o ops IH]; intros s Hs Harr.
  { exists [], s. split_and!; [done|by apply step_good_refl|done|done|by intros b m ?%not_elem_of_nil]. }
  destruct (sys_step_good o s Hs) as (s1 & E1 & Hg1 & Hin1).
  { intros b m H. apply Harr, elem_of_arrivals. left. by exists b. }
  destruct (step_lengths o s) as [Hl1 Hk1]. rewrite E1 in Hl1, Hk1. simpl in Hl1, Hk1.
  destruct (IH s1) as (us & s2 & E2 & Hg2 & Hl2 & Hk2 & Hin2).
  { apply Hg1. }
  { intros m Hm. apply Harr, elem_of_arrivals. by right. }
  exists (() :: us), s2. split_and!; [by eapply go_map_cons|by eapply step_good_trans|congruence|congruence|].
  intros b m [Ho|Hrest]%elem_of_arrivals_at Hb.
  - destruct Hg2 as (_ & Ha & Hh). destruct (Hin1 b m Ho) as [?|?];
      [by apply lookup_lt_is_Some|by apply Hh|right; by apply Ha].
  - apply Hin2; [done|]. by rewrite Hl1.
Qed.
End steps.

(** ** The property *)

(** C2: no mission disappears.  With any number of brokers and stations,
    whatever the network loses, delays, reorders or duplicates, wherever it
    routes a message, however the goroutines interleave, and whenever stations
    die and start anew, nothing panics (while the identifiers that came in have
    eight bytes), every event that came in at a broker is still held by that
    broker or has been reported complete by a drone that was given it, and
    every mission a broker queues or hands out is one that came in, unchanged
    but for a promotion. *)
Theorem mission_survives n k ops :
  Forall (λ m, (8 ≤ String.length (mission_id m))%nat) (arrivals ops) →
  ∃ us s', go_map sys_step ops (initial_system n k) = (Ret us, s') ∧
    (∀ b m, (b < n)%nat → m ∈ arrivals_at b ops → mission_id m ∈ held b s' ∨ mission_id m ∈ acked s') ∧
    (∀ b x m, y_brokers s' !! b = Some x → m ∈ mh (b_queue (bs_broker x)) → genuine (arrivals ops) m) ∧
    (∀ m, m ∈ popped s' → genuine (arrivals ops) m) ∧
    (∀ e, e ∈ acked s' → e ∈ flown s' ∧ ∃ m, m ∈ arrivals ops ∧ mission_id m = e).
Proof.
  intros Hl. destruct (sys_run_good (arrivals ops) Hl ops (initial_system n k))
    as (us & s' & E & Hg & _ & _ & Hin); [apply initial_ok|done|].
  exists us, s'. split; [done|]. split.
  { intros b m Hb Hm. apply Hin; [done|]. simpl. by rewrite length_replicate. }
  destruct Hg as ([Hb Hst Hpop Hposts Hfl Hack] & _). split_and!.
  - intros b x m Hx Hm. destruct (Forall_lookup_1 _ _ _ _ Hb Hx) as [_ (HQ & _)].
    rewrite Forall_forall in HQ. by apply HQ.
  - intros m Hm. rewrite Forall_forall in Hpop. by apply Hpop.
  - intros e He. split; [by apply Hack|]. by apply Hfl, Hack.
Qed.
End system.

(** Two brokers and two stations.  The first station dies with the mission,
    the hand-back never comes, the broker's janitor takes it back, and a second
    drone at the second station completes it; its report reaches the wrong
    broker first. *)
Lemma mission_survives_witness :
  let m := sample "event-001" false 3 in
  let decode := λ body, if bool_decide (body = "event-001") then Some m else None in
  let net := λ _, Resp 200 "event-001" in
  let ops := [SBroker 0 (BArrive m); SBroker 0 BPop; SCheckout 0 0 0; SRegister 0 0 "h" (Some "UAV-1");
    SPull 0 1 net "UAV-1"; SCrash 0; SBroker 0 (BExpire (61 * second) "event-001"); SBroker 0 (BGive 0);
    SBroker 0 BPop; SCheckout 0 0 (62 * second); SRegister 1 0 "h" (Some "UAV-2");
    SPull 1 (62 * second) net "UAV-2"; SAck 1 "event-001"; SDeliver 1 0; SDeliver 0 0] in
  ∃ us s', go_map (sys_step (RG := ToyRing) decode) ops (initial_system 2 2) = (Ret us, s') ∧
    (mission_id m ∉ held 0 s') ∧ (mission_id m ∈ held 0 s' ∨ mission_id m ∈ acked s') ∧
    popped s' = [m; m].
Proof.
  intros m decode net ops. destruct (mission_survives (RG := ToyRing) decode 2 2 ops) as (us & s' & E & Hin & _).
  - repeat constructor.
  - exists us, s'. split; [exact E|]. split; [|split; [apply Hin; [lia|by left]|]];
      revert E; vm_compute; intros [= _ <-]; [|reflexivity].
    apply not_elem_of_nil.
Defined.

(** A report that reaches only the wrong broker is lost: the mission flies
    again. *)
Example wrong_broker_flies_again :
  let m := sample "event-001" false 3 in
  let decode := λ body, if bool_decide (body = "event-001") then Some m else None in
  let net := λ _, Resp 200 "event-001" in
  let ops := [SBroker 0 (BArrive m); SBroker 0 BPop; SCheckout 0 0 0; SRegister 0 0 "h" (Some "UAV-1");
    SPull 0 1 net "UAV-1"; SAck 0 "event-001"; SDeliver 1 0;
    SBroker 0 (BExpire (61 * second) "event-001"); SBroker 0 (BGive 0); SBroker 0 BPop;
    SCheckout 0 0 (61 * second); SPull 0 (61 * second) net "UAV-1"] in
  let s := go_run (go_map (sys_step (RG := ToyRing) decode) ops) (initial_system 2 2) in
  acked s = ["event-001"] ∧ flown s = ["event-001"; "event-001"].
Proof. split; by vm_compute. Qed.
