(* ===== verification/Drone.v ===== *)
(** * The drone (cmd/drone/main.go)

    The main loop over the drone's session, and [executeMission] as the
    interleaving of the flight and the heartbeat goroutine over two
    unbuffered channels.  The requests are bytes and their answers what the
    network brings; the flight time and the moments of the ticks are
    nondeterministic. *)

From S2P Require Import Prelude GoStd Model Interfaces Json JsonProps JsonDecoded Rfc3339 Wire.
From S2P Require Import Keys LedgerApp HTTPClient Http LedgerClient Buffers.
Local Open Scope Z_scope.

(** ** executeMission *)

(** The flight: waiting in its [select], sending on [doneChan], or returned. *)
Inductive flight_pc : Type :=
| FWait
| FSendDone
| FReturned (success : bool).

(** The heartbeat: waiting in its [select], in a renewal request, sending on
    [abortChan], or gone; with the consecutive failures so far. *)
Inductive beat_pc : Type :=
| HSelect (failures : nat)
| HPing (failures : nat)
| HSendAbort
| HExited.

(** [pings]: the outcomes of the renewals, latest first. *)
Record flight : Type := mkFlight {
  fl_main : flight_pc;
  fl_beat : beat_pc;
  pings : list bool;
}.

Definition take_off : flight := mkFlight FWait (HSelect 0) [].

(** What can happen next. *)
Inductive event : Type :=
| Tick_fires            (* the heartbeat's ticker *)
| Ping (ok : bool)      (* the renewal returns *)
| Landed                (* the flight's timer *)
| Abort_received        (* rendezvous on abortChan *)
| Done_received.        (* rendezvous on doneChan *)

(** [None]: the event cannot happen in this state. *)
Definition flight_step (e : event) (s : flight) : option flight :=
  match e, fl_main s, fl_beat s with
  | Tick_fires, _, HSelect n => Some (mkFlight (fl_main s) (HPing n) (pings s))
  | Ping true, _, HPing _ => Some (mkFlight (fl_main s) (HSelect 0) (true :: pings s))
  | Ping false, _, HPing n =>
    let consecutiveFailures := S n in
    Some (mkFlight (fl_main s)
            (if Nat.leb 3 consecutiveFailures then HSendAbort else HSelect consecutiveFailures)
            (false :: pings s))
  | Landed, FWait, _ => Some (mkFlight FSendDone (fl_beat s) (pings s))
  | Abort_received, FWait, HSendAbort => Some (mkFlight (FReturned false) HExited (pings s))
  | Done_received, FSendDone, HSelect _ => Some (mkFlight (FReturned true) HExited (pings s))
  | _, _, _ => None
  end.

Inductive reachable : flight → Prop :=
| reach_start : reachable take_off
| reach_step e s s' : reachable s → flight_step e s = Some s' → reachable s'.

Definition stuck (s : flight) : Prop := ∀ e, flight_step e s = None.

Fixpoint flight_run (es : list event) (s : flight) : option flight :=
  match es with
  | [] => Some s
  | e :: es => s' ← flight_step e s; flight_run es s'
  end.

(** Renewals that failed since the last one that succeeded. *)
Fixpoint failing (l : list bool) : nat :=
  match l with false :: l => S (failing l) | _ => O end.

(** Three failures in a row somewhere in the history. *)
Fixpoint lost (l : list bool) : bool :=
  match l with
  | [] => false
  | b :: l' => Nat.leb 3 (failing l) || lost l'
  end.

(** ** The main loop *)

Record Drone : Type := mkDrone {
  d_ID : string;
  DiscoveryURL : string;
  ActiveStationURL : string;
  CometURL : string;
  IsRegistered : bool;
}.

Definition set_session (url : string) (reg : bool) (d : Drone) : Drone :=
  mkDrone (d_ID d) (DiscoveryURL d) url (CometURL d) reg.

(** What [main] builds; [os.Getenv] does not tell an empty variable from a
    missing one.  [raw] is the draw behind [rand.Intn(9000)]. *)
Definition Getenv (env : gmap string string) (key : string) : string := default "" (LookupEnv env key).

Definition drone_main (env : gmap string string) (raw : Z) : Drone :=
  let droneID := Getenv env "DRONE_ID" in
  let droneID := if bool_decide (droneID = "") then "UAV-" +:+ Itoa (raw mod 9000 + 1000) else droneID in
  let stationURL := Getenv env "STATION_URL" in
  let stationURL := if bool_decide (stationURL = "") then "http://tasks.station:8081" else stationURL in
  let cometURL := Getenv env "COMET_URL" in
  let cometURL := if bool_decide (cometURL = "") then "http://comet_node:26657" else cometURL in
  mkDrone droneID stationURL "" cometURL false.

(** What the drone sends. *)
Inductive drone_effect : Type :=
| SendRegister (url payload : string)
| SendPull (url : string)
| SendAck (url payload : string)
| SendReport (url body : string).

(** The world's part in one turn of the loop: what the attempts to register
    and to pull meet, how the flight went with its duration in nanoseconds,
    and the wall clock. *)
Record turn : Type := mkTurn {
  tn_register : nat → attempt;
  tn_pull : nat → attempt;
  tn_flight : bool * Z;
  tn_unix : Z;
}.

Definition drone_client : HTTPClient := NewHTTPClient (2 * second).

Definition register (net : nat → attempt) : go Drone (list drone_effect) :=
  d ← get;
  let payload := encode_register (d_ID d) in
  let effs := [SendRegister (DiscoveryURL d +:+ "/api/drone/register") payload] in
  match result (PostJSON drone_client (Some payload) decode_direct net) with
  | inl url =>
    if bool_decide (url = "") then mret effs else modify (set_session url true) ;; mret effs
  | inr _ => mret effs
  end.

Definition pull_url (d : Drone) : string :=
  ActiveStationURL d +:+ "/api/mission/pull?drone_id=" +:+ d_ID d.

Definition pullMission `{!TimeText} (net : nat → attempt) :
    go Drone (option Mission * list drone_effect) :=
  d ← get;
  match result (GetJSON drone_client decode_mission net) with
  | inl m => mret (if bool_decide (mission_id m = "") then None else Some m, [SendPull (pull_url d)])
  | inr _ => mret (None, [SendPull (pull_url d)])
  end.

Section report.
Context {ED : Ed25519} {TC : TxCodec} {TT : TimeText}.

(** [json.Marshal] of the report, its keys sorted. *)
Definition report_json (droneID : string) (m : Mission) (flightTime unix : Z) : string :=
  encode_object
    [("drone_id", encode_string droneID);
     ("duration_ms", Itoa (flightTime / millisecond));
     ("sector", Itoa (SectorID (Payload m)));
     ("status", encode_string "NEUTRALIZED");
     ("target", encode_string (SensorID (Payload m)));
     ("timestamp", Itoa unix)].

(** The request; the answer only decides which line is logged, and the
    success line slices the identifier, which [executeMission] already did. *)
Definition saveReportToLedger (m : Mission) (flightTime unix : Z) : go Drone (list drone_effect) :=
  d ← get;
  tx ← report_tx_of (Payload m) (report_json (d_ID d) m flightTime unix);
  mret [SendReport (CometURL d) (rpc_request "1" (Marshal_tx tx))].

Definition sendAck (eventID : string) : go Drone (list drone_effect) :=
  d ← get; mret [SendAck (ActiveStationURL d +:+ "/api/mission/ack") (encode_ack eventID (d_ID d))].

(** One turn of the [for] of [main]. *)
Definition drone_turn (t : turn) : go Drone (list drone_effect) :=
  d ← get;
  if negb (IsRegistered d) then register (tn_register t)
  else
    '(found, effs) ← pullMission (tn_pull t);
    match found with
    | None => mret effs
    | Some m =>
      log_id (mission_id m) ;;
      let '(success, flightTime) := tn_flight t in
      if (success : bool) then
        ack ← sendAck (mission_id m);
        rep ← saveReportToLedger m flightTime (tn_unix t);
        mret (effs ++ ack ++ rep)
      else modify (set_session "" false) ;; mret effs
    end.
End report.

(** ** Lemmas *)

(** What the heartbeat's state says about the history. *)
Definition beat_inv (s : flight) : Prop :=
  match fl_beat s with
  | HSelect n | HPing n => (n < 3)%nat ∧ failing (pings s) = n ∧ lost (pings s) = false
  | HSendAbort => failing (pings s) = 3%nat
  | HExited => True
  end ∧
  match fl_main s with
  | FReturned true => fl_beat s = HExited ∧ lost (pings s) = false
  | FReturned false => fl_beat s = HExited ∧ failing (pings s) = 3%nat
  | _ => fl_beat s ≠ HExited
  end.

Lemma flight_step_inv e s s' : beat_inv s → flight_step e s = Some s' → beat_inv s'.
Proof.
  destruct s as [m b l]. unfold beat_inv. simpl. intros [Hb Hm] E.
  destruct e as [|ok| | |]; cbn [flight_step fl_main fl_beat pings] in E.
  - destruct b as [n|n| |]; try done. injection E as <-. simpl.
    split; [done|]. destruct m as [| |[]]; try done; by destruct Hm.
  - destruct ok, b as [n|n| |]; try done; injection E as <-; cbn [fl_beat fl_main pings].
    + destruct Hb as (Hn & Hf & Hl). split; [split_and!; [lia|done|done]|].
      destruct m as [| |[]]; try done; by destruct Hm.
    + destruct Hb as (Hn & Hf & Hl).
      split; [|by destruct m as [| |[]], n as [|[|[|n]]]; try done; destruct Hm].
      destruct n as [|[|[|n]]]; [| | |lia]; simpl; rewrite Hf, ?Hl; [by split_and!; try lia..|done].
  - destruct m; try done. injection E as <-. by destruct b.
  - destruct m; try done. destruct b; try done. injection E as <-. simpl. by split.
  - destruct m; try done. destruct b; try done. injection E as <-. simpl. by destruct Hb as (_ & _ & ?).
Qed.

Lemma reachable_inv s : reachable s → beat_inv s.
Proof.
  induction 1 as [|e s s' _ IH E]; [by split_and!; simpl; try lia|]. by eapply flight_step_inv.
Qed.

Lemma flight_run_reachable es s s' : reachable s → flight_run es s = Some s' → reachable s'.
Proof.
  revert s. induction es as [|e es IH]; intros s Hs; simpl; [by intros [= <-]|].
  intros (s1 & E & H)%bind_Some. eapply IH; [|exact H]. by econstructor.
Qed.

(** ** The properties *)

(** What a finished flight means: it returns success only if no three
    renewals in a row had failed, and failure only after exactly three in a
    row; in both cases the heartbeat goroutine has ended. *)
Lemma flight_outcome s b :
  reachable s → fl_main s = FReturned b →
  fl_beat s = HExited ∧ (if b then lost (pings s) = false else failing (pings s) = 3%nat).
Proof. intros Hr E. apply reachable_inv in Hr as [_ H]. rewrite E in H. by destruct b. Qed.

(** C34: the one way a flight hangs: a reachable state in which nothing can
    happen is either a returned flight or the deadlock in which the flight is
    sending on [doneChan] while the heartbeat, after its third failure, is
    sending on [abortChan]; and that deadlock is reachable, by a timer that
    fires while the third renewal is failing. *)
Theorem flight_deadlock :
  (∀ s, reachable s → stuck s →
     (∃ b, fl_main s = FReturned b) ∨ fl_main s = FSendDone ∧ fl_beat s = HSendAbort) ∧
  (∃ s, reachable s ∧ stuck s ∧ fl_main s = FSendDone ∧ fl_beat s = HSendAbort).
Proof.
  split.
  - intros s Hr Hs. apply reachable_inv in Hr as [_ Hm]. destruct s as [m b l]. simpl in *.
    destruct m as [| |r]; [| |by left; exists r].
    + specialize (Hs Landed). by destruct b.
    + destruct b as [n|n| |]; [|by specialize (Hs (Ping true))|by right|done].
      by specialize (Hs Done_received).
  - exists (mkFlight FSendDone HSendAbort [false; false; false]). split; [|split_and!; [|done|done]].
    + apply (flight_run_reachable [Tick_fires; Ping false; Tick_fires; Ping false; Tick_fires;
        Landed; Ping false] take_off); [constructor|done].
    + by intros [|[]| | |].
Qed.

Lemma flight_deadlock_witness :
  let s := mkFlight (FReturned true) HExited [true] in
  reachable s ∧ stuck s ∧
  ((∃ b, fl_main s = FReturned b) ∨ fl_main s = FSendDone ∧ fl_beat s = HSendAbort).
Proof.
  intros s.
  assert (reachable s) as Hr.
  { apply (flight_run_reachable [Tick_fires; Ping true; Landed; Done_received] take_off);
      [constructor|reflexivity]. }
  assert (stuck s) as Hs by (by intros [|[]| | |]).
  split; [exact Hr|split; [exact Hs|]]. apply (proj1 flight_deadlock); assumption.
Defined.

Section loop.
Context {ED : Ed25519} {EL : Ed25519Laws} {TC : TxCodec} {TT : TimeText}.

(** C38: a turn of the drone: without a session it only registers, and an
    answer with a URL pins the station that gave it; with one it pulls, and a
    mission it completed is acknowledged to that station and then reported to
    the ledger, once each, under the mission's nation and event; one it
    aborted is neither, and ends the session; when the pull yields nothing the
    session stays, whatever the reason. *)
Theorem drone_turn_spec t d :
  let url := result (PostJSON drone_client (Some (encode_register (d_ID d))) decode_direct (tn_register t)) in
  let pulled := result (GetJSON drone_client decode_mission (tn_pull t)) in
  (IsRegistered d = false →
     ∃ d', drone_turn t d = (Ret [SendRegister (DiscoveryURL d +:+ "/api/drone/register")
         (encode_register (d_ID d))], d') ∧
       (IsRegistered d' = true ↔ ∃ u, url = inl u ∧ u ≠ "") ∧
       (IsRegistered d' = true → url = inl (ActiveStationURL d'))) ∧
  (IsRegistered d = true → (∀ m, pulled = inl m → mission_id m = "") →
     drone_turn t d = (Ret [SendPull (pull_url d)], d)) ∧
  (∀ m flightTime, IsRegistered d = true → pulled = inl m → (8 ≤ String.length (mission_id m))%nat →
     (tn_flight t = (true, flightTime) →
        drone_turn t d =
          (Ret [SendPull (pull_url d);
                SendAck (ActiveStationURL d +:+ "/api/mission/ack") (encode_ack (mission_id m) (d_ID d));
                SendReport (CometURL d) (rpc_request "1" (Marshal_tx
                  (signed (NationID (Payload m)) SAVE_REPORT (mission_id m)
                    (report_json (d_ID d) m flightTime (tn_unix t)))))], d)) ∧
     (tn_flight t = (false, flightTime) →
        drone_turn t d = (Ret [SendPull (pull_url d)], set_session "" false d))).
Proof.
  intros url pulled. split_and!.
  - intros Hr. unfold drone_turn, mbind at 1, go_mbind at 1, get at 1. rewrite Hr. cbn [negb].
    unfold register, mbind, go_mbind, get. fold url. destruct url as [u|e].
    + case_bool_decide as Hu.
      * eexists. split; [done|]. rewrite Hr. split; [|done]. split; [done|]. by intros (? & [= <-] & ?).
      * eexists. split; [done|]. simpl. split; [|done]. split; [|done]. intros _. by exists u.
    + eexists. split; [done|]. rewrite Hr. split; [|done]. split; [done|]. by intros (? & [=] & _).
  - intros Hr Hnone. unfold drone_turn, pullMission, mbind, go_mbind, get. rewrite Hr. fold pulled.
    destruct pulled as [m|e]; [|done]. by rewrite bool_decide_eq_true_2 by (by apply Hnone).
  - intros m flightTime Hr Hp Hl.
    assert (bool_decide (mission_id m = "") = false) as Hne.
    { apply bool_decide_eq_false. intros E. rewrite E in Hl. simpl in Hl. lia. }
    split; intros Hf; unfold drone_turn, pullMission, mbind, go_mbind, get; rewrite Hr; fold pulled;
      rewrite Hp, Hne; cbn [negb mret go_mret]; rewrite log_id_long by done; rewrite Hf; [|done].
    unfold sendAck, saveReportToLedger, mbind, go_mbind, get. cbn [mret go_mret].
    by rewrite report_tx_of_eq.
Qed.
End loop.

Lemma flight_outcome_witness :
  let s := mkFlight (FReturned false) HExited [false; false; false; true] in
  fl_beat s = HExited ∧ failing (pings s) = 3%nat.
Proof.
  intros s. refine (flight_outcome s false _ _); [|done].
  apply (flight_run_reachable [Tick_fires; Ping true; Tick_fires; Ping false; Tick_fires; Ping false;
    Tick_fires; Ping false; Abort_received] take_off); [constructor|done].
Defined.

Lemma drone_turn_spec_witness :
  let d := mkDrone "UAV-1" "http://tasks.station:8081" "http://c2:8081" "http://comet" true in
  let m := newMission (mkSensorData "event-001" "S" 1 true false 0 "BR" "") 3 in
  drone_turn (mkTurn (λ _, ConnErr) (λ _, Resp 200 (json_line (json_Marshal_mission m))) (false, 0) 0) d =
    (Ret [SendPull "http://c2:8081/api/mission/pull?drone_id=UAV-1"], set_session "" false d).
Proof.
  intros d m. destruct (drone_turn_spec
    (mkTurn (λ _, ConnErr) (λ _, Resp 200 (json_line (json_Marshal_mission m))) (false, 0) 0) d) as (_ & _ & H).
  refine (proj2 (H m 0 _ _ _) _).
  - done.
  - by vm_compute.
  - simpl. lia.
  - done.
Defined.
