(* ===== verification/Handover.v ===== *)
(** * A mission from the broker to the drone and back, byte by byte

    The servers of BrokerHTTP.v and StationHTTP.v and the drone of Drone.v
    joined: what one writes the next reads.  The network delivers each answer
    at the first attempt; System.v is about the networks that do not. *)

From S2P Require Import Prelude GoStd GoHeap Model Interfaces Queue Flow Json JsonProps JsonDecoded Rfc3339 Wire.
From S2P Require Import Keys Radar Buffers HTTPClient Http LedgerClient Router Broker BrokerMissions BrokerHTTP.
From S2P Require Import Station StationHTTP Drone.
Local Open Scope Z_scope.

Section handover.
Context {RG : Ring} {ED : Ed25519} {TC : TxCodec} {TT : TimeText} {TL : TimeTextLaws}.
Implicit Types (b : Broker) (s : StationServer) (d : Drone).

(** An answer below 400 that arrives at once is what the caller decodes. *)
Lemma GetJSON_first {A} hc (decode : string → option A) code body x :
  code < 400 → decode body = Some x →
  result (GetJSON hc decode (λ _, arrives (Some (mkHttp code body)))) = inl x.
Proof.
  intros Hc Hd. unfold GetJSON, call. cbn [attempts arrives hs_status hs_body].
  unfold retry_get, answer. rewrite (proj2 (Z.leb_gt 500 code)), (proj2 (Z.eqb_neq code 408)) by lia.
  cbn [orb result]. rewrite (proj2 (Z.leb_gt 400 code)) by lia. by rewrite Hd.
Qed.

Definition pop_request : http_request := mkRequest MGet "/queue/pop" "" "".

Definition ack_request (eventID droneID : string) : http_request :=
  mkRequest MPost "/api/mission/ack" "" (encode_ack eventID droneID).

Definition mission_body (m : Mission) : http_response := mkHttp 200 (json_line (json_Marshal_mission m)).

Lemma GetJSON_mission hc m :
  wf_mission m → result (GetJSON hc decode_mission (λ _, arrives (Some (mission_body m)))) = inl m.
Proof. intros Hm. apply GetJSON_first; [done|by apply decode_mission_round]. Qed.

Definition long_id (m : Mission) : Prop := (8 ≤ String.length (mission_id m))%nat.

Lemma broker_pop_bytes now reason net b :
  pq_ok (b_queue b) → mh (b_queue b) ≠ [] → (∀ m, m ∈ mh (b_queue b) → long_id m) →
  ∃ m b1, broker_serve now reason net pop_request b = (Ret (Some (mission_body m)), b1) ∧
    mh (b_queue b) ≡ₚ m :: mh (b_queue b1) ∧ (∀ y, y ∈ mh (b_queue b) → before m y) ∧
    b_pending b1 !! mission_id m = Some (mkPending m now) ∧ pq_ok (b_queue b1).
Proof.
  intros Hq Hne Hl. destruct (Dequeue_ok _ Hq Hne) as (m & q & E & Hok & Hp & _ & Hb).
  apply on_queue_run in E. assert (long_id m) as Hm by (apply Hl; rewrite Hp; by left).
  exists m, (set_pending (<[mission_id m := mkPending m now]> (b_pending b)) (set_queue q b)).
  split_and!; [|done|done|by apply lookup_insert_eq|done].
  apply serve_run. unfold SetupRouter. cbn [ServeMux pop_request hq_path].
  rewrite (bool_decide_eq_false_2 ("/health" = _)), (bool_decide_eq_true_2 ("/queue/pop" = _)) by done.
  unfold http_pop, HandleQueuePop, checkout. cbn [pop_request hq_method].
  rewrite (go_bind_run _ _ _ (mkResponse 200 (Some m))
    (set_pending (<[mission_id m := mkPending m now]> (b_pending b)) (set_queue q b))); [done|].
  rewrite (go_bind_run _ _ _ _ _ E). cbn [negb]. unfold mbind, go_mbind, modify.
  by rewrite log_id_long.
Qed.

Lemma station_pull_bytes now hostname m droneID t s :
  wf_mission m → long_id m → RegisteredDrones s !! droneID = Some t → safe_text droneID = true →
  ∃ r s1, ask "/api/mission/pull" "drone_id" droneID = Some r ∧
    station_serve now hostname (λ _, arrives (Some (mission_body m))) r s =
      (Ret ([], Some (mission_body m)), s1) ∧
    records (st_Radar s1) = <[mission_id m := mkRecord m (now + lease)]> (records (st_Radar s)) ∧
    RegisteredDrones s1 = RegisteredDrones s.
Proof.
  intros Hm Hl Ht Hs. destruct (ask_safe "/api/mission/pull" "drone_id" droneID) as (q & Ea & Eq); try done.
  eexists _, (set_st_radar (set_records (<[mission_id m := mkRecord m (now + lease)]>
    (records (st_Radar s))) (st_Radar s)) s).
  split; [exact Ea|]. split; [|split; reflexivity].
  unfold station_serve, station_routes. cbn [ServeMux hq_path].
  rewrite (bool_decide_eq_false_2 ("/health" = _)) by done.
  rewrite (bool_decide_eq_false_2 ("/api/drone/register" = _)) by done.
  rewrite (bool_decide_eq_true_2 ("/api/mission/pull" = _)) by done.
  apply quiet_run. unfold http_pull, handleMissionPull. cbn [hq_query]. rewrite Eq.
  unfold mbind, go_mbind, get. rewrite Ht.
  rewrite GetJSON_mission by done.
  rewrite bool_decide_eq_false_2 by (intros E; unfold long_id in Hl; rewrite E in Hl; simpl in Hl; lia).
  unfold on_radar, zoom. rewrite MarkInFlight_eq. rewrite log_id_long by done. reflexivity.
Qed.

Lemma broker_resolve_bytes now reason net action m x b :
  valid_utf8 action = true → wf_mission m → long_id m → pq_ok (b_queue b) →
  b_pending b !! mission_id m = Some x →
  ∃ b2, broker_serve now reason net (resolve_post (mkResolve action m)) b =
      (Ret (Some (WriteHeader 200)), b2) ∧
    b_pending b2 = delete (mission_id m) (b_pending b) ∧
    mh (b_queue b2) ≡ₚ (if bool_decide (action = "REQUEUE") then [m] else []) ++ mh (b_queue b).
Proof.
  intros Ha Hm Hl Hq Hx. set (b0 := set_pending (delete (mission_id m) (b_pending b)) b).
  assert (∃ b2, HandleQueueResolve MPost (Some (action, m)) b = (Ret (status 200), b2) ∧
    b_pending b2 = b_pending b0 ∧
    mh (b_queue b2) ≡ₚ (if bool_decide (action = "REQUEUE") then [m] else []) ++ mh (b_queue b))
    as (b2 & E & Hp & Hmh).
  { unfold HandleQueueResolve. pose proof (resolve_take_eq (mission_id m) b) as Er. rewrite Hx in Er.
    rewrite (go_bind_run _ _ _ _ _ Er). cbn [negb]. fold b0. unfold mbind, go_mbind.
    case_bool_decide.
    - destruct (enqueue_ok b0 m Hq) as (q & Eq & _ & Hpq). rewrite Eq, log_id_long by done.
      eexists. split_and!; [done|done|done].
    - case_bool_decide; [rewrite log_id_long by done|]; by eexists. }
  exists b2. split_and!; [|done|done]. apply serve_run. unfold SetupRouter, resolve_post.
  cbn [ServeMux hq_path rq_action rq_mission].
  rewrite (bool_decide_eq_false_2 ("/health" = _)), (bool_decide_eq_false_2 ("/queue/pop" = _)),
    (bool_decide_eq_true_2 ("/queue/resolve" = _)) by done.
  unfold http_resolve. cbn [hq_body hq_method].
  rewrite <- (str_app_nil_r (encode_resolve action m)), decode_resolve_round by done.
  by rewrite (go_bind_run _ _ _ _ _ E).
Qed.

Lemma station_ack_bytes now hostname net eventID droneID s :
  valid_utf8 eventID = true → valid_utf8 droneID = true → (8 ≤ String.length eventID)%nat →
  ∃ s2, station_serve now hostname net (ack_request eventID droneID) s =
      (Ret ([mkResolve "SUCCESS" (bare_mission eventID)], Some (WriteHeader 200)), s2) ∧
    records (st_Radar s2) !! eventID = None.
Proof.
  intros He Hd Hl. unfold station_serve, station_routes, ack_request. cbn [ServeMux hq_path].
  rewrite (bool_decide_eq_false_2 ("/health" = _)) by done.
  rewrite (bool_decide_eq_false_2 ("/api/drone/register" = _)) by done.
  rewrite (bool_decide_eq_false_2 ("/api/mission/pull" = _)) by done.
  rewrite (bool_decide_eq_false_2 ("/api/mission/renew" = _)) by done.
  rewrite (bool_decide_eq_true_2 ("/api/mission/ack" = _)) by done.
  unfold http_ack. cbn [hq_body]. rewrite <- (str_app_nil_r (encode_ack eventID droneID)).
  rewrite decode_ack_round by done. unfold handleMissionAck, serve, mbind, go_mbind, on_radar, zoom.
  rewrite Acknowledge_eq. destruct (records (st_Radar s) !! eventID) eqn:E;
    rewrite log_id_long by done; eexists; (split; [reflexivity|]);
    [apply lookup_delete_eq|done].
Qed.

(** C7: over links that deliver, a mission travels from the broker's queue to
    the drone and back as bytes without loss: the drone decodes exactly the
    most urgent mission of the queue, which the broker now lists as pending and
    the station as leased; the bytes of the drone's acknowledgement end the
    lease and make the station post bytes that end the pending entry, and a
    hand-back posts bytes from which the broker restores its queue. *)
Theorem mission_handed_over now1 now2 now3 now4 reason hostname net b s d t :
  pq_ok (b_queue b) → mh (b_queue b) ≠ [] →
  (∀ m, m ∈ mh (b_queue b) → wf_mission m ∧ long_id m) →
  RegisteredDrones s !! d_ID d = Some t → safe_text (d_ID d) = true → valid_utf8 (d_ID d) = true →
  ∃ m b1 a1 r a2 s1,
    (* out *)
    broker_serve now1 reason net pop_request b = (Ret a1, b1) ∧
    ask "/api/mission/pull" "drone_id" (d_ID d) = Some r ∧
    station_serve now2 hostname (λ _, arrives a1) r s = (Ret ([], a2), s1) ∧
    go_val (pullMission (λ _, arrives a2)) d = Ret (Some m, [SendPull (pull_url d)]) ∧
    mh (b_queue b) ≡ₚ m :: mh (b_queue b1) ∧ (∀ y, y ∈ mh (b_queue b) → before m y) ∧
    b_pending b1 !! mission_id m = Some (mkPending m now1) ∧
    records (st_Radar s1) !! mission_id m = Some (mkRecord m (now2 + lease)) ∧
    (* completed *)
    (∃ payload post s2 b2,
      go_val (sendAck (mission_id m)) d = Ret [SendAck (ActiveStationURL d +:+ "/api/mission/ack") payload] ∧
      station_serve now3 hostname net (mkRequest MPost "/api/mission/ack" "" payload) s1 =
        (Ret ([post], Some (WriteHeader 200)), s2) ∧
      records (st_Radar s2) !! mission_id m = None ∧
      broker_serve now4 reason net (resolve_post post) b1 = (Ret (Some (WriteHeader 200)), b2) ∧
      b_pending b2 = delete (mission_id m) (b_pending b1) ∧ mh (b_queue b2) ≡ₚ mh (b_queue b1)) ∧
    (* or given back *)
    ∃ b3, broker_serve now4 reason net (resolve_post (mkResolve "REQUEUE" m)) b1 =
        (Ret (Some (WriteHeader 200)), b3) ∧
      b_pending b3 = delete (mission_id m) (b_pending b1) ∧ mh (b_queue b3) ≡ₚ mh (b_queue b).
Proof.
  intros Hq Hne Hall Hreg Hsafe Hutf.
  destruct (broker_pop_bytes now1 reason net b Hq Hne) as (m & b1 & E1 & Hp & Hb & Hpend & Hq1);
    [by intros m Hm; apply Hall|].
  assert (m ∈ mh (b_queue b)) as Hin by (rewrite Hp; by left). destruct (Hall m Hin) as [Hwf Hlong].
  destruct (station_pull_bytes now2 hostname m (d_ID d) t s) as (r & s1 & Ea & E2 & Hrec & _); try done.
  assert (valid_utf8 (mission_id m) = true) as Hid by apply Hwf.
  assert (wf_mission (bare_mission (mission_id m))) as Hbare by (repeat split; done || by vm_compute).
  destruct (station_ack_bytes now3 hostname net (mission_id m) (d_ID d) s1) as (s2 & E3 & Hgone); try done.
  destruct (broker_resolve_bytes now4 reason net "SUCCESS" (bare_mission (mission_id m)) (mkPending m now1) b1)
    as (b2 & E4 & Hd2 & Hp2); try done.
  destruct (broker_resolve_bytes now4 reason net "REQUEUE" m (mkPending m now1) b1)
    as (b3 & E5 & Hd3 & Hp3); try done.
  exists m, b1, (Some (mission_body m)), r, (Some (mission_body m)), s1.
  split_and!; [done|done|done| |done|done|done| | |].
  - unfold go_val, pullMission, mbind, go_mbind, get.
    rewrite GetJSON_mission by done.
    rewrite bool_decide_eq_false_2; [done|]. intros E. unfold long_id in Hlong. rewrite E in Hlong. simpl in Hlong. lia.
  - rewrite Hrec. apply lookup_insert_eq.
  - exists (encode_ack (mission_id m) (d_ID d)), (mkResolve "SUCCESS" (bare_mission (mission_id m))), s2, b2.
    by split_and!.
  - exists b3. split_and!; [done|done|]. by rewrite Hp3, Hp.
Qed.
End handover.

Lemma mission_handed_over_witness :
  let m := newMission (mkSensorData "event-001" "sensor-sec-03" 3 true false 0 "BR" "") 7 in
  let b := set_queue (mkPQ [m] 100) (initial_broker (RG := ToyRing)) in
  let s := mkStation (NewInFlightManager (New 10)) {[ "UAV-1234" := 0 ]} in
  let d := mkDrone "UAV-1234" "http://tasks.station:8081" "http://c2:8081" "http://comet" true in
  ∃ b1 a1 r a2 s1,
    broker_serve 1 "" (λ _, ConnErr) pop_request b = (Ret a1, b1) ∧
    ask "/api/mission/pull" "drone_id" "UAV-1234" = Some r ∧
    station_serve 2 "c2" (λ _, arrives a1) r s = (Ret ([], a2), s1) ∧
    go_val (pullMission (λ _, arrives a2)) d = Ret (Some m, [SendPull (pull_url d)]).
Proof.
  intros m b s d.
  destruct (mission_handed_over 1 2 3 4 "" "c2" (λ _, ConnErr) b s d 0)
    as (m' & b1 & a1 & r & a2 & s1 & E1 & E2 & E3 & E4 & Hp & _).
  - destruct (Enqueue_ok (New 100) m (New_ok 100)) as (q & E & Hq & _).
    vm_compute in E. injection E as <-. exact Hq.
  - done.
  - intros m' ->%list_elem_of_singleton. split; [repeat split; by vm_compute|].
    apply Nat.leb_le. by vm_compute.
  - done.
  - by vm_compute.
  - by vm_compute.
  - apply Permutation_length_1_inv in Hp. injection Hp as -> _.
    exists b1, a1, r, a2, s1. by split_and!.
Defined.
