(* ===== verification/SystemLive.v ===== *)
(** * The system never gets stuck

    System.v shows that no mission disappears; here, that none is stuck: from
    every state the brokers, the stations and the drones can reach over a
    network that loses, delays, reorders and duplicates, they can still
    complete all missions that came in. *)

From S2P Require Import Prelude GoStd GoHeap Model Interfaces Queue Flow Rfc3339 Wire.
From S2P Require Import Radar Buffers HTTPClient Http Router Broker BrokerMissions BrokerHTTP.
From S2P Require Import Station StationHTTP Drone System Handover.
Local Open Scope Z_scope.

(** ** Continuations *)

(** A step of the future after [T] that brings nothing in, breaks nothing and
    loses nothing. *)
Definition later (T : Z) (o : sys_op) : bool :=
  match o with
  | SBroker _ (BArrive _) | SCrash _ => false
  | SBroker _ (BCheckout _ now) | SBroker _ (BExpire now _) | SCheckout _ _ now
  | SStation _ (RMark now _ _) | SStation _ (RRenew now _ _) | SStation _ (RCollect now _)
  | SRegister _ now _ _ | SPull _ now _ _ => T <=? now
  | _ => true
  end.

Section live.
Context {RG : Ring} {TT : TimeText} {TL : TimeTextLaws}.
Implicit Types s : System.

Definition step (o : sys_op) : go System () := sys_step decode_mission o.

(** Some continuation leads to [P]. *)
Inductive can (T : Z) (P : System → Prop) s : Prop :=
| can_now : P s → can T P s
| can_step o s' : later T o = true → step o s = (Ret (), s') → can T P s' → can T P s.

Lemma can_trans T P Q s : can T P s → (∀ s', P s' → can T Q s') → can T Q s.
Proof. intros H HQ. induction H as [s Hs|s o s' Ho E _ IH]; [by apply HQ|by eapply can_step]. Qed.

Lemma can_run T P s : can T P s →
  ∃ ops us s', Forall (λ o, later T o = true) ops ∧ go_map step ops s = (Ret us, s') ∧ P s'.
Proof.
  induction 1 as [s Hs|s o s' Ho E _ (ops & us & s2 & H1 & H2 & H3)]; [by exists [], [], s|].
  exists (o :: ops), (() :: us), s2. split_and!; [by constructor|by eapply go_map_cons|done].
Qed.

Lemma later_arrivals T ops : Forall (λ o, later T o = true) ops → arrivals ops = [].
Proof. induction 1 as [|o ops Ho _ IH]; [done|]. by destruct o as [? []| | | | | | | |]. Qed.

(** Only broker [b] and the insides of the stations change. *)
Definition touches (b : nat) s s' : Prop :=
  (∀ c, c ≠ b → y_brokers s' !! c = y_brokers s !! c) ∧
  length (y_brokers s') = length (y_brokers s) ∧ length (y_stations s') = length (y_stations s).

#[export] Instance touches_preorder b : PreOrder (touches b).
Proof.
  split; [by intros s|]. intros s1 s2 s3 (H1 & E1 & F1) (H2 & E2 & F2). split_and!; [|congruence..].
  intros c Hc. rewrite H2 by done. by apply H1.
Qed.

(** ** Single steps *)

Definition waiting (x : BrokerSys) : list Mission := mh (b_queue (bs_broker x)).
Definition checked_out (x : BrokerSys) : gmap string PendingMission := b_pending (bs_broker x).

Section steps.
Context (A : list Mission) (HA : Forall (λ m, (8 ≤ String.length (mission_id m))%nat) A) (T : Z).
Context (b : nat) (P : System → Prop).

(** The continuation after a step of broker [b] that leaves it in [x']. *)
Definition then_can s (x' : BrokerSys) (Q : System → Prop) : Prop :=
  ∀ s', sys_ok A s' → touches b s s' → y_brokers s' !! b = Some x' → Q s' → can T P s'.

Lemma stays_ok o s s' : later T o = true → sys_ok A s → step o s = (Ret (), s') → sys_ok A s'.
Proof.
  intros Ho Hs E. destruct (sys_step_good decode_mission A HA o s Hs) as (s1 & E1 & Hg & _);
    [by intros c m ->|]. unfold step in E. rewrite E1 in E. injection E as <-. apply Hg.
Qed.

Lemma can_do o s s' :
  later T o = true → sys_ok A s → step o s = (Ret (), s') →
  (sys_ok A s' → can T P s') → can T P s.
Proof. intros Ho Hs E H. eapply can_step; [done..|]. apply H. by eapply stays_ok. Qed.

Lemma step_broker o s x fl x' :
  own_section (SBroker b o) = true → y_brokers s !! b = Some x → broker_step o x = (Ret fl, x') →
  step (SBroker b o) s = (Ret (), put_brokers (<[b := x']> (y_brokers s)) s).
Proof.
  intros Ho Hx E. unfold step, sys_step, mbind, go_mbind, get. rewrite Ho. cbn [negb].
  unfold at_broker. by rewrite (at_nth_run _ _ _ _ _ _ _ _ Hx E).
Qed.

Lemma put_touches s x' : touches b s (put_brokers (<[b := x']> (y_brokers s)) s).
Proof.
  split_and!; [|simpl; apply length_insert|done]. intros c Hc. simpl. by rewrite list_lookup_insert_ne.
Qed.

Lemma put_there s x x' :
  y_brokers s !! b = Some x → y_brokers (put_brokers (<[b := x']> (y_brokers s)) s) !! b = Some x'.
Proof. intros Hx. simpl. rewrite list_lookup_insert_eq; [done|by eapply lookup_lt_Some]. Qed.

Section one.
Context s (x : BrokerSys) (Hs : sys_ok A s) (Hx : y_brokers s !! b = Some x).

Lemma broker_here : broker_ok x.
Proof. apply (broker_there A b s x Hs Hx). Qed.

(** A section of the broker's own. *)
Lemma can_own o fl x' :
  later T (SBroker b o) = true → own_section (SBroker b o) = true →
  broker_step o x = (Ret fl, x') → then_can s x' (λ _, True) → can T P s.
Proof.
  intros Ho Hown E H. eapply (can_do (SBroker b o)); [done|done|by eapply step_broker|].
  intros Hs'. apply H; [done|apply put_touches|by eapply put_there|done].
Qed.

(** A mission in a goroutine's hand goes on. *)
Lemma all_timed_out k m h :
  bs_hand x = (k, m) :: h → k ≠ Popped →
  (∀ x', bs_hand x' = h → checked_out x' = checked_out x → then_can s x' (λ _, True)) → can T P s.
Proof.
  intros Hh Hk HP.
  assert (8 ≤ String.length (mission_id m))%nat as Hl.
  { apply (bok_long _ broker_here). unfold bplaces. rewrite Hh. apply elem_of_app. right. by left. }
  pose proof (bok_queue _ broker_here) as Hq.
  assert (∃ x', broker_step (BGive 0) x = (Ret [], x') ∧ bs_hand x' = h ∧
    checked_out x' = checked_out x) as (x' & E & E1 & E2).
  { unfold broker_step, mbind, go_mbind, get. rewrite Hh. destruct k; [done|..]; cbn [lookup list_lookup].
    - destruct (enqueue_ok _ m Hq) as (q & E & _). apply broker_run in E. rewrite E.
      eexists. split_and!; [done|done|done].
    - destruct (pending_give_ok _ m Hq Hl) as (q & E & _). apply broker_run in E. rewrite E.
      eexists. split_and!; [done|done|done]. }
  by eapply (can_own (BGive 0)); [..|apply (HP x')].
Qed.

Lemma check_out m h :
  bs_hand x = (Popped, m) :: h →
  (∀ x', bs_hand x' = h → waiting x' = waiting x →
     checked_out x' = <[mission_id m := mkPending m T]> (checked_out x) →
     then_can s x' (λ s', m ∈ popped s')) → can T P s.
Proof.
  intros Hh HP.
  assert (∃ x', checkout_answer 0 T x = (Ret (Some m), x') ∧ bs_hand x' = h ∧ waiting x' = waiting x ∧
    checked_out x' = <[mission_id m := mkPending m T]> (checked_out x)) as (x' & E & E1 & E2 & E3).
  { unfold checkout_answer, broker_step, mbind, go_mbind, get. rewrite Hh. by eexists. }
  eapply (can_do (SCheckout b 0 T)); [apply Z.leb_refl|done| |].
  - unfold step, sys_step, mbind, go_mbind, get. cbn [own_section negb]. unfold at_broker.
    rewrite (at_nth_run _ _ _ _ _ _ _ _ Hx E). reflexivity.
  - intros Hs'. apply (HP x'); [done..|apply put_touches|by eapply put_there|by left].
Qed.

(** The janitor takes what has been checked out, if nothing else happens. *)
Lemma time_out e p :
  checked_out x !! e = Some p →
  (∀ x', bs_hand x' = (TimedOut, pd_Mission p) :: bs_hand x →
     checked_out x' = delete e (checked_out x) → then_can s x' (λ _, True)) → can T P s.
Proof.
  intros Hp HP. set (now := T `max` (CheckoutTime p + pending_timeout + 1)).
  assert (∃ x', broker_step (BExpire now e) x = (Ret [], x') ∧
    bs_hand x' = (TimedOut, pd_Mission p) :: bs_hand x ∧
    checked_out x' = delete e (checked_out x)) as (x' & E & E1 & E2).
  { unfold broker_step. pose proof (pending_take_eq now e (bs_broker x)) as E. unfold checked_out in Hp.
    rewrite Hp in E. rewrite (proj2 (Z.ltb_lt _ _)) in E by (unfold now; lia). apply broker_run in E.
    rewrite (go_bind_run _ _ _ _ _ E). by eexists. }
  eapply (can_own (BExpire now e)); [apply Z.leb_le; unfold now; lia|done|done|by apply (HP x')].
Qed.

Lemma dequeue :
  waiting x ≠ [] →
  (∀ m x', bs_hand x' = (Popped, m) :: bs_hand x → checked_out x' = checked_out x →
     waiting x ≡ₚ m :: waiting x' → then_can s x' (λ _, True)) → can T P s.
Proof.
  intros Hne HP. destruct (Dequeue_ok _ (bok_queue _ broker_here) Hne) as (m & q & E & _ & Hp & _).
  apply on_queue_run, broker_run in E.
  eapply (can_own BPop); [done|done| |].
  - unfold broker_step. rewrite (go_bind_run _ _ _ _ _ E). reflexivity.
  - by apply (HP m).
Qed.

(** A drone flies a mission a broker has handed out, and reports it. *)
Definition UAV : string := "UAV-1".

Lemma fly m :
  wf_mission m → m ∈ popped s → is_Some (checked_out x !! mission_id m) → is_Some (y_stations s !! 0%nat) →
  (∀ x', bs_hand x' = bs_hand x → waiting x' = waiting x →
     checked_out x' = delete (mission_id m) (checked_out x) → then_can s x' (λ _, True)) → can T P s.
Proof.
  intros Hwf Hm [p Hp] [y Hy] HP.
  assert (8 ≤ String.length (mission_id m))%nat as Hl.
  { apply (genuine_long A HA). pose proof (so_popped _ _ Hs) as H. rewrite Forall_forall in H. by apply H. }
  assert (0 < length (y_stations s))%nat as Hlt by (by eapply lookup_lt_Some).
  (* registration *)
  eapply (can_do (SRegister 0 T "" (Some UAV))); [apply Z.leb_refl|done| |].
  { unfold step, sys_step, mbind, go_mbind, get. cbn [own_section negb]. unfold at_station.
    erewrite at_nth_run; [reflexivity|exact Hy|reflexivity]. }
  intros H1. match type of H1 with sys_ok _ ?t => set (s1 := t) in * end.
  assert (∃ y1, y_stations s1 !! 0%nat = Some y1 ∧ is_Some (RegisteredDrones (ss_station y1) !! UAV)) as (y1 & Hy1 & [? Hr]).
  { eexists. split; [by apply list_lookup_insert_eq|]. eexists. apply lookup_insert_eq. }
  (* pull *)
  eapply (can_do (SPull 0 T (λ _, arrives (Some (mission_body m))) UAV) s1); [apply Z.leb_refl|done| |].
  { unfold step, sys_step. rewrite GetJSON_mission by done. unfold mbind at 1, go_mbind at 1, get. cbn [own_section negb].
    rewrite bool_decide_eq_true_2 by done. unfold at_station.
    erewrite (go_bind_run _ _ _ (Some (mkSResponse 200 (Some m) ""))); [reflexivity|].
    eapply at_nth_run; [exact Hy1|].
    unfold server, zoom, handleMissionPull, mbind, go_mbind, get. rewrite Hr, GetJSON_mission by done.
    rewrite bool_decide_eq_false_2 by (intros E; rewrite E in Hl; simpl in Hl; lia).
    unfold on_radar, zoom. rewrite MarkInFlight_eq, log_id_long by done. reflexivity. }
  intros H2. match type of H2 with sys_ok _ ?t => set (s2 := t) in * end.
  assert (∃ y2, y_stations s2 !! 0%nat = Some y2) as [y2 Hy2].
  { eexists. apply list_lookup_insert_eq. simpl. by rewrite length_insert. }
  (* acknowledgement *)
  destruct (ack_eq (mission_id m) (ss_station y2)) as [answer Ea].
  eapply (can_do (SAck 0 (mission_id m)) s2); [done|done| |].
  { unfold step, sys_step, mbind, go_mbind, get. cbn [own_section negb].
    rewrite bool_decide_eq_true_2 by (by left). unfold at_station.
    erewrite (at_nth_run _ _ _ _ _ y2); [reflexivity|exact Hy2|]. unfold server, zoom. rewrite Ea. reflexivity. }
  intros H3. match type of H3 with sys_ok _ ?t => set (s3 := t) in * end.
  (* the station's post *)
  assert (∃ x', broker_step (BResolve "SUCCESS" (bare_mission (mission_id m))) x = (Ret [Left (mission_id m)], x') ∧
    bs_hand x' = bs_hand x ∧ waiting x' = waiting x ∧
    checked_out x' = delete (mission_id m) (checked_out x)) as (x' & E & E1 & E2 & E3).
  { unfold broker_step. pose proof (resolve_take_eq (mission_id (bare_mission (mission_id m))) (bs_broker x)) as E.
    change (mission_id (bare_mission (mission_id m))) with (mission_id m) in *. unfold checked_out in Hp.
    rewrite Hp in E. apply broker_run in E. rewrite (go_bind_run _ _ _ _ _ E). by eexists. }
  eapply (can_do (SDeliver b 0) s3); [done|done| |].
  { unfold step, sys_step, mbind, go_mbind, get. cbn [own_section negb].
    change (posts s3 !! 0%nat) with (Some (mkResolve "SUCCESS" (bare_mission (mission_id m)))). cbv iota.
    unfold at_broker. erewrite at_nth_run; [reflexivity|exact Hx|exact E]. }
  intros H4. apply (HP x'); [done..| |by eapply (put_there s3)|done].
  split_and!; [|simpl; by rewrite length_insert|simpl; by rewrite !length_insert].
  intros c Hc. simpl. by rewrite list_lookup_insert_ne.
Qed.
End one.

(** ** A whole broker *)

Lemma clear_hand s x :
  sys_ok A s → y_brokers s !! b = Some x →
  (∀ x', bs_hand x' = [] → then_can s x' (λ _, True)) → can T P s.
Proof.
  remember (bs_hand x) as h eqn:Eh. symmetry in Eh. revert s x Eh.
  induction h as [|[k m] h IH]; intros s x Eh Hs Hx HP; [by apply (HP x)|].
  assert (∀ x1 (Q : System → Prop), bs_hand x1 = h → then_can s x1 Q) as K.
  { intros x1 Q E1 s1 Hs1 Ht1 Hx1 _. apply (IH s1 x1); [done..|]. intros x2 E2 s2 Hs2 Ht2 Hx2 _.
    apply (HP x2 E2 s2); [done|by etrans|done..]. }
  destruct k.
  - by eapply check_out; [..|intros x1 E1 _ _; by apply K].
  - by eapply all_timed_out; [..|intros x1 E1 _; by apply K].
  - by eapply all_timed_out; [..|intros x1 E1 _; by apply K].
Qed.

(** Everything back into the queue. *)
Lemma clear_pending s x :
  sys_ok A s → y_brokers s !! b = Some x → bs_hand x = [] →
  (∀ x', bs_hand x' = [] → checked_out x' = ∅ → then_can s x' (λ _, True)) → can T P s.
Proof.
  remember (checked_out x) as p eqn:Ep. revert s x Ep.
  induction p as [|e pd p He IH] using map_ind; intros s x Ep Hs Hx Eh HP; [by apply (HP x)|].
  eapply (time_out s x Hs Hx e pd); [rewrite <- Ep; apply lookup_insert_eq|].
  rewrite <- Ep, delete_insert_id by done. intros x1 Eh1 Ep1 s1 Hs1 Ht1 Hx1 _. rewrite Eh in Eh1.
  eapply (all_timed_out s1 x1 Hs1 Hx1); [done|done|]. intros x2 Eh2 Ep2 s2 Hs2 Ht2 Hx2 _.
  apply (IH s2 x2); [by rewrite Ep2|done..|]. intros x3 E3 Ep3 s3 Hs3 Ht3 Hx3 _.
  apply (HP x3 E3 Ep3 s3); [done| |done..]. by do 2 (etrans; [done|]).
Qed.

(** And one after another out to a drone. *)
Lemma clear_queue s x :
  Forall wf_mission A → is_Some (y_stations s !! 0%nat) →
  sys_ok A s → y_brokers s !! b = Some x → bs_hand x = [] → checked_out x = ∅ →
  (∀ x', bplaces x' = [] → then_can s x' (λ _, True)) → can T P s.
Proof.
  intros Hwf. remember (length (waiting x)) as n eqn:En. revert s x En.
  induction n as [|n IH]; intros s x En Hst Hs Hx Eh Ep HP.
  { apply (HP x); [|done..]. symmetry in En. apply nil_length_inv in En.
    unfold bplaces, checked_out, waiting in *. by rewrite Eh, Ep, En. }
  apply (dequeue s x Hs Hx); [by intros E; rewrite E in En|].
  intros m x1 Eh1 Ep1 Hp1 s1 Hs1 Ht1 Hx1 _. rewrite Eh in Eh1.
  eapply (check_out s1 x1 Hs1 Hx1); [done|]. intros x2 Eh2 Ew2 Ep2 s2 Hs2 Ht2 Hx2 Hm.
  assert (wf_mission m) as Hmwf.
  { pose proof (so_popped _ _ Hs2) as H. rewrite Forall_forall in H.
    destruct (H m Hm) as (m0 & H0 & Hm0). rewrite Forall_forall in Hwf. specialize (Hwf m0 H0).
    destruct Hm0 as [->| ->]; [done|]. by destruct m0 as [[]]. }
  assert (∀ t, length (y_stations t) = length (y_stations s) → is_Some (y_stations t !! 0%nat)) as Hthere.
  { intros t Et. apply lookup_lt_is_Some. rewrite Et. by apply lookup_lt_is_Some. }
  eapply (fly s2 x2 Hs2 Hx2 m); [done|done|rewrite Ep2; eexists; apply lookup_insert_eq| |].
  { apply Hthere. destruct Ht2 as (_ & _ & ->), Ht1 as (_ & _ & ->). done. }
  intros x3 Eh3 Ew3 Ep3 s3 Hs3 Ht3 Hx3 _.
  assert (touches b s s3) as Ht by (by do 2 (etrans; [done|])).
  apply (IH s3 x3); [|by apply Hthere, Ht|done|done|by rewrite Eh3| |].
  - apply Permutation_length in Hp1. simpl in Hp1. rewrite Ew3, Ew2. lia.
  - by rewrite Ep3, Ep2, Ep1, Ep, delete_insert_id.
  - intros x4 E4 s4 Hs4 Ht4 Hx4 _. apply (HP x4 E4 s4); [done|by etrans|done..].
Qed.

Lemma clear_broker s x :
  Forall wf_mission A → is_Some (y_stations s !! 0%nat) → sys_ok A s → y_brokers s !! b = Some x →
  (∀ s', sys_ok A s' → touches b s s' → held b s' = [] → can T P s') → can T P s.
Proof.
  intros Hwf Hst Hs Hx HP.
  apply (clear_hand s x Hs Hx). intros x1 Eh1 s1 Hs1 Ht1 Hx1 _.
  apply (clear_pending s1 x1 Hs1 Hx1 Eh1). intros x2 Eh2 Ep2 s2 Hs2 Ht2 Hx2 _.
  assert (touches b s s2) as Ht by (by etrans).
  apply (clear_queue s2 x2 Hwf); [|done..|].
  { apply lookup_lt_is_Some. destruct Ht as (_ & _ & ->). by apply lookup_lt_is_Some. }
  intros x3 E3 s3 Hs3 Ht3 Hx3 _. apply HP; [done|by etrans|]. unfold held. by rewrite Hx3.
Qed.
End steps.

(** ** All brokers *)

Lemma clear_all A T s :
  Forall (λ m, (8 ≤ String.length (mission_id m))%nat) A → Forall wf_mission A →
  is_Some (y_stations s !! 0%nat) → sys_ok A s → can T (λ s', ∀ b, held b s' = []) s.
Proof.
  intros HA Hwf Hst Hs.
  assert (∀ n, (n ≤ length (y_brokers s))%nat → can T (λ s', sys_ok A s' ∧ length (y_brokers s') = length (y_brokers s) ∧
    length (y_stations s') = length (y_stations s) ∧ ∀ b, (b < n)%nat → held b s' = []) s) as K.
  { induction n as [|n IH]; intros Hn; [apply can_now; split_and!; [done..|lia]|].
    eapply can_trans; [apply IH; lia|]. intros s1 (Hs1 & El & Es & Hheld).
    destruct (lookup_lt_is_Some_2 (y_brokers s1) n) as [x Hx]; [lia|].
    eapply (clear_broker A HA T n _ s1 x Hwf); [|done|done|].
    { apply lookup_lt_is_Some. rewrite Es. by apply lookup_lt_is_Some. }
    intros s2 Hs2 (Ho & El2 & Es2) Hh2. apply can_now. split_and!; [done|congruence|congruence|].
    intros b Hb. destruct (decide (b = n)) as [->|Hne]; [done|]. unfold held. rewrite Ho by done.
    apply Hheld. lia. }
  eapply can_trans; [by apply (K (length (y_brokers s)))|]. intros s1 (_ & El & _ & Hheld). apply can_now.
  intros b. destruct (decide (b < length (y_brokers s))%nat) as [Hb|Hb]; [by apply Hheld|].
  unfold held. by rewrite (proj2 (lookup_ge_None (y_brokers s1) b)) by lia.
Qed.

(** ** The property *)

(** C26: no mission is stuck.  Whatever has happened, stations that died and
    lost, delayed, misrouted, reordered and duplicated messages included, a
    continuation after any instant [T] in which nothing new arrives and
    nothing breaks completes every mission that came in: drones report all of
    them, and the brokers hold none. *)
Theorem missions_can_complete n k ops T :
  (0 < k)%nat → Forall (λ m, wf_mission m ∧ (8 ≤ String.length (mission_id m))%nat) (arrivals ops) →
  ∃ ops' us s', Forall (λ o, later T o = true) ops' ∧
    go_map step (ops ++ ops') (initial_system n k) = (Ret us, s') ∧
    (∀ b, held b s' = []) ∧
    (∀ b m, (b < n)%nat → m ∈ arrivals_at b ops → mission_id m ∈ acked s').
Proof.
  intros Hk [Hwf Hl]%Forall_and.
  destruct (sys_run_good decode_mission (arrivals ops) Hl ops (initial_system n k))
    as (us1 & s1 & E1 & Hg1 & _ & Hst & _); [apply initial_ok|done|].
  assert (is_Some (y_stations s1 !! 0%nat)) as Hthere.
  { apply lookup_lt_is_Some. rewrite Hst. simpl. by rewrite length_replicate. }
  destruct (can_run T _ s1 (clear_all (arrivals ops) T s1 Hl Hwf Hthere (proj1 Hg1)))
    as (ops' & us2 & s2 & Hlater & E2 & Hheld).
  assert (arrivals (ops ++ ops') = arrivals ops) as Earr.
  { unfold arrivals at 1. rewrite omap_app. fold (arrivals ops) (arrivals ops').
    by rewrite (later_arrivals T ops' Hlater), app_nil_r. }
  destruct (sys_run_good decode_mission (arrivals ops) Hl (ops ++ ops') (initial_system n k))
    as (us & s' & E & _ & _ & _ & Hin); [apply initial_ok|by rewrite Earr|].
  assert (s' = s2) as ->.
  { unfold step in E2. rewrite go_map_app in E. rewrite (go_bind_run _ _ _ _ _ E1), (go_bind_run _ _ _ _ _ E2) in E.
    by injection E. }
  exists ops', us, s2. split_and!; [done|done|done|]. intros b m Hb Hm.
  destruct (Hin b m) as [Hh|]; [|simpl; by rewrite length_replicate| |done].
  - unfold arrivals_at. rewrite omap_app. apply elem_of_app. by left.
  - rewrite Hheld in Hh. by apply not_elem_of_nil in Hh.
Qed.
End live.

(** A station dies with the mission it was given. *)
Lemma missions_can_complete_witness :
  let m := newMission (mkSensorData "event-001" "sensor-sec-03" 3 true false 0 "BR" "") 7 in
  let net := λ _, arrives (Some (mission_body m)) in
  let ops := [SBroker 0 (BArrive m); SBroker 0 BPop; SCheckout 0 0 0; SRegister 0 0 "h" (Some "UAV-1");
    SPull 0 1 net "UAV-1"; SCrash 0] in
  ∃ ops' us s', Forall (λ o, later (3600 * second) o = true) ops' ∧
    go_map (step (RG := ToyRing)) (ops ++ ops') (initial_system 2 2) = (Ret us, s') ∧
    held 0 s' = [] ∧ "event-001" ∈ acked s'.
Proof.
  intros m net ops.
  destruct (missions_can_complete (RG := ToyRing) 2 2 ops (3600 * second))
    as (ops' & us & s' & Hl & E & Hh & Ha).
  - lia.
  - constructor; [|constructor]. split; [repeat split; by vm_compute|apply Nat.leb_le; by vm_compute].
  - exists ops', us, s'. split; [exact Hl|]. split; [exact E|]. split; [apply Hh|].
    apply (Ha 0%nat m); [lia|by left].
Defined.
