(* ===== verification/Processes.v ===== *)
(** * Brokers and stations as processes

    The pools of goroutines of BrokerThreads.v and StationThreads.v, side by
    side.  Whatever bytes reach whichever process, from sensors, drones and
    other brokers, in whatever order; requests to [/queue/resolve] alone come
    from the stations, each delivered any number of times to any broker, or
    never.  A broker whose worker or loop panics is gone; a station starts
    again. *)

From S2P Require Import Prelude Threads Custody GoStd GoHeap Model Lamport Queue Flow Inventory Interfaces Json JsonProps.
From S2P Require Import JsonDecoded Rfc3339 Wire Keys LedgerApp Radar Router Buffers HTTPClient Http LedgerClient.
From S2P Require Import Broker BrokerMissions BrokerGossip BrokerHTTP BrokerThreads BrokerCustody BrokerLive.
From S2P Require Import Station StationHTTP StationThreads.
Local Open Scope Z_scope.

(** What a GET yields is what some body decodes to. *)
Lemma GetJSON_decoded {A} hc (decode : string → option A) net a :
  result (GetJSON hc decode net) = inl a → ∃ body, decode body = Some a.
Proof.
  unfold GetJSON, call. generalize (S (maxRetries hc)), O, (initialBackoff hc), (@None last_error).
  intros rem. induction rem as [|rem IH]; intros i bo last; [done|]. cbn [attempts].
  destruct (net i) as [| |status body]; [apply IH|apply IH|].
  destruct (retry_get status); [apply IH|]. simpl. unfold answer.
  destruct (400 <=? status); [done|]. destruct (decode body) as [x|] eqn:E; [|done].
  intros [= <-]. by exists body.
Qed.

Section processes.
Context {RG : Ring} {ED : Ed25519} {EL : Ed25519Laws} {TC : TxCodec} {TT : TimeText} {TL : TimeTextLaws}.

(** [w_posts]: the requests the stations have sent to [/queue/resolve]. *)
Record World : Type := mkWorld {
  w_brokers : list (option (Pool Broker signal));
  w_stations : list (Pool StationServer station_signal);
  w_posts : list http_request;
}.

Definition initial_world (n k : nat) : World :=
  mkWorld (replicate n (Some (mkPool initial_broker []))) (replicate k station_boot) [].

(** [json.Marshal] refuses a mission with a lease time it cannot write (here:
    outside the years 1 to 9999), and then nothing is sent. *)
Definition posted (l : list station_signal) : list http_request :=
  omap (λ x, match x with
             | Posts q =>
               let t := LeaseExpires (rq_mission q) in
               if (0 <=? t) && (t <? max_time) then Some (resolve_post q) else None
             | Replies _ _ => None
             end) l.

Definition broker_turn (b : nat) (x : moment) (w : World) : World :=
  match w_brokers w !! b with
  | Some (Some p) =>
    let p' := match broker_moment x p with (Ret _, p') => Some p' | (Panic _, _) => None end in
    mkWorld (<[b := p']> (w_brokers w)) (w_stations w) (w_posts w)
  | _ => w
  end.

Definition station_turn (k : nat) (x : station_moment) (w : World) : World :=
  match w_stations w !! k with
  | Some p =>
    match pool_do (station_moment_op x) p with
    | (Ret l, p') => mkWorld (w_brokers w) (<[k := p']> (w_stations w)) (w_posts w ++ posted l)
    | (Panic _, _) => mkWorld (w_brokers w) (<[k := station_boot]> (w_stations w)) (w_posts w)
    end
  | None => w
  end.

Inductive world_op : Type :=
| At_broker (b : nat) (x : moment)
| Resolves (b j : nat) (now : Z) (reason : string) (net : nat → attempt)
| At_station (k : nat) (x : station_moment)
| Broker_dies (b : nat)
| Station_dies (k : nat).

(** A request that only stations make. *)
Definition foreign (x : moment) : bool :=
  match x with
  | Begin (Handler _ _ _ r) => bool_decide (hq_path r = "/queue/resolve")
  | _ => false
  end.

Definition world_step (w : World) (o : world_op) : World :=
  match o with
  | At_broker b x => if foreign x then w else broker_turn b x w
  | Resolves b j now reason net =>
    match w_posts w !! j with
    | Some r => broker_turn b (Begin (Handler now reason net r)) w
    | None => w
    end
  | At_station k x => station_turn k x w
  | Broker_dies b => mkWorld (<[b := None]> (w_brokers w)) (w_stations w) (w_posts w)
  | Station_dies k => mkWorld (w_brokers w) (<[k := station_boot]> (w_stations w)) (w_posts w)
  end.

Definition world_run (ops : list world_op) (w : World) : World := fold_left world_step ops w.

(** The event a request reports complete. *)
Definition reports (o : world_op) : option string :=
  match o with
  | At_station _ (Launch (Serves _ _ _ r)) =>
    if bool_decide (hq_path r = "/api/mission/ack") then Some (fst (decode_ack (hq_body r))) else None
  | _ => None
  end.

(** ** What stations hold and post *)

Definition typed_station (s : StationServer) : Prop :=
  typed_queue (pq (st_Radar s)) ∧ map_Forall (λ _ x, typed_mission (rec_Mission x)) (records (st_Radar s)).

Section event.
Context (e : string).

Definition fair_signal (x : station_signal) : Prop :=
  match x with
  | Posts q =>
    (rq_action q = "SUCCESS" ∧ ∃ e', valid_utf8 e' = true ∧ e' ≠ e ∧ rq_mission q = bare_mission e') ∨
    (rq_action q = "REQUEUE" ∧ typed_mission (rq_mission q))
  | Replies _ _ => True
  end.

Local Abbreviation good := (behaves (λ _ : (), typed_station) fair_signal).
Local Abbreviation any := (λ _, True).

Lemma radar_good {A} (m : go InFlightManager A) (Q : A → Prop) :
  (∀ r, typed_queue (pq r) → map_Forall (λ _ x, typed_mission (rec_Mission x)) (records r) →
     typed_queue (pq (snd (m r))) ∧ map_Forall (λ _ x, typed_mission (rec_Mission x)) (records (snd (m r))) ∧
     ∀ a, fst (m r) = Ret a → Q a) →
  good Q (atomic (on_radar m)).
Proof.
  intros H. apply behaves_atomic. intros [] s [H1 H2]. destruct (H (st_Radar s) H1 H2) as (H3 & H4 & H5).
  unfold on_radar, zoom. destruct (m (st_Radar s)) as [o r]. by split.
Qed.

Lemma station_log_good e' : good any (atomic (log_id e')).
Proof.
  apply behaves_atomic. intros [] s Hs. unfold log_id. go_unfold. by destruct (slice_to e' 8).
Qed.

Lemma pull_good_typed now net r : good any (pull_thread now net r).
Proof.
  unfold pull_thread. eapply (behaves_bind _ _ _ _ any); [apply behaves_atomic; by intros [] s Hs|].
  intros [x|] _; [|done].
  destruct (result (GetJSON (NewHTTPClient (2 * second)) decode_mission net)) as [m|] eqn:En; [|done].
  case_bool_decide; [done|].
  apply GetJSON_decoded in En as [body Hm]. apply decode_mission_typed in Hm.
  eapply (behaves_bind _ _ _ _ any).
  - apply radar_good. intros rd H1 H2. rewrite MarkInFlight_eq. split_and!; [done|by apply map_Forall_insert_2|done].
  - intros _ _. eapply behaves_bind; [apply station_log_good|]. done.
Qed.

Lemma ack_good_typed r : fst (decode_ack (hq_body r)) ≠ e → good any (ack_thread r).
Proof.
  intros Hne. unfold ack_thread. pose proof (decode_ack_valid (hq_body r)) as Hv.
  destruct (decode_ack (hq_body r)) as [e' d]. cbn [fst] in *.
  eapply (behaves_bind _ _ _ _ any).
  - apply radar_good. intros rd H1 H2. rewrite Acknowledge_eq.
    destruct (records rd !! e'); split_and!; try done. by apply map_Forall_delete.
  - intros _ _. eapply behaves_bind; [apply behaves_emit; left; split; [done|by exists e']|].
    intros _ _. eapply behaves_bind; [apply station_log_good|]. done.
Qed.

Lemma request_good now hostname net r :
  (hq_path r = "/api/mission/ack" → fst (decode_ack (hq_body r)) ≠ e) →
  good any (station_request_thread now hostname net r).
Proof.
  intros Hr. unfold station_request_thread. eapply (behaves_bind _ _ _ _ any); [|done].
  unfold station_threads. cbn [ServeMux]. case_bool_decide; [exact I|].
  case_bool_decide.
  { apply behaves_atomic. intros [] s Hs. unfold http_register, handleRegister. go_unfold.
    by destruct (decode_register (hq_body r)). }
  case_bool_decide; [apply pull_good_typed|].
  case_bool_decide.
  { apply behaves_atomic. intros [] s [Hq Hrec]. unfold http_renew, handleMissionRenew. go_unfold.
    unfold on_radar, zoom. rewrite RenewLease_eq.
    destruct (records (st_Radar s) !! _) as [x|] eqn:Ex; [destruct (after _ _)|]; (split; [|done]); try done.
    split; [done|]. apply map_Forall_insert_2; [exact (Hrec _ _ Ex)|done]. }
  case_bool_decide; [|exact I]. by apply ack_good_typed, Hr.
Qed.

Lemma sweep_good_typed now order : good any (sweep_thread now order).
Proof.
  unfold sweep_thread. eapply (behaves_bind _ _ _ _ (Forall typed_mission)).
  - apply radar_good. intros rd H1 H2. rewrite sweep_collect_eq. cbn [fst snd]. split_and!; [done| |].
    + intros k x [Hx _]%take_all_left. exact (H2 _ _ Hx).
    + intros a [= <-]. rewrite Forall_fmap. apply Forall_forall.
      intros x (k & _ & Hx & _)%take_all_taken. exact (H2 _ _ Hx).
  - intros l Hl. induction Hl as [|m l Hm _ IH]; [done|].
    cbn [routine_for]. eapply (behaves_bind _ _ _ _ any); [|intros _ _; exact IH]. unfold give_thread.
    eapply behaves_bind; [apply station_log_good|]. intros _ _. apply radar_good. intros rd H1 H2.
    destruct (Enqueue_typed m Hm (pq rd) H1) as [H3 _]. unfold requeue, zoom.
    destruct (Enqueue m (pq rd)) as [o q]. by split_and!.
Qed.

Lemma fallback_good_typed : good any fallback_thread.
Proof.
  unfold fallback_thread. eapply (behaves_bind _ _ _ _ (λ r, typed_mission (fst r))).
  - apply radar_good. intros rd H1 H2. destruct (Dequeue_typed (pq rd) H1) as [H3 H4]. unfold zoom.
    destruct (Dequeue (pq rd)) as [o q]. by split_and!.
  - intros [m []] Hm; [|done]. eapply behaves_bind; [apply station_log_good|]. intros _ _.
    apply behaves_emit. by right.
Qed.

Definition fair_goroutine (g : station_goroutine) : Prop :=
  match g with
  | Serves _ _ _ r => hq_path r = "/api/mission/ack" → fst (decode_ack (hq_body r)) ≠ e
  | _ => True
  end.

Lemma station_launch_fair g : fair_goroutine g → task_behaves (λ _ : (), typed_station) fair_signal (station_launch g).
Proof.
  intros Hg. split; [|by destruct g; intros t [= <-]].
  destruct g as [now hostname net r|now order| |c]; cbn [station_launch body].
  - by apply request_good.
  - apply sweep_good_typed.
  - apply fallback_good_typed.
  - apply radar_good. intros rd H1 H2. destruct (aging_typed c (pq rd) H1) as [H3 _]. unfold zoom.
    destruct (antiStarvationRound c (pq rd)) as [o q]. by split_and!.
Qed.

(** A fair post gives the event back, if it names it. *)
Lemma posted_gives_back l r : Forall fair_signal l → r ∈ posted l → gives_back e r.
Proof.
  rewrite Forall_forall. intros Hl ([q|] & Hin & Hr)%list_elem_of_omap; [|done].
  specialize (Hl _ Hin). cbv zeta in Hr. destruct (_ && _) eqn:Ht; [|done]. injection Hr as <-.
  apply andb_true_iff in Ht as [H1 H2].
  intros _ a m. unfold resolve_post. cbn [hq_body]. rewrite <- (str_app_nil_r (encode_resolve _ _)).
  destruct Hl as [(Ha & e' & Hv & Hne & Hm)|(Ha & Hm)]; rewrite Ha.
  - rewrite Hm, decode_resolve_round by (done || by apply wf_bare). intros [= <- <-]. by intros He.
  - rewrite decode_resolve_round by (done || by apply typed_wf; [|lia]). by intros [= <- <-].
Qed.

(** ** The invariant *)

Record world_ok (w : World) : Prop := mkWorldOk {
  wo_brokers b p : w_brokers w !! b = Some (Some p) → calm orderly (in_broker e) p;
  wo_stations : Forall (pool_ok (λ _ : (), typed_station) fair_signal ()) (w_stations w);
  wo_posts : Forall (gives_back e) (w_posts w);
}.

(** Whoever lives still has what it had. *)
Definition keeps_it (w w' : World) : Prop :=
  ∀ b p p', w_brokers w !! b = Some (Some p) → w_brokers w' !! b = Some (Some p') →
    secure orderly (in_broker e) p → secure orderly (in_broker e) p'.

Lemma keeps_it_refl w : keeps_it w w.
Proof. intros b p p' Hp Hp'. congruence. Qed.

Lemma broker_turn_ok b x w :
  world_ok w → (∀ g, x = Begin g → goroutine_gives_back e g) →
  world_ok (broker_turn b x w) ∧ keeps_it w (broker_turn b x w).
Proof.
  intros [H1 H2 H3] Hx. unfold broker_turn.
  destruct (w_brokers w !! b) as [[p|]|] eqn:Eb; [|split; [done|apply keeps_it_refl]..].
  assert (∀ l p', broker_moment x p = (Ret l, p') →
    calm orderly (in_broker e) p' ∧ (secure orderly (in_broker e) p → secure orderly (in_broker e) p')) as K.
  { intros l p' Em. destruct x as [g|i].
    - assert (op_minds orderly (in_broker e) (Spawn (launch g))) as Hg by (by apply launch_keeps, Hx).
      split; [exact (do_calm _ _ p (Spawn (launch g)) l p' Hg (H1 b p Eb) Em)|].
      intros Hs. exact (do_secure _ _ p (Spawn (launch g)) l p' Hg Hs Em).
    - split; [exact (do_calm _ _ p (Run i) l p' I (H1 b p Eb) Em)|].
      intros Hs. exact (do_secure _ _ p (Run i) l p' I Hs Em). }
  assert (b < length (w_brokers w))%nat as Hlt by (by eapply lookup_lt_Some).
  split; [split; [|done|done]|]; simpl.
  - intros b' p0. destruct (decide (b = b')) as [<-|Hne].
    + rewrite list_lookup_insert_eq by done. destruct (broker_moment x p) as [[l|] p'] eqn:Em; [|done].
      intros [= <-]. by eapply K.
    + rewrite list_lookup_insert_ne by done. apply H1.
  - intros b' p0 p1 Hp0. simpl. destruct (decide (b = b')) as [<-|Hne].
    + rewrite list_lookup_insert_eq by done. destruct (broker_moment x p) as [[l|] p'] eqn:Em; [|done].
      intros [= <-]. rewrite Eb in Hp0. injection Hp0 as <-. by eapply K.
    + rewrite list_lookup_insert_ne by done. intros Hp1. congruence.
Qed.

Lemma station_boot_ok : pool_ok (λ _ : (), typed_station) fair_signal () station_boot.
Proof. split; [|constructor]. split; [split; [apply New_ok|constructor]|apply map_Forall_empty]. Qed.

Lemma station_turn_ok k x w :
  world_ok w → (∀ g, x = Launch g → fair_goroutine g) → world_ok (station_turn k x w).
Proof.
  intros [H1 H2 H3] Hx. unfold station_turn. destruct (w_stations w !! k) as [p|] eqn:Ek; [|done].
  pose proof (Forall_lookup_1 _ _ _ _ H2 Ek) as Hp.
  assert (op_behaves (λ _ : (), typed_station) fair_signal (station_moment_op x)) as Ho.
  { destruct x as [g|i]; [|done]. by apply station_launch_fair, Hx. }
  destruct (pool_do_keeps (λ _ : (), typed_station) fair_signal () _ Ho p Hp) as [Hp' Hl].
  destruct (pool_do (station_moment_op x) p) as [[l|] p']; cbn [fst snd] in *.
  - split; simpl; [done|by apply Forall_insert|]. apply Forall_app. split; [done|].
    apply Forall_forall. intros r. by apply posted_gives_back, Hl.
  - split; simpl; [done| |done]. apply Forall_insert; [done|apply station_boot_ok].
Qed.

Lemma world_step_ok w o :
  reports o ≠ Some e → world_ok w → world_ok (world_step w o) ∧ keeps_it w (world_step w o).
Proof.
  intros Hr Hw. pose proof Hw as [H1 H2 H3]. destruct o as [b x|b j now reason net|k x|b|k]; cbn [world_step].
  - destruct (foreign x) eqn:Ef; [split; [done|apply keeps_it_refl]|]. apply broker_turn_ok; [done|].
    intros g ->. destruct g; try done. intros Hp. by apply bool_decide_eq_false in Ef.
  - destruct (w_posts w !! j) as [r|] eqn:Ej; [|split; [done|apply keeps_it_refl]].
    apply broker_turn_ok; [done|]. intros g [= <-]. exact (Forall_lookup_1 _ _ _ _ H3 Ej).
  - split.
    + apply station_turn_ok; [done|]. intros g ->. destruct g; try done. intros Hp He. apply Hr. simpl.
      rewrite bool_decide_eq_true_2 by done. by rewrite He.
    + unfold station_turn. destruct (w_stations w !! k) as [p|]; [|apply keeps_it_refl].
      destruct (pool_do _ p) as [[] ?]; intros b q0 q1; simpl; congruence.
  - split; [split; simpl; [|done|done]|].
    + intros b' p [Hp|[_ Hp]]%list_lookup_insert_Some; [by destruct Hp as (_ & [=] & _)|by eapply H1].
    + intros b' p p' Hp [Hp'|[_ Hp']]%list_lookup_insert_Some; [by destruct Hp' as (_ & [=] & _)|congruence].
  - split; [split; simpl; [done| |done]|intros b p p'; simpl; congruence].
    apply Forall_insert; [done|apply station_boot_ok].
Qed.

Lemma world_run_ok ops w :
  e ∉ omap reports ops → world_ok w → world_ok (world_run ops w).
Proof.
  unfold world_run. revert w. induction ops as [|o ops IH]; intros w Hr Hw; [done|]. simpl in Hr.
  assert (reports o ≠ Some e ∧ e ∉ omap reports ops) as [H1 H2].
  { destruct (reports o); [|done]. apply not_elem_of_cons in Hr as [? ?]. split; [congruence|done]. }
  by apply IH, world_step_ok.
Qed.

(** The dead stay dead. *)
Lemma dead_stays ops w b : w_brokers w !! b = Some None → w_brokers (world_run ops w) !! b = Some None.
Proof.
  unfold world_run. revert w. induction ops as [|o ops IH]; intros w Hb; [done|]. apply IH.
  assert (∀ b' x, w_brokers (broker_turn b' x w) !! b = Some None) as K.
  { intros b' x. unfold broker_turn. destruct (w_brokers w !! b') as [[p|]|] eqn:E; [|done..]. simpl.
    destruct (decide (b' = b)) as [->|]; [congruence|]. by rewrite list_lookup_insert_ne. }
  destruct o as [b' x|b' j now reason net|k x|b'|k]; cbn [world_step].
  - by destruct (foreign x).
  - by destruct (w_posts w !! j).
  - unfold station_turn. destruct (w_stations w !! k) as [p|]; [|done]. by destruct (pool_do _ p) as [[] ?].
  - simpl. destruct (decide (b' = b)) as [->|]; [|by rewrite list_lookup_insert_ne].
    rewrite list_lookup_insert_eq; [done|by eapply lookup_lt_Some].
  - done.
Qed.

Lemma lengths ops w : length (w_brokers (world_run ops w)) = length (w_brokers w).
Proof.
  unfold world_run. revert w. induction ops as [|o ops IH]; intros w; [done|]. cbn [fold_left]. rewrite IH.
  assert (∀ b x, length (w_brokers (broker_turn b x w)) = length (w_brokers w)) as K.
  { intros b x. unfold broker_turn. destruct (w_brokers w !! b) as [[p|]|]; [|done..]. apply length_insert. }
  destruct o as [b' x|b' j now reason net|k x|b'|k]; cbn [world_step].
  - by destruct (foreign x).
  - by destruct (w_posts w !! j).
  - unfold station_turn. destruct (w_stations w !! k) as [p|]; [|done]. by destruct (pool_do _ p) as [[] ?].
  - apply length_insert.
  - done.
Qed.

Lemma world_run_keeps ops w : e ∉ omap reports ops → world_ok w → keeps_it w (world_run ops w).
Proof.
  revert w. induction ops as [|o ops IH]; intros w Hr Hw; [apply keeps_it_refl|].
  simpl in Hr.
  assert (reports o ≠ Some e ∧ e ∉ omap reports ops) as [H1 H2].
  { destruct (reports o); [|done]. apply not_elem_of_cons in Hr as [? ?]. split; [congruence|done]. }
  destruct (world_step_ok w o H1 Hw) as [Hw1 Hk1]. intros b p p' Hp Hp' Hs.
  change (world_run (o :: ops) w) with (world_run ops (world_step w o)) in Hp'.
  destruct (w_brokers (world_step w o) !! b) as [[p1|]|] eqn:E1.
  - eapply IH; [done|done|exact E1|exact Hp'|]. by eapply Hk1.
  - by rewrite (dead_stays ops _ b E1) in Hp'.
  - apply lookup_ge_None in E1. apply lookup_lt_Some in Hp'. rewrite lengths in Hp'. lia.
Qed.
End event.

Lemma initial_world_ok e n k : world_ok e (initial_world n k).
Proof.
  split; simpl.
  - intros b p Hp. apply lookup_replicate in Hp as [[= ->] _]. exists []. split; [apply initial_orderly|constructor].
  - apply Forall_replicate, station_boot_ok.
  - done.
Qed.

(** C15: a broker that lives never loses an event, down to the goroutine and the
    byte: whatever packets and requests reach the brokers and stations,
    however the sections of all their goroutines interleave, whatever the
    network does with what the stations post, and whoever panics, dies and
    starts again, an event that was once in a live broker's queue or checked
    out from it is there as long as no drone has reported it complete, or with
    a goroutine of that broker that puts it there whatever the broker's memory
    has become, and even if it panics. *)
Theorem processes_keep_events n k ops1 ops2 e b p1 p2 :
  e ∉ omap reports (ops1 ++ ops2) →
  w_brokers (world_run ops1 (initial_world n k)) !! b = Some (Some p1) → in_broker e (memory p1) →
  w_brokers (world_run (ops1 ++ ops2) (initial_world n k)) !! b = Some (Some p2) →
  in_broker e (memory p2) ∨
  ∃ x, x ∈ tasks p2 ∧ ∀ mem, orderly mem → in_broker e (snd (run (body x) mem)).
Proof.
  intros Hr E1 Hin E2. rewrite omap_app, not_elem_of_app in Hr. destruct Hr as [Hr1 Hr2].
  set (w1 := world_run ops1 (initial_world n k)) in *.
  assert (world_run (ops1 ++ ops2) (initial_world n k) = world_run ops2 w1) as Ew by apply fold_left_app.
  rewrite Ew in E2.
  pose proof (world_run_ok e ops1 _ Hr1 (initial_world_ok e n k)) as Hw1.
  apply secure_where, (world_run_keeps e ops2 w1 Hr2 Hw1 b p1 p2 E1 E2).
  apply calm_there; [|done]. by apply (wo_brokers e w1 Hw1 b).
Qed.
End processes.

(** A packet is charged and queued, the mission pulled and its drone lost; the
    station hands it back, and the broker's handler has just taken it out of
    the checked-out missions: the event is with that goroutine alone. *)
Definition sample_pull : http_request := mkRequest MGet "/api/mission/pull" "drone_id=UAV-1" "".

Lemma processes_keep_events_witness :
  let m := newMission (mkSensorData "event-001" "sensor-sec-03" 3 true true 0 "BR" "ab") 1 in
  let net := λ _, Resp 200 (json_Marshal_mission m) in
  let ops1 := At_broker 0 (Begin (Worker 0 0 None paid sample_packet)) :: replicate 10 (At_broker 0 (Turn 0)) in
  let ops2 := [At_broker 0 (Begin (Handler 1 "" paid get_pop))] ++ replicate 4 (At_broker 0 (Turn 1)) ++
    [At_station 0 (Launch (Serves 0 "c2" net (mkRequest MPost "/api/drone/register" "" (encode_register "UAV-1"))))] ++
    replicate 2 (At_station 0 (Go_on 0)) ++ [At_station 0 (Launch (Serves 1 "c2" net sample_pull))] ++
    replicate 4 (At_station 0 (Go_on 1)) ++ [At_station 0 (Launch (Sweeps (11 * second) ["event-001"]))] ++
    replicate 3 (At_station 0 (Go_on 2)) ++ [At_station 0 (Launch Falls_back)] ++
    replicate 3 (At_station 0 (Go_on 3)) ++ [Resolves 0 0 (12 * second) "" paid; At_broker 0 (Turn 2)] in
  ∃ p2, w_brokers (world_run (RG := ToyRing) (TC := JsonTx) (ops1 ++ ops2) (initial_world 1 1)) !! 0%nat = Some (Some p2) ∧
    ¬ in_broker "event-001" (memory p2) ∧
    ∃ x, x ∈ tasks p2 ∧ ∀ mem, orderly mem → in_broker "event-001" (snd (run (body x) mem)).
Proof.
  intros m net ops1 ops2.
  set (has := λ b : Broker, bool_decide ("event-001" ∈ mission_id <$> mh (b_queue b)) ||
    match b_pending b !! "event-001" with Some _ => true | None => false end).
  assert (∀ b : Broker, has b = true ↔ in_broker "event-001" b) as Hhas.
  { intros b. unfold has, in_broker. rewrite orb_true_iff, bool_decide_eq_true.
    assert (match b_pending b !! "event-001" with Some _ => true | None => false end = true ↔
      is_Some (b_pending b !! "event-001")) as ->; [|done].
    destruct (b_pending b !! "event-001"); split; [by eexists|done|done|by intros []]. }
  set (look := λ w : World, match w_brokers w !! 0%nat with Some (Some p) => Some (has (memory p)) | _ => None end).
  assert (∀ w1 w2, look w1 = Some true → look w2 = Some false →
    (∀ p1 p2, w_brokers w1 !! 0%nat = Some (Some p1) → in_broker "event-001" (memory p1) →
       w_brokers w2 !! 0%nat = Some (Some p2) → in_broker "event-001" (memory p2) ∨
       ∃ x, x ∈ tasks p2 ∧ ∀ mem, orderly mem → in_broker "event-001" (snd (run (body x) mem))) →
    ∃ p2, w_brokers w2 !! 0%nat = Some (Some p2) ∧ ¬ in_broker "event-001" (memory p2) ∧
      ∃ x, x ∈ tasks p2 ∧ ∀ mem, orderly mem → in_broker "event-001" (snd (run (body x) mem))) as Hgen.
  { intros w1 w2. unfold look. destruct (w_brokers w1 !! 0%nat) as [[p1|]|]; [|done..].
    destruct (w_brokers w2 !! 0%nat) as [[p2|]|]; [|done..]. intros [= H1] [= H2] K. exists p2.
    assert (¬ in_broker "event-001" (memory p2)) as Hno by (intros Hin%Hhas; congruence).
    split; [done|]. split; [done|]. apply Hhas in H1. destruct (K p1 p2 eq_refl H1 eq_refl) as [Hin|Hx]; [|done].
    by destruct Hno. }
  apply (Hgen (world_run (RG := ToyRing) (TC := JsonTx) ops1 (initial_world 1 1))).
  - vm_compute. reflexivity.
  - vm_compute. reflexivity.
  - intros p1 p2. apply (processes_keep_events (RG := ToyRing) (TC := JsonTx) 1 1 ops1 ops2 "event-001" 0).
    vm_compute. apply not_elem_of_nil.
Defined.
