(* ===== verification/Cluster.v ===== *)
(** * Brokers together

    The brokers of a swarm, each at an address, over a network that may lose,
    delay, reorder and duplicate what they send: packets forwarded over UDP
    and verdicts posted to [/internal/shadow/sync], both as bytes.  A broker
    may crash at any moment; one whose worker or janitor panics does. *)

From S2P Require Import Prelude Threads GoStd GoHeap Model Lamport Queue Flow Inventory Interfaces Json JsonProps.
From S2P Require Import JsonDecoded Rfc3339 Wire Keys LedgerApp Router Buffers HTTPClient Http LedgerClient.
From S2P Require Import Broker BrokerMissions BrokerGossip BrokerHTTP BrokerThreads BrokerLive.
Local Open Scope Z_scope.

Section cluster.
Context {RG : Ring} {ED : Ed25519} {EL : Ed25519Laws} {TC : TxCodec} {TT : TimeText} {TL : TimeTextLaws}.

(** [addr ip]: what [net.InterfaceAddrs] returns on the broker at [ip]. *)
Context (addr : string → option (list Addr)).

(** [wire] and [mail] hold whatever was sent, with its destination: a message
    once sent may arrive any number of times, or never.  [charged] lists the
    payments asked for, and by whom. *)
Record Cluster : Type := mkCluster {
  members : gmap string (Pool Broker signal);
  wire : list (string * string);
  mail : list (string * string);
  charged : list (string * SensorData);
}.

Definition set_members (m : gmap string (Pool Broker signal)) (c : Cluster) : Cluster :=
  mkCluster m (wire c) (mail c) (charged c).

(** What one broker sends.  [forwardPacket] meets no error here; a packet that
    meets one is a packet the network loses. *)
Definition forwards (l : list signal) : list (string * string) :=
  omap (λ x, match x with Sends (Forward ip p) => forwardPacket Written ip p | _ => None end) l.
Definition verdicts (l : list signal) : list (string * string) :=
  omap (λ x, match x with Sends (Sync_to ip a m) => Some (ip, encode_sync a m) | _ => None end) l.
Definition payments (ip : string) (l : list signal) : list (string * SensorData) :=
  omap (λ x, match x with Sends (Spend d) => Some (ip, d) | _ => None end) l.

Definition send (ip : string) (l : list signal) (c : Cluster) : Cluster :=
  mkCluster (members c) (wire c ++ forwards l) (mail c ++ verdicts l) (charged c ++ payments ip l).

(** A moment of the broker at [ip], if it is up. *)
Definition at_member (ip : string) (x : moment) (c : Cluster) : Cluster :=
  match members c !! ip with
  | None => c
  | Some p =>
    match broker_moment x p with
    | (Ret l, p') => send ip l (set_members (<[ip := p']> (members c)) c)
    | (Panic _, _) => set_members (delete ip (members c)) c
    end
  end.

Definition sync_request (body : string) : http_request :=
  mkRequest MPost "/internal/shadow/sync" "" body.

Inductive cluster_op : Type :=
| Own (ip : string) (x : moment)   (* a sensor's packet, a station's request, a tick; or a goroutine's next step *)
| Deliver (j : nat) (now stored : Z) (net : nat → attempt)
| Post (j : nat) (now : Z)
| Crash (ip : string).

Definition cluster_step (o : cluster_op) (c : Cluster) : Cluster :=
  match o with
  | Own ip x => at_member ip x c
  | Deliver j now stored net =>
    match wire c !! j with
    | Some (ip, raw) => at_member ip (Begin (Worker now stored (addr ip) net raw)) c
    | None => c
    end
  | Post j now =>
    match mail c !! j with
    | Some (ip, body) => at_member ip (Begin (Handler now "" (λ _, ConnErr) (sync_request body))) c
    | None => c
    end
  | Crash ip => set_members (delete ip (members c)) c
  end.

Definition cluster_run (ops : list cluster_op) (c : Cluster) : Cluster :=
  fold_left (λ c o, cluster_step o c) ops c.

(** ** One payment in the whole swarm *)

Section once.
Context (e : string) (sec : Z) (owner : string) (t0 span : Z).

(** The packets that name the event name its sector. *)
Definition about (raw : string) : Prop :=
  ∀ d, json_Unmarshal_sensor raw = Some d → EventID d = e → SectorID d = sec.

(** A broker that starts, agrees on the sector's owner, and whose filter
    forgets nothing within the window. *)
Definition agrees (b : Broker) : Prop := GetOwnerIP sec (b_router b) = owner.
Definition starts (p : Pool Broker signal) : Prop :=
  tasks p = [] ∧ forgets_not e t0 span (memory p) ∧ agrees (memory p).

(** The goroutines that may begin at [ip]: any, but a change of topology, at
    instants of the window. *)
Definition may_begin (ip : string) (g : goroutine) : Prop :=
  brings (P := λ _, True) (T := in_window t0 span) (R := not_watched) g ∧
  match g with Worker _ _ ifs _ raw => ifs = addr ip ∧ about raw | _ => True end.

Definition op_ok (o : cluster_op) : Prop :=
  match o with
  | Own ip (Begin g) => may_begin ip g
  | Own _ (Turn _) | Crash _ => True
  | Deliver _ now _ _ | Post _ now => in_window t0 span now
  end.

Definition charges_of (c : Cluster) : list (string * SensorData) :=
  filter (λ x, EventID (snd x) = e) (charged c).

Context (Hlocal : ∀ ip, isLocalIP (addr ip) owner = bool_decide (ip = owner)) (Howner : owner ≠ "").

(** What the broker at [ip] may send: packets that name the event name its
    sector, and payments for it if it is the owner. *)
Definition member_sends (ip : string) (x : signal) : Prop :=
  (∀ to raw, x = Sends (Forward to raw) → about raw) ∧ (charge e x = true → ip = owner).

Record cluster_inv (c : Cluster) : Prop := mkClusterInv {
  ci_members ip p : members c !! ip = Some p → pool_ok (one agrees) (member_sends ip) () p;
  ci_wire ip raw : (ip, raw) ∈ wire c → about raw;
  ci_owner ip d : (ip, d) ∈ charges_of c → ip = owner;
  ci_once : (length (charges_of c) ≤ 1)%nat;
  ci_armed p : members c !! owner = Some p →
    armed (forgets_not e t0 span) (remembers e t0 span) (charge e) (length (charges_of c)) p;
}.

#[local] Instance agrees_closed : Closed (one agrees) (λ _, True) (λ _, True) not_watched :=
  closed_router (λ r, GetOwnerIP sec r = owner).

(** What a worker sends about the event goes where it belongs. *)
Lemma worker_sends ip now stored net raw x :
  about raw → may_send (I := one agrees) (P := λ _, True) (Worker now stored (addr ip) net raw) x →
  member_sends ip x.
Proof.
  intros Habout. destruct x as [[data|to payload|to action m]|r a]; simpl; try done.
  - intros [E (y & b & Hb & Ho)]. split; [done|]. intros He%bool_decide_eq_true.
    rewrite (Habout data E He) in Ho. unfold one, agrees in Hb. rewrite Hb in Ho.
    destruct Ho as [Ho|Ho]; [done|]. rewrite Hlocal in Ho. by apply bool_decide_eq_true in Ho.
  - intros (data & c & E & Hc & ->). split; [|done]. intros ? ? [= <- <-] d Hd He.
    rewrite (forwarded_reads raw data) in Hd by done. injection Hd as <-. exact (Habout data E He).
Qed.

Lemma begin_ok ip g : may_begin ip g → task_behaves (one agrees) (member_sends ip) (launch g).
Proof.
  intros [Hb Hg]. eapply task_sends; [|apply (launch_behaves (P := λ _, True) (T := λ _, True) (R := not_watched))].
  - intros x Hx. destruct g as [now stored ifs net raw|now reason net r| | | | | |]; try done.
    + destruct Hg as [-> Ha]. by eapply worker_sends.
    + by destruct x as [[]|].
  - by destruct g; try destruct Hb.
Qed.

Lemma begin_pristine ip g :
  may_begin ip g → every (pristine (forgets_not e t0 span) (remembers e t0 span) (charge e)) (launch g).
Proof. intros [Hb _]. apply launch_pristine. by destruct g. Qed.

Lemma payments_counted ip l :
  length (filter (λ x, EventID (snd x) = e) (payments ip l)) = counted (charge e) l.
Proof.
  unfold payments, counted. induction l as [|x l IH]; [done|].
  destruct x as [[d|? ?|? ? ?]|? ?]; try done.
  cbn [omap list_omap]. rewrite filter_cons. cbn [List.filter charge snd].
  destruct (decide (EventID d = e)) as [He|He].
  - rewrite bool_decide_eq_true_2 by done. cbn [length]. f_equal. exact IH.
  - rewrite bool_decide_eq_false_2 by done. exact IH.
Qed.

Lemma payments_from ip l ip' d : (ip', d) ∈ payments ip l → ip' = ip ∧ Sends (Spend d) ∈ l.
Proof.
  unfold payments. rewrite list_elem_of_omap. intros (x & Hx & H). destruct x as [[]|]; by simplify_eq.
Qed.

(** The broker at [ip] is gone. *)
Lemma gone_inv ip c : cluster_inv c → cluster_inv (set_members (delete ip (members c)) c).
Proof.
  intros [H1 H2 H3 H4 H5]. split; [|exact H2|exact H3|exact H4|].
  - intros ip' p. simpl. rewrite lookup_delete_Some. intros [_ H]. by apply H1.
  - intros p. simpl. rewrite lookup_delete_Some. intros [_ H]. by apply H5.
Qed.

Definition moment_ok (ip : string) (x : moment) : Prop :=
  match x with Begin g => may_begin ip g | Turn _ => True end.

Lemma at_member_inv ip x c : moment_ok ip x → cluster_inv c → cluster_inv (at_member ip x c).
Proof.
  intros Hx Hc. unfold at_member. destruct (members c !! ip) as [p|] eqn:Ep; [|done].
  destruct (broker_moment x p) as [[l|e'] p'] eqn:Es; [|by apply gone_inv].
  destruct Hc as [H1 H2 H3 H4 H5].
  assert (ensures (pool_ok (one agrees) (member_sends ip) ()) (broker_moment x) (Forall (member_sends ip))) as K.
  { destruct x as [g|i]; apply pool_do_keeps; [by apply begin_ok|done]. }
  destruct (K p (H1 _ _ Ep)) as [Hp' Hl]. rewrite Es in Hp', Hl. specialize (Hl l eq_refl). cbn [snd] in Hp'.
  clear K. rewrite Forall_forall in Hl.
  assert (charges_of (send ip l (set_members (<[ip:=p']> (members c)) c)) =
    charges_of c ++ filter (λ x, EventID (snd x) = e) (payments ip l)) as Ech
    by (unfold charges_of; simpl; apply filter_app).
  pose proof (payments_counted ip l) as Epay.
  assert (∀ ip' d, (ip', d) ∈ filter (λ x, EventID (snd x) = e) (payments ip l) → ip' = ip ∧ ip = owner) as Hpay.
  { intros ip' d [Hd [-> Hin]%payments_from]%list_elem_of_filter. split; [done|].
    apply (Hl _ Hin). by apply bool_decide_eq_true. }
  assert (ip ≠ owner → counted (charge e) l = O) as Hother.
  { intros Hne. rewrite <- Epay. destruct (filter _ (payments ip l)) as [|[ip' d] ?] eqn:Ef; [done|].
    by destruct (Hpay ip' d) as [_ ?]; [left|]. }
  assert (∀ p0, <[ip:=p']> (members c) !! owner = Some p0 →
    armed (forgets_not e t0 span) (remembers e t0 span) (charge e)
      (length (charges_of c) + counted (charge e) l) p0) as Harmed.
  { intros p0. rewrite lookup_insert. case_decide as Hip.
    - intros [= <-]. subst ip.
      assert (armed (forgets_not e t0 span) (remembers e t0 span) (charge e)
        (length (charges_of c) + counted (charge e) (sent_by (fst (broker_moment x p))))
        (snd (broker_moment x p))) as K.
      { destruct x as [g|i]; (apply armed_do; [|by apply H5]); [by eapply begin_pristine|done]. }
      by rewrite Es in K.
    - intros Hp0. rewrite Hother, Nat.add_0_r by done. by apply H5. }
  split.
  - intros ip' p0. simpl. rewrite lookup_insert. case_decide as Hip; [intros [= <-]; by subst|]. apply H1.
  - intros ip' raw. simpl. intros [Hin|Hin]%elem_of_app; [by eapply H2|].
    unfold forwards in Hin. apply list_elem_of_omap in Hin as (y & Hy & Hm).
    destruct y as [[| |]|]; simplify_eq/=. by eapply (Hl _ Hy).
  - intros ip' d. rewrite Ech. intros [Hin|Hin]%elem_of_app; [by eapply H3|]. by destruct (Hpay _ _ Hin) as [-> ->].
  - rewrite Ech, length_app, Epay. destruct (decide (ip = owner)) as [->|Hne].
    + apply (armed_once (forgets_not e t0 span) (remembers e t0 span) (charge e) _ p'), Harmed.
      by rewrite lookup_insert_eq.
    + rewrite Hother, Nat.add_0_r by done. exact H4.
  - intros p0 Hp0. rewrite Ech, length_app, Epay. by apply Harmed.
Qed.

Lemma cluster_step_inv o c : op_ok o → cluster_inv c → cluster_inv (cluster_step o c).
Proof.
  intros Ho Hc. destruct o as [ip x|j now stored net|j now|ip]; cbn [cluster_step].
  - apply at_member_inv; [by destruct x|done].
  - destruct (wire c !! j) as [[ip raw]|] eqn:Ew; [|done]. apply at_member_inv; [|done].
    split_and!; [done|done|]. eapply (ci_wire _ Hc). by eapply list_elem_of_lookup_2.
  - destruct (mail c !! j) as [[ip body]|] eqn:Ew; [|done]. apply at_member_inv; [|done].
    split; [|done]. split; [done|by split].
  - by apply gone_inv.
Qed.

(** C5: a swarm charges an event at most once: while the brokers agree on the
    owner of its sector and for as long as the filters' window lasts, whatever
    packets and requests arrive at whichever broker, however the sections of
    its workers, handlers and loops interleave, however the network loses,
    delays, reorders and duplicates what the brokers send each other, and
    whoever crashes, at most one payment is asked for, and by the owner. *)
Theorem swarm_charges_once ops c :
  (∀ ip p, members c !! ip = Some p → starts p) → wire c = [] → charged c = [] →
  Forall op_ok ops →
  (length (charges_of (cluster_run ops c)) ≤ 1)%nat ∧
  ∀ ip d, (ip, d) ∈ charges_of (cluster_run ops c) → ip = owner.
Proof.
  intros Hst Hw Hch Hops.
  assert (charges_of c = []) as En by (unfold charges_of; by rewrite Hch).
  assert (cluster_inv c) as Hc.
  { split; rewrite ?En, ?Hw; [|by intros ? ? ?%not_elem_of_nil..|by apply Nat.le_0_l|].
    - intros ip p Hp. destruct (Hst _ _ Hp) as (Ht & _ & Ha). split; [done|by rewrite Ht].
    - intros p Hp. destruct (Hst _ _ Hp) as (Ht & Hf & _). by apply Unarmed; [..|rewrite Ht]. }
  assert (cluster_inv (cluster_run ops c)) as [_ _ H3 H4 _]; [|done].
  clear Hst Hw Hch En. revert c Hc. induction Hops as [|o ops Ho Hops IH]; intros c Hc; [done|].
  apply IH. by apply cluster_step_inv.
Qed.
End once.

(** ** Failover *)

Definition kept (e : string) (sh : Shadow) : Prop := is_Some (sh !! e) ∧ shadow_keyed sh.

Lemma shadow_keyed_insert m sh : shadow_keyed sh → shadow_keyed (<[mission_id m := m]> sh).
Proof. intros Hk k x. rewrite lookup_insert. case_decide; [by intros [= <-]|apply Hk]. Qed.

Lemma insert_kept e m sh : kept e sh → kept e (<[mission_id m := m]> sh).
Proof.
  intros [[x Hx] Hk]. split; [|by apply shadow_keyed_insert].
  destruct (decide (mission_id m = e)) as [->|Hne]; [rewrite lookup_insert_eq|rewrite lookup_insert_ne by done]; by eexists.
Qed.


Definition keeps_copy (e : string) (b : Broker) : Prop := kept e (b_shadow b).

#[local] Instance kept_closed e : Closed (one (keeps_copy e)) (λ _, True) (λ _, True) not_rescued :=
  closed_shadow (kept e) (insert_kept e).






End cluster.

(** ** Witnesses *)

Definition eth (ip : string) : option (list Addr) := Some [mkAddr true false true ip].

Definition ip1 : string := "10.0.0.1".
Definition ip2 : string := "10.0.0.2".

(** A broker that has seen both addresses. *)
Definition node : Broker (RG := ToyRing) :=
  set_router (go_run (watch_round (Some [ip1; ip2])) (NewSectorRouter 25 "tasks.broker")) initial_broker.

Definition pair : Cluster (RG := ToyRing) :=
  mkCluster {[ ip1 := mkPool node []; ip2 := mkPool node [] ]} [] [] [].

Definition alarm : SensorData := mkSensorData "event-001" "sensor-sec-07" 7 true true 0 "BR" "ab".


(** A worker on the alarm's packet; the [i]th goroutine's next [n] steps. *)
Definition alarm_worker (ip : string) : moment := Begin (Worker 0 0 (eth ip) paid (json_Marshal_sensor alarm)).
Definition turns (ip : string) (i n : nat) : list cluster_op := replicate n (Own ip (Turn i)).

Lemma eth_local ip : isLocalIP (eth ip) ip1 = bool_decide (ip = ip1).
Proof.
  unfold isLocalIP. cbn [getLocalIP eth first_v4 is_ipnet is_loopback has_v4 addr_text existsb negb andb].
  rewrite !orb_false_r. destruct (decide (ip = ip1)) as [->|Hne].
  - by vm_compute.
  - rewrite (bool_decide_eq_false_2 (ip = ip1)) by done.
    rewrite (bool_decide_eq_false_2 (ip1 = ip)) by (intros E; by rewrite E in Hne).
    reflexivity.
Qed.

(** Two workers of the owner race on the same packet; the other broker
    forwards it a third time. *)
Lemma swarm_charges_once_witness :
  let ops := [Own ip1 (alarm_worker ip1); Own ip1 (alarm_worker ip1); Own ip2 (alarm_worker ip2)] ++
    turns ip1 1 2 ++ turns ip1 0 8 ++ turns ip2 0 6 ++ turns ip1 1 6 ++
    [Deliver 0 1 2 paid; Post 0 2; Crash ip2] ++ turns ip1 2 8 in
  (length (charges_of "event-001" (cluster_run eth ops pair)) ≤ 1)%nat.
Proof.
  intros ops.
  assert (about "event-001" 7 (json_Marshal_sensor alarm)) as Ha.
  { intros d Hd _. vm_compute in Hd. by injection Hd as <-. }
  refine (proj1 (swarm_charges_once eth "event-001" 7 ip1 0 (60 * second) eth_local _ ops pair _ _ _ _)).
  - done.
  - assert (starts "event-001" 7 ip1 0 (60 * second) (mkPool node [])) as Hn.
    { split_and!; [done|by vm_compute|by vm_compute]. }
    intros ip b. unfold pair. cbn [members]. intros [[_ <-]|[_ [_ <-]%lookup_singleton_Some]]%lookup_insert_Some; exact Hn.
  - done.
  - done.
  - repeat constructor; done || exact Ha || by vm_compute.
Defined.

(** One payment is made in that run. *)
Example race_charges :
  let ops := [Own ip1 (alarm_worker ip1); Own ip1 (alarm_worker ip1); Own ip2 (alarm_worker ip2)] ++
    turns ip1 1 2 ++ turns ip1 0 8 ++ turns ip2 0 6 ++ turns ip1 1 6 ++
    [Deliver 0 1 2 paid; Post 0 2; Crash ip2] ++ turns ip1 2 8 in
  charged (cluster_run eth ops pair) = [(ip1, alarm)].
Proof. vm_compute. reflexivity. Qed.

Definition alarm_mission : Mission := newMission alarm 1.


(** A mission completed at its owner flies again: the owner hands it out and
    is told of its success, then leaves; the other broker, whose copy nobody
    clears, rescues it and hands it out once more. *)
Example completed_flies_again :
  let pop now := Begin (Handler now "" paid get_pop) in
  let success := Begin (Handler 3 "" paid
    (mkRequest MPost "/queue/resolve" "" (encode_resolve "SUCCESS" alarm_mission))) in
  let c1 := cluster_run eth ([Own ip1 (alarm_worker ip1)] ++ turns ip1 0 8 ++ [Post 0 1] ++ turns ip2 0 6 ++
    [Own ip1 (pop 2)] ++ turns ip1 1 4 ++ [Own ip1 success] ++ turns ip1 2 3) pair in
  let c2 := cluster_run eth ([Crash ip1; Own ip2 (Begin (Topology_watch (Some [ip2])))] ++ turns ip2 1 1 ++
    [Own ip2 (Begin (Rescuer (eth ip2) ["event-001"]))] ++ turns ip2 2 5 ++ [Own ip2 (pop 4)] ++ turns ip2 3 4) c1 in
  (∃ p1, members c1 !! ip1 = Some p1 ∧ b_pending (memory p1) = ∅ ∧ mh (b_queue (memory p1)) = []) ∧
  ∃ p2, members c2 !! ip2 = Some p2 ∧ b_pending (memory p2) = {[ "event-001" := mkPending alarm_mission 4 ]}.
Proof.
  intros pop success c1 c2. split.
  - exists (default (mkPool node []) (members c1 !! ip1)). split_and!; by vm_compute.
  - exists (default (mkPool node []) (members c2 !! ip2)). split; by vm_compute.
Qed.
