(* ===== verification/Races.v ===== *)
(** * Runs that go wrong

    Complete runs of small swarms, evaluated step by step, of what the
    hypotheses of the theorems exclude: brokers that disagree on an owner,
    brokers that know none, a verdict that arrives after the rescue, two
    rescues at once, and a verdict with a short identifier. *)

From S2P Require Import Prelude Threads GoStd GoHeap Model Lamport Queue Flow Inventory Interfaces Json JsonProps.
From S2P Require Import JsonDecoded Rfc3339 Wire Keys LedgerApp Router Buffers HTTPClient Http LedgerClient.
From S2P Require Import Broker BrokerMissions BrokerGossip BrokerHTTP BrokerThreads BrokerLive Cluster.
Local Open Scope Z_scope.

(** A broker that has seen the addresses, and a swarm of two brokers. *)
Definition seeing (ips : list string) : Broker (RG := ToyRing) :=
  set_router (go_run (watch_round (Some ips)) (NewSectorRouter 25 "tasks.broker")) initial_broker.

Definition two (b1 b2 : Broker) : Cluster (RG := ToyRing) :=
  mkCluster {[ ip1 := mkPool b1 []; ip2 := mkPool b2 [] ]} [] [] [].

(** What is left of a mission on a broker: queue, shadow and waiting room. *)
Definition traces (ip : string) (c : Cluster (RG := ToyRing)) : option (list Mission * list string * list string) :=
  (λ p, (mh (b_queue (memory p)), keys (b_shadow (memory p)), keys (b_unverified (memory p)))) <$> members c !! ip.

(** Two brokers that take each other for the owner of the sector, as they may
    while one address is missing from the answer each has seen, forward the
    event to each other; the filters drop the forwarded packets, the waiting
    rooms expire, and the event is gone, neither charged nor queued. *)
Example disagreement_loses :
  let c := cluster_run eth ([Own ip1 (alarm_worker ip1); Own ip2 (alarm_worker ip2)] ++
    turns ip1 0 6 ++ turns ip2 0 6 ++ [Deliver 0 1 1 paid; Deliver 1 1 1 paid] ++
    turns ip1 1 6 ++ turns ip2 1 6 ++
    [Own ip1 (Begin (Unverified_janitor (11 * second) ["event-001"]));
     Own ip2 (Begin (Unverified_janitor (11 * second) ["event-001"]))] ++
    turns ip1 2 3 ++ turns ip2 2 3) (two (seeing [ip2]) (seeing [ip1])) in
  length (wire c) = 2%nat ∧ charged c = [] ∧
  traces ip1 c = Some ([], [], []) ∧ traces ip2 c = Some ([], [], []).
Proof. vm_compute. done. Qed.

(** Before the first answer of the name server every broker takes itself for
    the owner: both charge the event and both queue the mission. *)
Example no_ring_charges_twice :
  let c := cluster_run eth ([Own ip1 (alarm_worker ip1); Own ip2 (alarm_worker ip2)] ++
    turns ip1 0 8 ++ turns ip2 0 8) (two initial_broker initial_broker) in
  charged c = [(ip1, alarm); (ip2, alarm)] ∧
  traces ip1 c = Some ([alarm_mission], [], []) ∧ traces ip2 c = Some ([alarm_mission], [], []).
Proof. vm_compute. done. Qed.

(** A verdict that arrives after the owner has left and the rescue has run
    stays in the shadow of the new owner: the same answer of the name server
    starts no further rescue. *)
Example late_verdict_waits :
  let c := cluster_run eth ([Own ip1 (alarm_worker ip1)] ++ turns ip1 0 8 ++
    [Crash ip1; Own ip2 (Begin (Topology_watch (Some [ip2]))); Own ip2 (Begin (Rescuer (eth ip2) []))] ++
    turns ip2 0 1 ++ turns ip2 1 1 ++ [Post 0 1] ++ turns ip2 2 6) pair in
  traces ip2 c = Some ([], ["event-001"], []) ∧
  ∃ p, members c !! ip2 = Some p ∧
    GetOwnerIP 7 (b_router (memory p)) = ip2 ∧
    watch_round (Some [ip2]) (b_router (memory p)) = (Ret false, b_router (memory p)).
Proof.
  intros c. split; [by vm_compute|]. exists (default (mkPool node []) (members c !! ip2)).
  split_and!; by vm_compute.
Qed.

(** Two rescues that overlap queue the same mission twice. *)
Example rescues_overlap :
  let c := cluster_run eth ([Own ip1 (alarm_worker ip1)] ++ turns ip1 0 8 ++ [Post 0 1] ++ turns ip2 0 6 ++
    [Crash ip1; Own ip2 (Begin (Topology_watch (Some [ip2])))] ++ turns ip2 1 1 ++
    [Own ip2 (Begin (Rescuer (eth ip2) ["event-001"])); Own ip2 (Begin (Rescuer (eth ip2) ["event-001"]))] ++
    turns ip2 2 2 ++ turns ip2 3 5 ++ turns ip2 2 4) pair in
  traces ip2 c = Some ([alarm_mission; alarm_mission], [], []).
Proof. vm_compute. done. Qed.

(** A verdict on a mission without an identifier is stored before the log line
    panics, which the HTTP server recovers; the next rescue panics on it and
    nobody recovers that: the broker is gone. *)
Example short_verdict_kills :
  let verdict := sync_request (encode_object [("action", encode_string "ACK"); ("event_id", encode_string "x")]) in
  let c1 := cluster_run eth ([Own ip2 (Begin (Handler 1 "" paid verdict))] ++ turns ip2 0 6) pair in
  let c2 := cluster_run eth ([Own ip2 (Begin (Topology_watch (Some [ip2])))] ++ turns ip2 1 1 ++
    [Own ip2 (Begin (Rescuer (eth ip2) [""]))] ++ turns ip2 2 5) c1 in
  traces ip2 c1 = Some ([], [""], []) ∧ members c2 !! ip2 = None.
Proof. vm_compute. done. Qed.
