(* ===== verification/Sensor.v ===== *)
(** * The sensors (internal/sensor/load_generator.go, cmd/sensor/main.go)

    The generator draws a sector, a nation and perhaps a threat; the process
    sends every telemetry to every broker the DNS names.  The random draws,
    the UUID and SHA-256 are arguments; the channel between the two is a list
    of at most 500 elements. *)

From stdpp Require Import sorting.
From S2P Require Import Prelude GoStd Model Interfaces Json JsonProps JsonDecoded HTTPClient Router Broker.
Local Open Scope Z_scope.

Record Engine : Type := mkEngine {
  TotalSectors : Z;
  Frequency : Z;
  Nations : list string;
}.

(** The draws of one [fire]: the comparisons of [rand.Float64] with the two
    probabilities, the raw material of the two [rand.Intn], the UUID. *)
Record draws : Type := mkDraws {
  dr_threat : bool;
  dr_sector : Z;
  dr_nation : Z;
  dr_critical : bool;
  dr_uuid : string;
}.

(** [rand.Intn(n)] panics unless [n] is positive; [raw mod n] is any value it
    may return. *)
Definition Intn {S} (raw n : Z) : go S Z := if n <=? 0 then throw BadArgument else mret (raw mod n).

(** [fmt.Sprintf("%02d", z)] of a number that is not negative. *)
Definition pad2 (z : Z) : string := if z <? 10 then String "0" (Itoa z) else Itoa z.

(** [time.NewTicker] panics on a period that is not positive. *)
Definition NewTicker {S} (period : Z) : go S () := if period <=? 0 then throw BadArgument else mret ().

Definition channel_capacity : nat := 500.

Definition offer {A} (x : A) : go (list A) () :=
  modify (λ chan, if Nat.ltb (length chan) channel_capacity then chan ++ [x] else chan).

Section fire.
Context (sha256 : string → string).

Definition fire (e : Engine) (d : draws) : go (list Telemetry) () :=
  let isThreat := dr_threat d in
  sector ← Intn (dr_sector d) (TotalSectors e);
  let sectorID := sector + 1 in
  let sensorID := "sensor-sec-" +:+ pad2 sectorID in
  nationIndex ← Intn (dr_nation d) (Z.of_nat (length (Nations e)));
  nationID ← or_panic IndexRange (Nations e !! Z.to_nat nationIndex);
  let '(eventID, isCritical, signature) :=
    if isThreat then
      (dr_uuid d, dr_critical d,
       EncodeToString (sha256 (dr_uuid d +:+ ":" +:+ nationID +:+ ":secret-key")))
    else ("N/A", false, "") in
  offer (NewTelemetry eventID sensorID sectorID isThreat isCritical nationID signature).

(** [Start] up to a number of ticks. *)
Definition run_engine (e : Engine) (ds : list draws) : go (list Telemetry) () :=
  NewTicker (Frequency e) ;; go_for (fire e) ds.
End fire.

(** ** Configuration *)

Definition getEnv (env : gmap string string) (key fallback : string) : string :=
  match LookupEnv env key with Some value => value | None => fallback end.

(** The engine [main] builds, the errors of [Atoi] dropped: what it returns
    with an error is 0 or a bound.  The probabilities are behind the draws. *)
Definition main_engine (env : gmap string string) : Engine :=
  let totalSectors := fst (Atoi (getEnv env "TOTAL_SECTORS" "25")) in
  let freqMs := fst (Atoi (getEnv env "FREQ_MS" "500")) in
  let nations := Split (getEnv env "NATIONS" "BR,UK,FR,US") "," in
  mkEngine totalSectors (wrap64 (freqMs * millisecond)) nations.

(** ** The sender *)

Record Sender : Type := mkSender { brokerList : list string; previousState : string }.

(** One tick of [watchBrokerDNS]; [None] when the lookup fails. *)
Definition dns_tick (answer : option (list string)) : go Sender () :=
  match answer with
  | None | Some [] => mret ()
  | Some ips =>
    let ipStrs := sort_strings ips in
    let currentState := Join ipStrs "," in
    s ← get;
    if bool_decide (currentState = previousState s) then mret ()
    else modify (λ _, mkSender ipStrs currentState)
  end.

Definition json_Marshal_telemetry (t : Telemetry) : string :=
  encode_object
    [("event_id", encode_string (t_EventID t)); ("sensor_id", encode_string (t_SensorID t));
     ("sector_id", Itoa (t_SectorID t)); ("is_requisition", encode_bool (t_IsRequisition t));
     ("is_critical", encode_bool (t_IsCritical t)); ("nation_id", encode_string (t_NationID t));
     ("signature", encode_string (t_Signature t))].

(** The packets sent for one telemetry. *)
Definition multicast (s : Sender) (t : Telemetry) : list (string * string) :=
  (λ ip, (ip, json_Marshal_telemetry t)) <$> brokerList s.

(** ** Lemmas *)

Lemma digits_valid fuel n acc :
  0 ≤ n → valid_utf8 acc = true → valid_utf8 (digits fuel n acc) = true.
Proof.
  assert (∀ d acc, 0 ≤ d < 10 → valid_utf8 acc = true → valid_utf8 (String (digit_char d) acc) = true) as K.
  { intros d a Hd Ha. unfold valid_utf8. cbn [valid_utf8_skip]. unfold digit_char.
    rewrite byte_val_of by lia. rewrite (proj2 (Z.ltb_lt _ _)) by lia. exact Ha. }
  revert n acc. induction fuel as [|fuel IH]; intros n acc Hn Ha; [done|]. cbn [digits].
  destruct (Z.ltb_spec n 10); [apply K; [lia|done]|].
  apply IH; [apply Z.div_pos; lia|]. apply K; [apply Z.mod_pos_bound; lia|done].
Qed.

Lemma Itoa_valid z : valid_utf8 (Itoa z) = true.
Proof.
  unfold Itoa. destruct (Z.ltb_spec z 0); [|by apply digits_valid].
  apply (valid_app "-"); [done|]. apply digits_valid; [lia|done].
Qed.

Lemma sensor_id_valid z : valid_utf8 ("sensor-sec-" +:+ pad2 z) = true.
Proof.
  apply valid_app; [done|]. unfold pad2. destruct (z <? 10); [|apply Itoa_valid].
  apply (valid_app "0"); [done|apply Itoa_valid].
Qed.

(** The broker's reading of a telemetry: the clock is absent, so it is 0. *)
Definition as_sensor_data (t : Telemetry) : SensorData :=
  mkSensorData (t_EventID t) (t_SensorID t) (t_SectorID t) (t_IsRequisition t) (t_IsCritical t) 0
    (t_NationID t) (t_Signature t).

Lemma telemetry_reads t :
  valid_utf8 (t_EventID t) = true → valid_utf8 (t_SensorID t) = true → is_int64 (t_SectorID t) →
  valid_utf8 (t_NationID t) = true → valid_utf8 (t_Signature t) = true →
  json_Unmarshal_sensor (json_Marshal_telemetry t) = Some (as_sensor_data t).
Proof.
  intros H1 H2 H3 H4 H5. unfold json_Unmarshal_sensor, json_Marshal_telemetry.
  rewrite (parse_encode_object 0 _
    [("event_id", str_value (t_EventID t)); ("sensor_id", str_value (t_SensorID t));
     ("sector_id", JNum (Itoa (t_SectorID t))); ("is_requisition", JBool (t_IsRequisition t));
     ("is_critical", JBool (t_IsCritical t)); ("nation_id", str_value (t_NationID t));
     ("signature", str_value (t_Signature t))]); [| |done].
  - unfold into_object, zeroSensorData. do 2 read_field idtac.
    read_field ltac:(rewrite field_sector, into_int_Itoa by done). by do 4 read_field idtac.
  - repeat (constructor;
      [split_and!; [done|done|first [by apply reads_string|by apply reads_int|by apply reads_bool]]|]).
    constructor.
Qed.

Lemma fire_ok sha256 e d chan nation :
  0 < TotalSectors e → Nations e ≠ [] →
  Nations e !! Z.to_nat (dr_nation d mod Z.of_nat (length (Nations e))) = Some nation →
  fire sha256 e d chan = offer
    (NewTelemetry (if dr_threat d then dr_uuid d else "N/A")
       ("sensor-sec-" +:+ pad2 (dr_sector d mod TotalSectors e + 1)) (dr_sector d mod TotalSectors e + 1)
       (dr_threat d) (dr_threat d && dr_critical d) nation
       (if dr_threat d then EncodeToString (sha256 (dr_uuid d +:+ ":" +:+ nation +:+ ":secret-key")) else ""))
    chan.
Proof.
  intros Hs Hne Hn. unfold fire, Intn. rewrite (proj2 (Z.leb_gt (TotalSectors e) 0)) by lia.
  assert (0 < Z.of_nat (length (Nations e))) by (destruct (Nations e); [done|simpl; lia]).
  rewrite (proj2 (Z.leb_gt (Z.of_nat (length (Nations e))) 0)) by lia.
  unfold mbind, go_mbind, mret, go_mret. rewrite Hn. by destruct (dr_threat d).
Qed.

Lemma nation_there e raw :
  Nations e ≠ [] → ∃ n, Nations e !! Z.to_nat (raw mod Z.of_nat (length (Nations e))) = Some n ∧ n ∈ Nations e.
Proof.
  intros Hne.
  assert (0 < Z.of_nat (length (Nations e))) as Hl by (destruct (Nations e); [done|simpl; lia]).
  pose proof (Z.mod_pos_bound raw _ Hl).
  destruct (lookup_lt_is_Some_2 (Nations e) (Z.to_nat (raw mod Z.of_nat (length (Nations e))))) as [n Hn]; [lia|].
  exists n. split; [done|]. by apply list_elem_of_lookup_2 in Hn.
Qed.

(** *** Sizes *)

Lemma encode_ascii_length c : (String.length (encode_ascii c) ≤ 6)%nat.
Proof. unfold encode_ascii, escape, escape_u00. repeat case_match; simpl; lia. Qed.

Lemma encode_from_length s : ∀ copy drop, (String.length (encode_from copy drop s) ≤ 6 * String.length s)%nat.
Proof.
  induction s as [|c s IH]; intros copy drop; [simpl; lia|]. cbn [encode_from String.length].
  destruct drop as [|drop]; [|specialize (IH copy drop); lia].
  destruct copy as [|copy]; [|specialize (IH copy O); simpl; lia].
  destruct (byte_val c <? 128).
  { rewrite str_length_app. pose proof (encode_ascii_length c). specialize (IH O O). lia. }
  destruct (Nat.eqb (rune_size c s) 1).
  { rewrite str_length_app. specialize (IH O O). change (String.length (String backslash "ufffd")) with 6%nat. lia. }
  destruct (line_separator c s) as [t|] eqn:El.
  - assert (String.length t ≤ 6)%nat.
    { unfold line_separator in El. destruct s as [|a [|b s]]; [done|done|].
      destruct ((_ && _) && _); [|done]. injection El as <-. simpl. lia. }
    rewrite str_length_app. specialize (IH O 2%nat). lia.
  - specialize (IH (rune_size c s - 1)%nat O). simpl. lia.
Qed.

Lemma encode_string_length s n :
  (String.length s ≤ n)%nat → (String.length (encode_string s) ≤ 6 * n + 2)%nat.
Proof.
  intros Hn. unfold encode_string. cbn [String.length]. rewrite str_length_app. simpl.
  pose proof (encode_from_length s O O). lia.
Qed.

(** Hex digits need no escapes. *)
Lemma encode_hex_length h : String.length (encode_string (EncodeToString h)) = (2 * String.length h + 2)%nat.
Proof.
  assert (encode_from 0 0 (EncodeToString h) = EncodeToString h) as E.
  { induction h as [|c h IH]; [done|]. cbn [EncodeToString].
    assert (∀ v t, 0 ≤ v < 16 → encode_from 0 0 t = t → encode_from 0 0 (String (hex_char v) t) = String (hex_char v) t) as K.
    { intros v t Hv Et. cbn [encode_from]. rewrite Et.
      assert (v ∈ seqZ 0 16) as Hin by (apply elem_of_seqZ; lia). revert Hin. clear.
      vm_compute seqZ. rewrite !elem_of_cons. intros H.
      repeat (destruct H as [->|H]; [by vm_compute|]). by apply not_elem_of_nil in H. }
    pose proof (byte_val_range c). pose proof (Z.mod_pos_bound (byte_val c) 16 ltac:(lia)).
    apply K; [split; [apply Z.div_pos|apply Z.div_lt_upper_bound]; lia|]. by apply K. }
  unfold encode_string. rewrite E. cbn [String.length]. rewrite str_length_app, EncodeToString_length. simpl. lia.
Qed.

Lemma digits_length fuel n acc : (String.length (digits fuel n acc) ≤ fuel + String.length acc)%nat.
Proof.
  revert n acc. induction fuel as [|fuel IH]; intros n acc; [done|]. cbn [digits].
  destruct (n <? 10); [simpl; lia|]. etrans; [apply IH|]. simpl. lia.
Qed.

Lemma Itoa_length z : (String.length (Itoa z) ≤ 21)%nat.
Proof.
  unfold Itoa. pose proof (digits_length 20 (- z) ""). pose proof (digits_length 20 z "").
  cbn [String.length] in *. destruct (z <? 0); cbn [String.length]; lia.
Qed.

Lemma encode_object_length l : l ≠ [] →
  String.length (encode_object l) =
    S (foldr (λ m k, 4 + String.length (fst m) + String.length (snd m) + k)%nat O l).
Proof.
  destruct l as [|[n v] l]; [done|]. intros _. unfold encode_object. cbn [String.length foldr fst snd].
  assert (∀ l x, String.length (more_members l +:+ x) =
    (foldr (λ m k, 4 + String.length (fst m) + String.length (snd m) + k) O l + String.length x)%nat) as K.
  { clear. induction l as [|[n v] l IH]; intros x; [done|]. cbn [more_members foldr fst snd].
    rewrite str_app_cons, str_app_assoc. cbn [String.length]. rewrite str_length_app, member_length, IH. lia. }
  rewrite str_length_app, member_length, K. simpl. lia.
Qed.

(** An object is no longer than the bounds of its values make it. *)
Definition object_bound (names : list string) (bounds : list nat) : nat :=
  S (foldr (λ nk k, 4 + String.length (fst nk) + snd nk + k)%nat O (zip names bounds)).

Lemma object_bounded l names bounds :
  l ≠ [] → fst <$> l = names → Forall2 (λ m k, (String.length (snd m) ≤ k)%nat) l bounds →
  (String.length (encode_object l) ≤ object_bound names bounds)%nat.
Proof.
  intros Hne <- Hb. rewrite encode_object_length by done. unfold object_bound. clear Hne. apply le_n_S.
  induction Hb as [|[n v] k l bounds Hk Hb IH]; [done|]. cbn [foldr fst snd fmap list_fmap zip zip_with] in *.
  fold (fst <$> l) in *. lia.
Qed.

Lemma fits_buffer s : (String.length s ≤ udp_buffer)%nat → ReadFromUDP s = s.
Proof.
  unfold ReadFromUDP. generalize udp_buffer. induction s as [|c s IH]; intros n Hn; [by destruct n|].
  destruct n as [|n]; simpl in Hn; [lia|]. simpl. f_equal. apply IH. lia.
Qed.

(** ** The properties *)

(** *** What the environment means

    A reference for [Atoi]: the value of an optional sign and digits without a
    bound, then the nearest [int64]; 0 for what is no numeral. *)

Fixpoint decimal (acc : Z) (s : string) : option Z :=
  match s with
  | EmptyString => Some acc
  | String c s => d ← digit_val c; decimal (acc * 10 + d) s
  end.

Definition unsigned (s : string) : option Z := if bool_decide (s = "") then None else decimal 0 s.

Definition numeral (s : string) : option Z :=
  match s with
  | String "-" s' => Z.opp <$> unsigned s'
  | String "+" s' => unsigned s'
  | _ => unsigned s
  end.

Definition clamp (z : Z) : Z := Z.max min_int64 (Z.min z max_int64).

Definition setting (env : gmap string string) (key : string) (fallback : Z) : Z :=
  match LookupEnv env key with
  | Some v => match numeral v with Some z => clamp z | None => 0 end
  | None => fallback
  end.

(** Digits beyond 64 bits decide before a later character that is no digit
    does; twenty bytes are the fewest for which that happens. *)
Definition legible (env : gmap string string) (key : string) : Prop :=
  ∀ v, LookupEnv env key = Some v → is_Some (numeral v) ∨ (String.length v ≤ 19)%nat.

Lemma digit_val_range c d : digit_val c = Some d → 0 ≤ d ≤ 9.
Proof. unfold digit_val. case_match; intros [= <-]. lia. Qed.

Lemma decimal_le acc s n : 0 ≤ acc → decimal acc s = Some n → acc ≤ n.
Proof.
  revert acc. induction s as [|c s IH]; intros acc Ha; simpl; [intros [= ->]; lia|].
  intros (d & Hd & H)%bind_Some. apply digit_val_range in Hd. apply IH in H; lia.
Qed.

Lemma parse_uint_decimal acc s n :
  0 ≤ acc ≤ max_uint64 → decimal acc s = Some n →
  parse_uint acc s = if max_uint64 <? n then PRange else POk n.
Proof.
  revert acc. induction s as [|c s IH]; intros acc Ha; simpl.
  - intros [= <-]. by rewrite (proj2 (Z.ltb_ge _ _)) by lia.
  - intros (d & Hd & H)%bind_Some. rewrite Hd. apply digit_val_range in Hd.
    destruct (Z.ltb_spec max_uint64 (acc * 10 + d)); [|apply IH; [lia|done]].
    apply decimal_le in H; [|lia]. by rewrite (proj2 (Z.ltb_lt _ _)) by lia.
Qed.

Lemma parse_uint_illegible acc s :
  0 ≤ acc → (acc + 1) * 10 ^ Z.of_nat (String.length s) ≤ 2 ^ 64 → decimal acc s = None →
  parse_uint acc s = PSyntax.
Proof.
  revert acc. induction s as [|c s IH]; intros acc Ha Hl; [done|]. simpl.
  destruct (digit_val c) as [d|] eqn:Hd; [|done]. simpl. intros H. apply digit_val_range in Hd.
  cbn [String.length] in Hl. rewrite Nat2Z.inj_succ, Z.pow_succ_r in Hl by lia.
  assert (0 < 10 ^ Z.of_nat (String.length s)) by (apply Z.pow_pos_nonneg; lia).
  assert ((acc * 10 + d + 1) * 10 ^ Z.of_nat (String.length s) ≤ 2 ^ 64) by nia.
  unfold max_uint64. rewrite (proj2 (Z.ltb_ge _ _)) by nia. apply IH; [lia|done|done].
Qed.

Lemma atoi_body_spec neg s :
  is_Some (unsigned s) ∨ (String.length s ≤ 19)%nat →
  fst (atoi_body neg s) = match unsigned s with Some n => clamp (if neg then - n else n) | None => 0 end.
Proof.
  unfold atoi_body, unsigned. destruct s as [|c s]; [done|]. case_bool_decide; [done|].
  destruct (decimal 0 (String c s)) as [n|] eqn:E.
  - intros _. rewrite (parse_uint_decimal _ _ n) by (done || by vm_compute).
    apply decimal_le in E; [|done]. unfold clamp, max_uint64, min_int64, max_int64.
    destruct (Z.ltb_spec (2 ^ 64 - 1) n); [destruct neg; simpl; lia|].
    destruct neg; [destruct (Z.ltb_spec (2 ^ 63) n)|destruct (Z.leb_spec (2 ^ 63) n)]; simpl; lia.
  - intros [[? [=]]|Hl]. rewrite parse_uint_illegible; [done|done| |done].
    rewrite Z.add_0_l, Z.mul_1_l. transitivity (10 ^ 19); [|by vm_compute].
    apply Z.pow_le_mono_r; lia.
Qed.

Lemma Atoi_spec s :
  is_Some (numeral s) ∨ (String.length s ≤ 19)%nat →
  fst (Atoi s) = match numeral s with Some z => clamp z | None => 0 end.
Proof.
  assert (∀ neg s', is_Some (Z.opp <$> unsigned s') ∨ is_Some (unsigned s') ∨ (String.length s' ≤ 19)%nat →
    fst (atoi_body neg s') = match (if neg then Z.opp <$> unsigned s' else unsigned s') with
                             | Some z => clamp z | None => 0 end) as K.
  { intros neg s' H. rewrite atoi_body_spec by (rewrite fmap_is_Some in H; tauto).
    by destruct neg, (unsigned s'). }
  destruct s as [|c s]; [intros _; by apply (K false ""); right; right; simpl; lia|]. unfold Atoi, numeral.
  destruct c as [[] [] [] [] [] [] [] []]; intros [H|H]; simpl in H;
    first [apply (K true); (by left) || (right; right; lia)
          |apply (K false s); (by right; left) || (right; right; lia)
          |apply (K false); (by right; left) || (right; right; done)].
Qed.

Lemma main_engine_settings env :
  (legible env "TOTAL_SECTORS" → TotalSectors (main_engine env) = setting env "TOTAL_SECTORS" 25) ∧
  (legible env "FREQ_MS" → Frequency (main_engine env) = wrap64 (setting env "FREQ_MS" 500 * millisecond)).
Proof.
  unfold main_engine, getEnv, setting, legible. cbn [TotalSectors Frequency]. split; intros H.
  - destruct (LookupEnv env "TOTAL_SECTORS") as [v|]; [by apply Atoi_spec, H|by vm_compute].
  - destruct (LookupEnv env "FREQ_MS") as [v|]; [by rewrite Atoi_spec by by apply H|by vm_compute].
Qed.

Lemma main_engine_nations env : Nations (main_engine env) ≠ [].
Proof.
  unfold main_engine. cbn [Nations]. generalize (getEnv env "NATIONS" "BR,UK,FR,US"). intros s.
  destruct s as [|c s]; [done|]. cbn [Split]. case_match; [done|]. by destruct (Split s ",").
Qed.

(** The engine runs, or it panics before its first telemetry. *)
Lemma run_engine_cases sha256 e d ds chan :
  Nations e ≠ [] →
  if bool_decide (0 < TotalSectors e ∧ 0 < Frequency e)
  then ∃ chan', run_engine sha256 e (d :: ds) chan = (Ret (), chan')
  else run_engine sha256 e (d :: ds) chan = (Panic BadArgument, chan).
Proof.
  intros Hne. unfold run_engine, NewTicker. case_bool_decide as H.
  - destruct H as [Ht Hf]. rewrite (proj2 (Z.leb_gt _ _)) by lia. rewrite (go_bind_run _ _ chan () chan) by done.
    revert chan. generalize (d :: ds). intros l. induction l as [|x l IH]; intros chan; [by exists chan|].
    cbn [go_for]. destruct (nation_there e (dr_nation x) Hne) as (n & Hn & _).
    pose proof (fire_ok sha256 e x chan n Ht Hne Hn) as E.
    assert (∃ c1, fire sha256 e x chan = (Ret (), c1)) as [c1 E1] by (rewrite E; by eexists).
    rewrite (go_bind_run _ _ _ _ _ E1). apply IH.
  - destruct (Z.leb_spec (Frequency e) 0); [done|]. rewrite (go_bind_run _ _ chan () chan) by done.
    cbn [go_for]. unfold fire, Intn. rewrite (proj2 (Z.leb_le (TotalSectors e) 0)) by lia. by go_unfold.
Qed.

(** C37: which environments the simulator runs on.  Unset, [TOTAL_SECTORS] and
    [FREQ_MS] are 25 and 500; a numeral counts as the nearest [int64]; any
    other value of at most 19 bytes counts as 0.  The engine runs exactly if
    the sectors are positive and the milliseconds are positive as a 64-bit
    number of nanoseconds, and else panics before it sends anything: in the
    ticker or in the first draw.  So it panics on a value that is no numeral,
    and on a [FREQ_MS] beyond [int64] in either direction; a [TOTAL_SECTORS]
    above [int64] is the largest number of sectors. *)
Theorem sensor_boots (sha256 : string → string) (env : gmap string string) (d : draws)
    (ds : list draws) (chan : list Telemetry) :
  let e := main_engine env in
  let run := run_engine sha256 e (d :: ds) chan in
  let sectors := setting env "TOTAL_SECTORS" 25 in
  let period := wrap64 (setting env "FREQ_MS" 500 * 1000000) in
  (legible env "TOTAL_SECTORS" → TotalSectors e = sectors) ∧
  (legible env "FREQ_MS" → Frequency e = period) ∧
  (legible env "TOTAL_SECTORS" → legible env "FREQ_MS" →
   if bool_decide (0 < sectors ∧ 0 < period) then ∃ chan', run = (Ret (), chan')
   else run = (Panic BadArgument, chan)) ∧
  (∀ key v, key ∈ ["TOTAL_SECTORS"; "FREQ_MS"] → LookupEnv env key = Some v →
     numeral v = None → (String.length v ≤ 19)%nat → run = (Panic BadArgument, chan)) ∧
  (∀ v z, LookupEnv env "FREQ_MS" = Some v → numeral v = Some z → ¬ is_int64 z →
     run = (Panic BadArgument, chan)) ∧
  (∀ v z, LookupEnv env "TOTAL_SECTORS" = Some v → numeral v = Some z → max_int64 < z →
     TotalSectors e = max_int64).
Proof.
  intros e run sectors period. destruct (main_engine_settings env) as [Hs Hp]. fold e sectors in Hs.
  change (legible env "FREQ_MS" → Frequency e = period) in Hp.
  pose proof (run_engine_cases sha256 e d ds chan (main_engine_nations env)) as Hrun. fold run in Hrun.
  assert (¬ (0 < TotalSectors e ∧ 0 < Frequency e) → run = (Panic BadArgument, chan)) as Hbad
    by (intros H; by rewrite bool_decide_eq_false_2 in Hrun).
  split_and!; [done|done| | | |].
  - intros L1 L2. by rewrite Hs, Hp in Hrun.
  - intros key v Hk Hv Hn Hl. apply Hbad. assert (legible env key) as L by (intros v'; rewrite Hv; intros [= <-]; by right).
    apply elem_of_cons in Hk as [->|[->|[]%not_elem_of_nil]%elem_of_cons].
    + rewrite (Hs L). unfold sectors, setting. rewrite Hv, Hn. lia.
    + rewrite (Hp L). unfold period, setting. rewrite Hv, Hn. intros [_ H]. by vm_compute in H.
  - intros v z Hv Hn Hz. apply Hbad. assert (legible env "FREQ_MS") as L by (intros v'; rewrite Hv; intros [= <-]; left; by eexists).
    rewrite (Hp L). unfold period, setting. rewrite Hv, Hn.
    assert (clamp z = min_int64 ∨ clamp z = max_int64) as [->| ->]
      by (unfold clamp, is_int64, min_int64, max_int64 in *; lia); intros [_ H]; by vm_compute in H.
  - intros v z Hv Hn Hz. rewrite (Hs ltac:(intros v'; rewrite Hv; intros [= <-]; left; by eexists)).
    unfold sectors, setting. rewrite Hv, Hn. unfold clamp, min_int64, max_int64 in *. lia.
Qed.

(** No packet outgrows the broker's buffer: for nations of up to 60 bytes,
    the telemetry a sensor emits and every copy of it that a broker stamps and
    forwards are received whole by [ReadFromUDP], whose buffer of 1024 bytes
    cuts off longer ones. *)
Lemma packets_fit (sha256 : string → string) (e : Engine) (d : draws) (t : Telemetry) (c : Z) :
  (∀ s, String.length (sha256 s) = 32%nat) → String.length (dr_uuid d) = 36%nat →
  Forall (λ n, (String.length n ≤ 60)%nat) (Nations e) →
  0 < TotalSectors e → fire sha256 e d [] = (Ret (), [t]) →
  ReadFromUDP (json_Marshal_telemetry t) = json_Marshal_telemetry t ∧
  ReadFromUDP (json_Marshal_sensor (set_clock (as_sensor_data t) c)) =
    json_Marshal_sensor (set_clock (as_sensor_data t) c).
Proof.
  intros Hsha Hu Hn Ht E.
  assert (Nations e ≠ []) as Hne.
  { intros En. revert E. unfold fire, Intn. rewrite (proj2 (Z.leb_gt (TotalSectors e) 0)) by lia.
    rewrite En. by go_unfold. }
  destruct (nation_there e (dr_nation d) Hne) as (n & Hnn & Hin).
  rewrite Forall_forall in Hn. specialize (Hn n Hin). rewrite (fire_ok _ _ _ _ n Ht Hne Hnn) in E.
  injection E as <-.
  set (ev := if dr_threat d then dr_uuid d else "N/A").
  set (sid := "sensor-sec-" +:+ pad2 (dr_sector d mod TotalSectors e + 1)).
  set (sg := if dr_threat d then EncodeToString (sha256 (dr_uuid d +:+ ":" +:+ n +:+ ":secret-key")) else "").
  assert (String.length (encode_string ev) ≤ 218)%nat as L1.
  { apply (encode_string_length _ 36). unfold ev. destruct (dr_threat d); simpl; lia. }
  assert (String.length (encode_string sid) ≤ 200)%nat as L2.
  { apply (encode_string_length _ 33). unfold sid, pad2. rewrite str_length_app.
    pose proof (Itoa_length (dr_sector d mod TotalSectors e + 1)). destruct (_ <? 10); simpl; lia. }
  assert (String.length (encode_string sg) ≤ 66)%nat as L3.
  { unfold sg. destruct (dr_threat d); [rewrite encode_hex_length, Hsha; lia|simpl; lia]. }
  pose proof (encode_string_length n 60 Hn) as L4.
  pose proof (Itoa_length (dr_sector d mod TotalSectors e + 1)) as L5.
  pose proof (digits_length 20 c "") as L6. cbn [String.length] in L6.
  assert (∀ b, String.length (encode_bool b) ≤ 5)%nat as L7 by (intros []; simpl; lia).
  pose proof (L7 (dr_threat d)). pose proof (L7 (dr_threat d && dr_critical d)).
  split; apply fits_buffer; (etrans; [eapply object_bounded; [done|reflexivity|]|]).
  - instantiate (1 := [218; 200; 21; 5; 5; 362; 66]%nat).
    repeat (constructor; [done|]). constructor.
  - apply Nat.leb_le. by vm_compute.
  - instantiate (1 := [218; 200; 21; 5; 5; 20; 362; 66]%nat).
    repeat (constructor; [done|]). constructor.
  - apply Nat.leb_le. by vm_compute.
Qed.

(** Every telemetry a sensor emits is one the broker reads as the sensor
    meant it, with clock 0; the broker treats it as a mission exactly when
    the sensor drew a threat, and then its identifier is long enough for
    every log line; a full channel drops it. *)
Lemma sensor_reaches_broker sha256 e d chan :
  0 < TotalSectors e ≤ max_int64 → Nations e ≠ [] →
  Forall (λ n, valid_utf8 n = true) (Nations e) →
  valid_utf8 (dr_uuid d) = true → String.length (dr_uuid d) = 36%nat →
  ∃ t, fire sha256 e d chan =
      (Ret (), if Nat.ltb (length chan) channel_capacity then chan ++ [t] else chan) ∧
    json_Unmarshal_sensor (json_Marshal_telemetry t) = Some (as_sensor_data t) ∧
    wellformed (as_sensor_data t) = dr_threat d ∧
    (dr_threat d = true → (8 ≤ String.length (t_EventID t))%nat) ∧
    1 ≤ t_SectorID t ≤ TotalSectors e ∧ t_NationID t ∈ Nations e.
Proof.
  intros Hs Hne Hv Hu Hl. destruct (nation_there e (dr_nation d) Hne) as (n & Hn & Hin).
  pose proof (Z.mod_pos_bound (dr_sector d) (TotalSectors e) ltac:(lia)) as Hm.
  eexists. split; [apply fire_ok; [lia|done|exact Hn]|].
  rewrite Forall_forall in Hv. specialize (Hv n Hin). split_and!.
  - apply telemetry_reads; simpl.
    + by destruct (dr_threat d).
    + apply sensor_id_valid.
    + unfold is_int64, min_int64 in *. lia.
    + done.
    + destruct (dr_threat d); [|done].
      assert (∀ s, valid_utf8 (EncodeToString s) = true) as Hx; [|apply Hx].
      intros s. induction s as [|c s IH]; [done|]. cbn [EncodeToString].
      pose proof (byte_val_range c). pose proof (Z.mod_pos_bound (byte_val c) 16 ltac:(lia)).
      assert (∀ v z, 0 ≤ v < 16 → valid_utf8 z = true → valid_utf8 (String (hex_char v) z) = true) as K.
      { intros v z Hv' Hz. unfold valid_utf8. cbn [valid_utf8_skip]. unfold hex_char.
        destruct (Z.ltb_spec v 10); rewrite byte_val_of by lia;
          by rewrite (proj2 (Z.ltb_lt _ _)) by lia. }
      apply K; [split; [apply Z.div_pos|apply Z.div_lt_upper_bound]; lia|]. by apply K.
  - unfold wellformed, as_sensor_data. simpl.
    rewrite (proj2 (Z.leb_gt _ 0)) by lia. by destruct (dr_threat d).
  - intros Ht. simpl. rewrite Ht. lia.
  - simpl. lia.
  - simpl. lia.
  - done.
Qed.

Lemma sensor_reaches_broker_witness :
  let e := mkEngine 25 500000000 ["BR"; "UK"; "FR"; "US"] in
  let d := mkDraws true 31 6 true "123e4567-e89b-12d3-a456-426614174000" in
  ∃ t, fire (λ s, s) e d [] = (Ret (), [t]) ∧
    json_Unmarshal_sensor (json_Marshal_telemetry t) = Some (as_sensor_data t) ∧
    wellformed (as_sensor_data t) = true.
Proof.
  intros e d. destruct (sensor_reaches_broker (λ s, s) e d []) as (t & E & J & W & _).
  - by vm_compute.
  - done.
  - by repeat constructor.
  - by vm_compute.
  - done.
  - by exists t.
Defined.

Lemma sensor_boots_witness :
  let d := mkDraws true 31 6 true "123e4567-e89b-12d3-a456-426614174000" in
  let run env := run_engine (λ s, s) (main_engine env) [d] [] in
  run {[ "TOTAL_SECTORS" := "vinte" ]} = (Panic BadArgument, []) ∧
  run {[ "FREQ_MS" := "9223372036854775808" ]} = (Panic BadArgument, []) ∧
  (∃ chan', run (<["FREQ_MS" := "+250"]> {[ "TOTAL_SECTORS" := "9" ]}) = (Ret (), chan')).
Proof.
  intros d run. unfold run. split_and!.
  - destruct (sensor_boots (λ s, s) {[ "TOTAL_SECTORS" := "vinte" ]} d [] []) as (_ & _ & _ & H & _).
    apply (H "TOTAL_SECTORS" "vinte"); [by left|by vm_compute|by vm_compute|simpl; lia].
  - destruct (sensor_boots (λ s, s) {[ "FREQ_MS" := "9223372036854775808" ]} d [] []) as (_ & _ & _ & _ & H & _).
    apply (H "9223372036854775808" 9223372036854775808); [by vm_compute|by vm_compute|].
    intros [_ Hz]. by vm_compute in Hz.
  - set (env := <["FREQ_MS" := "+250"]> {[ "TOTAL_SECTORS" := "9" ]} : gmap string string).
    destruct (sensor_boots (λ s, s) env d [] []) as (_ & _ & H & _).
    specialize (H ltac:(intros v Hv; left; vm_compute in Hv; injection Hv as <-; by eexists)
      ltac:(intros v Hv; left; vm_compute in Hv; injection Hv as <-; by eexists)).
    rewrite bool_decide_eq_true_2 in H by by vm_compute. exact H.
Defined.

Lemma packets_fit_witness :
  let e := mkEngine 25 500000000 ["BR"; "UK"; "FR"; "US"] in
  let d := mkDraws true 31 6 true "123e4567-e89b-12d3-a456-426614174000" in
  let sha := λ _ : string, spaces 32 in
  ∃ t, fire sha e d [] = (Ret (), [t]) ∧
    ReadFromUDP (json_Marshal_telemetry t) = json_Marshal_telemetry t.
Proof.
  intros e d sha.
  assert (∃ t, fire sha e d [] = (Ret (), [t])) as [t E].
  { eexists. rewrite (fire_ok sha e d [] "FR"); [reflexivity|by vm_compute|done|by vm_compute]. }
  exists t. split; [exact E|].
  refine (proj1 (packets_fit sha e d t 18446744073709551615 _ _ _ _ E)).
  - intros s. apply spaces_length.
  - done.
  - repeat constructor; apply Nat.leb_le; by vm_compute.
  - by vm_compute.
Defined.
