(* ===== verification/SensorProcess.v ===== *)
(** * The sensor process, goroutine by goroutine (cmd/sensor/main.go)

    The engine writes telemetries to a channel, the watcher replaces the list
    of brokers, the ingress takes one telemetry after another, copies the list
    and starts a sender for every address.  Each of them is a goroutine of
    Threads.v, a sender one event (UDP keeps no order between them); that they
    stop on a signal is left out. *)

From S2P Require Import Prelude Threads Credits GoStd Model Interfaces Json JsonProps JsonDecoded.
From S2P Require Import HTTPClient Router Broker Sensor.
Local Open Scope Z_scope.

(** The channel, and the two variables of the watcher. *)
Record SensorProcess : Type := mkSensorProcess {
  telemetryChan : list Telemetry;
  sender : Sender;
}.

Definition on_chan {A} (m : go (list Telemetry) A) : go SensorProcess A :=
  zoom telemetryChan (λ c s, mkSensorProcess c (sender s)) m.
Definition on_sender {A} (m : go Sender A) : go SensorProcess A :=
  zoom sender (λ x s, mkSensorProcess (telemetryChan s) x) m.

(** One datagram, with its destination (port 9000). *)
Abbreviation datagram := (string * string)%type.

Definition sendToBroker (net : udp_outcome) (brokerIP data : string) : option datagram :=
  match net with
  | ResolveFails => None
  | DialFails => None
  | WriteFails => None        (* the error is dropped *)
  | Written => Some (brokerIP, data)
  end.

Section process.
Context (sha256 : string → string) (e : Engine).

(** [Start]: the ticker, which panics on a period that is not positive, and
    then one [fire] for each of the ticks [ds]; a schedule may stop it
    anywhere, so the end of [ds] is no end of the loop. *)
Definition engine_thread (ds : list draws) : routine SensorProcess datagram () :=
  atomic (NewTicker (Frequency e)) ;;
  routine_for (λ d, atomic (on_chan (fire sha256 e d))) ds.

(** A tick of the watcher.  Only it uses [previousState], which it reads and
    writes outside the lock. *)
Definition watch_thread (answer : option (list string)) : routine SensorProcess datagram () :=
  match answer with
  | None | Some [] => mret ()
  | Some ips =>
    let ipStrs := sort_strings ips in
    let currentState := Join ipStrs "," in
    previous ← atomic (on_sender (s ← get; mret (previousState s)));
    if bool_decide (currentState = previous) then mret ()
    else
      atomic (on_sender (modify (λ s, mkSender ipStrs (previousState s)))) ;;
      atomic (on_sender (modify (λ s, mkSender (brokerList s) currentState)))
  end.

(** [payload := <-telemetryChan]; [None] while the channel is empty. *)
Definition receive : go (list Telemetry) (option Telemetry) :=
  chan ← get;
  match chan with
  | [] => mret None
  | payload :: chan' => modify (λ _, chan') ;; mret (Some payload)
  end.

(** A turn of the ingress.  [net]: what the sender to each address meets.
    [json.Marshal] of a telemetry never fails. *)
Definition ingress_thread (net : string → udp_outcome) : routine SensorProcess datagram () :=
  r ← atomic (on_chan receive);
  match r with
  | None => mret ()
  | Some payload =>
    let data := json_Marshal_telemetry payload in
    brokerIPs ← atomic (on_sender (s ← get; mret (brokerList s)));
    emits (omap (λ brokerIP, sendToBroker (net brokerIP) brokerIP data) brokerIPs)
  end.

Inductive sensor_goroutine : Type :=
| Engine_starts (ds : list draws)
| Watch_tick (answer : option (list string))
| Ingress (net : string → udp_outcome).

(** None of them recovers from a panic. *)
Definition start (g : sensor_goroutine) : task SensorProcess datagram :=
  mkTask
    match g with
    | Engine_starts ds => engine_thread ds
    | Watch_tick answer => watch_thread answer
    | Ingress net => ingress_thread net
    end None.

Inductive sensor_moment : Type :=
| Starts (g : sensor_goroutine)
| Steps (i : nat).

Definition sensor_moment_op (x : sensor_moment) : pool_op SensorProcess datagram :=
  match x with Starts g => Spawn (start g) | Steps i => Run i end.

Definition boot : Pool SensorProcess datagram := mkPool (mkSensorProcess [] (mkSender [] "")) [].

(** ** Alone, the engine is [run_engine] and a tick of the watcher [dns_tick] *)

Lemma ticks_alone ds s :
  run (routine_for (E := datagram) (λ d, atomic (on_chan (fire sha256 e d))) ds) s =
    (x ← on_chan (go_for (fire sha256 e) ds); mret ([], x)) s.
Proof.
  revert s. induction ds as [|d ds IH]; intros [c sd]; [done|]. cbn [routine_for go_for].
  rewrite run_bind. unfold atomic, on_chan, zoom. cbn [run]. go_unfold. cbn [telemetryChan sender].
  destruct (fire sha256 e d c) as [[[]|p] c1]; [|done]. simpl. rewrite IH.
  unfold on_chan, zoom. go_unfold. cbn [telemetryChan sender]. by destruct (go_for (fire sha256 e) ds c1) as [[[]|] ?].
Qed.

Lemma engine_alone ds s :
  run (engine_thread ds) s = (x ← on_chan (run_engine sha256 e ds); mret ([], x)) s.
Proof.
  unfold engine_thread. rewrite run_bind. unfold run_engine, NewTicker.
  destruct (Frequency e <=? 0); [by destruct s|]. rewrite (go_bind_run _ _ s ([], ()) s) by done.
  unfold mbind at 1, go_mbind at 1. rewrite ticks_alone.
  unfold on_chan, zoom. go_unfold. by destruct (go_for _ _ _) as [[[]|] ?].
Qed.

(** On a period or a number of sectors that is not positive the engine takes
    the process with it: no goroutine recovers. *)
Lemma engine_kills d ds :
  ¬ (0 < TotalSectors e ∧ 0 < Frequency e) →
  ∃ n, fst (go_map pool_do (sensor_moment_op <$> Starts (Engine_starts (d :: ds)) :: replicate n (Steps 0)) boot) =
    Panic BadArgument.
Proof.
  intros Hbad. destruct (Z.leb_spec (Frequency e) 0) as [Hf|Hf].
  - exists 1%nat. cbn. go_unfold. unfold pool_step. cbn. unfold NewTicker.
    by rewrite (proj2 (Z.leb_le _ _)) by done.
  - exists 2%nat. cbn. go_unfold. unfold pool_step. cbn. unfold NewTicker.
    rewrite (proj2 (Z.leb_gt _ _)) by lia. cbn. unfold on_chan, zoom, fire, Intn.
    by rewrite (proj2 (Z.leb_le (TotalSectors e) 0)) by lia.
Qed.

Lemma watch_alone answer s :
  run (watch_thread answer) s = (x ← on_sender (dns_tick answer); mret ([], x)) s.
Proof.
  destruct answer as [[|ip ips]|]; [by destruct s as [? []]| |by destruct s as [? []]].
  unfold watch_thread, dns_tick, on_sender, atomic. generalize (sort_strings (ip :: ips)). intros l.
  cbn [mbind routine_mbind routine_bind run]. go_unfold. destruct s as [c [l0 p]]. simpl.
  by destruct (bool_decide (Join l "," = p)).
Qed.

(** ** What the process sends *)

Context (Hsec : 0 < TotalSectors e ≤ max_int64) (Hfreq : 0 < Frequency e) (Hne : Nations e ≠ [])
  (Hnat : Forall (λ n, valid_utf8 n = true ∧ (String.length n ≤ 60)%nat) (Nations e))
  (Hsha : ∀ s, String.length (sha256 s) = 32%nat).

(** A UUID as [uuid.New] prints it. *)
Definition uuid_text (s : string) : Prop := valid_utf8 s = true ∧ String.length s = 36%nat.

(** The telemetry of some draws. *)
Definition fired (t : Telemetry) : Prop :=
  ∃ d, uuid_text (dr_uuid d) ∧ fire sha256 e d [] = (Ret (), [t]).

Lemma fire_chan d chan :
  uuid_text (dr_uuid d) →
  ∃ t, fired t ∧ fire sha256 e d chan = (Ret (), if Nat.ltb (length chan) channel_capacity then chan ++ [t] else chan).
Proof using All.
  intros Hu. destruct (nation_there e (dr_nation d) Hne) as (n & Hn & _).
  pose proof (λ c, fire_ok sha256 e d c n (proj1 Hsec) Hne Hn) as E. eexists. split; [|apply E].
  exists d. split; [done|]. by rewrite E.
Qed.

(** What an address receives from the process. *)
Definition good_datagram (named : string → Prop) (x : datagram) : Prop :=
  named (fst x) ∧ ∃ t, fired t ∧ snd x = json_Marshal_telemetry t.

Section run.
Context (named : string → Prop).

Record process_ok (s : SensorProcess) : Prop := mkProcessOk {
  pr_room : (length (telemetryChan s) ≤ channel_capacity)%nat;
  pr_fired : Forall fired (telemetryChan s);
  pr_named : Forall named (brokerList (sender s));
}.

Local Abbreviation runs := (safe process_ok (good_datagram named) (λ _, True)).

Lemma tick_runs d : uuid_text (dr_uuid d) → runs (atomic (on_chan (fire sha256 e d))).
Proof using All.
  intros Hu. apply safe_atomic. intros s [Hr Hf Hn].
  destruct (fire_chan d (telemetryChan s) Hu) as (t & Ht & E1).
  eexists (), (mkSensorProcess _ (sender s)). split; [unfold on_chan, zoom; by rewrite E1|]. split; [|done].
  destruct (Nat.ltb_spec (length (telemetryChan s)) channel_capacity); split; try done; simpl.
  - rewrite length_app. simpl. lia.
  - apply Forall_app. by split; [|constructor].
Qed.

Lemma engine_runs ds : Forall (λ d, uuid_text (dr_uuid d)) ds → runs (engine_thread ds).
Proof using All.
  intros Hds. eapply (safe_bind _ _ _ _ (λ _, True)); [apply safe_atomic|intros _ _].
  { intros s Hs. exists (), s. split; [|done]. unfold NewTicker. by rewrite (proj2 (Z.leb_gt _ _)) by lia. }
  induction Hds as [|d ds Hd _ IH]; [done|]. cbn [routine_for].
  eapply (safe_bind _ _ _ _ (λ _, True)); [by apply tick_runs|by intros _ _].
Qed.

Lemma watch_runs answer :
  (∀ ips ip, answer = Some ips → ip ∈ ips → named ip) → runs (watch_thread answer).
Proof.
  intros Ha. destruct answer as [[|ip ips]|]; [done| |done].
  assert (Forall named (sort_strings (ip :: ips))) as Hnamed.
  { apply Forall_forall. intros x Hx. rewrite sort_strings_perm in Hx. by eapply Ha. }
  unfold watch_thread. generalize dependent (sort_strings (ip :: ips)). intros l Hl.
  eapply (safe_bind _ _ _ _ (λ _, True)); [apply safe_atomic|].
  { intros s Hs. exists (previousState (sender s)), s. split; [by destruct s as [? []]|done]. }
  intros previous _. case_bool_decide; [done|].
  eapply (safe_bind _ _ _ _ (λ _, True)); [apply safe_atomic|].
  { intros s [Hr Hf Hn]. by eexists _, _. }
  intros [] _. apply safe_atomic.
  intros s [Hr Hf Hn]. by eexists _, _.
Qed.

Lemma ingress_runs net : runs (ingress_thread net).
Proof.
  eapply (safe_bind _ _ _ _ (λ r, ∀ t, r = Some t → fired t)); [apply safe_atomic|].
  { intros [[|t chan] sd] [Hr Hf Hn]; simpl in *; [by eexists _, _|].
    apply Forall_cons in Hf as [Ht Hf]. eexists _, (mkSensorProcess chan sd). split; [reflexivity|].
    split; [split; simpl; [lia|done..]|]. by intros ? [= <-]. }
  intros [t|] Ht; [|done].
  eapply (safe_bind _ _ _ _ (Forall named)); [apply safe_atomic|].
  { intros s [Hr Hf Hn]. eexists _, s. split; [by destruct s as [? []]|done]. }
  intros ips Hips. apply safe_emits, Forall_forall.
  intros x (ip & Hip & Hx)%list_elem_of_omap.
  destruct (net ip); simplify_eq/=. split; [|exists t; split; [by apply Ht|done]].
  rewrite Forall_forall in Hips. by apply Hips.
Qed.
End run.
End process.

(** ** The property *)

(** C36: every packet of the sensor process is a mission the brokers can use.
    With a positive number of sectors, a positive period, and at least one
    nation, all of valid UTF-8 and at most 60 bytes (without the first two the
    engine kills the process, [engine_kills]), however its goroutines
    interleave and whatever the DNS answers, the process never panics and its
    channel never holds more than 500 telemetries; every
    datagram goes to an address the DNS has named, fits the brokers' buffer of
    1024 bytes, as every stamped copy that is forwarded does, and is read there
    as the sensor meant it; it counts as a mission exactly when the sensor
    drew a threat. *)
Theorem sensor_process_sends sha256 e (named : string → Prop) (ops : list sensor_moment) :
  0 < TotalSectors e ≤ max_int64 → 0 < Frequency e → Nations e ≠ [] →
  Forall (λ n, valid_utf8 n = true ∧ (String.length n ≤ 60)%nat) (Nations e) →
  (∀ s, String.length (sha256 s) = 32%nat) →
  (∀ ds d, Starts (Engine_starts ds) ∈ ops → d ∈ ds → uuid_text (dr_uuid d)) →
  (∀ ips ip, Starts (Watch_tick (Some ips)) ∈ ops → ip ∈ ips → named ip) →
  ∃ sent p, go_map pool_do (sensor_moment_op sha256 e <$> ops) boot = (Ret sent, p) ∧
    (length (telemetryChan (memory p)) ≤ channel_capacity)%nat ∧
    ∀ ip data, (ip, data) ∈ concat sent →
      named ip ∧ ReadFromUDP data = data ∧
      ∃ d t, fire sha256 e d [] = (Ret (), [t]) ∧ data = json_Marshal_telemetry t ∧
        json_Unmarshal_sensor data = Some (as_sensor_data t) ∧
        wellformed (as_sensor_data t) = dr_threat d ∧
        1 ≤ t_SectorID t ≤ TotalSectors e ∧ t_NationID t ∈ Nations e ∧
        ∀ c, let copy := json_Marshal_sensor (set_clock (as_sensor_data t) c) in ReadFromUDP copy = copy.
Proof.
  intros Hsec Hfreq Hne Hnat Hsha Hu Hnamed.
  destruct (pool_safe (process_ok sha256 e named) (good_datagram sha256 e named) (sensor_moment_op sha256 e)
    ops (mkSensorProcess [] (mkSender [] ""))) as (sent & p & E & Hp & Hs).
  { split; simpl; [apply Nat.leb_le; by vm_compute|constructor|constructor]. }
  { intros [g|i] y Hin; [|done]. intros [= <-]. destruct g as [ds|answer|net]; simpl.
    - apply engine_runs; [done..|]. apply Forall_forall. intros d Hd. by eapply Hu.
    - apply watch_runs. intros ips ip -> Hip. by eapply Hnamed.
    - by apply ingress_runs. }
  exists sent, p. split; [done|]. split; [apply Hp|]. intros ip data Hin.
  rewrite Forall_forall in Hs. destruct (Hs _ Hin) as [Hip (t & (d & [Hv Hl] & Ef) & Ht)]. simpl in Hip, Ht. subst data.
  split; [done|].
  apply Forall_and in Hnat as [Hutf Hlen].
  split; [apply (packets_fit sha256 e d t 0 Hsha Hl Hlen (proj1 Hsec) Ef)|].
  destruct (sensor_reaches_broker sha256 e d [] Hsec Hne Hutf Hv Hl) as (t' & Ef' & Hr & Hw & _ & H1 & H2).
  rewrite Ef in Ef'. injection Ef' as <-. exists d, t. split_and!; try done; try apply H1.
  intros c. apply (packets_fit sha256 e d t c Hsha Hl Hlen (proj1 Hsec) Ef).
Qed.

Lemma sensor_process_sends_witness :
  let e := mkEngine 25 500000000 ["BR"; "UK"; "FR"; "US"] in
  let d := mkDraws true 31 6 true "123e4567-e89b-12d3-a456-426614174000" in
  let sha := λ _ : string, spaces 32 in
  let ops := [Starts (Watch_tick (Some ["10.0.0.3"; "10.0.0.2"])); Steps 0; Starts (Engine_starts [d; d]); Steps 0;
    Steps 1; Steps 1; Steps 0; Starts (Ingress (λ _, Written)); Steps 0; Steps 2; Steps 2; Steps 2; Steps 2] in
  ∃ sent p data, go_map pool_do (sensor_moment_op sha e <$> ops) boot = (Ret sent, p) ∧
    concat sent = [("10.0.0.2", data); ("10.0.0.3", data)] ∧ ReadFromUDP data = data.
Proof.
  intros e d sha ops.
  destruct (sensor_process_sends sha e (λ _, True) ops) as (sent & p & E & _ & Hs).
  - by vm_compute.
  - by vm_compute.
  - done.
  - repeat constructor; apply Nat.leb_le; by vm_compute.
  - intros s. apply spaces_length.
  - intros ds d' Hd Hin. assert (d' = d) as ->.
    { assert (ds = [d; d]) as ->.
      { unfold ops in Hd. repeat (apply elem_of_cons in Hd as [Hd|Hd]; [by simplify_eq|]). by apply not_elem_of_nil in Hd. }
      apply elem_of_cons in Hin as [->|[->|[]%not_elem_of_nil]%elem_of_cons]; done. }
    split; by vm_compute.
  - done.
  - exists sent, p. assert (∃ data, concat sent = [("10.0.0.2", data); ("10.0.0.3", data)]) as [data Ed].
    { clear Hs. vm_compute in E. injection E as <- _. eexists. reflexivity. }
    exists data. split; [exact E|]. split; [exact Ed|]. apply (Hs "10.0.0.2"). rewrite Ed. by left.
Defined.
