(* ===== verification/Grid.v ===== *)
(** * The grid of sensors and stations (pkg/routing)

    [float64] is binary64 of the Standard Library's SpecFloat: 53 bits, exponent
    below 1024, round to nearest even.  [math.Ceil] and the conversions are
    written out; the value of a conversion to [int] that Go leaves to the
    implementation is an argument. *)

From Stdlib Require Import SpecFloat.
From S2P Require Import Prelude GoStd.
Local Open Scope Z_scope.

(** ** binary64 *)

Definition float64 (z : Z) : spec_float := binary_normalize 53 1024 z 0 false.

Definition fadd : spec_float → spec_float → spec_float := SFadd 53 1024.
Definition fsub : spec_float → spec_float → spec_float := SFsub 53 1024.
Definition fmul : spec_float → spec_float → spec_float := SFmul 53 1024.
Definition fdiv : spec_float → spec_float → spec_float := SFdiv 53 1024.
Definition math_Sqrt : spec_float → spec_float := SFsqrt 53 1024.
Definition fle : spec_float → spec_float → bool := SFleb.

Definition half : spec_float := fdiv (float64 1) (float64 2).

(** The integer above [±m * 2^e], [e < 0]. *)
Definition ceil_Z (s : bool) (m : positive) (e : Z) : Z :=
  let n := if s then Z.neg m else Z.pos m in - ((- n) / 2 ^ (- e)).

Definition math_Ceil (f : spec_float) : spec_float :=
  match f with
  | S754_finite s m e =>
    if 0 <=? e then f
    else if ceil_Z s m e =? 0 then S754_zero s else float64 (ceil_Z s m e)
  | _ => f
  end.

(** Truncation toward zero; [undefined] for NaN, infinities and values out of
    the range of [int]. *)
Definition int_of (undefined : Z) (f : spec_float) : Z :=
  match f with
  | S754_zero _ => 0
  | S754_finite s m e =>
    let a := if 0 <=? e then Z.pos m * 2 ^ e else Z.pos m / 2 ^ (- e) in
    let z := if s then - a else a in
    if (min_int64 <=? z) && (z <=? max_int64) then z else undefined
  | _ => undefined
  end.

(** ** Positions *)

Record Coordinate : Type := mkCoordinate { X : spec_float; Y : spec_float }.

Definition CalculateStationPosition (slot totalStations maxSensors : Z) : Coordinate :=
  let largura := math_Ceil (math_Sqrt (float64 maxSensors)) in
  let altura := math_Ceil (fdiv (float64 maxSensors) largura) in
  let bordaX := fadd largura (float64 1) in
  let bordaY := fadd altura (float64 1) in
  let perimetroTop := bordaX in
  let perimetroRight := bordaY in
  let perimetroBottom := bordaX in
  let perimetroLeft := bordaY in
  let perimetroTotal := fadd (fadd (fadd perimetroTop perimetroRight) perimetroBottom) perimetroLeft in
  let espacamento := fdiv perimetroTotal (float64 totalStations) in
  let posicao := fmul (fsub (float64 slot) half) espacamento in
  if fle posicao perimetroTop then mkCoordinate posicao (float64 0)
  else if fle posicao (fadd perimetroTop perimetroRight) then
    mkCoordinate bordaX (fsub posicao perimetroTop)
  else if fle posicao (fadd (fadd perimetroTop perimetroRight) perimetroBottom) then
    mkCoordinate (fsub bordaX (fsub posicao (fadd perimetroTop perimetroRight))) bordaY
  else
    mkCoordinate (float64 0)
      (fsub bordaY (fsub posicao (fadd (fadd perimetroTop perimetroRight) perimetroBottom))).

(** Go's [%] and [/] truncate. *)
Definition CalculateSensorPosition (undefined sectorID maxSensors : Z) : Coordinate :=
  let sectorID := if sectorID <=? 0 then 1 else sectorID in
  let largura := int_of undefined (math_Ceil (math_Sqrt (float64 maxSensors))) in
  let largura := if largura =? 0 then 1 else largura in
  mkCoordinate (fadd (float64 (Z.rem (sectorID - 1) largura)) (float64 1))
    (fadd (float64 (Z.quot (sectorID - 1) largura)) (float64 1)).

(** ** Sensors *)

(** The sizes of swarm the statements cover. *)
Definition max_grid : nat := 1024.

Lemma small_Z (p : Z → bool) (n : nat) :
  forallb (λ i, p (Z.of_nat i)) (seq 0 n) = true → ∀ z, 0 ≤ z < Z.of_nat n → p z = true.
Proof.
  intros H z Hz. rewrite forallb_forall in H. rewrite <- (Z2Nat.id z) by lia.
  apply H, in_seq. lia.
Qed.

Definition spec_float_eqb (a b : spec_float) : bool :=
  match a, b with
  | S754_zero s, S754_zero t | S754_infinity s, S754_infinity t => Bool.eqb s t
  | S754_nan, S754_nan => true
  | S754_finite s m e, S754_finite t n f => Bool.eqb s t && Pos.eqb m n && Z.eqb e f
  | _, _ => false
  end.

Lemma spec_float_eqb_eq a b : spec_float_eqb a b = true ↔ a = b.
Proof.
  destruct a, b; simpl; rewrite ?andb_true_iff, ?Bool.eqb_true_iff, ?Pos.eqb_eq, ?Z.eqb_eq;
    intuition congruence.
Qed.

(** The width is the rounded-up integer root. *)
Lemma width_exact n undefined :
  0 ≤ n < Z.of_nat max_grid → int_of undefined (math_Ceil (math_Sqrt (float64 n))) = Z.sqrt_up n.
Proof.
  intros Hn.
  assert (match math_Ceil (math_Sqrt (float64 n)) with
    | S754_nan | S754_infinity _ => False | _ => int_of 0 (math_Ceil (math_Sqrt (float64 n))) = Z.sqrt_up n ∧
        int_of 1 (math_Ceil (math_Sqrt (float64 n))) = Z.sqrt_up n end) as H.
  { pose proof (small_Z (λ z, match math_Ceil (math_Sqrt (float64 z)) with
      | S754_nan | S754_infinity _ => false
      | _ => (int_of 0 (math_Ceil (math_Sqrt (float64 z))) =? Z.sqrt_up z) &&
          (int_of 1 (math_Ceil (math_Sqrt (float64 z))) =? Z.sqrt_up z) end) max_grid
      ltac:(by vm_compute) n Hn) as H. simpl in H.
    destruct (math_Ceil (math_Sqrt (float64 n))); try done; apply andb_true_iff in H; lia. }
  destruct (math_Ceil (math_Sqrt (float64 n))) as [s|s| |s m e]; try done; [by destruct H|].
  destruct H as [H0 H1]. unfold int_of in *.
  destruct ((min_int64 <=? _) && _); [exact H0|]. lia.
Qed.

Lemma float64_succ z : 0 ≤ z < Z.of_nat max_grid → fadd (float64 z) (float64 1) = float64 (z + 1).
Proof.
  intros Hz. apply spec_float_eqb_eq.
  exact (small_Z (λ z, spec_float_eqb (fadd (float64 z) (float64 1)) (float64 (z + 1))) max_grid
    ltac:(by vm_compute) z Hz).
Qed.

Lemma float64_int z : 0 ≤ z < Z.of_nat (S max_grid) → int_of 0 (float64 z) = z.
Proof.
  intros Hz. apply Z.eqb_eq.
  exact (small_Z (λ z, int_of 0 (float64 z) =? z) (S max_grid) ltac:(by vm_compute) z Hz).
Qed.

Lemma sqrt_up_bounds n : 1 ≤ n → 1 ≤ Z.sqrt_up n ≤ n ∧ n ≤ Z.sqrt_up n * Z.sqrt_up n.
Proof.
  intros Hn. destruct (Z.eq_dec n 1) as [->|]; [by vm_compute|].
  pose proof (Z.sqrt_up_spec n ltac:(lia)). pose proof (Z.sqrt_up_le_lin n ltac:(lia)).
  assert (0 < Z.sqrt_up n) by (apply Z.sqrt_up_pos; lia). nia.
Qed.

(** C40: every sector has a cell of its own: in a swarm of up to 1023 sensors
    sector [s] lies in column [(s-1) mod w + 1] and row [(s-1) / w + 1] of a
    grid of width [w], the root of the number of sensors rounded up, exactly
    (no rounding error), inside the square, and no two sectors share a cell;
    an identifier that is not positive is placed like sector 1. *)
Theorem sensor_cells (undefined n s : Z) :
  1 ≤ n < Z.of_nat max_grid → 1 ≤ s ≤ n →
  let w := Z.sqrt_up n in
  let col := (s - 1) mod w + 1 in let row := (s - 1) / w + 1 in
  CalculateSensorPosition undefined s n = mkCoordinate (float64 col) (float64 row) ∧
  1 ≤ col ≤ w ∧ 1 ≤ row ≤ w ∧
  (∀ s', 1 ≤ s' ≤ n →
     CalculateSensorPosition undefined s' n = CalculateSensorPosition undefined s n → s' = s) ∧
  (∀ s', s' ≤ 0 → CalculateSensorPosition undefined s' n = CalculateSensorPosition undefined 1 n).
Proof.
  intros Hn Hs w. destruct (sqrt_up_bounds n ltac:(lia)) as [Hw Hsq]. fold w in Hw, Hsq.
  assert (∀ s, 1 ≤ s ≤ n → CalculateSensorPosition undefined s n =
      mkCoordinate (float64 ((s - 1) mod w + 1)) (float64 ((s - 1) / w + 1)) ∧
    0 ≤ (s - 1) mod w < w ∧ 0 ≤ (s - 1) / w < w) as K.
  { intros x Hx. pose proof (Z.mod_pos_bound (x - 1) w ltac:(lia)) as Hm.
    assert (0 ≤ (x - 1) / w < w) as Hd.
    { split; [apply Z.div_pos; lia|apply Z.div_lt_upper_bound; lia]. }
    split; [|done]. unfold CalculateSensorPosition.
    rewrite (proj2 (Z.leb_gt x 0)), width_exact by lia. fold w.
    rewrite (proj2 (Z.eqb_neq w 0)), Z.rem_mod_nonneg, Z.quot_div_nonneg by lia.
    rewrite !float64_succ by lia. done. }
  destruct (K s Hs) as (E & Hm & Hd). split_and!; [exact E|lia|lia|lia|lia| |].
  - intros s' Hs' E'. destruct (K s' Hs') as (E1 & Hm' & Hd'). rewrite E, E1 in E'.
    injection E' as Ex Ey. apply (f_equal (int_of 0)) in Ex, Ey.
    rewrite !float64_int in Ex, Ey by (unfold max_grid in *; lia).
    pose proof (Z.div_mod (s' - 1) w ltac:(lia)) as D1. pose proof (Z.div_mod (s - 1) w ltac:(lia)) as D2.
    replace ((s' - 1) / w) with ((s - 1) / w) in D1 by lia. lia.
  - intros s' Hs'. unfold CalculateSensorPosition. by rewrite (proj2 (Z.leb_le s' 0)) by done.
Qed.

Lemma sensor_cells_witness :
  CalculateSensorPosition 0 6 25 = mkCoordinate (float64 1) (float64 2) ∧
  ∀ s', 1 ≤ s' ≤ 25 → CalculateSensorPosition 0 s' 25 = CalculateSensorPosition 0 6 25 → s' = 6.
Proof.
  destruct (sensor_cells 0 25 6) as (E & _ & _ & H & _); [by vm_compute|lia|]. by split.
Defined.

(** ** Stations *)

(** On the border of the rectangle [0..w] by [0..h]. *)
Definition on_border (w h : spec_float) (c : Coordinate) : bool :=
  let zero := float64 0 in
  (SFeqb (X c) zero || SFeqb (X c) w) && fle zero (Y c) && fle (Y c) h ||
  (SFeqb (Y c) zero || SFeqb (Y c) h) && fle zero (X c) && fle (X c) w.

Definition coordinate_eqb (a b : Coordinate) : bool :=
  spec_float_eqb (X a) (X b) && spec_float_eqb (Y a) (Y b).

(** The border around the cells of [n] sensors. *)
Definition border_of (n : Z) : spec_float * spec_float :=
  let w := math_Ceil (math_Sqrt (float64 n)) in
  (fadd w (float64 1), fadd (math_Ceil (fdiv (float64 n) w)) (float64 1)).

Definition stations_ok (n total : Z) : bool :=
  let cs := (λ i, CalculateStationPosition (Z.of_nat i) total n) <$> seq 1 (Z.to_nat total) in
  forallb (on_border (fst (border_of n)) (snd (border_of n))) cs &&
  forallb (λ ic, forallb (λ jd, implb (coordinate_eqb (snd ic) (snd jd)) (Nat.eqb (fst ic) (fst jd)))
    (imap (λ j d, (j, d)) cs)) (imap (λ i c, (i, c)) cs).

Lemma stations_table : forallb (λ n, forallb (λ t, stations_ok (Z.of_nat n) (Z.of_nat t)) (seq 1 16)) (seq 1 25) = true.
Proof. by vm_compute. Qed.

(** Up to sixteen stations around up to 25 sensors stand on the border of the
    grid, at different points, whatever the rounding of the spacing does. *)
Lemma stations_stand n total slot :
  1 ≤ n ≤ 25 → 1 ≤ total ≤ 16 → 1 ≤ slot ≤ total →
  on_border (fst (border_of n)) (snd (border_of n)) (CalculateStationPosition slot total n) = true ∧
  ∀ slot', 1 ≤ slot' ≤ total →
    CalculateStationPosition slot' total n = CalculateStationPosition slot total n → slot' = slot.
Proof.
  intros Hn Ht Hs. pose proof stations_table as H.
  rewrite forallb_forall in H. specialize (H (Z.to_nat n)). rewrite Z2Nat.id in H by lia.
  rewrite forallb_forall in H. specialize (H ltac:(apply in_seq; lia) (Z.to_nat total)).
  rewrite Z2Nat.id in H by lia. specialize (H ltac:(apply in_seq; lia)).
  apply andb_true_iff in H as [Hb Hd]. rewrite forallb_forall in Hb, Hd.
  set (cs := (λ i, CalculateStationPosition (Z.of_nat i) total n) <$> seq 1 (Z.to_nat total)) in *.
  assert (∀ x, 1 ≤ x ≤ total → cs !! (Z.to_nat x - 1)%nat = Some (CalculateStationPosition x total n)) as Hcs.
  { intros x Hx. unfold cs. rewrite list_lookup_fmap, lookup_seq_lt by lia. simpl. do 2 f_equal. lia. }
  split.
  - apply Hb, list_elem_of_In. eapply list_elem_of_lookup_2, Hcs. lia.
  - intros x Hx E.
    assert (∀ y, 1 ≤ y ≤ total →
      In ((Z.to_nat y - 1)%nat, CalculateStationPosition y total n) (imap (λ i c, (i, c)) cs)) as Hin.
    { intros y Hy. apply list_elem_of_In. apply (list_elem_of_lookup_2 _ (Z.to_nat y - 1)).
      rewrite list_lookup_imap, Hcs by done. done. }
    specialize (Hd _ (Hin x Hx)). rewrite forallb_forall in Hd. specialize (Hd _ (Hin slot Hs)).
    cbn [fst snd] in Hd. rewrite E in Hd.
    assert (coordinate_eqb (CalculateStationPosition slot total n) (CalculateStationPosition slot total n) = true) as Er.
    { unfold coordinate_eqb. by rewrite !(proj2 (spec_float_eqb_eq _ _)). }
    rewrite Er in Hd. simpl in Hd. apply Nat.eqb_eq in Hd. lia.
Qed.
